(* ===== verification/_CoqProject ===== *)
-Q . S2P
Prelude.v
ReplicaSpec.v
Config.v
Utils.v
World.v
Member.v
VectorClock.v
Messages.v
Memory.v
Queue.v
DataLog.v
Gossip.v
Node.v
Text.v
Demo.v
Tests.v
MemberFacts.v
MemberSetFacts.v
MemoryFacts.v
MemorySetFacts.v
DecodeMemoryFacts.v
VectorClockFacts.v
CompareFacts.v
QueueFacts.v
WireFacts.v
MessageFacts.v
DataLogFacts.v
OutboxFacts.v
EnqueueFacts.v
BufferFacts.v
CarryFacts.v
SendFacts.v
NodeFacts.v
HandlerFacts.v
PublicFacts.v
FrameFacts.v
StateFacts.v
DeliveryFacts.v
Samples.v
ClockText.v
SendProps.v
LiveProps.v
HealthFacts.v
ClusterFacts.v
KnowledgeFacts.v
SyncFacts.v
AllocFacts.v
AllocProps.v
CornerProps.v
Network.v
NetworkSamples.v
NetworkProps.v
GrowthFacts.v
SyncProps.v
SpreadProps.v
ReplicaProps.v
JoinProps.v
DemoFacts.v
DemoProps.v
TraceProps.v
HandlerProps.v
GossipProps.v
PublicProps.v
MessageProps.v
MemberProps.v
ClockProps.v
QueueProps.v
LengthProps.v
MemoryProps.v
