(* ===== verification/Prelude.v ===== *)
(** * Pittacus: a verified model of a gossip library

    Pittacus spreads small payloads through a cluster of nodes over UDP. A
    node owns a socket, an input and an output buffer, a queue of envelopes
    that point into the output buffer, a set of members, a vector clock that
    says which payloads it has seen, and a log of the latest payload of each
    originator. The user drives it: [pittacus_gossip_join], [_send_data],
    [_tick] queue messages, [_process_send] transmits what is due,
    [_process_receive] takes one datagram and runs the handler of its type.

    ** Parts

    The model follows the C files under src/src/; definitions keep the names
    of the functions they translate.

    - [Prelude]: outcomes of C code (a value, undefined behaviour, fuel
      exhausted), the state monad [M] and its total-correctness calculus
      [wp], machine integers, memory objects as byte lists with bounds-checked
      access, arrays, counted loops.
    - [Config]: config.h, errors.h, message types and sizes.
    - [Utils]: utils.c, integers in network order, on either byte order.
    - [World]: the allocator, the clock, the random numbers (utils.c) and the
      socket (network.c). What the C library and the kernel answer is an
      [oracle], a parameter; [world] counts the questions and records what was
      sent, received and closed.
    - [Member]: member.c, members and the set of members, an array of pointers
      that grows by doubling.
    - [VectorClock]: vector_clock.c. - [Messages]: messages.c.
    - [Queue]: the doubly linked queue of envelopes of gossip.c, with the heap
      of envelopes made explicit, so that following a pointer to a freed
      envelope is undefined. - [DataLog]: the payload log of gossip.c.
    - [Gossip]: the descriptor ([pittacus_gossip]), the choice of a slot of the
      output buffer, and every function that encodes and queues a message.
    - [Node]: the handlers of incoming messages, the public functions and the
      accessors of the descriptor.
    - [Memory]: the functions of member.c and messages.c that allocate or free
      members, once more, on a heap of blocks: the array of the set points to
      members, a member to its address, which for a member just decoded lies in
      the input buffer. [free] takes a block from the heap; freeing what is not
      there, or the buffer, is undefined. The names are those of the code with
      [_m] appended.
    - [Text]: what the program uses of the C library's strings: NUL-terminated
      strings, [sprintf] into a buffer, decimal and hexadecimal numbers;
      [ClockText] models [vector_clock_to_string] of vector_clock.c with it.
    - [Demo]: src/demos/demo_node.c ([DemoNode]) and demo_seed_node.c
      ([DemoSeedNode]): set-up and event loop, a round at a time. A [turn] says
      what [poll], [time] and [strerror] answer and what arrives in a round.
    - [Tests]: the three programs of src/test, function by function, with their
      assertions; run by evaluation they end with status 0. The freeing at the
      end of each function is left out ([Memory] has it), as are comparisons of
      pointers into different clocks.
    - [ReplicaSpec]: no code, but what a cluster promises: replicas that publish
      numbered messages and learn those of others ([spec], [act]).

    ** Abstractions and lemmas

    - [MemberFacts], [MemberSetFacts]: [set_repr s cells], the set is a list of
      cells without duplicates; insertion, removal, reservoir sampling.
    - [VectorClockFacts], [CompareFacts]: [clock_map], a clock is a finite map
      from originators to numbers; update with round-robin replacement, search,
      the bit masks of [vector_clock_compare].
    - [QueueFacts]: [queue_repr q xs], the linked structure is the list [xs] and
      the heap holds nothing else.
    - [WireFacts], [MessageFacts]: the wire formats; the class [Codec] and its
      laws, which all six messages implement and against which the queueing,
      the sending and the handlers are proved.
    - [DataLogFacts]: [log_view], the log is a list of entries, one for each
      originator.
    - [OutboxFacts], [EnqueueFacts], [NodeFacts]: the slots of the output
      buffer; [message_enqueued m rs n xs n' xs']: [m] was encoded into a free
      slot and one envelope for each recipient of [rs] was appended.
    - [BufferFacts], [CarryFacts], [SendFacts]: which message an envelope
      carries, kept when slots are shared; [send_pass], the specification of one
      pass of [pittacus_gossip_process_send] as an inductive relation.
    - [HandlerFacts], [PublicFacts]: the handlers and the public functions;
      [node_ok n xs cells] is the invariant of a node.
    - [FrameFacts]: code that leaves a view of the node alone ([keeps view]),
      for any view that does not depend on the queue, the buffers, the members
      and the environment (class [Framed]); unlike [wp] it says nothing about
      termination and needs no invariant, so that it holds of every execution.
    - [StateFacts]: the life cycle: [transition] and the step relation
      [api_step] of calls and deliveries. [DeliveryFacts]: what one reception of
      arbitrary bytes may deliver.
    - [HealthFacts], [ClusterFacts]: [healthy len said n xs cells], the invariant
      of a node of a cluster: all addresses have length [len], and every data
      message queued or logged is one that was said ([said], a relation between
      originator, number and payload); the calls keep it and put only such
      messages on the wire, given room in the queue.
    - [Network]: a cluster. A [system] is a list of nodes, the datagrams ever
      sent and the messages ever said; an [event] is one call on one node with
      any answers of its host and any of the datagrams ever sent at its socket,
      which covers loss, duplication, reordering and redirection; [reachable]
      starts from nodes just initialised. [NetworkSamples] runs such a cluster
      of two nodes by evaluation, from initialisation to a delivery.
    - [KnowledgeFacts]: what a node knows, as finite maps: [clock_of] its clock,
      [log_map] the messages of its log; [mirrors], the log has for each
      originator the message with the number of the clock; [join_logs], of each
      originator the newer message; [learn], what one message adds; [wanted],
      the messages that are new along a sequence.
    - [SyncFacts]: the exchange: [arrives d n] puts a datagram at the socket;
      [informed], a connected node in good order that mirrors; [taken_in], what
      it makes of data, acknowledgements and statuses; [round_of ms ws], any
      arrival of the messages [ms], in any order, with repetitions and under
      any sequence numbers; [pulls a b Q], [b] answers a status of [a] with
      [status_answers], which bring exactly what the status lacks
      ([brings_missing]), and from every round of the answers the two get to
      states in [Q].
    - [GrowthFacts]: what one call adds to what a node knows ([effect]: nothing,
      the message that is sent, or one that was said and is newer), lifted to
      steps of a system, and what holds of the knowledge of nodes over time.
    - [AllocFacts]: the same calls when allocations fail: [stands] is [node_ok]
      without the premise that memory is left; code that does not look at the
      environment ([worldless]) does the same with any memory; a message is
      queued for a prefix of its recipients ([queued_some]).
    - [MemoryFacts]: [holds h bs r], the heap [h] is the blocks [bs] and the rest
      [r]; [parts], a state of the memory in such parts; [sims], the code on
      values and the code on memory have the same outcome. [MemorySetFacts]:
      [owns], a set on memory is the set of [Member], on blocks of its own.
      [DecodeMemoryFacts]: [unpacked], what a decoder leaves in the heap.
    - [DemoFacts]: the parts of a round of the demos on a healthy node.
    - [Samples]: the concrete nodes and messages of the witnesses.

    ** Properties

    - [ReplicaProps]: a cluster is an implementation of [ReplicaSpec]
      ([simulates]): each call is one action of a replica or does not show.
      From the specification alone: what a receiver is given are messages of
      other nodes, each once and in order. [star]: after [2 * (k - 1)] questions
      all [k] nodes know the latest of everything that was ever sent. The file
      ends with a cluster in which a node starts again at its old address, which
      shows why the identities must be distinct.
    - [NetworkProps]: in every reachable system every further call returns,
      every payload that some receiver was given was sent by some user, and two
      data logs never disagree about a message.
    - [SyncProps]: in clusters of at most [MAX_VECTOR_SIZE] nodes the log of a
      live node mirrors its clock; asking another node joins its knowledge to
      one's own and delivers what was new, once; when two have asked each other
      they know the same; and over any steps of a system ([moves]) a live node
      forgets nothing ([nothing_forgotten]), so that what it has learnt lasts
      whatever comes in between. [apart] and [met] play this through with two
      nodes whose data was lost.
    - [SpreadProps]: any schedule of such questions among any connected nodes
      ([gossip]): each ends with exactly the newest messages of the nodes it has
      heard of ([heard]), so that all who heard of all know the same.
    - [JoinProps]: the handshake of a node with a seed: hello, welcome, and both
      are members of each other.
    - [MemoryProps]: over the life of a set of members ([lifetime]) the code on
      memory computes what [Member] and [Messages] compute, so that the other
      theorems are about the pointers of the code too, and frees every block
      once, but for messages whose decoder returns an error, which leak.
    - [AllocProps]: reception and sending of data under failing allocations, and
      the one failure that leads to undefined behaviour later, the copy of a
      member in [cluster_member_set_put].
    - [CornerProps]: instances that lie outside the hypotheses of the theorems:
      payloads too long for a message, colliding identities, short addresses.
    - [TraceProps]: over any execution of one node, for arbitrary datagrams, the
      messages of an originator are delivered in order and at most once.
    - [LiveProps]: passes that are far enough apart empty the queue, and the
      next pass sends what is due, as long as the socket accepts it.
    - [SendProps]: a pass refines [send_pass], counts what it sends, respects
      the attempt limit and the retry interval, and drops a recipient only when
      its attempts are used up; a data message sent by one node is delivered
      by the node that receives the datagram.
    - [HandlerProps]: every handler, branch by branch: what is queued, what
      becomes of the clock, the log, the members and the queue.
    - [GossipProps]: queueing a message and choosing a slot, and the case in
      which a slot that is still in use is overwritten.
    - [PublicProps]: the public functions, refused input, the life cycle.
    - [MessageProps]: round trips of integers, members, clocks and messages, and
      renumbering in place. - [MemberProps], [ClockProps], [QueueProps]: the data
      structures against their mathematical counterparts (ordered set, least
      upper bound in the pointwise order, list). - [LengthProps]: four lengths
      that the code does not check, so that its behaviour is undefined, among
      them the address of a member that a single hello brings in.
      [ClockText] ends with the round trip of the text of a clock.
    - [DemoProps]: a round of a demo keeps a healthy node healthy, the programs
      end only with -1 and the node destroyed, unless the tick of the last round
      failed ([tick_failed]), the lengths of the argument that fit, the line that is
      printed is the line that was sent; and what ends a demo or makes it
      overrun a buffer.

    A theorem of the form [wp m s Q] says that the code runs to completion
    without undefined behaviour, and that [Q] holds of its result: memory
    safety and termination are part of every such statement.

    ** Bounds and fuel

    Recursion that is not on the data has fuel, and running out of it is the
    outcome [Nofuel], which [wp] excludes. [merge_fuel] is 32: the mask of the
    merge loop is a [uint32_t] and is shifted right in each round.
    [extend_fuel] is 32: a 32-bit capacity doubles at most 31 times.
    [queue_fuel] is one more than the number of allocated envelopes: a walk
    visits each at most once. The loop over the members of
    [gossip_enqueue_member_list] is given the number of members. The loops of
    the demos never end by themselves; they are given a list of rounds.
    Numbers are printed with 20 digits, enough for 64 bits.

    ** Conventions and limits

    - The platform is LP64 Linux, little-endian; [Utils] alone is proved for
      both byte orders.
    - An address pointer is the list of the bytes that can be read through it;
      NULL and dangling pointers give none. Bytes of a [sockaddr_storage]
      beyond the copied length are not readable in the model. Memory that the
      code leaves uninitialised is a parameter ([garbage]) or is never read.
    - In [Member] and [Node] the members of the set are values with the
      identity of their allocation, and [free] of members, of the set's array
      and of decoded messages has no effect; [Memory] has the pointers and
      [free], and [MemoryProps.members_released] relates the two. [free] of
      envelopes removes them from the heap of [Queue].
    - The user's callback is any function of the node; the theorems about
      [gossip_handle_data] assume that it changes only its own context
      ([receiver_ok]), those about the life cycle that it leaves the state of
      the node alone ([keeps_state]).
    - The functional theorems assume that allocations succeed ([no_oom], part of
      [node_ok]), but for those of [AllocProps], in which any may fail.
    - The theorems about [pittacus_gossip_process_send] assume that all
      addresses have the same length, as in a cluster of one address family,
      because the code compares addresses by the length of one of them.
    - The theorems about clusters and demos assume room in the output queue for
      what a call may add ([has_room]): beyond it a slot that is in use may be
      handed out ([GossipProps.shared_slot_overwritten]), and then a datagram
      may carry another message than its envelope.
    - That a slot handed out is used by no envelope left in the queue
      ([enqueue_message_correct], [output_slot_free]) takes [slot_to_spare]: a
      slot is free, or the envelopes on a slot are adjacent with the first
      attempted most often, which [pittacus_gossip_process_send] need not keep.
    - [demos_end], [delivered_in_order_once] and the life cycle hold of every
      execution that returns; they need none of these assumptions.
    - The node's own address and its descriptor are freed by
      [pittacus_gossip_destroy] and not used afterwards; these two blocks are
      not in the heap of [Memory].
    - What [printf] and [fprintf] return is not used by the demos; they append
      to the [console].

    ** Not modelled

    The build files. Clusters with addresses of different lengths have no
    theorem about sending, because the search by address then reads past the
    shorter one ([CornerProps.brief_address_is_overread]). There is no bound on
    the time until all nodes agree: the choice of the members that are asked is
    random, and the network may lose everything; [ReplicaProps] and [SpreadProps]
    say what any questions that are answered lead to. The handlers run on
    members as values; only the operations that allocate or free members are
    also on the heap of [Memory]. *)
From Stdlib Require Export ZArith Lia.
From stdpp Require Export base tactics numbers gmap list.
#[global] Open Scope Z_scope.

(** * Outcomes *)

(** The outcome of running a piece of C code: a value, undefined behaviour
    (an access outside an object, a use of freed memory, an out-of-range
    shift), or a loop whose fuel ran out. *)
Inductive out (A : Type) : Type :=
| Ok (a : A)
| Ub
| Nofuel.
Arguments Ok {A} a.
Arguments Ub {A}.
Arguments Nofuel {A}.

#[export] Instance out_ret : MRet out := fun A a => Ok a.
#[export] Instance out_bind : MBind out := fun A B f m =>
  match m with Ok a => f a | Ub => Ub | Nofuel => Nofuel end.

(** Stateful code: a function from the state to an outcome. *)
Definition M (St A : Type) : Type := St -> out (A * St).

#[export] Instance M_ret St : MRet (M St) := fun A a s => Ok (a, s).
#[export] Instance M_bind St : MBind (M St) := fun A B f m s =>
  match m s with Ok (a, s') => f a s' | Ub => Ub | Nofuel => Nofuel end.

Definition getS {St} : M St St := fun s => Ok (s, s).
Definition putS {St} (s : St) : M St unit := fun _ => Ok (tt, s).
Definition modifyS {St} (f : St -> St) : M St unit := fun s => Ok (tt, f s).
Definition ubS {St A} : M St A := fun _ => Ub.
Definition nofuelS {St A} : M St A := fun _ => Nofuel.
Definition liftO {St A} (m : out A) : M St A := fun s =>
  match m with Ok a => Ok (a, s) | Ub => Ub | Nofuel => Nofuel end.

(** A bind whose first part returns goes on with the rest. *)
Lemma M_ok_bind {St A B} (m : M St A) (f : A -> M St B) s a s' : m s = Ok (a, s') -> (m ≫= f) s = f a s'.
Proof. intros E. unfold mbind, M_bind. by rewrite E. Qed.

(** [wp m s Q]: from [s] the code runs to completion without undefined
    behaviour and without running out of fuel, and [Q] holds of its result
    and final state (total correctness). *)
Definition wp {St A} (m : M St A) (s : St) (Q : A -> St -> Prop) : Prop :=
  match m s with Ok (a, s') => Q a s' | _ => False end.

Section WpRules.
Context {St : Type}.
Implicit Types s : St.

Lemma wp_ret {A} (a : A) s Q : Q a s -> wp (mret a) s Q.
Proof. done. Qed.

Lemma wp_bind {A B} (m : M St A) (f : A -> M St B) s Q :
  wp m s (fun a s' => wp (f a) s' Q) -> wp (m ≫= f) s Q.
Proof. unfold wp, mbind, M_bind. by destruct (m s) as [[a s']| |]. Qed.

Lemma wp_mono {A} (m : M St A) s (P Q : A -> St -> Prop) :
  wp m s P -> (forall a s', P a s' -> Q a s') -> wp m s Q.
Proof. unfold wp. destruct (m s) as [[a s']| |]; naive_solver. Qed.

Lemma wp_and {A} (m : M St A) s (P Q : A -> St -> Prop) :
  wp m s P -> wp m s Q -> wp m s (fun a s' => P a s' /\ Q a s').
Proof. unfold wp. destruct (m s) as [[a s']| |]; naive_solver. Qed.

Lemma wp_get s (Q : St -> St -> Prop) : Q s s -> wp getS s Q.
Proof. done. Qed.

Lemma wp_put s s' (Q : unit -> St -> Prop) : Q tt s' -> wp (putS s') s Q.
Proof. done. Qed.

Lemma wp_modify (f : St -> St) s (Q : unit -> St -> Prop) :
  Q tt (f s) -> wp (modifyS f) s Q.
Proof. done. Qed.

Lemma wp_lift {A} (m : out A) (a : A) s (Q : A -> St -> Prop) :
  m = Ok a -> Q a s -> wp (liftO m) s Q.
Proof. by intros -> ?. Qed.

(** A weakest precondition is a statement about the run. *)
Lemma wp_run {A} (m : M St A) s Q :
  wp m s Q <-> exists a s', m s = Ok (a, s') /\ Q a s'.
Proof.
  unfold wp. split.
  - destruct (m s) as [[a s']| |]; naive_solver.
  - by intros (a & s' & -> & ?).
Qed.
End WpRules.

Lemma out_bind_Ok {A B} (m : out A) (f : A -> out B) b :
  m ≫= f = Ok b <-> exists a, m = Ok a /\ f a = Ok b.
Proof.
  unfold mbind, out_bind. destruct m; split; try done.
  - by exists a.
  - by intros (? & [= <-] & ?).
  - by intros (? & ? & ?).
  - by intros (? & ? & ?).
Qed.

(** * Machine integers *)

(** Conversion to the unsigned types of width 16, 32 and 64 and to [int]. *)
Definition u16 (z : Z) : Z := z mod 2 ^ 16.
Definition u32 (z : Z) : Z := z mod 2 ^ 32.
Definition u64 (z : Z) : Z := z mod 2 ^ 64.
Definition i32 (z : Z) : Z := (z + 2 ^ 31) mod 2 ^ 32 - 2 ^ 31.

Definition is_u16 (z : Z) : Prop := 0 <= z < 2 ^ 16.
Definition is_u32 (z : Z) : Prop := 0 <= z < 2 ^ 32.
Definition is_u64 (z : Z) : Prop := 0 <= z < 2 ^ 64.
Definition is_byte (z : Z) : Prop := 0 <= z < 256.

#[export] Instance is_u16_dec z : Decision (is_u16 z).
Proof. unfold is_u16. apply _. Defined.
#[export] Instance is_u32_dec z : Decision (is_u32 z).
Proof. unfold is_u32. apply _. Defined.
#[export] Instance is_u64_dec z : Decision (is_u64 z).
Proof. unfold is_u64. apply _. Defined.
#[export] Instance is_byte_dec z : Decision (is_byte z).
Proof. unfold is_byte. apply _. Defined.

Create HintDb words.
Create Rewrite HintDb zlen.

Lemma u16_id z : is_u16 z -> u16 z = z.
Proof. apply Z.mod_small. Qed.
Lemma u32_id z : is_u32 z -> u32 z = z.
Proof. apply Z.mod_small. Qed.
Lemma u64_id z : is_u64 z -> u64 z = z.
Proof. apply Z.mod_small. Qed.
Lemma i32_id z : - 2 ^ 31 <= z < 2 ^ 31 -> i32 z = z.
Proof. intros ?. unfold i32. rewrite Z.mod_small; lia. Qed.
Lemma u16_range z : is_u16 (u16 z).
Proof. apply Z.mod_pos_bound. lia. Qed.
Lemma u32_range z : is_u32 (u32 z).
Proof. apply Z.mod_pos_bound. lia. Qed.
Lemma u64_range z : is_u64 (u64 z).
Proof. apply Z.mod_pos_bound. lia. Qed.
Lemma i32_range z : - 2 ^ 31 <= i32 z < 2 ^ 31.
Proof. unfold i32. pose proof (Z.mod_pos_bound (z + 2 ^ 31) (2 ^ 32)). lia. Qed.

#[export] Hint Resolve u16_range u32_range u64_range : words.
#[export] Hint Unfold is_u16 is_u32 is_u64 is_byte : words.

(** [word_lia] decides bounds goals after exposing the range predicates. *)
Ltac word_lia :=
  unfold is_u16, is_u32, is_u64, is_byte in *; lia.

(** * Memory *)

(** Length of a list as an integer. *)
Definition zlen {A} (l : list A) : Z := Z.of_nat (length l).

Lemma zlen_nonneg {A} (l : list A) : 0 <= zlen l.
Proof. unfold zlen. lia. Qed.
Lemma zlen_app {A} (l k : list A) : zlen (l ++ k) = zlen l + zlen k.
Proof. unfold zlen. rewrite length_app. lia. Qed.
Lemma zlen_nil {A} : zlen (@nil A) = 0.
Proof. done. Qed.
Lemma zlen_cons {A} (x : A) l : zlen (x :: l) = 1 + zlen l.
Proof. unfold zlen. cbn [length]. lia. Qed.
Lemma zlen_zero {A} (l : list A) : zlen l = 0 -> l = [].
Proof. destruct l; [done|]. rewrite zlen_cons. pose proof (zlen_nonneg l). lia. Qed.

(** Prefix and suffix at an integer position. *)
Definition ztake {A} (n : Z) (l : list A) : list A := take (Z.to_nat n) l.
Definition zdrop {A} (n : Z) (l : list A) : list A := drop (Z.to_nat n) l.

Lemma zlen_ztake {A} n (l : list A) : 0 <= n <= zlen l -> zlen (ztake n l) = n.
Proof. unfold zlen, ztake. rewrite length_take. lia. Qed.
Lemma zlen_zdrop {A} n (l : list A) : 0 <= n <= zlen l -> zlen (zdrop n l) = zlen l - n.
Proof. unfold zlen, zdrop. rewrite length_drop. lia. Qed.
Lemma zlen_zdrop_max {A} n (l : list A) :
  0 <= n -> zlen (zdrop n l) = Z.max 0 (zlen l - n).
Proof. unfold zlen, zdrop. rewrite length_drop. lia. Qed.
Lemma ztake_app {A} (l k : list A) : ztake (zlen l) (l ++ k) = l.
Proof. unfold zlen, ztake. rewrite Nat2Z.id. apply take_app_length. Qed.
Lemma zdrop_app {A} (l k : list A) : zdrop (zlen l) (l ++ k) = k.
Proof. unfold zlen, zdrop. rewrite Nat2Z.id. apply drop_app_length. Qed.
Lemma ztake_all {A} n (l : list A) : zlen l <= n -> ztake n l = l.
Proof. unfold zlen, ztake. intros. apply take_ge. lia. Qed.
Lemma ztake_zdrop {A} n (l : list A) : ztake n l ++ zdrop n l = l.
Proof. apply take_drop. Qed.
Lemma zdrop_0 {A} (l : list A) : zdrop 0 l = l.
Proof. done. Qed.
Lemma ztake_0 {A} (l : list A) : ztake 0 l = [].
Proof. done. Qed.
Lemma zdrop_zdrop {A} a b (l : list A) :
  0 <= a -> 0 <= b -> zdrop a (zdrop b l) = zdrop (b + a) l.
Proof.
  intros. unfold zdrop. rewrite drop_drop. f_equal. lia.
Qed.

#[export] Hint Rewrite @zlen_app @zlen_cons @zlen_nil : zlen.
#[export] Hint Rewrite @zlen_zdrop_max using lia : zlen.

(** An object in memory is the list of its bytes; a pointer into it is an
    offset. Reading [n] bytes at [off], writing [bs] at [off]: outside the
    object the behaviour is undefined; an access of no byte is allowed. *)
Definition rd (m : list Z) (off n : Z) : out (list Z) :=
  if n =? 0 then Ok []
  else if (0 <=? off) && (0 <=? n) && (off + n <=? zlen m)
  then Ok (ztake n (zdrop off m)) else Ub.

Definition wr (m : list Z) (off : Z) (bs : list Z) : out (list Z) :=
  if zlen bs =? 0 then Ok m
  else if (0 <=? off) && (off + zlen bs <=? zlen m)
  then Ok (ztake off m ++ bs ++ zdrop (off + zlen bs) m) else Ub.

(** [memcmp(a, b, n) == 0]: both objects must have [n] readable bytes. *)
Definition memcmp_eq (a b : list Z) (n : Z) : out bool :=
  x ← rd a 0 n; y ← rd b 0 n; mret (bool_decide (x = y)).

(** A read or write at the cursor [c] that follows the prefix [pre]. *)
Lemma rd_at m c pre bs rest n :
  m = pre ++ bs ++ rest -> c = zlen pre -> n = zlen bs -> rd m c n = Ok bs.
Proof.
  intros -> -> ->. unfold rd. destruct (Z.eqb_spec (zlen bs) 0) as [Hz|Hz].
  - by rewrite (zlen_zero _ Hz).
  - pose proof (zlen_nonneg pre). pose proof (zlen_nonneg rest).
    pose proof (zlen_nonneg bs). rewrite !zlen_app.
    replace (_ && _ && _) with true
      by (symmetry; rewrite !andb_true_iff, !Z.leb_le; lia).
    by rewrite zdrop_app, ztake_app.
Qed.

Lemma wr_at m c pre old bs :
  m = pre ++ old -> c = zlen pre -> zlen bs <= zlen old ->
  wr m c bs = Ok ((pre ++ bs) ++ zdrop (zlen bs) old).
Proof.
  intros -> -> Hl. rewrite <- app_assoc. unfold wr. pose proof (zlen_nonneg pre). pose proof (zlen_nonneg bs).
  destruct (Z.eqb_spec (zlen bs) 0) as [Hz|Hz].
  - by rewrite Hz, (zlen_zero _ Hz), zdrop_0.
  - rewrite zlen_app.
    replace (_ && _) with true
      by (symmetry; rewrite !andb_true_iff, !Z.leb_le; lia).
    rewrite ztake_app. do 3 f_equal.
    rewrite <- zdrop_zdrop by lia. by rewrite zdrop_app.
Qed.

Lemma wr_len m off bs m' : wr m off bs = Ok m' -> zlen m' = zlen m.
Proof.
  unfold wr. destruct (Z.eqb_spec (zlen bs) 0); [naive_solver|].
  destruct (_ && _) eqn:E; [|done]. intros [= <-].
  apply andb_true_iff in E as [?%Z.leb_le ?%Z.leb_le].
  pose proof (zlen_nonneg bs).
  rewrite !zlen_app, zlen_ztake, zlen_zdrop by lia. lia.
Qed.

Lemma rd_prefix m n : 0 <= n <= zlen m -> rd m 0 n = Ok (ztake n m).
Proof.
  intros Hn. apply (rd_at _ _ [] _ (zdrop n m)); [|done|by rewrite zlen_ztake].
  by rewrite app_nil_l, ztake_zdrop.
Qed.

(** Side conditions of the lemmas above: regrouping of concatenations and
    lengths of prefixes. *)
Ltac app_solve := rewrite <- ?app_assoc; reflexivity.
Ltac zlen_solve := autorewrite with zlen; lia.

(** * Arrays and loops *)

(** [a[i]] and [a[i] = x] on an array: out of range is undefined. *)
Definition aread {A} (l : list A) (i : Z) : out A :=
  if 0 <=? i then match l !! Z.to_nat i with Some x => Ok x | None => Ub end else Ub.

Definition awrite {A} (l : list A) (i : Z) (x : A) : out (list A) :=
  if (0 <=? i) && (i <? zlen l) then Ok (<[Z.to_nat i := x]> l) else Ub.

Lemma aread_Ok {A} (l : list A) (k : nat) x :
  l !! k = Some x -> aread l (Z.of_nat k) = Ok x.
Proof.
  intros H. unfold aread. rewrite Nat2Z.id, H.
  by rewrite (proj2 (Z.leb_le 0 (Z.of_nat k))) by lia.
Qed.

Lemma awrite_Ok {A} (l : list A) (k : nat) x :
  (k < length l)%nat -> awrite l (Z.of_nat k) x = Ok (<[k := x]> l).
Proof.
  intros H. unfold awrite, zlen. rewrite Nat2Z.id.
  by replace (_ && _) with true
    by (symmetry; rewrite andb_true_iff, Z.leb_le, Z.ltb_lt; lia).
Qed.

(** [for (i = from; i < from + n; ++i) acc = body(i, acc)]. *)
Fixpoint ofor {A} (n : nat) (i : Z) (body : Z -> A -> out A) (acc : A) : out A :=
  match n with
  | O => Ok acc
  | S n' => acc' ← body i acc; ofor n' (i + 1) body acc'
  end.

(** [for (i = from; i < from + n; ++i) if (p(i)) break], giving the index. *)
Fixpoint ofind (n : nat) (i : Z) (p : Z -> out bool) : out (option Z) :=
  match n with
  | O => Ok None
  | S n' => b ← p i; if (b : bool) then Ok (Some i) else ofind n' (i + 1) p
  end.

Lemma ofor_inv {A} (Inv : Z -> A -> Prop) n i (body : Z -> A -> out A) a :
  Inv i a ->
  (forall j b, i <= j < i + Z.of_nat n -> Inv j b ->
     exists b', body j b = Ok b' /\ Inv (j + 1) b') ->
  exists a', ofor n i body a = Ok a' /\ Inv (i + Z.of_nat n) a'.
Proof.
  revert i a. induction n as [|n IH]; intros i a Ha Hb.
  - exists a. rewrite Z.add_0_r. done.
  - destruct (Hb i a) as (b & Eb & Hi); [lia|done|].
    destruct (IH (i + 1) b) as (c & Ec & Hc); [done| |].
    + intros j b' Hj. apply Hb. lia.
    + exists c. cbn [ofor]. rewrite Eb. cbn [mbind out_bind]. split; [done|].
      by replace (i + Z.of_nat (S n)) with (i + 1 + Z.of_nat n) by lia.
Qed.

(** A search loop over an array finds what [list_find] finds. *)
Lemma ofind_list_find {A} (P : A -> Prop) `{forall x, Decision (P x)}
    (l : list A) i (p : Z -> out bool) :
  (forall k x, l !! k = Some x -> p (i + Z.of_nat k) = Ok (bool_decide (P x))) ->
  ofind (length l) i p = Ok ((fun r => i + Z.of_nat (fst r)) <$> list_find P l).
Proof.
  revert i. induction l as [|x l IH]; intros i Hp; [done|].
  cbn [length ofind list_find].
  pose proof (Hp 0%nat x eq_refl) as H0. rewrite Z.add_0_r in H0. rewrite H0.
  cbn [mbind out_bind]. case_decide as Hd.
  - rewrite bool_decide_true by done. cbn. by rewrite Z.add_0_r.
  - rewrite bool_decide_false by done. rewrite IH.
    + f_equal. rewrite <- option_fmap_compose. apply option_fmap_ext.
      intros [k y]. cbn. lia.
    + intros k y Hk. rewrite <- (Hp (S k) y) by done. f_equal. lia.
Qed.

(** * Symbolic execution *)

(** One step of the monads on a known outcome. *)
Ltac out_step := cbn [mbind out_bind mret out_ret liftO fst snd].

(** Goals [0 <= e] and the like over lengths. *)
Ltac zlen_lia :=
  repeat match goal with
  | |- context [zlen ?l] =>
      lazymatch goal with
      | _ : 0 <= zlen l |- _ => fail
      | _ => pose proof (zlen_nonneg l)
      end
  | _ : context [zlen ?l] |- _ =>
      lazymatch goal with
      | _ : 0 <= zlen l |- _ => fail
      | _ => pose proof (zlen_nonneg l)
      end
  end; lia.
