(* ===== verification/ReplicaSpec.v ===== *)
(** What a cluster promises, without a network: replicas that publish numbered
    messages and learn those of others. *)
From S2P Require Import Prelude.

(** * The specification *)

(** A message: its originator, its number, its payload. *)
Abbreviation said_message := (Z * Z * list Z)%type.
Definition said_id (m : said_message) : Z := fst (fst m).
Definition said_no (m : said_message) : Z := snd (fst m).

(** A replica knows one message of each originator; [rp_given] is what its
    receiver was given, the first first. *)
Record replica := Replica {
  rp_known : gmap Z (Z * list Z);
  rp_given : list said_message
}.

(** The replicas, and all messages ever published, the oldest first. *)
Record spec := Spec {
  sp_replicas : list replica;
  sp_said : list said_message
}.

(** How many messages an originator has published. *)
Definition count (id : Z) (said : list said_message) : Z := zlen (filter (fun m => said_id m = id) said).

(** [Publish i p]: the user of replica [i] sends [p]. [Learn i m]: replica [i]
    gets to know the message [m]. *)
Inductive action := Publish (i : nat) (p : list Z) | Learn (i : nat) (m : said_message).

Definition enter (m : said_message) (known : gmap Z (Z * list Z)) : gmap Z (Z * list Z) :=
  <[said_id m := (said_no m, snd m)]> known.

(** The message was published and is newer than what is known. *)
Definition learnable (said : list said_message) (known : gmap Z (Z * list Z)) (m : said_message) : Prop :=
  m ∈ said /\ default (-1) (fst <$> known !! said_id m) < said_no m.

#[export] Instance learnable_dec said known m : Decision (learnable said known m).
Proof. unfold learnable. apply _. Defined.

(** What an action does, where it is possible; [names] are the identities of
    the replicas. A message gets the next number of its originator, which
    knows it at once; learning gives the payload to the receiver. *)
Definition act (names : list (option Z)) (s : spec) (a : action) : option spec :=
  match a with
  | Publish i p =>
      match names !! i, sp_replicas s !! i with
      | Some (Some id), Some rp =>
          let m := (id, 1 + count id (sp_said s), p) in
          Some (Spec (<[i := Replica (enter m (rp_known rp)) (rp_given rp)]> (sp_replicas s))
                  (sp_said s ++ [m]))
      | _, _ => None
      end
  | Learn i m =>
      match sp_replicas s !! i with
      | Some rp =>
          if bool_decide (learnable (sp_said s) (rp_known rp) m) then
            Some (Spec (<[i := Replica (enter m (rp_known rp)) (rp_given rp ++ [m])]> (sp_replicas s))
                    (sp_said s))
          else None
      | None => None
      end
  end.

(** A step; [None] is one that does not show. *)
Definition spec_step (names : list (option Z)) (s : spec) (l : option action) (s' : spec) : Prop :=
  match l with None => s' = s | Some a => act names s a = Some s' end.

Definition spec_start (k : nat) : spec := Spec (replicate k (Replica ∅ [])) [].

Definition spec_reachable (names : list (option Z)) (s : spec) : Prop :=
  rtc (fun s s' => exists l, spec_step names s l s') (spec_start (length names)) s.

(** The latest message of each originator. *)
Definition latest (said : list said_message) : gmap Z (Z * list Z) :=
  foldl (fun known m => enter m known) ∅ said.

(** * Numbers *)

Lemma count_app id said said' : count id (said ++ said') = count id said + count id said'.
Proof. unfold count. by rewrite filter_app, zlen_app. Qed.

Lemma count_one id m : count id [m] = if bool_decide (said_id m = id) then 1 else 0.
Proof. unfold count. rewrite filter_cons, filter_nil. case_decide; by case_bool_decide. Qed.

Lemma count_nonneg id said : 0 <= count id said.
Proof. apply zlen_nonneg. Qed.

Lemma count_take id said (i : nat) : count id (take i said) <= count id said.
Proof.
  rewrite <- (take_drop i said) at 2. rewrite count_app. pose proof (count_nonneg id (drop i said)). lia.
Qed.

(** The numbers of an originator are 1, 2, 3 and so on. *)
Definition numbered (said : list said_message) : Prop := forall (i : nat) m,
  said !! i = Some m -> said_no m = 1 + count (said_id m) (take i said).

Lemma numbered_snoc said id p : numbered said -> numbered (said ++ [(id, 1 + count id said, p)]).
Proof.
  intros H i m [Hi|(Hle & Hi)]%lookup_app_Some.
  - rewrite take_app_le by (apply lookup_lt_Some in Hi; lia). by apply H.
  - apply list_lookup_singleton_Some in Hi as [Hi <-].
    rewrite take_app_ge, Hi, app_nil_r by lia. done.
Qed.

Lemma numbered_range said m : numbered said -> m ∈ said -> 1 <= said_no m <= count (said_id m) said.
Proof.
  intros H [i Hi]%list_elem_of_lookup. rewrite (H i m Hi).
  pose proof (count_nonneg (said_id m) (take i said)). split; [lia|].
  rewrite <- (take_drop_middle _ _ _ Hi) at 2. rewrite count_app.
  change (m :: drop (S i) said) with ([m] ++ drop (S i) said). rewrite count_app, count_one, bool_decide_true by done.
  pose proof (count_nonneg (said_id m) (drop (S i) said)). lia.
Qed.

(** Later messages of an originator have larger numbers. *)
Lemma numbered_lt said (i j : nat) m m' :
  numbered said -> said !! i = Some m -> said !! j = Some m' -> said_id m = said_id m' ->
  (i < j)%nat -> said_no m < said_no m'.
Proof.
  intros H Hi Hj E Hij. rewrite (H i m Hi), (H j m' Hj), <- E.
  rewrite <- (take_drop_middle (take j said) i m) by by rewrite lookup_take_lt.
  rewrite count_app. change (m :: ?l) with ([m] ++ l). rewrite count_app, count_one, bool_decide_true by done.
  rewrite take_take, Nat.min_l by lia.
  pose proof (count_nonneg (said_id m) (drop (S i) (take j said))). lia.
Qed.

(** The numbers tell the order. *)
Lemma numbered_order said m m' :
  numbered said -> m ∈ said -> m' ∈ said -> said_id m = said_id m' -> said_no m < said_no m' ->
  exists i j : nat, (i < j)%nat /\ said !! i = Some m /\ said !! j = Some m'.
Proof.
  intros H [i Hi]%list_elem_of_lookup [j Hj]%list_elem_of_lookup E Hlt. exists i, j. split; [|done].
  destruct (lt_eq_lt_dec i j) as [[Hij| ->]|Hij]; [done|exfalso..].
  - rewrite Hi in Hj. injection Hj as ->. lia.
  - pose proof (numbered_lt said j i m' m H Hj Hi (eq_sym E) Hij). lia.
Qed.

(** An originator uses a number once. *)
Lemma numbered_once said m m' :
  numbered said -> m ∈ said -> m' ∈ said -> said_id m = said_id m' -> said_no m = said_no m' -> m = m'.
Proof.
  intros H [i Hi]%list_elem_of_lookup [j Hj]%list_elem_of_lookup Eid Eno.
  destruct (lt_eq_lt_dec i j) as [[Hij| ->]|Hij].
  - pose proof (numbered_lt said i j m m' H Hi Hj Eid Hij). lia.
  - rewrite Hi in Hj. by injection Hj.
  - pose proof (numbered_lt said j i m' m H Hj Hi (eq_sym Eid) Hij). lia.
Qed.

Lemma latest_snoc said m : latest (said ++ [m]) = enter m (latest said).
Proof. unfold latest. by rewrite foldl_app. Qed.

(** The latest message of an originator is the last that it published. *)
Lemma latest_spec said : numbered said -> forall id,
  match latest said !! id with
  | Some (k, p) => k = count id said /\ (id, k, p) ∈ said
  | None => count id said = 0
  end.
Proof.
  induction said as [|m said IH] using rev_ind; intros Hn id; [done|].
  assert (numbered said) as Hn'.
  { intros i x Hi. pose proof (lookup_lt_Some _ _ _ Hi).
    rewrite (Hn i x) by by apply lookup_app_l_Some. by rewrite take_app_le by lia. }
  assert (said_no m = 1 + count (said_id m) said) as Hno.
  { rewrite (Hn (length said) m) by (by apply list_lookup_middle). by rewrite take_app_length. }
  rewrite latest_snoc, count_app, count_one. unfold enter. specialize (IH Hn' id).
  destruct (decide (said_id m = id)) as [<-|Hne].
  - rewrite lookup_insert_eq, bool_decide_true by done. split; [lia|]. apply elem_of_app. right.
    destruct m as [[i k] p]. by left.
  - rewrite lookup_insert_ne, bool_decide_false by done. rewrite Z.add_0_r.
    destruct (latest said !! id) as [[k p]|]; [|done]. destruct IH as [-> Hin]. split; [done|].
    apply elem_of_app. by left.
Qed.

(** * What holds in every state *)

(** The receiver is given messages of others, those of one originator in the
    order of their numbers. *)
Definition given_in_order (given : list said_message) : Prop := forall (a b : nat) m m',
  (a < b)%nat -> given !! a = Some m -> given !! b = Some m' -> said_id m = said_id m' ->
  said_no m < said_no m'.

Lemma in_order_NoDup given : given_in_order given -> NoDup given.
Proof.
  intros H. apply NoDup_alt. intros a b m Ha Hb. destruct (lt_eq_lt_dec a b) as [[Hab|]|Hab]; [|done|].
  - pose proof (H a b m m Hab Ha Hb eq_refl). lia.
  - pose proof (H b a m m Hab Hb Ha eq_refl). lia.
Qed.

Record replica_ok (said : list said_message) (name : option Z) (rp : replica) : Prop := ReplicaOk {
  ro_known : forall id k p, rp_known rp !! id = Some (k, p) -> (id, k, p) ∈ said;
  ro_given : forall m, m ∈ rp_given rp -> m ∈ said /\ name <> Some (said_id m) /\
    exists k p, rp_known rp !! said_id m = Some (k, p) /\ said_no m <= k;
  ro_order : given_in_order (rp_given rp);
  ro_own : forall id, name = Some id -> rp_known rp !! id = latest said !! id
}.

Record spec_ok (names : list (option Z)) (s : spec) : Prop := SpecOk {
  so_numbered : numbered (sp_said s);
  so_replicas : Forall2 (replica_ok (sp_said s)) names (sp_replicas s)
}.

(** A message that another replica publishes changes nothing. *)
Lemma replica_ok_said said name rp m :
  name <> Some (said_id m) -> replica_ok said name rp -> replica_ok (said ++ [m]) name rp.
Proof.
  intros Hne [H1 H2 H3 H4]. split; [| |done|].
  - intros id k p E. apply elem_of_app. left. by apply H1.
  - intros x Hx. destruct (H2 x Hx) as (Hin & ? & ?). split; [|done]. apply elem_of_app. by left.
  - intros id E. rewrite latest_snoc. unfold enter. rewrite lookup_insert_ne by congruence. by apply H4.
Qed.

Lemma publish_ok said id p rp :
  replica_ok said (Some id) rp ->
  let m := (id, 1 + count id said, p) in
  replica_ok (said ++ [m]) (Some id) (Replica (enter m (rp_known rp)) (rp_given rp)).
Proof.
  intros [H1 H2 H3 H4] m. split; cbn; [| |done|].
  - intros id' k p' E. apply elem_of_app. unfold enter in E.
    destruct (decide (id' = said_id m)) as [->|Hne].
    + rewrite lookup_insert_eq in E. injection E as <- <-. right. by left.
    + rewrite lookup_insert_ne in E by done. left. by apply H1.
  - intros x Hx. destruct (H2 x Hx) as (Hin & Hne & k & p' & E & Hk). split; [apply elem_of_app; by left|].
    split; [done|]. exists k, p'. unfold enter. rewrite lookup_insert_ne; [done|]. intros E'. by destruct Hne; rewrite <- E'.
  - intros id' [= <-]. rewrite latest_snoc. unfold enter. by rewrite !lookup_insert_eq.
Qed.

Lemma learn_ok said name rp m :
  numbered said -> replica_ok said name rp -> learnable said (rp_known rp) m ->
  replica_ok said name (Replica (enter m (rp_known rp)) (rp_given rp ++ [m])).
Proof.
  intros Hn [H1 H2 H3 H4] [Hin Hlt].
  assert (name <> Some (said_id m)) as Hne.
  { intros E. pose proof (numbered_range _ _ Hn Hin) as Hr. rewrite (H4 _ E) in Hlt.
    pose proof (latest_spec said Hn (said_id m)) as Hl.
    destruct (latest said !! said_id m) as [[k p]|]; cbn in Hlt; lia. }
  assert (forall x, x ∈ rp_given rp -> said_id x = said_id m -> said_no x < said_no m) as Hx.
  { intros x Hx E. destruct (H2 x Hx) as (_ & _ & k & p & Ek & Hk). rewrite <- E, Ek in Hlt. cbn in Hlt. lia. }
  split; cbn.
  - intros id k p E. unfold enter in E. destruct (decide (id = said_id m)) as [->|Hid].
    + rewrite lookup_insert_eq in E. injection E as <- <-. by destruct m as [[? ?] ?].
    + rewrite lookup_insert_ne in E by done. by apply H1.
  - intros x [Hg|Hm]%elem_of_app.
    + destruct (H2 x Hg) as (Hs & Hne' & k & p & Ek & Hk). split; [done|]. split; [done|]. unfold enter.
      destruct (decide (said_id x = said_id m)) as [E|Hid].
      * rewrite E, lookup_insert_eq. eexists _, _. split; [done|]. pose proof (Hx x Hg E). lia.
      * rewrite lookup_insert_ne by done. by exists k, p.
    + apply list_elem_of_singleton in Hm as ->. split; [done|]. split; [done|]. unfold enter.
      rewrite lookup_insert_eq. by eexists _, _.
  - intros a b x y Hab [Ha|[Ha1 Ha]]%lookup_app_Some [Hb|[Hb1 Hb]]%lookup_app_Some E.
    + by eapply (H3 a b).
    + apply list_lookup_singleton_Some in Hb as [_ <-]. apply Hx; [by eapply list_elem_of_lookup_2|done].
    + apply lookup_lt_Some in Hb. lia.
    + apply list_lookup_singleton_Some in Ha as [? _]. apply list_lookup_singleton_Some in Hb as [? _]. lia.
  - intros id E. unfold enter. rewrite lookup_insert_ne by congruence. by apply H4.
Qed.

Lemma Forall2_insert_r {A B} (P : A -> B -> Prop) l k (i : nat) x y :
  Forall2 P l k -> l !! i = Some x -> P x y -> Forall2 P l (<[i := y]> k).
Proof.
  intros H Hi Hp. rewrite <- (list_insert_id l i x Hi). by apply Forall2_insert.
Qed.

Lemma step_spec_ok names s l s' :
  (forall i j id, names !! i = Some (Some id) -> names !! j = Some (Some id) -> i = j) ->
  spec_step names s l s' -> spec_ok names s -> spec_ok names s'.
Proof.
  intros Hnd Hs [Hn Hr]. destruct l as [[i p|i m]|]; cbn in Hs; [| |by rewrite Hs].
  - destruct (names !! i) as [[id|]|] eqn:Ei; [|done..].
    destruct (sp_replicas s !! i) as [rp|] eqn:Er; [|done]. injection Hs as <-. split; cbn.
    + by apply numbered_snoc.
    + apply Forall2_same_length_lookup. split; [by rewrite length_insert; eapply Forall2_length|].
      intros j name rp' Hj Hj'. apply list_lookup_insert_Some in Hj' as [(<- & <- & _)|[Hne Hj']].
      * rewrite Ei in Hj. injection Hj as <-. apply publish_ok. by eapply Forall2_lookup_lr.
      * apply replica_ok_said; [|by eapply Forall2_lookup_lr]. intros ->. apply Hne. by eapply Hnd.
  - destruct (sp_replicas s !! i) as [rp|] eqn:Er; [|done]. case_bool_decide as Hl; [|done]. injection Hs as <-.
    split; [done|]. cbn. destruct (Forall2_lookup_r _ _ _ _ _ Hr Er) as (name & Ei & Hok).
    eapply Forall2_insert_r; [exact Hr|exact Ei|]. by apply learn_ok.
Qed.

Lemma spec_steps_ok names s s' :
  (forall i j id, names !! i = Some (Some id) -> names !! j = Some (Some id) -> i = j) ->
  rtc (fun s s' => exists l, spec_step names s l s') s s' -> spec_ok names s -> spec_ok names s'.
Proof.
  intros Hnd. induction 1 as [|s1 s2 s3 (l & Hl) _ IH]; intros H0; [done|].
  apply IH. by eapply step_spec_ok.
Qed.

(** * Consequences *)

Section Reachable.
Context (names : list (option Z)) (s : spec).
Hypothesis Hnd : forall i j id, names !! i = Some (Some id) -> names !! j = Some (Some id) -> i = j.
Hypothesis Hs : spec_reachable names s.

Lemma spec_start_ok : spec_ok names (spec_start (length names)).
Proof.
  split; [done|]. cbn. apply Forall2_same_length_lookup.
  split; [by rewrite length_replicate|]. intros i name rp _ [-> _]%lookup_replicate. split; cbn.
  - intros id k p E. by rewrite lookup_empty in E.
  - by intros m H%not_elem_of_nil.
  - done.
  - done.
Qed.

Lemma spec_reachable_ok : spec_ok names s.
Proof.
  refine (spec_steps_ok names _ s Hnd Hs spec_start_ok).
Qed.

(** A replica that can learn nothing more knows the latest of everything. *)
Lemma quiescent_latest i rp :
  sp_replicas s !! i = Some rp -> (forall m, m ∈ sp_said s -> act names s (Learn i m) = None) ->
  rp_known rp = latest (sp_said s).
Proof.
  intros Hi Hq. destruct spec_reachable_ok as [Hn Hr].
  destruct (Forall2_lookup_r _ _ _ _ _ Hr Hi) as (name & _ & Hok). apply map_eq. intros id.
  pose proof (latest_spec (sp_said s) Hn id) as Hl. destruct (latest (sp_said s) !! id) as [[k p]|] eqn:El.
  - destruct Hl as [-> Hin]. specialize (Hq _ Hin). cbn in Hq. rewrite Hi in Hq.
    case_bool_decide as Hlr; [done|].
    destruct (rp_known rp !! id) as [[k' p']|] eqn:Ek.
    + pose proof (ro_known _ _ _ Hok _ _ _ Ek) as Hin'. pose proof (numbered_range _ _ Hn Hin') as Hr'. cbn in Hr'.
      assert (k' = count id (sp_said s)) as ->.
      { apply Z.le_antisymm; [apply Hr'|]. apply Z.nlt_ge. intros Hlt. apply Hlr. split; [done|].
        cbn. rewrite Ek. exact Hlt. }
      f_equal. by pose proof (numbered_once _ _ _ Hn Hin Hin' eq_refl eq_refl) as [= ->].
    + destruct Hlr. split; [done|]. cbn. rewrite Ek. cbn. pose proof (count_nonneg id (sp_said s)). lia.
  - destruct (rp_known rp !! id) as [[k p]|] eqn:Ek; [|done].
    pose proof (ro_known _ _ _ Hok _ _ _ Ek) as Hin. pose proof (numbered_range _ _ Hn Hin) as Hr'. cbn in Hr'. lia.
Qed.
End Reachable.
