(* ===== verification/Config.v ===== *)
(** Compile-time constants: [config.h], [errors.h], the message types and
    sizes of [messages.h], [member.h] and [vector_clock.h], and the sizes
    of the C types on an LP64 Linux host, which is the platform modelled. *)
From S2P Require Import Prelude.

(** * config.h *)
Definition PROTOCOL_VERSION : Z := 1.
Definition MESSAGE_RETRY_INTERVAL : Z := 10000.
Definition MESSAGE_RETRY_ATTEMPTS : Z := 3.
Definition MESSAGE_RUMOR_FACTOR : Z := 3.
Definition MESSAGE_MAX_SIZE : Z := 512.
Definition MAX_OUTPUT_MESSAGES : Z := 100.
Definition GOSSIP_TICK_INTERVAL : Z := 1000.
Definition DATA_LOG_SIZE : Z := 25.

(** * errors.h *)
Definition PITTACUS_ERR_NONE : Z := 0.
Definition PITTACUS_ERR_INIT_FAILED : Z := -1.
Definition PITTACUS_ERR_ALLOCATION_FAILED : Z := -2.
Definition PITTACUS_ERR_BAD_STATE : Z := -3.
Definition PITTACUS_ERR_INVALID_MESSAGE : Z := -4.
Definition PITTACUS_ERR_BUFFER_NOT_ENOUGH : Z := -5.
Definition PITTACUS_ERR_NOT_FOUND : Z := -6.
Definition PITTACUS_ERR_WRITE_FAILED : Z := -7.
Definition PITTACUS_ERR_READ_FAILED : Z := -8.

(** * Sizes of the C types *)

(** [sizeof(uint16_t)], [sizeof(uint32_t)], [sizeof(pt_socklen_t)]. *)
Definition sizeof_u16 : Z := 2.
Definition sizeof_u32 : Z := 4.
Definition sizeof_socklen : Z := 4.
(** [struct sockaddr_storage] is 128 bytes, a pointer 8 bytes. *)
Definition sizeof_sockaddr_storage : Z := 128.
Definition sizeof_pointer : Z := 8.

(** [cluster_member_t]: version (2), padding (2), uid (4), address_len (4),
    padding (4), pointer (8). *)
Definition sizeof_cluster_member : Z := 24.

(** [message_header_t]: protocol id (5), type (1), reserved (2),
    sequence number (4); no padding. *)
Definition PROTOCOL_ID_LENGTH : Z := 5.
Definition sizeof_message_header : Z := 12.

(** The bytes a member takes on the wire with a full [sockaddr_storage]. *)
Definition CLUSTER_MEMBER_SIZE : Z :=
  sizeof_u16 + sizeof_u32 + sizeof_socklen + sizeof_sockaddr_storage.

Definition MAX_VECTOR_SIZE : Z := 20.
Definition MEMBER_ID_SIZE : Z := 8.
Definition VECTOR_RECORD_SIZE : Z := sizeof_u32 + MEMBER_ID_SIZE.

(** * Message types *)
Definition MESSAGE_HELLO_TYPE : Z := 1.
Definition MESSAGE_WELCOME_TYPE : Z := 2.
Definition MESSAGE_MEMBER_LIST_TYPE : Z := 3.
Definition MESSAGE_ACK_TYPE : Z := 4.
Definition MESSAGE_DATA_TYPE : Z := 5.
Definition MESSAGE_STATUS_TYPE : Z := 6.

(** How many members fit one member-list message ([gossip.c]). *)
Definition MEMBER_LIST_SYNC_SIZE : Z := MESSAGE_MAX_SIZE / CLUSTER_MEMBER_SIZE.

Definition INPUT_BUFFER_SIZE : Z := MESSAGE_MAX_SIZE.
Definition OUTPUT_BUFFER_SIZE : Z := MAX_OUTPUT_MESSAGES * MESSAGE_MAX_SIZE.

(** [config_lia] computes the constants and calls [lia]. *)
Ltac config_unfold :=
  unfold CLUSTER_MEMBER_SIZE, VECTOR_RECORD_SIZE, OUTPUT_BUFFER_SIZE,
    INPUT_BUFFER_SIZE, MEMBER_LIST_SYNC_SIZE, sizeof_u16, sizeof_u32,
    sizeof_socklen, sizeof_sockaddr_storage, sizeof_pointer,
    sizeof_cluster_member, sizeof_message_header, PROTOCOL_ID_LENGTH,
    MAX_VECTOR_SIZE, MEMBER_ID_SIZE, MESSAGE_MAX_SIZE, MAX_OUTPUT_MESSAGES,
    DATA_LOG_SIZE, MESSAGE_RUMOR_FACTOR, MESSAGE_RETRY_ATTEMPTS,
    MESSAGE_RETRY_INTERVAL, GOSSIP_TICK_INTERVAL, CLUSTER_MEMBER_SIZE,
    PITTACUS_ERR_NONE, PITTACUS_ERR_INIT_FAILED,
    PITTACUS_ERR_ALLOCATION_FAILED, PITTACUS_ERR_BAD_STATE,
    PITTACUS_ERR_INVALID_MESSAGE, PITTACUS_ERR_BUFFER_NOT_ENOUGH,
    PITTACUS_ERR_NOT_FOUND, PITTACUS_ERR_WRITE_FAILED,
    PITTACUS_ERR_READ_FAILED in *.
Ltac config_lia := config_unfold; word_lia.
