(* ===== verification/Utils.v ===== *)
(** [utils.c]: reading and writing 16- and 32-bit integers in network byte
    order, as the code does it: a byte swap when the host is little-endian,
    then a copy of the object representation. *)
From S2P Require Import Prelude.
From S2P Require Import Config.

(** * Object representation of unsigned integers *)

Inductive endianness := LittleEndian | BigEndian.

(** The [n] low-order bytes of [w], least significant first, and back. *)
Fixpoint bytes_le (n : nat) (w : Z) : list Z :=
  match n with
  | O => []
  | S n' => w mod 256 :: bytes_le n' (w / 256)
  end.

Definition word_le (bs : list Z) : Z := foldr (fun b w => b + 256 * w) 0 bs.

Definition store (e : endianness) (n : nat) (w : Z) : list Z :=
  match e with LittleEndian => bytes_le n w | BigEndian => rev (bytes_le n w) end.

Definition fetch (e : endianness) (bs : list Z) : Z :=
  match e with LittleEndian => word_le bs | BigEndian => word_le (rev bs) end.

(** [htons]/[htonl] and [ntohs]/[ntohl] on an [n]-byte integer. *)
Definition hton (e : endianness) (n : nat) (w : Z) : Z :=
  match e with
  | LittleEndian => word_le (rev (bytes_le n w))
  | BigEndian => w
  end.
Definition ntoh (e : endianness) (n : nat) (w : Z) : Z := hton e n w.

(** Network order: most significant byte first. *)
Definition bytes_be (n : nat) (w : Z) : list Z := rev (bytes_le n w).
Definition word_be (bs : list Z) : Z := word_le (rev bs).

(** * The functions of [utils.c] *)

(** [buffer] is the offset [at_] of the object [m]; the byte order of the
    host is a parameter here and fixed below. *)
Definition uint16_encode_on (e : endianness) (n : Z) (m : list Z) (at_ : Z) : out (list Z) :=
  let network_n := hton e 2 (u16 n) in
  wr m at_ (store e 2 network_n).

Definition uint16_decode_on (e : endianness) (m : list Z) (at_ : Z) : out Z :=
  bs ← rd m at_ sizeof_u16; mret (ntoh e 2 (fetch e bs)).

Definition uint32_encode_on (e : endianness) (n : Z) (m : list Z) (at_ : Z) : out (list Z) :=
  let network_n := hton e 4 (u32 n) in
  wr m at_ (store e 4 network_n).

Definition uint32_decode_on (e : endianness) (m : list Z) (at_ : Z) : out Z :=
  bs ← rd m at_ sizeof_u32; mret (ntoh e 4 (fetch e bs)).

(** The host of the rest of the development. *)
Definition host : endianness := LittleEndian.

Definition uint16_encode := uint16_encode_on host.
Definition uint16_decode := uint16_decode_on host.
Definition uint32_encode := uint32_encode_on host.
Definition uint32_decode := uint32_decode_on host.

(** * Bytes and words *)

Lemma length_bytes_le n w : length (bytes_le n w) = n.
Proof. revert w. induction n as [|n IH]; intros w; [done|]. cbn. by rewrite IH. Qed.

Lemma bytes_le_byte n w : Forall is_byte (bytes_le n w).
Proof.
  revert w. induction n as [|n IH]; intros w; constructor; [|apply IH].
  apply Z.mod_pos_bound. lia.
Qed.

Lemma word_bytes_le n w : word_le (bytes_le n w) = w mod 256 ^ Z.of_nat n.
Proof.
  revert w. induction n as [|n IH]; intros w.
  - cbn. by rewrite Z.mod_1_r.
  - cbn [bytes_le word_le foldr]. change (foldr _ 0 _) with (word_le (bytes_le n (w / 256))).
    rewrite IH, Nat2Z.inj_succ, Z.pow_succ_r by lia.
    rewrite Z.rem_mul_r by lia. done.
Qed.

Lemma bytes_word_le bs : Forall is_byte bs -> bytes_le (length bs) (word_le bs) = bs.
Proof.
  induction 1 as [|b bs Hb _ IH]; [done|].
  cbn [length bytes_le word_le foldr]. fold (word_le bs).
  rewrite (Z.mul_comm 256). rewrite Z.mod_add, Z.div_add by lia.
  unfold is_byte in Hb. rewrite Z.mod_small, Z.div_small by lia.
  by rewrite Z.add_0_l, IH.
Qed.

Lemma word_le_range bs : Forall is_byte bs -> 0 <= word_le bs < 256 ^ zlen bs.
Proof.
  induction 1 as [|b bs Hb _ IH]; [done|].
  cbn [word_le foldr]. fold (word_le bs). rewrite zlen_cons.
  rewrite Z.pow_add_r by (pose proof (zlen_nonneg bs); lia).
  unfold is_byte in Hb. lia.
Qed.

Lemma length_bytes_be n w : length (bytes_be n w) = n.
Proof. unfold bytes_be. by rewrite length_rev, length_bytes_le. Qed.
Lemma zlen_bytes_be n w : zlen (bytes_be n w) = Z.of_nat n.
Proof. unfold zlen. by rewrite length_bytes_be. Qed.
Lemma bytes_be_byte n w : Forall is_byte (bytes_be n w).
Proof. apply Forall_rev, bytes_le_byte. Qed.

Lemma word_bytes_be n w : word_be (bytes_be n w) = w mod 256 ^ Z.of_nat n.
Proof. unfold word_be, bytes_be. by rewrite rev_involutive, word_bytes_le. Qed.

Lemma bytes_word_be bs : Forall is_byte bs -> bytes_be (length bs) (word_be bs) = bs.
Proof.
  intros Hbs. unfold bytes_be, word_be.
  rewrite <- (length_rev bs), bytes_word_le by by apply Forall_rev.
  apply rev_involutive.
Qed.
#[export] Hint Rewrite zlen_bytes_be : zlen.

(** Storing the swapped word stores network order, on either host. *)
Lemma store_hton e n w : store e n (hton e n w) = bytes_be n w.
Proof.
  destruct e; [|done]. unfold store, hton, bytes_be.
  replace n with (length (rev (bytes_le n w))) at 1 by by rewrite length_rev, length_bytes_le.
  apply bytes_word_le, Forall_rev, bytes_le_byte.
Qed.

Lemma ntoh_fetch e n bs :
  length bs = n -> Forall is_byte bs -> ntoh e n (fetch e bs) = word_be bs.
Proof.
  intros <- Hbs. destruct e; [|done].
  unfold ntoh, hton, fetch, word_be. by rewrite bytes_word_le.
Qed.

(** * Reads and writes at a cursor *)

(** What the encoders write and the decoders read after [pre]. *)
Lemma uint16_encode_at n m c pre old :
  m = pre ++ old -> c = zlen pre -> is_u16 n -> 2 <= zlen old ->
  uint16_encode n m c = Ok ((pre ++ bytes_be 2 n) ++ zdrop 2 old).
Proof.
  intros -> -> Hn Ho. unfold uint16_encode, uint16_encode_on. rewrite store_hton, u16_id by done.
  rewrite (wr_at _ _ pre old); by rewrite ?zlen_bytes_be.
Qed.

Lemma uint32_encode_at n m c pre old :
  m = pre ++ old -> c = zlen pre -> is_u32 n -> 4 <= zlen old ->
  uint32_encode n m c = Ok ((pre ++ bytes_be 4 n) ++ zdrop 4 old).
Proof.
  intros -> -> Hn Ho. unfold uint32_encode, uint32_encode_on. rewrite store_hton, u32_id by done.
  rewrite (wr_at _ _ pre old); by rewrite ?zlen_bytes_be.
Qed.

Lemma uint16_decode_at n m c pre rest :
  m = pre ++ bytes_be 2 n ++ rest -> c = zlen pre -> is_u16 n -> uint16_decode m c = Ok n.
Proof.
  intros -> -> Hn. unfold uint16_decode, uint16_decode_on.
  rewrite (rd_at _ _ pre (bytes_be 2 n) rest) by (done || by rewrite zlen_bytes_be). out_step.
  rewrite ntoh_fetch by (apply length_bytes_be || apply bytes_be_byte).
  rewrite word_bytes_be. f_equal. apply u16_id, Hn.
Qed.

Lemma uint32_decode_at n m c pre rest :
  m = pre ++ bytes_be 4 n ++ rest -> c = zlen pre -> is_u32 n -> uint32_decode m c = Ok n.
Proof.
  intros -> -> Hn. unfold uint32_decode, uint32_decode_on.
  rewrite (rd_at _ _ pre (bytes_be 4 n) rest) by (done || by rewrite zlen_bytes_be). out_step.
  rewrite ntoh_fetch by (apply length_bytes_be || apply bytes_be_byte).
  rewrite word_bytes_be. f_equal. apply u32_id, Hn.
Qed.

#[global] Opaque bytes_le word_le.
