(* ===== verification/World.v ===== *)
(** The environment of the library: the allocator, the clock, the random
    numbers ([utils.c]) and the socket ([network.c]). What the C library and
    the kernel return is given by oracles; how the code uses the results is
    modelled. *)
From S2P Require Import Prelude.
From S2P Require Import Config.
From S2P Require Import Utils.

(** A heap location: the number of the allocation that returned it. *)
Abbreviation loc := nat.

(** One [sendto] call: the bytes, the destination address. *)
Record datagram := Datagram { dg_payload : list Z; dg_addr : list Z }.

(** What the environment answers. *)
Record oracle := Oracle {
  alloc_ok : nat -> bool;           (** does the k-th allocation succeed *)
  timeofday : nat -> Z * Z;         (** the k-th [gettimeofday]: s and us *)
  random : nat -> Z;                (** the k-th [random()] *)
  sendto : nat -> Z;                (** the result of the k-th [sendto] *)
  socket : Z -> Z;                  (** [socket(domain, SOCK_DGRAM, 0)] *)
  fcntl : Z -> Z;                   (** [fcntl(fd, F_SETFL, O_NONBLOCK)] *)
  bind : Z -> list Z -> Z;          (** [bind(fd, addr)] *)
  getsockname : Z -> Z * list Z     (** its result and the bound address *)
}.

(** The oracle, and what was asked of it so far. *)
Record world := World {
  answers : oracle;
  allocs : nat;                     (** allocations made *)
  time_calls : nat;
  random_calls : nat;
  sent : list datagram;             (** [sendto] calls, latest last *)
  inbox : list (list Z * list Z);   (** waiting: payload, sender address *)
  closed : list Z                   (** descriptors closed *)
}.

(** [malloc]/[calloc]: a fresh location, or NULL. *)
Definition malloc : M world (option loc) := fun w =>
  Ok (if alloc_ok (answers w) (allocs w) then Some (allocs w) else None,
      World (answers w) (S (allocs w)) (time_calls w) (random_calls w)
            (sent w) (inbox w) (closed w)).

(** [pt_time]: milliseconds since the epoch, as a [uint64_t]. *)
Definition pt_time : M world Z := fun w =>
  let '(tv_sec, tv_usec) := timeofday (answers w) (time_calls w) in
  Ok (u64 (tv_sec * 1000 + tv_usec / 1000),
      World (answers w) (allocs w) (S (time_calls w)) (random_calls w)
            (sent w) (inbox w) (closed w)).

(** [pt_random]: [random()] truncated to [uint32_t]. *)
Definition pt_random : M world Z := fun w =>
  Ok (u32 (random (answers w) (random_calls w)),
      World (answers w) (allocs w) (time_calls w) (S (random_calls w))
            (sent w) (inbox w) (closed w)).

(** [pt_send_to]: [sendto] on the socket. *)
Definition pt_send_to (fd : Z) (buffer addr : list Z) : M world Z := fun w =>
  Ok (sendto (answers w) (length (sent w)),
      World (answers w) (allocs w) (time_calls w) (random_calls w)
            (sent w ++ [Datagram buffer addr]) (inbox w) (closed w)).

(** [pt_recv_from]: the next datagram, cut to the buffer size; -1 when none
    is waiting (the socket is non-blocking). Returns the result, the bytes
    received and the sender's address. *)
Definition pt_recv_from (fd buffer_size : Z) : M world (Z * list Z * list Z) := fun w =>
  match inbox w with
  | [] => Ok ((-1, [], []), w)
  | (payload, addr) :: rest =>
      let bytes := ztake buffer_size payload in
      Ok ((zlen bytes, bytes, addr),
          World (answers w) (allocs w) (time_calls w) (random_calls w)
                (sent w) rest (closed w))
  end.

Definition pt_close (fd : Z) : M world unit := fun w =>
  Ok (tt, World (answers w) (allocs w) (time_calls w) (random_calls w)
                (sent w) (inbox w) (closed w ++ [fd])).

(** [AF_INET] and [AF_INET6] on Linux; [ss_family] is the first two bytes
    of a socket address, in host order. *)
Definition AF_INET : Z := 2.
Definition AF_INET6 : Z := 10.
Definition ss_family (addr : list Z) : out Z :=
  bs ← rd addr 0 2; mret (fetch host bs).

(** [pt_socket_datagram]: a non-blocking datagram socket bound to the
    address; the descriptor is closed when a step fails. *)
Definition pt_socket_datagram (addr : list Z) : M world Z :=
  domain ← liftO (ss_family addr);
  w ← getS;
  let fd := socket (answers w) domain in
  if fd <? 0 then mret fd
  else
    let fcntl_result := fcntl (answers w) fd in
    if fcntl_result <? 0 then pt_close fd;; mret fcntl_result
    else
      let bind_result := bind (answers w) fd addr in
      if bind_result <? 0 then pt_close fd;; mret bind_result
      else mret fd.

(** [pt_get_sock_name]: the address the socket is bound to. *)
Definition pt_get_sock_name (fd : Z) : M world (Z * list Z) :=
  w ← getS; mret (getsockname (answers w) fd).

(** * What the calls leave unchanged *)

(** The world only moves forward: the oracle is the same, locations are not
    handed out twice. *)
Record world_le (w w' : world) : Prop := WorldLe {
  wle_answers : answers w' = answers w;
  wle_allocs : (allocs w <= allocs w')%nat;
  wle_time : (time_calls w <= time_calls w')%nat
}.

#[export] Instance world_le_preorder : PreOrder world_le.
Proof.
  split.
  - intros w. by split.
  - intros w1 w2 w3 [] []. split; [congruence|lia..].
Qed.

(** What the [k]-th call of [pt_time] returns, and what the calls from here
    on may return. *)
Definition time_at (o : oracle) (k : nat) : Z :=
  let '(tv_sec, tv_usec) := timeofday o k in u64 (tv_sec * 1000 + tv_usec / 1000).

Definition readings (w : world) (t : Z) : Prop :=
  exists k, (time_calls w <= k)%nat /\ t = time_at (answers w) k.

Lemma readings_le w w' t : world_le w w' -> readings w' t -> readings w t.
Proof. intros [Ea _ Ht] (k & Hk & ->). exists k. rewrite Ea. split; [lia|done]. Qed.

(** The host has memory left: no allocation fails. *)
Definition no_oom (w : world) : Prop := forall k, alloc_ok (answers w) k = true.

Lemma no_oom_le w w' : world_le w w' -> no_oom w -> no_oom w'.
Proof. intros [Ha _ _] H k. rewrite Ha. apply H. Qed.

(** * Rules for the calls *)

Section WorldRules.
Context (w : world).

Lemma wp_malloc (Q : option loc -> world -> Prop) :
  (forall w', world_le w w' -> allocs w' = S (allocs w) -> sent w' = sent w ->
     inbox w' = inbox w ->
     Q (if alloc_ok (answers w) (allocs w) then Some (allocs w) else None) w') ->
  wp malloc w Q.
Proof. intros H. apply H; try done. split; cbn; auto. Qed.

Lemma wp_malloc_ok (Q : option loc -> world -> Prop) :
  no_oom w ->
  (forall w', world_le w w' -> allocs w' = S (allocs w) -> sent w' = sent w ->
     inbox w' = inbox w -> Q (Some (allocs w)) w') ->
  wp malloc w Q.
Proof. intros Hm H. apply wp_malloc. intros. rewrite Hm. by apply H. Qed.

Lemma wp_pt_time (Q : Z -> world -> Prop) :
  (forall t w', world_le w w' -> is_u64 t -> allocs w' = allocs w ->
     sent w' = sent w -> inbox w' = inbox w -> Q t w') ->
  wp pt_time w Q.
Proof.
  intros H. unfold wp, pt_time. destruct (timeofday _ _) as [s us].
  apply H; auto using u64_range. split; cbn; auto with arith.
Qed.

Lemma wp_pt_time_at (Q : Z -> world -> Prop) :
  (forall w', world_le w w' -> readings w (time_at (answers w) (time_calls w)) ->
     allocs w' = allocs w -> sent w' = sent w -> inbox w' = inbox w ->
     Q (time_at (answers w) (time_calls w)) w') ->
  wp pt_time w Q.
Proof.
  intros H. unfold wp, pt_time, time_at in *. destruct (timeofday _ _) as [s us] eqn:E.
  apply H; auto; [by split; cbn; auto|]. exists (time_calls w). unfold time_at. by rewrite E.
Qed.

Lemma wp_pt_random (Q : Z -> world -> Prop) :
  (forall w', world_le w w' -> allocs w' = allocs w -> sent w' = sent w ->
     inbox w' = inbox w -> Q (u32 (random (answers w) (random_calls w))) w') ->
  wp pt_random w Q.
Proof. intros H. apply H; auto. by split; cbn. Qed.

Lemma wp_pt_send_to fd buf addr (Q : Z -> world -> Prop) :
  (forall w', world_le w w' -> allocs w' = allocs w -> inbox w' = inbox w ->
     sent w' = sent w ++ [Datagram buf addr] ->
     Q (sendto (answers w) (length (sent w))) w') ->
  wp (pt_send_to fd buf addr) w Q.
Proof. intros H. apply H; auto. by split; cbn. Qed.
End WorldRules.
