(* ===== verification/Member.v ===== *)
(** [member.c]: cluster members, their wire format and the set of known
    members. *)
From S2P Require Import Prelude.
From S2P Require Import Config.
From S2P Require Import Utils.
From S2P Require Import World.

(** * Data *)

(** [cluster_member_t]. [cm_address] is what the pointer gives access to: the
    bytes from it to the end of the object it points into (a NULL or
    dangling pointer gives access to no byte). *)
Record cluster_member := ClusterMember {
  cm_version : Z;
  cm_uid : Z;
  cm_address_len : Z;
  cm_address : list Z
}.

(** A heap cell holding a member: pointer and contents. *)
Record member_cell := MemberCell { cell_ptr : loc; cell_member : cluster_member }.

(** [cluster_member_set_t]: [ms_set] is the allocated array of pointers. *)
Record cluster_member_set := MemberSet {
  ms_set : list (option member_cell);
  ms_size : Z;
  ms_capacity : Z
}.

Definition MEMBERS_INITIAL_CAPACITY : Z := 32.
Definition MEMBERS_EXTENSION_FACTOR : Z := 2.

(** [n >= capacity * MEMBERS_LOAD_FACTOR], the load factor being 0.75: both
    sides are exact in [double]. *)
Definition load_exceeded (n cap : Z) : bool := 3 * cap <=? 4 * n.

(** * Members *)

Definition cluster_member_init (addr : list Z) (addr_len : Z)
    : M world (Z * cluster_member) :=
  now ← pt_time;
  let uid := u32 (now / 1000) in
  p ← malloc;
  match p with
  | None => mret (PITTACUS_ERR_ALLOCATION_FAILED,
                  ClusterMember PROTOCOL_VERSION uid addr_len [])
  | Some _ =>
      bytes ← liftO (rd addr 0 addr_len);
      mret (PITTACUS_ERR_NONE, ClusterMember PROTOCOL_VERSION uid addr_len bytes)
  end.

Definition cluster_member_copy (src : cluster_member) : M world (Z * cluster_member) :=
  p ← malloc;
  match p with
  | None => mret (PITTACUS_ERR_ALLOCATION_FAILED,
                  ClusterMember (cm_version src) (cm_uid src) (cm_address_len src) [])
  | Some _ =>
      bytes ← liftO (rd (cm_address src) 0 (cm_address_len src));
      mret (PITTACUS_ERR_NONE,
            ClusterMember (cm_version src) (cm_uid src) (cm_address_len src) bytes)
  end.

Definition cluster_member_equals (first second : cluster_member) : out bool :=
  if (cm_uid first =? cm_uid second) && (cm_version first =? cm_version second)
     && (cm_address_len first =? cm_address_len second)
  then memcmp_eq (cm_address first) (cm_address second) (cm_address_len first)
  else mret false.

(** Decoding at offset [at_] of the object [m]: the returned [int] and the
    member, [None] when the code returns before filling it. The address is
    not copied: it is a pointer into the buffer. *)
Definition cluster_member_decode (m : list Z) (at_ buffer_size : Z)
    : out (Z * option cluster_member) :=
  if buffer_size <? 2 * sizeof_u32 + sizeof_u16
  then mret (PITTACUS_ERR_BUFFER_NOT_ENOUGH, None)
  else
    let cursor := at_ in
    version ← uint16_decode m cursor;
    let cursor := cursor + sizeof_u16 in
    uid ← uint32_decode m cursor;
    let cursor := cursor + sizeof_u32 in
    address_len ← uint32_decode m cursor;
    let cursor := cursor + sizeof_u32 in
    let address := zdrop cursor m in
    let cursor := cursor + address_len in
    mret (i32 (cursor - at_), Some (ClusterMember version uid address_len address)).

Definition cluster_member_encode (member : cluster_member) (m : list Z)
    (at_ buffer_size : Z) : out (Z * list Z) :=
  if buffer_size <? 2 * sizeof_u32 + sizeof_u16 + cm_address_len member
  then mret (PITTACUS_ERR_BUFFER_NOT_ENOUGH, m)
  else
    let cursor := at_ in
    m ← uint16_encode (cm_version member) m cursor;
    let cursor := cursor + sizeof_u16 in
    m ← uint32_encode (cm_uid member) m cursor;
    let cursor := cursor + sizeof_u32 in
    m ← uint32_encode (cm_address_len member) m cursor;
    let cursor := cursor + sizeof_u32 in
    bytes ← rd (cm_address member) 0 (cm_address_len member);
    m ← wr m cursor bytes;
    let cursor := cursor + cm_address_len member in
    mret (i32 (cursor - at_), m).

(** * The set *)

(** [set[i]] dereferenced: a NULL entry is undefined behaviour. *)
Definition set_cell (members : cluster_member_set) (i : Z) : out member_cell :=
  e ← aread (ms_set members) i;
  match e with Some c => mret c | None => Ub end.

(** The capacity loop of [cluster_member_set_extend]; [uint32_t] doubling
    wraps, so the loop is given fuel. *)
Fixpoint extend_capacity (fuel : nat) (required_size new_capacity : Z) : out Z :=
  if load_exceeded required_size new_capacity then
    match fuel with
    | O => Nofuel
    | S fuel' =>
        extend_capacity fuel' required_size (u32 (new_capacity * MEMBERS_EXTENSION_FACTOR))
    end
  else mret new_capacity.

Definition extend_fuel : nat := 32.

Definition cluster_member_set_extend (members : cluster_member_set) (required_size : Z)
    : M world (option cluster_member_set) :=
  new_capacity ← liftO (extend_capacity extend_fuel required_size (ms_capacity members));
  p ← malloc;
  match p with
  | None => mret None
  | Some _ =>
      new_member_set ← liftO (ofor (Z.to_nat (ms_size members)) 0
        (fun i new_member_set =>
           e ← aread (ms_set members) i;
           match e with
           | Some c => awrite new_member_set i (Some c)
           | None => mret new_member_set
           end)
        (replicate (Z.to_nat new_capacity) None));
      mret (Some (MemberSet new_member_set (ms_size members) new_capacity))
  end.

Definition cluster_member_set_init : M world (Z * option cluster_member_set) :=
  p ← malloc;
  match p with
  | None => mret (PITTACUS_ERR_ALLOCATION_FAILED, None)
  | Some _ =>
      mret (PITTACUS_ERR_NONE,
            Some (MemberSet (replicate (Z.to_nat MEMBERS_INITIAL_CAPACITY) None)
                            0 MEMBERS_INITIAL_CAPACITY))
  end.

(** The search of [cluster_member_set_put]. *)
Definition set_contains (members : cluster_member_set) (current : cluster_member) : out bool :=
  r ← ofind (Z.to_nat (ms_size members)) 0
        (fun i => c ← set_cell members i; cluster_member_equals (cell_member c) current);
  mret (match r with Some _ => true | None => false end).

Fixpoint put_loop (members : cluster_member_set) (new_members : list cluster_member)
    : M world (Z * cluster_member_set) :=
  match new_members with
  | [] => mret (PITTACUS_ERR_NONE, members)
  | current :: rest =>
      exists_ ← liftO (set_contains members current);
      if (exists_ : bool) then put_loop members rest
      else
        p ← malloc;
        match p with
        | None => mret (PITTACUS_ERR_ALLOCATION_FAILED, members)
        | Some new_member =>
            (* the result of cluster_member_copy is ignored by the code *)
            c ← cluster_member_copy current;
            a ← liftO (awrite (ms_set members) (ms_size members)
                              (Some (MemberCell new_member (snd c))));
            put_loop (MemberSet a (u32 (ms_size members + 1)) (ms_capacity members)) rest
        end
  end.

Definition cluster_member_set_put (members : cluster_member_set)
    (new_members : list cluster_member) : M world (Z * cluster_member_set) :=
  let new_size := u32 (ms_size members + zlen new_members) in
  if load_exceeded new_size (ms_capacity members) then
    e ← cluster_member_set_extend members new_size;
    match e with
    | None => mret (PITTACUS_ERR_ALLOCATION_FAILED, members)
    | Some members => put_loop members new_members
    end
  else put_loop members new_members.

(** [cluster_member_set_destroy]: the cells freed, in order. *)
Definition cluster_member_set_destroy (members : cluster_member_set) : out (list loc) :=
  ofor (Z.to_nat (ms_size members)) 0
    (fun i freed =>
       e ← aread (ms_set members) i;
       mret (match e with Some c => freed ++ [cell_ptr c] | None => freed end)) [].

Definition cluster_member_set_shift (members : cluster_member_set) (idx : Z)
    : out cluster_member_set :=
  a ← ofor (Z.to_nat (ms_size members - 1 - idx)) idx
        (fun i a => x ← aread a (i + 1); awrite a i x) (ms_set members);
  mret (MemberSet a (u32 (ms_size members - 1)) (ms_capacity members)).

(** [cluster_member_set_remove]: by the identity of the cell. *)
Definition cluster_member_set_remove (members : cluster_member_set) (member : loc)
    : out (bool * cluster_member_set) :=
  r ← ofind (Z.to_nat (ms_size members)) 0
        (fun i => e ← aread (ms_set members) i;
                  mret (match e with Some c => Nat.eqb (cell_ptr c) member
                                   | None => false end));
  match r with
  | Some i => members' ← cluster_member_set_shift members i; mret (true, members')
  | None => mret (false, members)
  end.

(** The search by address: [memcmp] of [addr_size] bytes. *)
Definition find_addr_idx (members : cluster_member_set) (addr : list Z) (addr_size : Z)
    : out (option Z) :=
  ofind (Z.to_nat (ms_size members)) 0
    (fun i => c ← set_cell members i;
              memcmp_eq (cm_address (cell_member c)) addr addr_size).

Definition cluster_member_set_find_by_addr (members : cluster_member_set)
    (addr : list Z) (addr_size : Z) : out (option member_cell) :=
  r ← find_addr_idx members addr addr_size;
  match r with
  | Some i => c ← set_cell members i; mret (Some c)
  | None => mret None
  end.

Definition cluster_member_set_remove_by_addr (members : cluster_member_set)
    (addr : list Z) (addr_size : Z) : out (bool * cluster_member_set) :=
  r ← find_addr_idx members addr addr_size;
  match r with
  | Some i => members' ← cluster_member_set_shift members i; mret (true, members')
  | None => mret (false, members)
  end.

(** Reservoir sampling: the replacement phase, from [member_idx] on. *)
Fixpoint sample_loop (n : nat) (members : cluster_member_set) (actual member_idx : Z)
    (reservoir : list member_cell) : M world (list member_cell) :=
  match n with
  | O => mret reservoir
  | S n' =>
      r ← pt_random;
      let random_idx := r mod (member_idx + 1) in
      reservoir ←
        (if random_idx <? actual then
           c ← liftO (set_cell members member_idx);
           liftO (awrite reservoir random_idx c)
         else mret reservoir);
      sample_loop n' members actual (member_idx + 1) reservoir
  end.

(** [cluster_member_set_random_members]: the filled part of the reservoir;
    the size returned by the code is its length. *)
Definition cluster_member_set_random_members (members : cluster_member_set)
    (reservoir_size : Z) : M world (list member_cell) :=
  if ms_size members =? 0 then mret []
  else
    let actual := if reservoir_size <? ms_size members then reservoir_size
                  else ms_size members in
    reservoir ← liftO (ofor (Z.to_nat actual) 0
                         (fun i r => c ← set_cell members i; mret (r ++ [c])) []);
    if actual <? ms_size members
    then sample_loop (Z.to_nat (ms_size members - actual)) members actual actual reservoir
    else mret reservoir.
