(* ===== verification/VectorClock.v ===== *)
(** [vector_clock.c]: bounded vector clocks. A clock holds at most
    [MAX_VECTOR_SIZE] records, one per originator; when it is full a new
    originator takes the place of the oldest one, round robin. *)
From S2P Require Import Prelude.
From S2P Require Import Config.
From S2P Require Import Utils.
From S2P Require Import World.
From S2P Require Import Member.

(** * Data *)

Record vector_record := VectorRecord {
  vr_sequence_number : Z;
  vr_member_id : Z
}.

Record vector_clock := VectorClock {
  vc_size : Z;
  vc_current_idx : Z;
  vc_records : list vector_record
}.

Inductive vector_clock_comp_res :=
| VC_BEFORE
| VC_AFTER
| VC_EQUAL
| VC_CONFLICT.

#[export] Instance vector_record_eq_dec : EqDecision vector_record.
Proof. solve_decision. Defined.
#[export] Instance vector_clock_comp_res_eq_dec : EqDecision vector_clock_comp_res.
Proof. solve_decision. Defined.

(** * Operations *)

(** Offsets of [sin_port], [sin_addr], [sin6_port] and [sin6_addr]. *)
Definition SIN_PORT : Z := 2.
Definition SIN_ADDR : Z := 4.
Definition SIN6_PORT : Z := 2.
Definition SIN6_ADDR : Z := 8.

(** Four bytes of the address, two of the port, and the first two bytes of
    the uid in network order. *)
Definition vector_clock_create_member_id (member : cluster_member) : out Z :=
  let addr := cm_address member in
  family ← ss_family addr;
  ip_port ←
    (if family =? AF_INET then
       ip ← rd addr SIN_ADDR 4; port ← rd addr SIN_PORT 2; mret (ip ++ port)
     else
       ip ← rd addr SIN6_ADDR 4; port ← rd addr SIN6_PORT 2; mret (ip ++ port));
  let uid_network := hton host 4 (u32 (cm_uid member)) in
  mret (fetch host (ip_port ++ ztake 2 (store host 4 uid_network))).

Definition vector_clock_find_by_member_id (clock : vector_clock) (member_id : Z) : out Z :=
  r ← ofind (Z.to_nat (vc_size clock)) 0
        (fun i => rec ← aread (vc_records clock) i;
                  mret (vr_member_id rec =? member_id));
  mret (match r with Some i => i | None => PITTACUS_ERR_NOT_FOUND end).

(** The index of the record, [None] for NULL. *)
Definition vector_clock_find_record (clock : vector_clock) (member : cluster_member)
    : out (option Z) :=
  member_id ← vector_clock_create_member_id member;
  idx ← vector_clock_find_by_member_id clock member_id;
  mret (if idx <? 0 then None else Some idx).

Definition vector_clock_init : vector_clock :=
  VectorClock 0 0 (replicate (Z.to_nat MAX_VECTOR_SIZE) (VectorRecord 0 0)).

(** The clock and the index of the record set. *)
Definition vector_clock_set_by_id (clock : vector_clock) (member_id seq_num : Z)
    : out (Z * vector_clock) :=
  idx ← vector_clock_find_by_member_id clock member_id;
  if idx <? 0 then
    let new_idx := vc_current_idx clock in
    records ← awrite (vc_records clock) new_idx (VectorRecord seq_num member_id);
    let size := if vc_size clock <? MAX_VECTOR_SIZE then vc_size clock + 1
                else vc_size clock in
    let current_idx := u16 (vc_current_idx clock + 1) in
    let current_idx := if MAX_VECTOR_SIZE <=? current_idx then 0 else current_idx in
    mret (new_idx, VectorClock size current_idx records)
  else
    rec ← aread (vc_records clock) idx;
    records ← awrite (vc_records clock) idx (VectorRecord seq_num (vr_member_id rec));
    mret (idx, VectorClock (vc_size clock) (vc_current_idx clock) records).

Definition vector_clock_increment (clock : vector_clock) (member : cluster_member)
    : out (option Z * vector_clock) :=
  r ← vector_clock_find_record clock member;
  match r with
  | None => mret (None, clock)
  | Some idx =>
      rec ← aread (vc_records clock) idx;
      records ← awrite (vc_records clock) idx
                  (VectorRecord (u32 (vr_sequence_number rec + 1)) (vr_member_id rec));
      mret (Some idx, VectorClock (vc_size clock) (vc_current_idx clock) records)
  end.

Definition vector_clock_set (clock : vector_clock) (member : cluster_member) (seq_num : Z)
    : out (Z * vector_clock) :=
  member_id ← vector_clock_create_member_id member;
  vector_clock_set_by_id clock member_id seq_num.

Definition vector_clock_record_copy (src : vector_record) : vector_record :=
  VectorRecord (vr_sequence_number src) (vr_member_id src).

(** Only the first [size] records are copied; the rest of [dst] stays. *)
Definition vector_clock_copy (dst src : vector_clock) : out vector_clock :=
  records ← ofor (Z.to_nat (vc_size src)) 0
    (fun i records =>
       rec ← aread (vc_records src) i;
       awrite records i (vector_clock_record_copy rec))
    (vc_records dst);
  mret (VectorClock (vc_size src) (vc_current_idx src) records).

Definition vector_clock_resolve_comp_result (prev new : vector_clock_comp_res)
    : vector_clock_comp_res :=
  if negb (bool_decide (prev = VC_EQUAL)) && negb (bool_decide (new = prev))
  then VC_CONFLICT else new.

Definition vector_clock_compare_with_record (clock : vector_clock) (record : vector_record)
    (merge : bool) : out (vector_clock_comp_res * vector_clock) :=
  idx ← vector_clock_find_by_member_id clock (vr_member_id record);
  if idx <? 0 then
    if merge then
      r ← vector_clock_set_by_id clock (vr_member_id record) (vr_sequence_number record);
      mret (VC_BEFORE, snd r)
    else mret (VC_BEFORE, clock)
  else
    rec ← aread (vc_records clock) idx;
    let first_seq_num := vr_sequence_number rec in
    let second_seq_num := vr_sequence_number record in
    if second_seq_num <? first_seq_num then mret (VC_AFTER, clock)
    else if first_seq_num <? second_seq_num then
      if merge then
        records ← awrite (vc_records clock) idx
                    (VectorRecord second_seq_num (vr_member_id rec));
        mret (VC_BEFORE, VectorClock (vc_size clock) (vc_current_idx clock) records)
      else mret (VC_BEFORE, clock)
    else mret (VC_EQUAL, clock).

(** [1 << n] on [int]: undefined outside [0, 31). *)
Definition shl1 (n : Z) : out Z :=
  if (0 <=? n) && (n <? 31) then mret (Z.shiftl 1 n) else Ub.

(** The state of the first loop of [vector_clock_compare]: the result so
    far, the records of the second clock met, the first clock. *)
Definition compare_step (second : vector_clock) (merge : bool) (i : Z)
    (st : vector_clock_comp_res * Z * vector_clock)
    : out (vector_clock_comp_res * Z * vector_clock) :=
  let '(result, second_visited_idxs, first) := st in
  rec ← aread (vc_records first) i;
  second_idx ← vector_clock_find_by_member_id second (vr_member_id rec);
  if second_idx <? 0 then
    mret (vector_clock_resolve_comp_result result VC_AFTER, second_visited_idxs, first)
  else
    bit ← shl1 second_idx;
    let second_visited_idxs := Z.lor second_visited_idxs bit in
    rec2 ← aread (vc_records second) second_idx;
    let first_seq_num := vr_sequence_number rec in
    let second_seq_num := vr_sequence_number rec2 in
    if second_seq_num <? first_seq_num then
      mret (vector_clock_resolve_comp_result result VC_AFTER, second_visited_idxs, first)
    else if first_seq_num <? second_seq_num then
      let result := vector_clock_resolve_comp_result result VC_BEFORE in
      if merge then
        records ← awrite (vc_records first) i (VectorRecord second_seq_num (vr_member_id rec));
        mret (result, second_visited_idxs,
              VectorClock (vc_size first) (vc_current_idx first) records)
      else mret (result, second_visited_idxs, first)
    else mret (result, second_visited_idxs, first).

(** The merge loop: [for (i = 0; missing_idxs != 0; ++i)]. *)
Fixpoint merge_missing (fuel : nat) (first second : vector_clock) (i missing_idxs : Z)
    : out vector_clock :=
  if missing_idxs =? 0 then mret first
  else match fuel with
  | O => Nofuel
  | S fuel' =>
      first ←
        (if negb (Z.land missing_idxs 1 =? 0) then
           rec ← aread (vc_records second) i;
           r ← vector_clock_set_by_id first (vr_member_id rec) (vr_sequence_number rec);
           mret (snd r)
         else mret first);
      merge_missing fuel' first second (i + 1) (Z.shiftr missing_idxs 1)
  end.

Definition merge_fuel : nat := 32.

Definition vector_clock_compare (first second : vector_clock) (merge : bool)
    : out (vector_clock_comp_res * vector_clock) :=
  st ← ofor (Z.to_nat (vc_size first)) 0 (compare_step second merge) (VC_EQUAL, 0, first);
  let '(result, second_visited_idxs, first) := st in
  bit ← shl1 (vc_size second);
  let second_visited_mask := u32 (bit - 1) in
  let missing_idxs := Z.lxor second_visited_idxs second_visited_mask in
  if missing_idxs =? 0 then mret (result, first)
  else
    let result := vector_clock_resolve_comp_result result VC_BEFORE in
    if merge then
      first ← merge_missing merge_fuel first second 0 missing_idxs;
      mret (result, first)
    else mret (result, first).

(** * Wire format *)

Definition vector_clock_record_decode (m : list Z) (at_ buffer_size : Z)
    : out (Z * option vector_record) :=
  if buffer_size <? VECTOR_RECORD_SIZE then mret (PITTACUS_ERR_BUFFER_NOT_ENOUGH, None)
  else
    let cursor := at_ in
    sequence_number ← uint32_decode m cursor;
    let cursor := cursor + sizeof_u32 in
    bytes ← rd m cursor MEMBER_ID_SIZE;
    let cursor := cursor + MEMBER_ID_SIZE in
    mret (i32 (cursor - at_), Some (VectorRecord sequence_number (fetch host bytes))).

Definition vector_clock_record_encode (record : vector_record) (m : list Z)
    (at_ buffer_size : Z) : out (Z * list Z) :=
  if buffer_size <? VECTOR_RECORD_SIZE then mret (PITTACUS_ERR_BUFFER_NOT_ENOUGH, m)
  else
    let cursor := at_ in
    m ← uint32_encode (vr_sequence_number record) m cursor;
    let cursor := cursor + sizeof_u32 in
    m ← wr m cursor (store host 8 (vr_member_id record));
    let cursor := cursor + MEMBER_ID_SIZE in
    mret (i32 (cursor - at_), m).

(** The record loop of [vector_clock_decode], from index [i] on: the final
    cursor and the records, or the error returned. *)
Fixpoint decode_records (n : nat) (i : Z) (m : list Z) (cursor buffer_end : Z)
    (records : list vector_record) : out (Z + Z * list vector_record) :=
  match n with
  | O => mret (inr (cursor, records))
  | S n' =>
      r ← vector_clock_record_decode m cursor (u64 (buffer_end - cursor));
      match r with
      | (decode_result, Some rec) =>
          (* the code fills result->records[i] directly *)
          records ← awrite records i rec;
          if decode_result <? 0 then mret (inl decode_result)
          else decode_records n' (i + 1) m (cursor + VECTOR_RECORD_SIZE) buffer_end records
      | (decode_result, None) => mret (inl decode_result)
      end
  end.

(** [result] is the clock the caller supplies. *)
Definition vector_clock_decode (m : list Z) (at_ buffer_size : Z) (result : vector_clock)
    : out (Z * option vector_clock) :=
  let cursor := at_ in
  let buffer_end := at_ + buffer_size in
  size ← uint16_decode m cursor;
  let cursor := cursor + sizeof_u16 in
  if u64 (buffer_end - cursor) <? size * VECTOR_RECORD_SIZE
  then mret (PITTACUS_ERR_BUFFER_NOT_ENOUGH, None)
  else
    r ← decode_records (Z.to_nat size) 0 m cursor buffer_end (vc_records result);
    match r with
    | inl e => mret (e, None)
    | inr (cursor, records) =>
        mret (i32 (cursor - at_), Some (VectorClock size 0 records))
    end.

(** The record loop of [vector_clock_encode]. *)
Fixpoint encode_records (n : nat) (i : Z) (clock : vector_clock) (m : list Z)
    (cursor buffer_end : Z) : out (Z + Z * list Z) :=
  match n with
  | O => mret (inr (cursor, m))
  | S n' =>
      rec ← aread (vc_records clock) i;
      r ← vector_clock_record_encode rec m cursor (u64 (buffer_end - cursor));
      let '(encode_result, m) := r in
      if encode_result <? 0 then mret (inl encode_result)
      else encode_records n' (i + 1) clock m (cursor + encode_result) buffer_end
  end.

Definition vector_clock_encode (clock : vector_clock) (m : list Z) (at_ buffer_size : Z)
    : out (Z * list Z) :=
  if buffer_size <? sizeof_u16 + vc_size clock * VECTOR_RECORD_SIZE
  then mret (PITTACUS_ERR_BUFFER_NOT_ENOUGH, m)
  else
    let cursor := at_ in
    let buffer_end := at_ + buffer_size in
    m ← uint16_encode (vc_size clock) m cursor;
    let cursor := cursor + sizeof_u16 in
    r ← encode_records (Z.to_nat (vc_size clock)) 0 clock m cursor buffer_end;
    match r with
    | inl e => mret (e, m)
    | inr (cursor, m) => mret (i32 (cursor - at_), m)
    end.
