(* ===== verification/Messages.v ===== *)
(** [messages.c]: the six messages of the protocol, their encoders and
    decoders. A buffer is the object [m] from the pointer the code passes;
    [buffer_size] is the size the code passes with it. *)
From S2P Require Import Prelude.
From S2P Require Import Config.
From S2P Require Import Utils.
From S2P Require Import World.
From S2P Require Import Member.
From S2P Require Import VectorClock.

(** * Data *)

Record message_header := MessageHeader {
  mh_protocol_id : list Z;
  mh_message_type : Z;
  mh_reserved : Z;
  mh_sequence_num : Z
}.

Record message_hello := MessageHello {
  hello_header : message_header;
  hello_this_member : cluster_member
}.

Record message_welcome := MessageWelcome {
  welcome_header : message_header;
  welcome_hello_sequence_num : Z;
  welcome_this_member : cluster_member
}.

(** [members_n] members are read from the array [members]. *)
Record message_member_list := MessageMemberList {
  ml_header : message_header;
  ml_members_n : Z;
  ml_members : list cluster_member
}.

Record message_ack := MessageAck {
  ack_header : message_header;
  ack_ack_sequence_num : Z
}.

(** [data] is what the pointer gives access to (see [cm_address]). *)
Record message_data := MessageData {
  data_header : message_header;
  data_data_version : vector_record;
  data_data_size : Z;
  data_data : list Z
}.

Record message_status := MessageStatus {
  status_header : message_header;
  status_data_version : vector_clock
}.

(** The bytes of "ptcs" and the terminating zero. *)
Definition PROTOCOL_ID : list Z := [112; 116; 99; 115; 0].

(** * Header *)

Definition message_type_decode (m : list Z) (buffer_size : Z) : out Z :=
  if buffer_size <? sizeof_message_header then mret PITTACUS_ERR_BUFFER_NOT_ENOUGH
  else aread m PROTOCOL_ID_LENGTH.

Definition message_is_payload_valid (m : list Z) (buffer_size type : Z) : out bool :=
  t ← message_type_decode m buffer_size;
  if t =? type then memcmp_eq m PROTOCOL_ID PROTOCOL_ID_LENGTH else mret false.

Definition message_header_init (message_type sequence_number : Z) : message_header :=
  MessageHeader PROTOCOL_ID message_type 0 sequence_number.

Definition message_header_encode (msg : message_header) (m : list Z) (buffer_size : Z)
    : out (Z * list Z) :=
  if buffer_size <? sizeof_message_header
  then mret (PITTACUS_ERR_BUFFER_NOT_ENOUGH, m)
  else
    id ← rd (mh_protocol_id msg) 0 PROTOCOL_ID_LENGTH;
    m ← wr m 0 id;
    let cursor := PROTOCOL_ID_LENGTH in
    m ← awrite m cursor (mh_message_type msg);
    let cursor := cursor + 1 in
    m ← uint16_encode (mh_reserved msg) m cursor;
    let cursor := cursor + sizeof_u16 in
    m ← uint32_encode (mh_sequence_num msg) m cursor;
    mret (sizeof_message_header, m).

Definition message_header_decode (m : list Z) (buffer_size : Z)
    : out (Z * option message_header) :=
  if buffer_size <? sizeof_message_header
  then mret (PITTACUS_ERR_BUFFER_NOT_ENOUGH, None)
  else
    id ← rd m 0 PROTOCOL_ID_LENGTH;
    let cursor := PROTOCOL_ID_LENGTH in
    message_type ← aread m cursor;
    let cursor := cursor + 1 in
    reserved ← uint16_decode m cursor;
    let cursor := cursor + sizeof_u16 in
    sequence_num ← uint32_decode m cursor;
    mret (sizeof_message_header,
          Some (MessageHeader id message_type reserved sequence_num)).

(** The header a decoder goes on with: the decoders have checked the size,
    so the header decoder does not fail there; a failure would leave the
    header unset, reading which is undefined. *)
Definition header_of (r : Z * option message_header) : out (Z * message_header) :=
  match r with (n, Some h) => mret (n, h) | (_, None) => Ub end.

(** Decoders allocate through the environment and return the [int] and the
    message, [None] when they return an error before completing it. *)
Definition decoder (T : Type) : Type := list Z -> Z -> M world (Z * option T).

(** * Hello *)

Definition message_hello_decode : decoder message_hello := fun m buffer_size =>
  valid ← liftO (message_is_payload_valid m buffer_size MESSAGE_HELLO_TYPE);
  if negb valid then mret (PITTACUS_ERR_INVALID_MESSAGE, None)
  else
    let min_size := sizeof_message_header + sizeof_cluster_member - sizeof_pointer in
    if buffer_size <? min_size then mret (PITTACUS_ERR_BUFFER_NOT_ENOUGH, None)
    else
      h ← liftO (message_header_decode m buffer_size ≫= header_of);
      p ← malloc;
      match p with
      | None => mret (PITTACUS_ERR_ALLOCATION_FAILED, None)
      | Some _ =>
          r ← liftO (cluster_member_decode m sizeof_message_header
                       (u64 (buffer_size - sizeof_message_header)));
          match r with
          | (member_bytes, Some this_member) =>
              if member_bytes <? 0 then mret (member_bytes, None)
              else mret (i32 (sizeof_message_header + member_bytes),
                         Some (MessageHello (snd h) this_member))
          | (member_bytes, None) => mret (member_bytes, None)
          end
      end.

Definition message_hello_encode (msg : message_hello) (m : list Z) (buffer_size : Z)
    : out (Z * list Z) :=
  let expected_size := sizeof_message_header + sizeof_cluster_member - sizeof_pointer
                       + cm_address_len (hello_this_member msg) in
  if buffer_size <? expected_size then mret (PITTACUS_ERR_BUFFER_NOT_ENOUGH, m)
  else
    r ← message_header_encode (hello_header msg) m buffer_size;
    let '(encode_result, m) := r in
    if encode_result <? 0 then mret (encode_result, m)
    else
      let cursor := encode_result in
      let buffer_end := buffer_size in
      r ← cluster_member_encode (hello_this_member msg) m cursor
            (u64 (buffer_end - cursor));
      let '(n, m) := r in
      mret (i32 (cursor + n), m).

(** * Welcome *)

Definition message_welcome_decode : decoder message_welcome := fun m buffer_size =>
  valid ← liftO (message_is_payload_valid m buffer_size MESSAGE_WELCOME_TYPE);
  if negb valid then mret (PITTACUS_ERR_INVALID_MESSAGE, None)
  else
    let min_size := sizeof_message_header + sizeof_u32
                    + sizeof_cluster_member - sizeof_pointer in
    if buffer_size <? min_size then mret (PITTACUS_ERR_BUFFER_NOT_ENOUGH, None)
    else
      h ← liftO (message_header_decode m buffer_size ≫= header_of);
      let cursor := fst h in
      let buffer_end := buffer_size in
      hello_sequence_num ← liftO (uint32_decode m cursor);
      let cursor := cursor + sizeof_u32 in
      p ← malloc;
      match p with
      | None => mret (PITTACUS_ERR_ALLOCATION_FAILED, None)
      | Some _ =>
          r ← liftO (cluster_member_decode m cursor (u64 (buffer_end - cursor)));
          match r with
          | (decode_result, Some this_member) =>
              if decode_result <? 0 then mret (decode_result, None)
              else mret (i32 (cursor + decode_result),
                         Some (MessageWelcome (snd h) hello_sequence_num this_member))
          | (decode_result, None) => mret (decode_result, None)
          end
      end.

Definition message_welcome_encode (msg : message_welcome) (m : list Z) (buffer_size : Z)
    : out (Z * list Z) :=
  let expected_size := sizeof_message_header + sizeof_u32 + sizeof_cluster_member
                       - sizeof_pointer + cm_address_len (welcome_this_member msg) in
  if buffer_size <? expected_size then mret (PITTACUS_ERR_BUFFER_NOT_ENOUGH, m)
  else
    r ← message_header_encode (welcome_header msg) m buffer_size;
    let '(encode_result, m) := r in
    let cursor := encode_result in
    m ← uint32_encode (welcome_hello_sequence_num msg) m cursor;
    let cursor := cursor + sizeof_u32 in
    let buffer_end := buffer_size in
    r ← cluster_member_encode (welcome_this_member msg) m cursor
          (u64 (buffer_end - cursor));
    let '(n, m) := r in
    mret (i32 (cursor + n), m).

(** * Data *)

Definition message_data_decode (m : list Z) (buffer_size : Z)
    : out (Z * option message_data) :=
  valid ← message_is_payload_valid m buffer_size MESSAGE_DATA_TYPE;
  if negb valid then mret (PITTACUS_ERR_INVALID_MESSAGE, None)
  else
    let buffer_end := buffer_size in
    r ← message_header_decode m buffer_size;
    match r with
    | (decode_result, None) => mret (decode_result, None)
    | (decode_result, Some header) =>
        let cursor := decode_result in
        r ← vector_clock_record_decode m cursor (u64 (buffer_end - cursor));
        match r with
        | (decode_result, None) => mret (decode_result, None)
        | (decode_result, Some data_version) =>
            let cursor := cursor + decode_result in
            data_size ← uint16_decode m cursor;
            let cursor := cursor + sizeof_u16 in
            let base_size := sizeof_message_header + VECTOR_RECORD_SIZE + sizeof_u16 in
            let expected_size := base_size + data_size in
            if negb (buffer_size =? expected_size)
            then mret (PITTACUS_ERR_BUFFER_NOT_ENOUGH, None)
            else
              let data := if 0 <? data_size then zdrop cursor m else [] in
              let cursor := cursor + data_size in
              mret (i32 cursor, Some (MessageData header data_version data_size data))
        end
    end.

Definition message_data_encode (msg : message_data) (m : list Z) (buffer_size : Z)
    : out (Z * list Z) :=
  let min_size := sizeof_message_header + VECTOR_RECORD_SIZE + sizeof_u16
                  + data_data_size msg in
  if buffer_size <? min_size then mret (PITTACUS_ERR_BUFFER_NOT_ENOUGH, m)
  else
    let buffer_end := buffer_size in
    r ← message_header_encode (data_header msg) m buffer_size;
    let '(encode_result, m) := r in
    if encode_result <? 0 then mret (encode_result, m)
    else
      let cursor := encode_result in
      r ← vector_clock_record_encode (data_data_version msg) m cursor
            (u64 (buffer_end - cursor));
      let '(encode_result, m) := r in
      if encode_result <? 0 then mret (encode_result, m)
      else
        let cursor := cursor + encode_result in
        m ← uint16_encode (data_data_size msg) m cursor;
        let cursor := cursor + sizeof_u16 in
        bytes ← rd (data_data msg) 0 (data_data_size msg);
        m ← wr m cursor bytes;
        let cursor := cursor + data_data_size msg in
        mret (i32 cursor, m).

(** * Member list *)

(** The member loop of the decoder: the final cursor and the members, or
    the error returned. *)
Fixpoint decode_members (n : nat) (m : list Z) (cursor buffer_end : Z)
    : out (Z + Z * list cluster_member) :=
  match n with
  | O => mret (inr (cursor, []))
  | S n' =>
      r ← cluster_member_decode m cursor (u64 (buffer_end - cursor));
      match r with
      | (decode_result, None) => mret (inl decode_result)
      | (decode_result, Some member) =>
          if decode_result <? 0 then mret (inl decode_result)
          else
            r ← decode_members n' m (cursor + decode_result) buffer_end;
            match r with
            | inl e => mret (inl e)
            | inr (cursor, members) => mret (inr (cursor, member :: members))
            end
      end
  end.

Definition message_member_list_decode : decoder message_member_list := fun m buffer_size =>
  valid ← liftO (message_is_payload_valid m buffer_size MESSAGE_MEMBER_LIST_TYPE);
  if negb valid then mret (PITTACUS_ERR_INVALID_MESSAGE, None)
  else if buffer_size <? sizeof_message_header + sizeof_u16
  then mret (PITTACUS_ERR_BUFFER_NOT_ENOUGH, None)
  else
    let buffer_end := buffer_size in
    r ← liftO (message_header_decode m buffer_size);
    match r with
    | (decode_result, None) => mret (decode_result, None)
    | (decode_result, Some header) =>
        let cursor := decode_result in
        members_n ← liftO (uint16_decode m cursor);
        let cursor := cursor + sizeof_u16 in
        p ← malloc;
        match p with
        | None => mret (PITTACUS_ERR_ALLOCATION_FAILED, None)
        | Some _ =>
            r ← liftO (decode_members (Z.to_nat members_n) m cursor buffer_end);
            match r with
            | inl e => mret (e, None)
            | inr (cursor, members) =>
                mret (i32 cursor, Some (MessageMemberList header members_n members))
            end
        end
    end.

(** The member loop of the encoder: the result of each call is added to the
    cursor, whatever it is. *)
Fixpoint encode_members (n : nat) (i : Z) (members : list cluster_member) (m : list Z)
    (cursor buffer_end : Z) : out (Z * list Z) :=
  match n with
  | O => mret (cursor, m)
  | S n' =>
      member ← aread members i;
      r ← cluster_member_encode member m cursor (u64 (buffer_end - cursor));
      let '(result, m) := r in
      encode_members n' (i + 1) members m (cursor + result) buffer_end
  end.

Definition message_member_list_encode (msg : message_member_list) (m : list Z)
    (buffer_size : Z) : out (Z * list Z) :=
  let expected_size := sizeof_message_header + sizeof_u16 in
  let expected_size := u32 (expected_size + ml_members_n msg * CLUSTER_MEMBER_SIZE) in
  if buffer_size <? expected_size then mret (PITTACUS_ERR_BUFFER_NOT_ENOUGH, m)
  else
    r ← message_header_encode (ml_header msg) m buffer_size;
    let '(encode_result, m) := r in
    if encode_result <? 0 then mret (encode_result, m)
    else
      let cursor := encode_result in
      m ← uint16_encode (ml_members_n msg) m cursor;
      let cursor := cursor + sizeof_u16 in
      let buffer_end := buffer_size in
      r ← encode_members (Z.to_nat (ml_members_n msg)) 0 (ml_members msg) m cursor
            buffer_end;
      let '(cursor, m) := r in
      mret (i32 cursor, m).

(** * Acknowledgement *)

Definition message_ack_decode (m : list Z) (buffer_size : Z) : out (Z * option message_ack) :=
  valid ← message_is_payload_valid m buffer_size MESSAGE_ACK_TYPE;
  if negb valid then mret (PITTACUS_ERR_INVALID_MESSAGE, None)
  else if buffer_size <? sizeof_message_header + sizeof_u32
  then mret (PITTACUS_ERR_BUFFER_NOT_ENOUGH, None)
  else
    r ← message_header_decode m buffer_size;
    match r with
    | (_, None) => mret (PITTACUS_ERR_BUFFER_NOT_ENOUGH, None)
    | (_, Some header) =>
        let cursor := sizeof_message_header in
        ack_sequence_num ← uint32_decode m cursor;
        let cursor := cursor + sizeof_u32 in
        mret (i32 cursor, Some (MessageAck header ack_sequence_num))
    end.

Definition message_ack_encode (msg : message_ack) (m : list Z) (buffer_size : Z)
    : out (Z * list Z) :=
  if buffer_size <? sizeof_message_header + sizeof_u32
  then mret (PITTACUS_ERR_BUFFER_NOT_ENOUGH, m)
  else
    r ← message_header_encode (ack_header msg) m buffer_size;
    let '(encode_result, m) := r in
    if encode_result <? 0 then mret (encode_result, m)
    else
      let cursor := encode_result in
      m ← uint32_encode (ack_ack_sequence_num msg) m cursor;
      let cursor := cursor + sizeof_u32 in
      mret (i32 cursor, m).

(** * Status *)

(** The clock the message is decoded into is an uninitialised local
    variable of the caller: [vector_clock_init] stands for its contents,
    which are not read before they are written. *)
Definition message_status_decode (m : list Z) (buffer_size : Z)
    : out (Z * option message_status) :=
  valid ← message_is_payload_valid m buffer_size MESSAGE_STATUS_TYPE;
  if negb valid then mret (PITTACUS_ERR_INVALID_MESSAGE, None)
  else if buffer_size <? sizeof_message_header + sizeof_u16
  then mret (PITTACUS_ERR_BUFFER_NOT_ENOUGH, None)
  else
    let buffer_end := buffer_size in
    r ← message_header_decode m buffer_size;
    match r with
    | (_, None) => mret (PITTACUS_ERR_BUFFER_NOT_ENOUGH, None)
    | (_, Some header) =>
        let cursor := sizeof_message_header in
        r ← vector_clock_decode m cursor (u64 (buffer_end - cursor)) vector_clock_init;
        match r with
        | (decode_result, None) => mret (decode_result, None)
        | (decode_result, Some data_version) =>
            if decode_result <? 0 then mret (decode_result, None)
            else
              let cursor := cursor + decode_result in
              mret (i32 cursor, Some (MessageStatus header data_version))
        end
    end.

Definition message_status_encode (msg : message_status) (m : list Z) (buffer_size : Z)
    : out (Z * list Z) :=
  let expected_size := u32 (sizeof_message_header + sizeof_u16
                            + vc_size (status_data_version msg) * VECTOR_RECORD_SIZE) in
  if buffer_size <? expected_size then mret (PITTACUS_ERR_BUFFER_NOT_ENOUGH, m)
  else
    r ← message_header_encode (status_header msg) m buffer_size;
    let '(encode_result, m) := r in
    if encode_result <? 0 then mret (encode_result, m)
    else
      let cursor := encode_result in
      let buffer_end := buffer_size in
      r ← vector_clock_encode (status_data_version msg) m cursor
            (u64 (buffer_end - cursor));
      let '(encode_result, m) := r in
      if encode_result <? 0 then mret (encode_result, m)
      else
        let cursor := cursor + encode_result in
        mret (i32 cursor, m).
