(* ===== verification/Memory.v ===== *)
(** The memory of members: [member.c] and the decoders and destructors of
    [messages.c] once more, on a heap of blocks, with pointers instead of
    values and with [free]. The functions have the names of the code with
    [_m] appended; those of [Member] and [Messages], which the rest of the
    development uses, are proved to compute the same in [MemoryProps]. *)
From S2P Require Import Prelude.
From S2P Require Import Config.
From S2P Require Import Utils.
From S2P Require Import World.
From S2P Require Import Member.
From S2P Require Import Messages.

(** * Blocks *)

(** A pointer to a socket address: to an allocated block, or into the buffer
    of the received datagram. *)
Inductive pointer := Null | Heap (l : loc) | Buffer (at_ : Z).

(** [cluster_member_t], with the pointer. *)
Record cluster_member_t := MemberT {
  mt_version : Z;
  mt_uid : Z;
  mt_address_len : Z;
  mt_address : pointer
}.

(** An allocated block: members in a row, [None] where nothing was written
    yet; the bytes of an address; the array of a set. *)
Inductive block :=
| MembersBlock (ms : list (option cluster_member_t))
| AddressBlock (bytes : list Z)
| TableBlock (table : list (option loc)).

#[export] Instance pointer_eq_dec : EqDecision pointer.
Proof. solve_decision. Defined.
#[export] Instance cluster_member_t_eq_dec : EqDecision cluster_member_t.
Proof. solve_decision. Defined.
#[export] Instance block_eq_dec : EqDecision block.
Proof. solve_decision. Defined.

(** The blocks that are allocated, the buffer of the received datagram, and
    the environment. *)
Record memory := Memory {
  me_heap : gmap loc block;
  me_buffer : list Z;
  me_world : world
}.

Abbreviation MM := (M memory).

(** [malloc]: a location, where the block is put. *)
Definition malloc_m (b : block) : MM (option loc) := fun s =>
  match malloc (me_world s) with
  | Ok (Some l, w) => Ok (Some l, Memory (<[l := b]> (me_heap s)) (me_buffer s) w)
  | Ok (None, w) => Ok (None, Memory (me_heap s) (me_buffer s) w)
  | Ub => Ub
  | Nofuel => Nofuel
  end.

(** [free]: of an allocated block, or of NULL; a pointer into the buffer must
    not be freed. *)
Definition free_m (l : loc) : MM unit := fun s =>
  match me_heap s !! l with
  | Some _ => Ok (tt, Memory (delete l (me_heap s)) (me_buffer s) (me_world s))
  | None => Ub
  end.

Definition free_pointer (p : pointer) : MM unit :=
  match p with Null => mret tt | Heap l => free_m l | Buffer _ => ubS end.

Definition store_m (l : loc) (b : block) : MM unit := fun s =>
  match me_heap s !! l with
  | Some _ => Ok (tt, Memory (<[l := b]> (me_heap s)) (me_buffer s) (me_world s))
  | None => Ub
  end.

(** Reading the [i]-th member of a block, or the array of a set. *)
Definition load_member (l : loc) (i : Z) : MM cluster_member_t := fun s =>
  match me_heap s !! l with
  | Some (MembersBlock ms) =>
      match aread ms i with Ok (Some m) => Ok (m, s) | _ => Ub end
  | _ => Ub
  end.

Definition load_table (l : loc) : MM (list (option loc)) := fun s =>
  match me_heap s !! l with Some (TableBlock t) => Ok (t, s) | _ => Ub end.

(** Writing the [i]-th member. *)
Definition store_member (l : loc) (i : Z) (m : cluster_member_t) : MM unit := fun s =>
  match me_heap s !! l with
  | Some (MembersBlock ms) =>
      match awrite ms i (Some m) with
      | Ok ms' => store_m l (MembersBlock ms') s
      | _ => Ub
      end
  | _ => Ub
  end.

(** The bytes a pointer gives access to. *)
Definition addressed (s : memory) (p : pointer) : list Z :=
  match p with
  | Null => []
  | Heap l => match me_heap s !! l with Some (AddressBlock bs) => bs | _ => [] end
  | Buffer at_ => zdrop at_ (me_buffer s)
  end.

(** The member as the value that the other files work with. *)
Definition member_of (s : memory) (m : cluster_member_t) : cluster_member :=
  ClusterMember (mt_version m) (mt_uid m) (mt_address_len m) (addressed s (mt_address m)).

(** * Members *)

Definition cluster_member_copy_m (dst : loc) (src : cluster_member_t) : MM Z :=
  p ← malloc_m (AddressBlock []);
  match p with
  | None =>
      store_member dst 0 (MemberT (mt_version src) (mt_uid src) (mt_address_len src) Null);;
      mret PITTACUS_ERR_ALLOCATION_FAILED
  | Some a =>
      store_member dst 0 (MemberT (mt_version src) (mt_uid src) (mt_address_len src) (Heap a));;
      s ← getS;
      bytes ← liftO (rd (addressed s (mt_address src)) 0 (mt_address_len src));
      store_m a (AddressBlock bytes);;
      mret PITTACUS_ERR_NONE
  end.

Definition cluster_member_equals_m (first second : cluster_member_t) : MM bool :=
  s ← getS;
  if (mt_uid first =? mt_uid second) && (mt_version first =? mt_version second)
     && (mt_address_len first =? mt_address_len second)
  then liftO (memcmp_eq (addressed s (mt_address first)) (addressed s (mt_address second))
                (mt_address_len first))
  else mret false.

Definition cluster_member_destroy_m (result : cluster_member_t) : MM unit :=
  free_pointer (mt_address result).

(** The address is left in the buffer. *)
Definition cluster_member_decode_m (at_ buffer_size : Z) : MM (Z * option cluster_member_t) :=
  s ← getS;
  if buffer_size <? 2 * sizeof_u32 + sizeof_u16
  then mret (PITTACUS_ERR_BUFFER_NOT_ENOUGH, None)
  else
    let cursor := at_ in
    version ← liftO (uint16_decode (me_buffer s) cursor);
    let cursor := cursor + sizeof_u16 in
    uid ← liftO (uint32_decode (me_buffer s) cursor);
    let cursor := cursor + sizeof_u32 in
    address_len ← liftO (uint32_decode (me_buffer s) cursor);
    let cursor := cursor + sizeof_u32 in
    let address := Buffer cursor in
    let cursor := cursor + address_len in
    mret (i32 (cursor - at_), Some (MemberT version uid address_len address)).

(** * The set *)

(** [cluster_member_set_t]: [st_set] points to the array. *)
Record cluster_member_set_t := SetT {
  st_set : loc;
  st_size : Z;
  st_capacity : Z
}.

Definition cluster_member_set_init_m : MM (Z * option cluster_member_set_t) :=
  p ← malloc_m (TableBlock (replicate (Z.to_nat MEMBERS_INITIAL_CAPACITY) None));
  match p with
  | None => mret (PITTACUS_ERR_ALLOCATION_FAILED, None)
  | Some member_set => mret (PITTACUS_ERR_NONE, Some (SetT member_set 0 MEMBERS_INITIAL_CAPACITY))
  end.

Definition cluster_member_set_extend_m (members : cluster_member_set_t) (required_size : Z)
    : MM (option cluster_member_set_t) :=
  new_capacity ← liftO (extend_capacity extend_fuel required_size (st_capacity members));
  p ← malloc_m (TableBlock (replicate (Z.to_nat new_capacity) None));
  match p with
  | None => mret None
  | Some new_member_set =>
      set ← load_table (st_set members);
      table ← liftO (ofor (Z.to_nat (st_size members)) 0
        (fun i table =>
           e ← aread set i;
           match e with
           | Some c => awrite table i (Some c)
           | None => mret table
           end)
        (replicate (Z.to_nat new_capacity) None));
      store_m new_member_set (TableBlock table);;
      free_m (st_set members);;
      mret (Some (SetT new_member_set (st_size members) new_capacity))
  end.

(** [set[i]] and its member; a NULL entry must not be dereferenced. *)
Definition set_entry (members : cluster_member_set_t) (i : Z) : MM (loc * cluster_member_t) :=
  table ← load_table (st_set members);
  e ← liftO (aread table i);
  match e with
  | Some l => m ← load_member l 0; mret (l, m)
  | None => ubS
  end.

(** [for (i = 0; i < n; ++i) if (p(i)) break] with reads of the memory. *)
Fixpoint find_m (n : nat) (i : Z) (p : Z -> MM bool) : MM (option Z) :=
  match n with
  | O => mret None
  | S n' => b ← p i; if (b : bool) then mret (Some i) else find_m n' (i + 1) p
  end.

(** The loop over the new members: [new_members[j]] on. *)
Fixpoint put_loop_m (n : nat) (members : cluster_member_set_t) (new_members : loc) (j : Z)
    : MM (Z * cluster_member_set_t) :=
  match n with
  | O => mret (PITTACUS_ERR_NONE, members)
  | S n' =>
      r ← find_m (Z.to_nat (st_size members)) 0
            (fun i => c ← set_entry members i;
                      current ← load_member new_members j;
                      cluster_member_equals_m (snd c) current);
      match r with
      | Some _ => put_loop_m n' members new_members (j + 1)
      | None =>
          p ← malloc_m (MembersBlock [None]);
          match p with
          | None => mret (PITTACUS_ERR_ALLOCATION_FAILED, members)
          | Some new_member =>
              current ← load_member new_members j;
              _ ← cluster_member_copy_m new_member current;
              table ← load_table (st_set members);
              table ← liftO (awrite table (st_size members) (Some new_member));
              store_m (st_set members) (TableBlock table);;
              put_loop_m n' (SetT (st_set members) (u32 (st_size members + 1)) (st_capacity members))
                new_members (j + 1)
          end
      end
  end.

Definition cluster_member_set_put_m (members : cluster_member_set_t) (new_members : loc)
    (new_members_size : Z) : MM (Z * cluster_member_set_t) :=
  let new_size := u32 (st_size members + new_members_size) in
  if load_exceeded new_size (st_capacity members) then
    e ← cluster_member_set_extend_m members new_size;
    match e with
    | None => mret (PITTACUS_ERR_ALLOCATION_FAILED, members)
    | Some members => put_loop_m (Z.to_nat new_members_size) members new_members 0
    end
  else put_loop_m (Z.to_nat new_members_size) members new_members 0.

Definition cluster_member_set_item_destroy_m (member : option loc) : MM unit :=
  match member with
  | None => mret tt
  | Some l => m ← load_member l 0; cluster_member_destroy_m m;; free_m l
  end.

(** The loop of [cluster_member_set_destroy]. *)
Fixpoint destroy_items (n : nat) (i : Z) (members : cluster_member_set_t) : MM unit :=
  match n with
  | O => mret tt
  | S n' =>
      table ← load_table (st_set members);
      e ← liftO (aread table i);
      cluster_member_set_item_destroy_m e;;
      destroy_items n' (i + 1) members
  end.

Definition cluster_member_set_destroy_m (members : cluster_member_set_t) : MM unit :=
  destroy_items (Z.to_nat (st_size members)) 0 members;;
  free_m (st_set members).

Definition cluster_member_set_shift_m (members : cluster_member_set_t) (idx : Z)
    : MM cluster_member_set_t :=
  table ← load_table (st_set members);
  table ← liftO (ofor (Z.to_nat (st_size members - 1 - idx)) idx
            (fun i a => x ← aread a (i + 1); awrite a i x) table);
  store_m (st_set members) (TableBlock table);;
  mret (SetT (st_set members) (u32 (st_size members - 1)) (st_capacity members)).

Definition cluster_member_set_remove_m (members : cluster_member_set_t) (member : loc)
    : MM (bool * cluster_member_set_t) :=
  table ← load_table (st_set members);
  r ← liftO (ofind (Z.to_nat (st_size members)) 0
        (fun i => e ← aread table i;
                  mret (match e with Some c => Nat.eqb c member | None => false end)));
  match r with
  | Some i =>
      cluster_member_set_item_destroy_m (Some member);;
      members' ← cluster_member_set_shift_m members i; mret (true, members')
  | None => mret (false, members)
  end.

Definition find_addr_idx_m (members : cluster_member_set_t) (addr : list Z) (addr_size : Z)
    : MM (option Z) :=
  find_m (Z.to_nat (st_size members)) 0
    (fun i => c ← set_entry members i;
              s ← getS;
              liftO (memcmp_eq (addressed s (mt_address (snd c))) addr addr_size)).

Definition cluster_member_set_find_by_addr_m (members : cluster_member_set_t)
    (addr : list Z) (addr_size : Z) : MM (option loc) :=
  r ← find_addr_idx_m members addr addr_size;
  match r with
  | Some i => c ← set_entry members i; mret (Some (fst c))
  | None => mret None
  end.

Definition cluster_member_set_remove_by_addr_m (members : cluster_member_set_t)
    (addr : list Z) (addr_size : Z) : MM (bool * cluster_member_set_t) :=
  r ← find_addr_idx_m members addr addr_size;
  match r with
  | Some i =>
      table ← load_table (st_set members);
      e ← liftO (aread table i);
      cluster_member_set_item_destroy_m e;;
      members' ← cluster_member_set_shift_m members i; mret (true, members')
  | None => mret (false, members)
  end.

(** * Messages that allocate *)

Record message_hello_t := HelloT { ht_header : message_header; ht_this_member : loc }.
Record message_welcome_t := WelcomeT {
  wt_header : message_header;
  wt_hello_sequence_num : Z;
  wt_this_member : loc
}.
Record message_member_list_t := MemberListT {
  lt_header : message_header;
  lt_members_n : Z;
  lt_members : loc
}.

(** The decoders return the [int] and the message, [None] when they return an
    error, after which the caller does not look at the message. *)
Definition message_hello_decode_m (buffer_size : Z) : MM (Z * option message_hello_t) :=
  s ← getS;
  valid ← liftO (message_is_payload_valid (me_buffer s) buffer_size MESSAGE_HELLO_TYPE);
  if negb valid then mret (PITTACUS_ERR_INVALID_MESSAGE, None)
  else
    let min_size := sizeof_message_header + sizeof_cluster_member - sizeof_pointer in
    if buffer_size <? min_size then mret (PITTACUS_ERR_BUFFER_NOT_ENOUGH, None)
    else
      h ← liftO (message_header_decode (me_buffer s) buffer_size ≫= header_of);
      p ← malloc_m (MembersBlock [None]);
      match p with
      | None => mret (PITTACUS_ERR_ALLOCATION_FAILED, None)
      | Some this_member =>
          r ← cluster_member_decode_m sizeof_message_header (u64 (buffer_size - sizeof_message_header));
          match r with
          | (member_bytes, Some m) =>
              store_member this_member 0 m;;
              if member_bytes <? 0 then mret (member_bytes, None)
              else mret (i32 (sizeof_message_header + member_bytes), Some (HelloT (snd h) this_member))
          | (member_bytes, None) => mret (member_bytes, None)
          end
      end.

Definition message_hello_destroy_m (msg : message_hello_t) : MM unit := free_m (ht_this_member msg).

Definition message_welcome_decode_m (buffer_size : Z) : MM (Z * option message_welcome_t) :=
  s ← getS;
  valid ← liftO (message_is_payload_valid (me_buffer s) buffer_size MESSAGE_WELCOME_TYPE);
  if negb valid then mret (PITTACUS_ERR_INVALID_MESSAGE, None)
  else
    let min_size := sizeof_message_header + sizeof_u32 + sizeof_cluster_member - sizeof_pointer in
    if buffer_size <? min_size then mret (PITTACUS_ERR_BUFFER_NOT_ENOUGH, None)
    else
      h ← liftO (message_header_decode (me_buffer s) buffer_size ≫= header_of);
      let cursor := fst h in
      let buffer_end := buffer_size in
      hello_sequence_num ← liftO (uint32_decode (me_buffer s) cursor);
      let cursor := cursor + sizeof_u32 in
      p ← malloc_m (MembersBlock [None]);
      match p with
      | None => mret (PITTACUS_ERR_ALLOCATION_FAILED, None)
      | Some this_member =>
          r ← cluster_member_decode_m cursor (u64 (buffer_end - cursor));
          match r with
          | (decode_result, Some m) =>
              store_member this_member 0 m;;
              if decode_result <? 0 then mret (decode_result, None)
              else mret (i32 (cursor + decode_result),
                         Some (WelcomeT (snd h) hello_sequence_num this_member))
          | (decode_result, None) => mret (decode_result, None)
          end
      end.

Definition message_welcome_destroy_m (msg : message_welcome_t) : MM unit := free_m (wt_this_member msg).

(** The member loop of the decoder, which fills [members] from [i] on. *)
Fixpoint decode_members_m (n : nat) (members : loc) (i cursor buffer_end : Z) : MM (Z + Z) :=
  match n with
  | O => mret (inr cursor)
  | S n' =>
      r ← cluster_member_decode_m cursor (u64 (buffer_end - cursor));
      match r with
      | (decode_result, None) => mret (inl decode_result)
      | (decode_result, Some m) =>
          store_member members i m;;
          if decode_result <? 0 then mret (inl decode_result)
          else decode_members_m n' members (i + 1) (cursor + decode_result) buffer_end
      end
  end.

Definition message_member_list_decode_m (buffer_size : Z) : MM (Z * option message_member_list_t) :=
  s ← getS;
  valid ← liftO (message_is_payload_valid (me_buffer s) buffer_size MESSAGE_MEMBER_LIST_TYPE);
  if negb valid then mret (PITTACUS_ERR_INVALID_MESSAGE, None)
  else if buffer_size <? sizeof_message_header + sizeof_u16
  then mret (PITTACUS_ERR_BUFFER_NOT_ENOUGH, None)
  else
    let buffer_end := buffer_size in
    r ← liftO (message_header_decode (me_buffer s) buffer_size);
    match r with
    | (decode_result, None) => mret (decode_result, None)
    | (decode_result, Some header) =>
        let cursor := decode_result in
        members_n ← liftO (uint16_decode (me_buffer s) cursor);
        let cursor := cursor + sizeof_u16 in
        p ← malloc_m (MembersBlock (replicate (Z.to_nat members_n) None));
        match p with
        | None => mret (PITTACUS_ERR_ALLOCATION_FAILED, None)
        | Some members =>
            r ← decode_members_m (Z.to_nat members_n) members 0 cursor buffer_end;
            match r with
            | inl e => mret (e, None)
            | inr cursor => mret (i32 cursor, Some (MemberListT header members_n members))
            end
        end
    end.

Definition message_member_list_destroy_m (msg : message_member_list_t) : MM unit :=
  free_m (lt_members msg).
