(* ===== verification/Queue.v ===== *)
(** The outbound message queue of [gossip.c]: envelopes in a doubly linked
    list. The heap of envelopes is explicit, so that a use of a freed
    envelope is undefined behaviour of the model. *)
From S2P Require Import Prelude.
From S2P Require Import Config.
From S2P Require Import Utils.
From S2P Require Import World.

(** * Data *)

(** [message_envelope_out_t]. [en_recipient] holds the bytes copied into
    the [sockaddr_storage]; [en_buffer] is the offset of the message in the
    output buffer. *)
Record message_envelope_out := Envelope {
  en_recipient : list Z;
  en_recipient_len : Z;
  en_buffer : Z;
  en_buffer_size : Z;
  en_sequence_num : Z;
  en_attempt_ts : Z;
  en_attempt_num : Z;
  en_max_attempts : Z;
  en_prev : option loc;
  en_next : option loc
}.

Definition set_prev (p : option loc) (e : message_envelope_out) : message_envelope_out :=
  Envelope (en_recipient e) (en_recipient_len e) (en_buffer e) (en_buffer_size e)
    (en_sequence_num e) (en_attempt_ts e) (en_attempt_num e) (en_max_attempts e)
    p (en_next e).
Definition set_next (p : option loc) (e : message_envelope_out) : message_envelope_out :=
  Envelope (en_recipient e) (en_recipient_len e) (en_buffer e) (en_buffer_size e)
    (en_sequence_num e) (en_attempt_ts e) (en_attempt_num e) (en_max_attempts e)
    (en_prev e) p.
Definition set_attempt (ts num : Z) (e : message_envelope_out) : message_envelope_out :=
  Envelope (en_recipient e) (en_recipient_len e) (en_buffer e) (en_buffer_size e)
    (en_sequence_num e) ts num (en_max_attempts e) (en_prev e) (en_next e).

(** [message_queue_t], with the heap of envelopes its pointers lead to. *)
Record message_queue := MessageQueue {
  q_heap : gmap loc message_envelope_out;
  q_head : option loc;
  q_tail : option loc
}.

(** * Operations *)

(** [p->field]: the envelope must be allocated. *)
Definition deref (q : message_queue) (l : loc) : out message_envelope_out :=
  match q_heap q !! l with Some e => mret e | None => Ub end.

(** [p->field = v]. *)
Definition update (q : message_queue) (l : loc)
    (f : message_envelope_out -> message_envelope_out) : out message_queue :=
  e ← deref q l;
  mret (MessageQueue (<[l := f e]> (q_heap q)) (q_head q) (q_tail q)).

Definition with_head (q : message_queue) (p : option loc) : message_queue :=
  MessageQueue (q_heap q) p (q_tail q).
Definition with_tail (q : message_queue) (p : option loc) : message_queue :=
  MessageQueue (q_heap q) (q_head q) p.

(** [gossip_envelope_create]: the location, [None] when [malloc] fails. The
    recipient is copied into a [sockaddr_storage]: a longer address
    overflows it. *)
Definition gossip_envelope_create (q : message_queue)
    (sequence_number buffer buffer_size max_attempts : Z)
    (recipient : list Z) (recipient_len : Z) : M world (option loc * message_queue) :=
  p ← malloc;
  match p with
  | None => mret (None, q)
  | Some l =>
      bytes ← liftO (rd recipient 0 recipient_len);
      if sizeof_sockaddr_storage <? recipient_len then ubS
      else
        let envelope := Envelope bytes recipient_len buffer buffer_size
                          sequence_number 0 0 max_attempts None None in
        mret (Some l, MessageQueue (<[l := envelope]> (q_heap q)) (q_head q) (q_tail q))
  end.

(** [gossip_envelope_destroy]: [free]. *)
Definition gossip_envelope_destroy (q : message_queue) (envelope : loc) : out message_queue :=
  _ ← deref q envelope;
  mret (MessageQueue (delete envelope (q_heap q)) (q_head q) (q_tail q)).

(** A walk over the queue visits each allocated envelope at most once. *)
Definition queue_fuel (q : message_queue) : nat := S (size (q_heap q)).

Fixpoint clear_loop (fuel : nat) (head : option loc) (q : message_queue) : out message_queue :=
  match head with
  | None => mret q
  | Some current =>
      match fuel with
      | O => Nofuel
      | S fuel' =>
          e ← deref q current;
          q ← gossip_envelope_destroy q current;
          clear_loop fuel' (en_next e) q
      end
  end.

Definition gossip_envelope_clear (q : message_queue) : out message_queue :=
  q ← clear_loop (queue_fuel q) (q_head q) q;
  mret (MessageQueue (q_heap q) None None).

Definition gossip_envelope_enqueue (q : message_queue) (envelope : loc) : out message_queue :=
  q ← update q envelope (set_next None);
  match q_head q, q_tail q with
  | Some _, Some tail =>
      q ← update q envelope (set_prev (Some tail));
      q ← update q tail (set_next (Some envelope));
      mret (with_tail q (Some envelope))
  | _, _ => mret (MessageQueue (q_heap q) (Some envelope) (Some envelope))
  end.

Definition gossip_envelope_remove (q : message_queue) (envelope : loc) : out message_queue :=
  e ← deref q envelope;
  let prev := en_prev e in
  let next := en_next e in
  q ← match next with
      | Some n => update q n (set_prev prev)
      | None => mret (with_tail q prev)
      end;
  q ← match prev with
      | Some p => update q p (set_next next)
      | None => mret (with_head q next)
      end;
  gossip_envelope_destroy q envelope.

Fixpoint find_loop (fuel : nat) (head : option loc) (q : message_queue) (sequence_num : Z)
    : out (option loc) :=
  match head with
  | None => mret None
  | Some l =>
      match fuel with
      | O => Nofuel
      | S fuel' =>
          e ← deref q l;
          if en_sequence_num e =? sequence_num then mret (Some l)
          else find_loop fuel' (en_next e) q sequence_num
      end
  end.

Definition gossip_envelope_find_by_sequence_num (q : message_queue) (sequence_num : Z)
    : out (option loc) :=
  find_loop (queue_fuel q) (q_head q) q sequence_num.
