(* ===== verification/DataLog.v ===== *)
(** The data log of [gossip.c]: the latest data message of each originator,
    in a ring of [DATA_LOG_SIZE] records. *)
From S2P Require Import Prelude.
From S2P Require Import Config.
From S2P Require Import Utils.
From S2P Require Import World.
From S2P Require Import Member.
From S2P Require Import VectorClock.
From S2P Require Import Messages.

Record data_log_record := DataLogRecord {
  dr_version : vector_record;
  dr_data_size : Z;
  dr_data : list Z
}.

Record data_log := DataLog {
  dl_messages : list data_log_record;
  dl_size : Z;
  dl_current_idx : Z
}.

Definition gossip_data_log_create_message (record : data_log_record) : message_data :=
  MessageData (message_header_init MESSAGE_DATA_TYPE 0)
    (vector_clock_record_copy (dr_version record)) (dr_data_size record) (dr_data record).

(** Filling a record: the payload is copied into an array of
    [MESSAGE_MAX_SIZE] bytes. *)
Definition log_payload (log : data_log) (idx : Z) (version : vector_record)
    (msg : message_data) : out (list data_log_record) :=
  record ← aread (dl_messages log) idx;
  bytes ← rd (data_data msg) 0 (data_data_size msg);
  data ← wr (dr_data record) 0 bytes;
  awrite (dl_messages log) idx (DataLogRecord version (data_data_size msg) data).

Definition gossip_data_log (log : data_log) (msg : message_data) : out data_log :=
  r ← ofind (Z.to_nat (dl_size log)) 0
        (fun i => rec ← aread (dl_messages log) i;
                  mret (vr_member_id (dr_version rec)
                        =? vr_member_id (data_data_version msg)));
  match r with
  | Some i =>
      rec ← aread (dl_messages log) i;
      messages ← log_payload log i
        (VectorRecord (vr_sequence_number (data_data_version msg))
                      (vr_member_id (dr_version rec))) msg;
      mret (DataLog messages (dl_size log) (dl_current_idx log))
  | None =>
      let new_idx := dl_current_idx log in
      let size := if dl_size log <? DATA_LOG_SIZE then dl_size log + 1 else dl_size log in
      let current_idx := u32 (dl_current_idx log + 1) in
      let current_idx := if DATA_LOG_SIZE <=? current_idx then 0 else current_idx in
      messages ← log_payload log new_idx
        (vector_clock_record_copy (data_data_version msg)) msg;
      mret (DataLog messages size current_idx)
  end.
