(* ===== verification/Gossip.v ===== *)
(** [gossip.c]: the state of a node, the output buffer, and the functions
    that encode messages and put them into the outbound queue. *)
From S2P Require Import Prelude.
From S2P Require Import Config.
From S2P Require Import Utils.
From S2P Require Import World.
From S2P Require Import Member.
From S2P Require Import VectorClock.
From S2P Require Import Messages.
From S2P Require Import Queue.
From S2P Require Import DataLog.

(** * State *)

Inductive pittacus_gossip_state :=
| STATE_INITIALIZED
| STATE_JOINING
| STATE_CONNECTED
| STATE_LEAVING
| STATE_DISCONNECTED
| STATE_DESTROYED.

#[export] Instance pittacus_gossip_state_eq_dec : EqDecision pittacus_gossip_state.
Proof. solve_decision. Defined.

(** [struct pittacus_gossip], but for the data receiver, which is fixed at
    creation and a parameter of the handlers. *)
Record pittacus_gossip := Gossip {
  g_socket : Z;
  g_input_buffer : list Z;
  g_output_buffer : list Z;
  g_output_buffer_offset : Z;
  g_outbound_messages : message_queue;
  g_sequence_num : Z;
  g_data_counter : Z;
  g_data_version : vector_clock;
  g_state : pittacus_gossip_state;
  g_self_address : cluster_member;
  g_members : cluster_member_set;
  g_data_log : data_log;
  g_last_gossip_ts : Z
}.

Definition set_input_buffer (v : list Z) (g : pittacus_gossip) : pittacus_gossip :=
  Gossip (g_socket g) v (g_output_buffer g) (g_output_buffer_offset g)
    (g_outbound_messages g) (g_sequence_num g) (g_data_counter g) (g_data_version g)
    (g_state g) (g_self_address g) (g_members g) (g_data_log g) (g_last_gossip_ts g).
Definition set_output_buffer (v : list Z) (g : pittacus_gossip) : pittacus_gossip :=
  Gossip (g_socket g) (g_input_buffer g) v (g_output_buffer_offset g)
    (g_outbound_messages g) (g_sequence_num g) (g_data_counter g) (g_data_version g)
    (g_state g) (g_self_address g) (g_members g) (g_data_log g) (g_last_gossip_ts g).
Definition set_output_buffer_offset (v : Z) (g : pittacus_gossip) : pittacus_gossip :=
  Gossip (g_socket g) (g_input_buffer g) (g_output_buffer g) v
    (g_outbound_messages g) (g_sequence_num g) (g_data_counter g) (g_data_version g)
    (g_state g) (g_self_address g) (g_members g) (g_data_log g) (g_last_gossip_ts g).
Definition set_outbound_messages (v : message_queue) (g : pittacus_gossip) : pittacus_gossip :=
  Gossip (g_socket g) (g_input_buffer g) (g_output_buffer g) (g_output_buffer_offset g)
    v (g_sequence_num g) (g_data_counter g) (g_data_version g)
    (g_state g) (g_self_address g) (g_members g) (g_data_log g) (g_last_gossip_ts g).
Definition set_sequence_num (v : Z) (g : pittacus_gossip) : pittacus_gossip :=
  Gossip (g_socket g) (g_input_buffer g) (g_output_buffer g) (g_output_buffer_offset g)
    (g_outbound_messages g) v (g_data_counter g) (g_data_version g)
    (g_state g) (g_self_address g) (g_members g) (g_data_log g) (g_last_gossip_ts g).
Definition set_data_counter (v : Z) (g : pittacus_gossip) : pittacus_gossip :=
  Gossip (g_socket g) (g_input_buffer g) (g_output_buffer g) (g_output_buffer_offset g)
    (g_outbound_messages g) (g_sequence_num g) v (g_data_version g)
    (g_state g) (g_self_address g) (g_members g) (g_data_log g) (g_last_gossip_ts g).
Definition set_data_version (v : vector_clock) (g : pittacus_gossip) : pittacus_gossip :=
  Gossip (g_socket g) (g_input_buffer g) (g_output_buffer g) (g_output_buffer_offset g)
    (g_outbound_messages g) (g_sequence_num g) (g_data_counter g) v
    (g_state g) (g_self_address g) (g_members g) (g_data_log g) (g_last_gossip_ts g).
Definition set_state (v : pittacus_gossip_state) (g : pittacus_gossip) : pittacus_gossip :=
  Gossip (g_socket g) (g_input_buffer g) (g_output_buffer g) (g_output_buffer_offset g)
    (g_outbound_messages g) (g_sequence_num g) (g_data_counter g) (g_data_version g)
    v (g_self_address g) (g_members g) (g_data_log g) (g_last_gossip_ts g).
Definition set_members (v : cluster_member_set) (g : pittacus_gossip) : pittacus_gossip :=
  Gossip (g_socket g) (g_input_buffer g) (g_output_buffer g) (g_output_buffer_offset g)
    (g_outbound_messages g) (g_sequence_num g) (g_data_counter g) (g_data_version g)
    (g_state g) (g_self_address g) v (g_data_log g) (g_last_gossip_ts g).
Definition set_data_log (v : data_log) (g : pittacus_gossip) : pittacus_gossip :=
  Gossip (g_socket g) (g_input_buffer g) (g_output_buffer g) (g_output_buffer_offset g)
    (g_outbound_messages g) (g_sequence_num g) (g_data_counter g) (g_data_version g)
    (g_state g) (g_self_address g) (g_members g) v (g_last_gossip_ts g).
Definition set_last_gossip_ts (v : Z) (g : pittacus_gossip) : pittacus_gossip :=
  Gossip (g_socket g) (g_input_buffer g) (g_output_buffer g) (g_output_buffer_offset g)
    (g_outbound_messages g) (g_sequence_num g) (g_data_counter g) (g_data_version g)
    (g_state g) (g_self_address g) (g_members g) (g_data_log g) v.

(** A running node: its descriptor, the environment, and the state behind
    the user's [data_receiver_context]. *)
Record node (Ctx : Type) := Node {
  n_self : pittacus_gossip;
  n_world : world;
  n_context : Ctx
}.
Arguments Node {Ctx} _ _ _.
Arguments n_self {Ctx} _.
Arguments n_world {Ctx} _.
Arguments n_context {Ctx} _.

Section Node.
Context {Ctx : Type}.

(** The descriptor, its update, and a call of the environment. *)
Definition self : M (node Ctx) pittacus_gossip := fun n => Ok (n_self n, n).
Definition modify_self (f : pittacus_gossip -> pittacus_gossip) : M (node Ctx) unit :=
  fun n => Ok (tt, Node (f (n_self n)) (n_world n) (n_context n)).
Definition liftW {A} (m : M world A) : M (node Ctx) A := fun n =>
  match m (n_world n) with
  | Ok (a, w) => Ok (a, Node (n_self n) w (n_context n))
  | Ub => Ub
  | Nofuel => Nofuel
  end.
(** An operation on the outbound queue. *)
Definition queue_op (f : message_queue -> out message_queue) : M (node Ctx) unit :=
  g ← self;
  q ← liftO (f (g_outbound_messages g));
  modify_self (set_outbound_messages q).
End Node.

(** * Output buffer *)

(** The first loop of [gossip_find_available_output_buffer]: the envelope
    with the most attempts and the occupied slots. *)
Fixpoint scan_loop (fuel : nat) (head oldest : option loc) (occupied : list bool)
    (q : message_queue) : out (option loc * list bool) :=
  match head with
  | None => mret (oldest, occupied)
  | Some l =>
      match fuel with
      | O => Nofuel
      | S fuel' =>
          e ← deref q l;
          oldest ←
            match oldest with
            | None => mret (Some l)
            | Some o =>
                oe ← deref q o;
                mret (if en_attempt_num oe <? en_attempt_num e then Some l else Some o)
            end;
          let index := u32 (en_buffer e / MESSAGE_MAX_SIZE) in
          occupied ← awrite occupied index true;
          scan_loop fuel' (en_next e) oldest occupied q
      end
  end.

(** The eviction loop: envelopes in a row that use the chosen buffer. *)
Fixpoint evict_loop (fuel : nat) (oldest : option loc) (chosen : Z) (q : message_queue)
    : out message_queue :=
  match oldest with
  | None => mret q
  | Some to_remove =>
      match fuel with
      | O => Nofuel
      | S fuel' =>
          e ← deref q to_remove;
          if en_buffer e =? chosen then
            q ← gossip_envelope_remove q to_remove;
            evict_loop fuel' (en_next e) chosen q
          else mret q
      end
  end.

(** The offset of the buffer found, and the queue. *)
Definition gossip_find_available_output_buffer (q : message_queue)
    : out (Z * message_queue) :=
  r ← scan_loop (queue_fuel q) (q_head q) None
        (replicate (Z.to_nat MAX_OUTPUT_MESSAGES) false) q;
  let '(oldest, occupied) := r in
  free ← ofind (Z.to_nat MAX_OUTPUT_MESSAGES) 0
           (fun i => b ← aread occupied i; mret (negb b));
  match free with
  | Some i => mret (i * MESSAGE_MAX_SIZE, q)
  | None =>
      match oldest with
      | None => Ub
      | Some o =>
          e ← deref q o;
          let chosen := en_buffer e in
          q ← evict_loop (queue_fuel q) (Some o) chosen q;
          mret (chosen, q)
      end
  end.

(** * Messages by type *)

(** What the [void *] message pointer leads to. *)
Inductive message :=
| MsgHello (msg : message_hello)
| MsgWelcome (msg : message_welcome)
| MsgMemberList (msg : message_member_list)
| MsgData (msg : message_data)
| MsgAck (msg : message_ack)
| MsgStatus (msg : message_status).

(** [gossip_encode_message]: the result, [max_attempts], the buffer. The
    pointer is cast to the type the message type says. *)
Definition gossip_encode_message (msg_type : Z) (msg : message) (buffer : list Z)
    : out (Z * Z * list Z) :=
  let with_attempts (max_attempts : Z) (r : out (Z * list Z)) : out (Z * Z * list Z) :=
    r ← r; mret (fst r, max_attempts, snd r) in
  let retry := MESSAGE_RETRY_ATTEMPTS in
  if msg_type =? MESSAGE_HELLO_TYPE then
    match msg with
    | MsgHello m => with_attempts retry (message_hello_encode m buffer MESSAGE_MAX_SIZE)
    | _ => Ub
    end
  else if msg_type =? MESSAGE_WELCOME_TYPE then
    match msg with
    | MsgWelcome m => with_attempts 1 (message_welcome_encode m buffer MESSAGE_MAX_SIZE)
    | _ => Ub
    end
  else if msg_type =? MESSAGE_MEMBER_LIST_TYPE then
    match msg with
    | MsgMemberList m =>
        with_attempts retry (message_member_list_encode m buffer MESSAGE_MAX_SIZE)
    | _ => Ub
    end
  else if msg_type =? MESSAGE_DATA_TYPE then
    match msg with
    | MsgData m => with_attempts retry (message_data_encode m buffer MESSAGE_MAX_SIZE)
    | _ => Ub
    end
  else if msg_type =? MESSAGE_ACK_TYPE then
    match msg with
    | MsgAck m => with_attempts 1 (message_ack_encode m buffer MESSAGE_MAX_SIZE)
    | _ => Ub
    end
  else if msg_type =? MESSAGE_STATUS_TYPE then
    match msg with
    | MsgStatus m => with_attempts retry (message_status_encode m buffer MESSAGE_MAX_SIZE)
    | _ => Ub
    end
  else mret (PITTACUS_ERR_INVALID_MESSAGE, retry, buffer).

Inductive gossip_spreading_type :=
| GOSSIP_DIRECT
| GOSSIP_RANDOM
| GOSSIP_BROADCAST.

(** * Enqueueing *)

Section Enqueue.
Context {Ctx : Type}.
Local Abbreviation G := (M (node Ctx)).

Definition gossip_update_output_buffer_offset : G Z :=
  g ← self;
  offset ←
    match q_head (g_outbound_messages g) with
    | Some _ =>
        r ← liftO (gossip_find_available_output_buffer (g_outbound_messages g));
        modify_self (set_outbound_messages (snd r));;
        mret (u32 (fst r))
    | None => mret 0
    end;
  modify_self (set_output_buffer_offset offset);;
  mret offset.

Definition gossip_enqueue_to_outbound (buffer buffer_size max_attempts : Z)
    (receiver : list Z) (receiver_size : Z) : G Z :=
  g ← self;
  let seq_num := u32 (g_sequence_num g + 1) in
  modify_self (set_sequence_num seq_num);;
  r ← liftW (gossip_envelope_create (g_outbound_messages g) seq_num buffer buffer_size
               max_attempts receiver receiver_size);
  match r with
  | (None, _) => mret PITTACUS_ERR_ALLOCATION_FAILED
  | (Some new_envelope, q) =>
      modify_self (set_outbound_messages q);;
      queue_op (fun q => gossip_envelope_enqueue q new_envelope);;
      mret PITTACUS_ERR_NONE
  end.

(** One envelope for each recipient, all on the same buffer; [result] is
    the result of the last call. *)
Fixpoint enqueue_all (buffer buffer_size max_attempts : Z) (recipients : list cluster_member)
    (result : Z) : G Z :=
  match recipients with
  | [] => mret result
  | member :: rest =>
      result ← gossip_enqueue_to_outbound buffer buffer_size max_attempts
                 (cm_address member) (cm_address_len member);
      if result <? 0 then mret result
      else enqueue_all buffer buffer_size max_attempts rest result
  end.

(** The broadcast loop over the set of members. *)
Fixpoint broadcast_loop (n : nat) (i buffer buffer_size max_attempts result : Z) : G Z :=
  match n with
  | O => mret result
  | S n' =>
      g ← self;
      c ← liftO (set_cell (g_members g) i);
      let member := cell_member c in
      result ← gossip_enqueue_to_outbound buffer buffer_size max_attempts
                 (cm_address member) (cm_address_len member);
      if result <? 0 then mret result
      else broadcast_loop n' (i + 1) buffer buffer_size max_attempts result
  end.

(** A recipient given as NULL reads as no byte. *)
Definition gossip_enqueue_message (msg_type : Z) (msg : message)
    (recipient : option (list Z)) (recipient_len : Z)
    (spreading_type : gossip_spreading_type) : G Z :=
  offset ← gossip_update_output_buffer_offset;
  g ← self;
  let buffer := zdrop offset (g_output_buffer g) in
  r ← liftO (gossip_encode_message msg_type msg buffer);
  let '(encode_result, max_attempts, buffer) := r in
  modify_self (set_output_buffer (ztake offset (g_output_buffer g) ++ buffer));;
  if encode_result <? 0 then mret encode_result
  else
    match spreading_type with
    | GOSSIP_DIRECT =>
        gossip_enqueue_to_outbound offset encode_result max_attempts
          (default [] recipient) recipient_len
    | GOSSIP_RANDOM =>
        reservoir ← liftW (cluster_member_set_random_members (g_members g)
                             MESSAGE_RUMOR_FACTOR);
        enqueue_all offset encode_result max_attempts (cell_member <$> reservoir)
          PITTACUS_ERR_NONE
    | GOSSIP_BROADCAST =>
        broadcast_loop (Z.to_nat (ms_size (g_members g))) 0 offset encode_result
          max_attempts PITTACUS_ERR_NONE
    end.

Definition gossip_enqueue_ack (sequence_num : Z) (recipient : list Z)
    (recipient_len : Z) : G Z :=
  let ack_msg := MessageAck (message_header_init MESSAGE_ACK_TYPE 0) sequence_num in
  gossip_enqueue_message MESSAGE_ACK_TYPE (MsgAck ack_msg) (Some recipient)
    recipient_len GOSSIP_DIRECT.

Definition gossip_enqueue_welcome (hello_sequence_num : Z) (recipient : list Z)
    (recipient_len : Z) : G Z :=
  g ← self;
  let welcome_msg := MessageWelcome (message_header_init MESSAGE_WELCOME_TYPE 0)
                       hello_sequence_num (g_self_address g) in
  gossip_enqueue_message MESSAGE_WELCOME_TYPE (MsgWelcome welcome_msg) (Some recipient)
    recipient_len GOSSIP_DIRECT.

Definition gossip_enqueue_hello (recipient : list Z) (recipient_len : Z) : G Z :=
  g ← self;
  let hello_msg := MessageHello (message_header_init MESSAGE_HELLO_TYPE 0)
                     (g_self_address g) in
  gossip_enqueue_message MESSAGE_HELLO_TYPE (MsgHello hello_msg) (Some recipient)
    recipient_len GOSSIP_DIRECT.

Definition gossip_enqueue_data (data : list Z) (data_size : Z) : G Z :=
  g ← self;
  let clock_counter := u32 (g_data_counter g + 1) in
  modify_self (set_data_counter clock_counter);;
  r ← liftO (vector_clock_set (g_data_version g) (g_self_address g) clock_counter);
  let '(idx, clock) := r in
  modify_self (set_data_version clock);;
  record ← liftO (aread (vc_records clock) idx);
  let data_msg := MessageData (message_header_init MESSAGE_DATA_TYPE 0)
                    (vector_clock_record_copy record) data_size data in
  log ← liftO (gossip_data_log (g_data_log g) data_msg);
  modify_self (set_data_log log);;
  gossip_enqueue_message MESSAGE_DATA_TYPE (MsgData data_msg) None 0 GOSSIP_RANDOM.

(** [status_msg.data_version] is uninitialised before the copy; only the
    copied records are read. *)
Definition gossip_enqueue_status (recipient : option (list Z)) (recipient_len : Z) : G Z :=
  g ← self;
  data_version ← liftO (vector_clock_copy vector_clock_init (g_data_version g));
  let status_msg := MessageStatus (message_header_init MESSAGE_STATUS_TYPE 0) data_version in
  let spreading_type := match recipient with
                        | None => GOSSIP_RANDOM
                        | Some _ => GOSSIP_DIRECT
                        end in
  gossip_enqueue_message MESSAGE_STATUS_TYPE (MsgStatus status_msg) recipient
    recipient_len spreading_type.

(** The inner loop of [gossip_enqueue_member_list]: the members to send
    and the next member index. *)
Fixpoint fill_members (fuel : nat) (members : cluster_member_set) (members_num : Z)
    (to_send : list cluster_member) (member_idx : Z) : out (list cluster_member * Z) :=
  if (zlen to_send <? members_num) && (member_idx <? ms_size members) then
    match fuel with
    | O => Nofuel
    | S fuel' =>
        c ← set_cell members member_idx;
        fill_members fuel' members members_num (to_send ++ [cell_member c])
          (member_idx + 1)
    end
  else mret (to_send, member_idx).

Fixpoint member_list_loop (fuel : nat) (members_num member_idx : Z) (recipient : list Z)
    (recipient_len result : Z) : G Z :=
  g ← self;
  if member_idx <? ms_size (g_members g) then
    match fuel with
    | O => nofuelS
    | S fuel' =>
        r ← liftO (fill_members (Z.to_nat members_num) (g_members g) members_num []
                     member_idx);
        let '(to_send, member_idx) := r in
        if 0 <? zlen to_send then
          let member_list_msg :=
            MessageMemberList (message_header_init MESSAGE_MEMBER_LIST_TYPE 0)
              (u16 (zlen to_send)) to_send in
          result ← gossip_enqueue_message MESSAGE_MEMBER_LIST_TYPE
                     (MsgMemberList member_list_msg) (Some recipient) recipient_len
                     GOSSIP_DIRECT;
          if result <? 0 then mret result
          else member_list_loop fuel' members_num member_idx recipient recipient_len result
        else member_list_loop fuel' members_num member_idx recipient recipient_len result
    end
  else mret result.

Definition gossip_enqueue_member_list (recipient : list Z) (recipient_len : Z) : G Z :=
  g ← self;
  let members := g_members g in
  let members_num := if MEMBER_LIST_SYNC_SIZE <? ms_size members
                     then MEMBER_LIST_SYNC_SIZE else ms_size members in
  if members_num =? 0 then mret PITTACUS_ERR_NONE
  else
    p ← liftW malloc;
    match p with
    | None => mret PITTACUS_ERR_ALLOCATION_FAILED
    | Some _ =>
        member_list_loop (Z.to_nat (ms_size members)) members_num 0 recipient
          recipient_len PITTACUS_ERR_NONE
    end.

Fixpoint data_log_loop (n : nat) (i : Z) (recipient_version : vector_clock)
    (recipient : list Z) (recipient_len result : Z) : G Z :=
  match n with
  | O => mret result
  | S n' =>
      g ← self;
      record ← liftO (aread (dl_messages (g_data_log g)) i);
      r ← liftO (vector_clock_compare_with_record recipient_version
                   (dr_version record) false);
      if bool_decide (fst r = VC_BEFORE) then
        let data_msg := gossip_data_log_create_message record in
        result ← gossip_enqueue_message MESSAGE_DATA_TYPE (MsgData data_msg)
                   (Some recipient) recipient_len GOSSIP_DIRECT;
        if result <? 0 then mret result
        else data_log_loop n' (i + 1) recipient_version recipient recipient_len result
      else data_log_loop n' (i + 1) recipient_version recipient recipient_len result
  end.

Definition gossip_enqueue_data_log (recipient_version : vector_clock)
    (recipient : list Z) (recipient_len : Z) : G Z :=
  g ← self;
  data_log_loop (Z.to_nat (dl_size (g_data_log g))) 0 recipient_version recipient
    recipient_len PITTACUS_ERR_NONE.
End Enqueue.
