(* ===== verification/Node.v ===== *)
(** [gossip.c]: the handlers of incoming messages and the public functions:
    creation, joining, receiving, sending and ticking. *)
From S2P Require Import Prelude.
From S2P Require Import Config.
From S2P Require Import Utils.
From S2P Require Import World.
From S2P Require Import Member.
From S2P Require Import VectorClock.
From S2P Require Import Messages.
From S2P Require Import Queue.
From S2P Require Import DataLog.
From S2P Require Import Gossip.

(** [message_envelope_in_t]: the sender's address and the message, a prefix
    of the input buffer. *)
Record message_envelope_in := EnvelopeIn {
  ei_sender : list Z;
  ei_sender_len : Z;
  ei_buffer : list Z;
  ei_buffer_size : Z
}.

Section Handlers.
Context {Ctx : Type}.
Local Abbreviation G := (M (node Ctx)).

(** The user's callback: NULL, or a function of the payload pointer and
    the payload size that may do anything with the node. *)
Context (data_receiver : option (list Z -> Z -> G unit)).

(** [RETURN_IF_NOT_CONNECTED]. *)
Definition return_if_not_connected (k : G Z) : G Z :=
  g ← self;
  if bool_decide (g_state g = STATE_CONNECTED) then k else mret PITTACUS_ERR_BAD_STATE.

(** [cluster_member_set_put(&self->members, ...)], result ignored. *)
Definition put_members (new_members : list cluster_member) : G unit :=
  g ← self;
  r ← liftW (cluster_member_set_put (g_members g) new_members);
  modify_self (set_members (snd r)).

(** Drop the envelope with the given sequence number, if there is one. *)
Definition remove_by_sequence_num (sequence_num : Z) : G unit :=
  g ← self;
  envelope ← liftO (gossip_envelope_find_by_sequence_num (g_outbound_messages g)
                      sequence_num);
  match envelope with
  | Some l => queue_op (fun q => gossip_envelope_remove q l)
  | None => mret tt
  end.

Definition gossip_handle_hello (envelope_in : message_envelope_in) : G Z :=
  return_if_not_connected (
    r ← liftW (message_hello_decode (ei_buffer envelope_in) (ei_buffer_size envelope_in));
    match r with
    | (decode_result, Some msg) =>
        if decode_result <? 0 then mret decode_result
        else
          _ ← gossip_enqueue_welcome (mh_sequence_num (hello_header msg))
                (ei_sender envelope_in) (ei_sender_len envelope_in);
          g ← self;
          (if 0 <? ms_size (g_members g) then
             _ ← gossip_enqueue_member_list (ei_sender envelope_in)
                   (ei_sender_len envelope_in);
             mret tt
           else mret tt);;
          let member_list_msg :=
            MessageMemberList (message_header_init MESSAGE_MEMBER_LIST_TYPE 0)
              1 [hello_this_member msg] in
          _ ← gossip_enqueue_message MESSAGE_MEMBER_LIST_TYPE
                (MsgMemberList member_list_msg) None 0 GOSSIP_BROADCAST;
          put_members [hello_this_member msg];;
          mret PITTACUS_ERR_NONE
    | (decode_result, None) => mret decode_result
    end).

Definition gossip_handle_welcome (envelope_in : message_envelope_in) : G Z :=
  r ← liftW (message_welcome_decode (ei_buffer envelope_in) (ei_buffer_size envelope_in));
  match r with
  | (decode_result, Some msg) =>
      if decode_result <? 0 then mret decode_result
      else
        modify_self (set_state STATE_CONNECTED);;
        put_members [welcome_this_member msg];;
        remove_by_sequence_num (welcome_hello_sequence_num msg);;
        mret PITTACUS_ERR_NONE
  | (decode_result, None) => mret decode_result
  end.

Definition gossip_handle_member_list (envelope_in : message_envelope_in) : G Z :=
  return_if_not_connected (
    r ← liftW (message_member_list_decode (ei_buffer envelope_in)
                 (ei_buffer_size envelope_in));
    match r with
    | (decode_result, Some msg) =>
        if decode_result <? 0 then mret decode_result
        else
          put_members (ml_members msg);;
          _ ← gossip_enqueue_ack (mh_sequence_num (ml_header msg))
                (ei_sender envelope_in) (ei_sender_len envelope_in);
          mret PITTACUS_ERR_NONE
    | (decode_result, None) => mret decode_result
    end).

Definition gossip_handle_data (envelope_in : message_envelope_in) : G Z :=
  return_if_not_connected (
    r ← liftO (message_data_decode (ei_buffer envelope_in) (ei_buffer_size envelope_in));
    match r with
    | (decode_result, Some msg) =>
        if decode_result <? 0 then mret decode_result
        else
          _ ← gossip_enqueue_ack (mh_sequence_num (data_header msg))
                (ei_sender envelope_in) (ei_sender_len envelope_in);
          g ← self;
          r ← liftO (vector_clock_compare_with_record (g_data_version g)
                       (data_data_version msg) true);
          let '(res, clock) := r in
          modify_self (set_data_version clock);;
          if bool_decide (res = VC_BEFORE) then
            g ← self;
            log ← liftO (gossip_data_log (g_data_log g) msg);
            modify_self (set_data_log log);;
            match data_receiver with
            | Some receive => receive (data_data msg) (data_data_size msg)
            | None => mret tt
            end;;
            gossip_enqueue_message MESSAGE_DATA_TYPE (MsgData msg) None 0 GOSSIP_RANDOM
          else mret PITTACUS_ERR_NONE
    | (decode_result, None) => mret decode_result
    end).

Definition gossip_handle_ack (envelope_in : message_envelope_in) : G Z :=
  return_if_not_connected (
    r ← liftO (message_ack_decode (ei_buffer envelope_in) (ei_buffer_size envelope_in));
    match r with
    | (decode_result, Some msg) =>
        if decode_result <? 0 then mret decode_result
        else
          remove_by_sequence_num (ack_ack_sequence_num msg);;
          mret PITTACUS_ERR_NONE
    | (decode_result, None) => mret decode_result
    end).

Definition gossip_handle_status (envelope_in : message_envelope_in) : G Z :=
  return_if_not_connected (
    r ← liftO (message_status_decode (ei_buffer envelope_in) (ei_buffer_size envelope_in));
    match r with
    | (decode_result, Some msg) =>
        if decode_result <? 0 then mret decode_result
        else
          _ ← gossip_enqueue_ack (mh_sequence_num (status_header msg))
                (ei_sender envelope_in) (ei_sender_len envelope_in);
          g ← self;
          r ← liftO (vector_clock_compare (g_data_version g) (status_data_version msg)
                       false);
          let '(comp_res, _) := r in
          match comp_res with
          | VC_AFTER =>
              gossip_enqueue_data_log (status_data_version msg) (ei_sender envelope_in)
                (ei_sender_len envelope_in)
          | VC_BEFORE =>
              gossip_enqueue_status (Some (ei_sender envelope_in))
                (ei_sender_len envelope_in)
          | VC_CONFLICT =>
              result ← gossip_enqueue_data_log (status_data_version msg)
                         (ei_sender envelope_in) (ei_sender_len envelope_in);
              if result <? 0 then mret result
              else gossip_enqueue_status (Some (ei_sender envelope_in))
                     (ei_sender_len envelope_in)
          | VC_EQUAL => mret PITTACUS_ERR_NONE
          end
    | (decode_result, None) => mret decode_result
    end).

Definition gossip_handle_new_message (envelope_in : message_envelope_in) : G Z :=
  message_type ← liftO (message_type_decode (ei_buffer envelope_in)
                          (ei_buffer_size envelope_in));
  if message_type =? MESSAGE_HELLO_TYPE then gossip_handle_hello envelope_in
  else if message_type =? MESSAGE_WELCOME_TYPE then gossip_handle_welcome envelope_in
  else if message_type =? MESSAGE_MEMBER_LIST_TYPE
  then gossip_handle_member_list envelope_in
  else if message_type =? MESSAGE_DATA_TYPE then gossip_handle_data envelope_in
  else if message_type =? MESSAGE_ACK_TYPE then gossip_handle_ack envelope_in
  else if message_type =? MESSAGE_STATUS_TYPE then gossip_handle_status envelope_in
  else mret PITTACUS_ERR_INVALID_MESSAGE.

(** The state test of [process_receive] and [process_send]. *)
Definition is_active (s : pittacus_gossip_state) : bool :=
  bool_decide (s = STATE_JOINING) || bool_decide (s = STATE_CONNECTED).

Definition pittacus_gossip_process_receive : G Z :=
  g ← self;
  if negb (is_active (g_state g)) then mret PITTACUS_ERR_BAD_STATE
  else
    r ← liftW (pt_recv_from (g_socket g) INPUT_BUFFER_SIZE);
    let '(read_result, bytes, addr) := r in
    if read_result <=? 0 then mret PITTACUS_ERR_READ_FAILED
    else
      input ← liftO (wr (g_input_buffer g) 0 bytes);
      modify_self (set_input_buffer input);;
      gossip_handle_new_message (EnvelopeIn addr (zlen addr) input read_result).

(** * Creation, joining, ticking *)

(** [pittacus_gossip_init] on the memory [garbage]. The results of
    [cluster_member_init] and [cluster_member_set_init] are ignored by
    the code; when the latter fails the set keeps what the memory held. *)
Definition pittacus_gossip_init (garbage : pittacus_gossip) (self_addr : list Z)
    : M world (Z * pittacus_gossip) :=
  fd ← pt_socket_datagram self_addr;
  if fd <? 0 then mret (PITTACUS_ERR_INIT_FAILED, garbage)
  else
    r ← pt_get_sock_name fd;
    let '(res, updated_self_addr) := r in
    if res <? 0 then pt_close fd;; mret (PITTACUS_ERR_INIT_FAILED, garbage)
    else
      m ← cluster_member_init updated_self_addr (zlen updated_self_addr);
      s ← cluster_member_set_init;
      let members := default (g_members garbage) (snd s) in
      mret (PITTACUS_ERR_NONE,
            Gossip fd (g_input_buffer garbage) (g_output_buffer garbage) 0
              (MessageQueue ∅ None None) 0 0 vector_clock_init STATE_INITIALIZED
              (snd m) members (DataLog (dl_messages (g_data_log garbage)) 0 0) 0).

Definition pittacus_gossip_create (garbage : pittacus_gossip) (self_addr : list Z)
    : M world (option pittacus_gossip) :=
  p ← malloc;
  match p with
  | None => mret None
  | Some _ =>
      r ← pittacus_gossip_init garbage self_addr;
      mret (if fst r <? 0 then None else Some (snd r))
  end.

(** [pittacus_gossip_destroy]: the descriptor is freed at the end and not
    used again. *)
Definition pittacus_gossip_destroy : G Z :=
  g ← self;
  liftW (pt_close (g_socket g));;
  queue_op gossip_envelope_clear;;
  modify_self (set_state STATE_DESTROYED);;
  _ ← liftO (cluster_member_set_destroy (g_members g));
  mret PITTACUS_ERR_NONE.

Fixpoint join_loop (seed_nodes : list (list Z)) : G Z :=
  match seed_nodes with
  | [] => modify_self (set_state STATE_JOINING);; mret PITTACUS_ERR_NONE
  | node :: rest =>
      res ← gossip_enqueue_hello node (zlen node);
      if res <? 0 then mret res else join_loop rest
  end.

Definition pittacus_gossip_join (seed_nodes : list (list Z)) : G Z :=
  g ← self;
  if negb (bool_decide (g_state g = STATE_INITIALIZED)) then mret PITTACUS_ERR_BAD_STATE
  else
    match seed_nodes with
    | [] => modify_self (set_state STATE_CONNECTED);; mret PITTACUS_ERR_NONE
    | _ => join_loop seed_nodes
    end.

(** [data_size] is a [uint32_t] narrowed to [uint16_t] by the call. *)
Definition pittacus_gossip_send_data (data : list Z) (data_size : Z) : G Z :=
  return_if_not_connected (gossip_enqueue_data data (u16 data_size)).

Definition pittacus_gossip_tick : G Z :=
  g ← self;
  if negb (bool_decide (g_state g = STATE_CONNECTED)) then mret GOSSIP_TICK_INTERVAL
  else
    let next_gossip_ts := u64 (g_last_gossip_ts g + GOSSIP_TICK_INTERVAL) in
    current_ts ← liftW pt_time;
    if current_ts <? next_gossip_ts then mret (i32 (u64 (next_gossip_ts - current_ts)))
    else
      enqueue_result ← gossip_enqueue_status None 0;
      if enqueue_result <? 0 then mret enqueue_result
      else
        modify_self (set_last_gossip_ts current_ts);;
        mret GOSSIP_TICK_INTERVAL.

(** * Sending *)

(** The inner loop of [pittacus_gossip_process_send]: drop the messages
    to the same recipient that follow [current]; the envelope after them. *)
Fixpoint drop_unreachable (fuel : nat) (current : loc) (next : option loc)
    (q : message_queue) : out (option loc * message_queue) :=
  match next with
  | None => mret (None, q)
  | Some to_remove =>
      match fuel with
      | O => Nofuel
      | S fuel' =>
          ne ← deref q to_remove;
          ce ← deref q current;
          same ← memcmp_eq (en_recipient ne) (en_recipient ce) (en_recipient_len ne);
          if (same : bool) then
            q ← gossip_envelope_remove q to_remove;
            drop_unreachable fuel' current (en_next ne) q
          else mret (Some to_remove, q)
      end
  end.

(** The envelope [current] has no attempt left: the recipient is dropped
    from the members when an acknowledgement was expected. Returns the
    envelope to go on with. *)
Definition expire_envelope (current : loc) (head : option loc) : G (option loc) :=
  g ← self;
  e ← liftO (deref (g_outbound_messages g) current);
  head ←
    (if 1 <? en_max_attempts e then
       r ← liftO (cluster_member_set_remove_by_addr (g_members g) (en_recipient e)
                    (en_recipient_len e));
       modify_self (set_members (snd r));;
       r ← liftO (drop_unreachable (queue_fuel (g_outbound_messages g)) current
                    (en_next e) (g_outbound_messages g));
       modify_self (set_outbound_messages (snd r));;
       mret (fst r)
     else mret head);
  queue_op (fun q => gossip_envelope_remove q current);;
  mret head.

(** Patching the sequence number into the message of [current] and
    sending it: the result of [sendto]. *)
Definition transmit (current : loc) : G Z :=
  g ← self;
  e ← liftO (deref (g_outbound_messages g) current);
  let offset := sizeof_message_header - sizeof_u32 in
  output ← liftO (uint32_encode (en_sequence_num e) (g_output_buffer g)
                    (en_buffer e + offset));
  modify_self (set_output_buffer output);;
  bytes ← liftO (rd output (en_buffer e) (en_buffer_size e));
  addr ← liftO (rd (en_recipient e) 0 (en_recipient_len e));
  liftW (pt_send_to (g_socket g) bytes addr).

Fixpoint send_loop (fuel : nat) (head : option loc) (msg_sent : Z) : G Z :=
  match head with
  | None => mret msg_sent
  | Some current =>
      match fuel with
      | O => nofuelS
      | S fuel' =>
          g ← self;
          e ← liftO (deref (g_outbound_messages g) current);
          let head := en_next e in
          if en_max_attempts e <=? en_attempt_num e then
            head ← expire_envelope current head;
            send_loop fuel' head msg_sent
          else
            current_ts ← liftW pt_time;
            if negb (en_attempt_num e =? 0)
               && (current_ts <? u64 (en_attempt_ts e + MESSAGE_RETRY_INTERVAL))
            then send_loop fuel' head msg_sent
            else
              write_result ← transmit current;
              if write_result <? 0 then mret PITTACUS_ERR_WRITE_FAILED
              else
                queue_op (fun q => update q current
                                     (set_attempt current_ts (u16 (en_attempt_num e + 1))));;
                (if en_max_attempts e <=? 1
                 then queue_op (fun q => gossip_envelope_remove q current)
                 else mret tt);;
                send_loop fuel' head (msg_sent + 1)
      end
  end.

Definition pittacus_gossip_process_send : G Z :=
  g ← self;
  if negb (is_active (g_state g)) then mret PITTACUS_ERR_BAD_STATE
  else send_loop (queue_fuel (g_outbound_messages g)) (q_head (g_outbound_messages g)) 0.
End Handlers.

(** * Accessors *)

(** [pittacus_gossip_state] and [pittacus_gossip_socket_fd]: a field of the
    descriptor. The first shares its name with the type of states. *)
Definition pittacus_gossip_state_get {Ctx} : M (node Ctx) pittacus_gossip_state :=
  g ← self; mret (g_state g).
Definition pittacus_gossip_socket_fd {Ctx} : M (node Ctx) Z := g ← self; mret (g_socket g).
