(* ===== verification/Text.v ===== *)
(** Text of the C standard library: NUL-terminated strings, the conversions
    of [sprintf] that the program uses, and reading numbers back. *)
From S2P Require Import Prelude.
From Stdlib Require Import String Ascii.

(** * Strings *)

(** The bytes of a string literal, without the terminating NUL. *)
Definition bytes_of (s : string) : list Z :=
  (fun a => Z.of_N (N_of_ascii a)) <$> list_ascii_of_string s.

(** The string at the start of an object: its bytes up to the first NUL.
    Reading on past the end of the object is undefined. *)
Fixpoint c_string (m : list Z) : out (list Z) :=
  match m with
  | [] => Ub
  | c :: m' => if c =? 0 then mret [] else s ← c_string m'; mret (c :: s)
  end.

(** A text without NUL, stored with one, reads back. *)
Definition no_nul (s : list Z) : Prop := Forall (fun c => c <> 0) s.

#[export] Instance no_nul_dec s : Decision (no_nul s).
Proof. unfold no_nul. apply _. Defined.

Lemma c_string_ok s rest : no_nul s -> c_string (s ++ 0 :: rest) = Ok s.
Proof.
  induction 1 as [|c s Hc _ IH]; [done|]. cbn [app c_string].
  rewrite (proj2 (Z.eqb_neq _ _) Hc), IH. done.
Qed.

(** No NUL in the object: the read runs off its end. *)
Lemma c_string_unterminated m : no_nul m -> c_string m = Ub.
Proof.
  induction 1 as [|c m Hc _ IH]; [done|]. cbn [c_string].
  by rewrite (proj2 (Z.eqb_neq _ _) Hc), IH.
Qed.

Lemma c_string_Ok m s : c_string m = Ok s -> no_nul s /\ zlen s < zlen m.
Proof.
  revert s. induction m as [|c m IH]; intros s; cbn [c_string]; [done|].
  destruct (Z.eqb_spec c 0) as [->|Hc].
  - intros [= <-]. split; [constructor|]. rewrite zlen_cons, zlen_nil.
    pose proof (zlen_nonneg m). lia.
  - destruct (c_string m) as [s'| |] eqn:E; try done. intros [= <-].
    destruct (IH s' eq_refl) as [Hs Hl]. split; [by constructor|]. rewrite !zlen_cons. lia.
Qed.

(** [sprintf(cursor, ...)] producing the text [s]: it is stored with its NUL;
    the result is its length. *)
Definition sprintf (m : list Z) (cursor : Z) (s : list Z) : out (Z * list Z) :=
  m ← wr m cursor (s ++ [0]); mret (zlen s, m).

Lemma sprintf_at m c pre old s :
  m = pre ++ old -> c = zlen pre -> zlen s < zlen old ->
  sprintf m c s = Ok (zlen s, (pre ++ s ++ [0]) ++ zdrop (zlen s + 1) old).
Proof.
  intros Hm Hc Hl. unfold sprintf.
  rewrite (wr_at m c pre old) by (done || (autorewrite with zlen; lia)). out_step.
  do 3 f_equal. autorewrite with zlen. f_equal.
Qed.

(** A text that does not fit with its NUL is written beyond the object. *)
Lemma sprintf_overflow m s : zlen m <= zlen s -> sprintf m 0 s = Ub.
Proof.
  intros Hl. unfold sprintf, wr. pose proof (zlen_nonneg s). rewrite zlen_app.
  change (zlen [0]) with 1. rewrite (proj2 (Z.eqb_neq _ _)) by lia. cbn [andb Z.leb Z.compare].
  by rewrite (proj2 (Z.leb_gt _ _)) by lia.
Qed.

(** * Numbers *)

(** The digit of a value below 16, as an ASCII code, and back. *)
Definition digit (d : Z) : Z := if d <? 10 then 48 + d else 87 + d.
Definition digit_val (c : Z) : Z :=
  if (48 <=? c) && (c <=? 57) then c - 48
  else if (97 <=? c) && (c <=? 102) then c - 87 else 16.

(** The digits of [n], most significant first. *)
Fixpoint print_digits (fuel : nat) (base n : Z) : list Z :=
  match fuel with
  | O => []
  | S fuel' =>
      if n <? base then [digit n]
      else print_digits fuel' base (n / base) ++ [digit (n mod base)]
  end.

(** [%u], [%d] and [%ld], [%llx]; 20 digits are enough for 64 bits. *)
Definition fmt_u (n : Z) : list Z := print_digits 20 10 n.
Definition fmt_d (n : Z) : list Z := if n <? 0 then 45 :: fmt_u (- n) else fmt_u n.
Definition fmt_llx (n : Z) : list Z := print_digits 20 16 n.

(** The number at the start of a text: its digits are consumed. *)
Fixpoint scan_digits (base acc : Z) (s : list Z) : Z * list Z :=
  match s with
  | [] => (acc, [])
  | c :: s' => if digit_val c <? base then scan_digits base (acc * base + digit_val c) s'
               else (acc, s)
  end.

Lemma digit_val_digit d : 0 <= d < 16 -> digit_val (digit d) = d.
Proof.
  intros Hd. unfold digit, digit_val. destruct (Z.ltb_spec d 10).
  - replace ((48 <=? 48 + d) && (48 + d <=? 57)) with true
      by (symmetry; rewrite andb_true_iff, !Z.leb_le; lia). lia.
  - replace (87 + d <=? 57) with false by (symmetry; apply Z.leb_gt; lia).
    rewrite andb_false_r.
    replace ((97 <=? 87 + d) && (87 + d <=? 102)) with true
      by (symmetry; rewrite andb_true_iff, !Z.leb_le; lia). lia.
Qed.

Lemma digit_nonzero d : 0 <= d -> digit d <> 0.
Proof. intros Hd. unfold digit. destruct (d <? 10); lia. Qed.

(** A text that no digit of the base starts. *)
Definition stops (base : Z) (s : list Z) : Prop :=
  match s with [] => True | c :: _ => base <= digit_val c end.

Lemma scan_stops base acc s : stops base s -> scan_digits base acc s = (acc, s).
Proof. destruct s as [|c s]; [done|]. cbn. intros H. by rewrite (proj2 (Z.ltb_ge _ _) H). Qed.

Section Digits.
Context (base : Z) (Hbase : 2 <= base <= 16).

Lemma print_digits_no_nul fuel n : 0 <= n -> no_nul (print_digits fuel base n).
Proof.
  revert n. induction fuel as [|fuel IH]; intros n Hn; cbn [print_digits]; [constructor|].
  destruct (n <? base).
  - constructor; [by apply digit_nonzero|constructor].
  - apply Forall_app. split; [apply IH; apply Z.div_pos; lia|].
    constructor; [|constructor]. apply digit_nonzero. apply Z.mod_pos_bound. lia.
Qed.

(** Reading the digits back. *)
Lemma scan_print fuel n acc rest :
  0 <= n < base ^ Z.of_nat fuel ->
  scan_digits base acc (print_digits fuel base n ++ rest) =
    scan_digits base (acc * base ^ zlen (print_digits fuel base n) + n) rest.
Proof.
  revert n rest. induction fuel as [|fuel IH]; intros n rest Hn.
  { rewrite Z.pow_0_r in Hn. cbn [print_digits app]. rewrite zlen_nil, Z.pow_0_r. f_equal. lia. }
  rewrite Nat2Z.inj_succ, Z.pow_succ_r in Hn by lia. cbn [print_digits].
  destruct (Z.ltb_spec n base) as [Hlt|Hge].
  - cbn [app scan_digits]. rewrite digit_val_digit by lia.
    rewrite (proj2 (Z.ltb_lt _ _) Hlt), zlen_cons, zlen_nil. f_equal. lia.
  - rewrite <- app_assoc, IH.
    2:{ split; [apply Z.div_pos; lia|]. apply Z.div_lt_upper_bound; lia. }
    cbn [app scan_digits]. pose proof (Z.mod_pos_bound n base).
    rewrite digit_val_digit by lia. rewrite (proj2 (Z.ltb_lt (n mod base) base)) by lia.
    rewrite zlen_app, zlen_cons, zlen_nil.
    set (k := zlen (print_digits fuel base (n / base))).
    assert (0 <= k) by apply zlen_nonneg. rewrite Z.pow_add_r by lia. f_equal.
    pose proof (Z.div_mod n base). rewrite Z.add_0_r, Z.pow_1_r. nia.
Qed.

Lemma print_digits_length fuel (k : nat) n :
  (0 < k <= fuel)%nat -> 0 <= n < base ^ Z.of_nat k -> 1 <= zlen (print_digits fuel base n) <= Z.of_nat k.
Proof.
  revert k n. induction fuel as [|fuel IH]; intros k n Hk Hn; [lia|]. cbn [print_digits].
  destruct (Z.ltb_spec n base); [rewrite zlen_cons, zlen_nil; lia|].
  destruct k as [|[|k]]; [lia|change (Z.of_nat 1) with 1 in Hn; lia|].
  rewrite zlen_app, zlen_cons, zlen_nil.
  rewrite Nat2Z.inj_succ, Z.pow_succ_r in Hn by lia.
  assert (1 <= zlen (print_digits fuel base (n / base)) <= Z.of_nat (S k)); [|lia].
  apply IH; [lia|]. split; [apply Z.div_pos; lia|]. apply Z.div_lt_upper_bound; lia.
Qed.

Lemma print_digits_longer fuel (k : nat) n :
  (k < fuel)%nat -> base ^ Z.of_nat k <= n -> Z.of_nat k < zlen (print_digits fuel base n).
Proof.
  revert k n. induction fuel as [|fuel IH]; intros k n Hk Hn; [lia|]. cbn [print_digits].
  destruct k as [|k].
  { destruct (n <? base); [done|]. rewrite zlen_app. change (zlen [digit (n mod base)]) with 1.
    pose proof (zlen_nonneg (print_digits fuel base (n / base))). lia. }
  rewrite Nat2Z.inj_succ in Hn |- *. rewrite Z.pow_succ_r in Hn by lia.
  assert (0 < base ^ Z.of_nat k) by (apply Z.pow_pos_nonneg; lia).
  destruct (Z.ltb_spec n base); [nia|]. rewrite zlen_app, zlen_cons, zlen_nil.
  assert (Z.of_nat k < zlen (print_digits fuel base (n / base))); [|lia].
  apply IH; [lia|]. apply Z.div_le_lower_bound; lia.
Qed.
End Digits.

Lemma fmt_u_scan n rest : is_u64 n -> stops 10 rest -> scan_digits 10 0 (fmt_u n ++ rest) = (n, rest).
Proof.
  intros Hn Hr. unfold fmt_u. rewrite scan_print; [|lia|].
  - rewrite Z.mul_0_l, Z.add_0_l. by apply scan_stops.
  - change (Z.of_nat 20) with 20. assert (2 ^ 64 < 10 ^ 20) by reflexivity. word_lia.
Qed.

Lemma fmt_llx_scan n rest : is_u64 n -> stops 16 rest -> scan_digits 16 0 (fmt_llx n ++ rest) = (n, rest).
Proof.
  intros Hn Hr. unfold fmt_llx. rewrite scan_print; [|lia|].
  - rewrite Z.mul_0_l, Z.add_0_l. by apply scan_stops.
  - change (Z.of_nat 20) with 20. assert (2 ^ 64 < 16 ^ 20) by reflexivity. word_lia.
Qed.

Lemma fmt_u_no_nul n : 0 <= n -> no_nul (fmt_u n).
Proof. by apply print_digits_no_nul. Qed.
Lemma fmt_llx_no_nul n : 0 <= n -> no_nul (fmt_llx n).
Proof. by apply print_digits_no_nul. Qed.
Lemma fmt_d_no_nul n : no_nul (fmt_d n).
Proof.
  unfold fmt_d. destruct (Z.ltb_spec n 0); [constructor; [done|]|]; apply fmt_u_no_nul; lia.
Qed.

Lemma fmt_u32_length n : is_u32 n -> 1 <= zlen (fmt_u n) <= 10.
Proof.
  intros Hn. apply (print_digits_length 10 ltac:(lia) 20 10); [lia|].
  change (Z.of_nat 10) with 10. assert (2 ^ 32 < 10 ^ 10) by reflexivity. word_lia.
Qed.
Lemma fmt_llx_length n : is_u64 n -> 1 <= zlen (fmt_llx n) <= 16.
Proof.
  intros Hn. apply (print_digits_length 16 ltac:(lia) 20 16); [lia|].
  change (Z.of_nat 16) with 16. assert (2 ^ 64 = 16 ^ 16) by reflexivity. word_lia.
Qed.
Lemma fmt_d_length n : - 2 ^ 63 <= n < 2 ^ 63 -> 1 <= zlen (fmt_d n) <= 20.
Proof.
  intros Hn. assert (2 ^ 63 < 10 ^ 19) as H10 by reflexivity. unfold fmt_d.
  assert (forall m, 0 <= m <= 2 ^ 63 -> 1 <= zlen (fmt_u m) <= 19) as Hm.
  { intros m Hm. apply (print_digits_length 10 ltac:(lia) 20 19); [lia|].
    change (Z.of_nat 19) with 19. lia. }
  destruct (Z.ltb_spec n 0).
  - rewrite zlen_cons. specialize (Hm (- n)). lia.
  - specialize (Hm n). lia.
Qed.
Lemma fmt_d_digits n : 10 ^ 9 <= n -> 10 <= zlen (fmt_d n).
Proof.
  intros Hn. unfold fmt_d. destruct (Z.ltb_spec n 0); [lia|].
  pose proof (print_digits_longer 10 ltac:(lia) 20 9 n ltac:(lia) Hn). unfold fmt_u. lia.
Qed.
