(* ===== verification/Demo.v ===== *)
(** The demo programs: [demos/demo_node.c], which joins a seed node and sends
    a line of text every few seconds, and [demos/demo_seed_node.c], which
    waits to be joined. Both are an event loop around the library. What
    [poll], [time] and [strerror] answer in a round of the loop, and the
    datagrams that arrive while it polls, are given round by round. *)
From S2P Require Import Prelude.
From S2P Require Import Config.
From S2P Require Import Utils.
From S2P Require Import World.
From S2P Require Import Gossip.
From S2P Require Import Node.
From S2P Require Import Text.
From Stdlib Require Import String.
Local Abbreviation length := Datatypes.length.

(** * What the programs share *)

(** What was printed, a call at a time: standard output and error. *)
Record console := Console { con_out : list (list Z); con_err : list (list Z) }.

(** One round: the result of [poll] and the events it reports, what arrived
    by then, the text of [strerror(errno)], and [time(NULL)]. *)
Record turn := Turn {
  tn_poll : Z;
  tn_pollerr : bool;
  tn_pollin : bool;
  tn_arrived : list (list Z * list Z);
  tn_strerror : list Z;
  tn_time : Z
}.

Abbreviation D := (M (node console)).

Definition newline : list Z := [10].

(** [printf] and [fprintf(stderr, ...)]. *)
Definition print (text : list Z) : D unit := fun n =>
  Ok (tt, Node (n_self n) (n_world n)
            (Console (con_out (n_context n) ++ [text]) (con_err (n_context n)))).
Definition complain (text : list Z) : D unit := fun n =>
  Ok (tt, Node (n_self n) (n_world n)
            (Console (con_out (n_context n)) (con_err (n_context n) ++ [text]))).

(** Datagrams arrive at the socket. *)
Definition arrive (waiting : list (list Z * list Z)) : D unit := fun n =>
  let w := n_world n in
  Ok (tt, Node (n_self n)
            (World (answers w) (allocs w) (time_calls w) (random_calls w) (sent w)
               (inbox w ++ waiting) (closed w)) (n_context n)).

(** [struct sockaddr_in] of 127.0.0.1: family in host order, the bytes of the
    port, the address, and eight bytes that the programs never set. *)
Definition sockaddr_in (port : list Z) (sin_zero : list Z) : list Z :=
  [AF_INET; 0] ++ port ++ [127; 0; 0; 1] ++ sin_zero.

(** [htons]: the bytes of a port in network order. *)
Definition htons (port : Z) : list Z := [port / 256; port mod 256].

(** [data_receiver] of both programs prints the data as a string. *)
Definition data_receiver : option (list Z -> Z -> D unit) :=
  Some (fun data _ =>
    s ← liftO (c_string data);
    print (bytes_of "Data arrived: " ++ s ++ newline)).

(** The way out: a message, the descriptor destroyed, -1. *)
Definition fail {A} (text : list Z) : D (A + Z) :=
  complain (text ++ newline);; _ ← pittacus_gossip_destroy; mret (inr (-1)).

(** Polling the socket and reading one message from it. *)
Definition poll_socket {A} (t : turn) (k : D (A + Z)) : D (A + Z) :=
  arrive (tn_arrived t);;
  if 0 <? tn_poll t then
    if tn_pollerr t then fail (bytes_of "Gossip socket failure: " ++ tn_strerror t)
    else if tn_pollin t then
      recv_result ← pittacus_gossip_process_receive data_receiver;
      if recv_result <? 0 then fail (bytes_of "Gossip receive failed: " ++ fmt_d recv_result)
      else k
    else k
  else if tn_poll t <? 0 then fail (bytes_of "Poll failed: " ++ tn_strerror t)
  else k.

(** The tick that follows; when it fails the program ends at once. *)
Definition tick_socket {A} (k : Z -> D (A + Z)) : D (A + Z) :=
  poll_interval ← pittacus_gossip_tick;
  if poll_interval <? 0 then
    complain (bytes_of "Gossip tick failed: " ++ fmt_d poll_interval ++ newline);;
    mret (inr (-1))
  else k poll_interval.

(** Writing the queued messages, the end of the round. *)
Definition write_socket {A} (t : turn) (a : A) : D (A + Z) :=
  send_result ← pittacus_gossip_process_send;
  if send_result <? 0 then
    fail (bytes_of "Gossip send failed: " ++ fmt_d send_result ++ bytes_of ", " ++ tn_strerror t)
  else mret (inl a).

(** A loop [while (1)], a round per element of the list. *)
Fixpoint rounds {A} (round : turn -> A -> D (A + Z)) (turns : list turn) (a : A) : D (A + Z) :=
  match turns with
  | [] => mret (inl a)
  | t :: turns =>
      r ← round t a;
      match r with inl a => rounds round turns a | inr c => mret (inr c) end
  end.

(** The result of [main] with what is left of world and console. *)
Definition with_node {A} (g : Gossip.pittacus_gossip) (m : D (A + Z)) : M (world * console) (A + Z) :=
  fun '(w, c) =>
    match m (Node g w c) with
    | Ok (r, n) => Ok (r, (n_world n, n_context n))
    | Ub => Ub
    | Nofuel => Nofuel
    end.

Definition on_world {A} (m : M world A) : M (world * console) A := fun '(w, c) =>
  match m w with Ok (a, w) => Ok (a, (w, c)) | Ub => Ub | Nofuel => Nofuel end.

Definition init_failed {A} (why : list Z) : M (world * console) (A + Z) := fun '(w, c) =>
  Ok (inr (-1), (w, Console (con_out c)
    (con_err c ++ [bytes_of "Gossip initialization failed: " ++ why ++ newline]))).

(** * The demo node *)

Module DemoNode.

Definition DATA_MESSAGE : list Z := bytes_of "Hello World".
Definition send_data_interval : Z := 5.

(** The variables of [main] that the loop changes, and [message]. *)
Record vars := Vars {
  poll_interval : Z;
  previous_data_msg_ts : Z;
  message : list Z;
  message_with_ts : list Z
}.

(** [sprintf(message, "[%s]: %s", node_id, DATA_MESSAGE)]. *)
Definition message_text (node_id : list Z) : list Z :=
  bytes_of "[" ++ node_id ++ bytes_of "]: " ++ DATA_MESSAGE.

(** ["%s (ts = %ld)"]. *)
Definition text_with_ts (text : list Z) (current_time : Z) : list Z :=
  text ++ bytes_of " (ts = " ++ fmt_d current_time ++ bytes_of ")".

(** Sending some data periodically. *)
Definition send_periodically (current_time : Z) (v : vars) : D vars :=
  if previous_data_msg_ts v + send_data_interval <=? current_time then
    text ← liftO (c_string (message v));
    r ← liftO (sprintf (message_with_ts v) 0 (text_with_ts text current_time));
    let message_with_ts_size := fst r + 1 in
    _ ← pittacus_gossip_send_data (snd r) message_with_ts_size;
    mret (Vars (poll_interval v) current_time (message v) (snd r))
  else mret v.

(** One round of the loop. *)
Definition node_round (t : turn) (v : vars) : D (vars + Z) :=
  poll_socket t (tick_socket (fun poll_interval =>
    v ← send_periodically (tn_time t)
          (Vars poll_interval (previous_data_msg_ts v) (message v) (message_with_ts v));
    write_socket t v)).

(** [main] from the joining on. *)
Definition node_run (seed_node_in : list Z) (v : vars) (turns : list turn) : D (vars + Z) :=
  join_result ← pittacus_gossip_join [seed_node_in];
  if join_result <? 0 then fail (bytes_of "Gossip join failed: " ++ fmt_d join_result)
  else
    send_result ← pittacus_gossip_process_send;
    if send_result <? 0 then fail (bytes_of "Failed to send hello message to a cluster.")
    else
      gossip_fd ← pittacus_gossip_socket_fd;
      rounds node_round turns v.

(** [main]: the second argument of the program, the memory that is not set
    (the descriptor, the buffers, [sin_zero]), [strerror(errno)] when the
    creation fails, the time before the loop, and the rounds. *)
Definition node_main (argv1 : option (list Z)) (garbage : Gossip.pittacus_gossip)
    (message_memory message_with_ts_memory sin_zero seed_sin_zero : list Z)
    (why : list Z) (start_time : Z) (turns : list turn) : M (world * console) (vars + Z) :=
  let node_id := default (bytes_of "0") argv1 in
  r ← liftO (sprintf message_memory 0 (message_text node_id));
  gossip ← on_world (pittacus_gossip_create garbage (sockaddr_in [0; 0] sin_zero));
  match gossip with
  | None => init_failed why
  | Some g =>
      with_node g (node_run (sockaddr_in (htons 65000) seed_sin_zero)
        (Vars GOSSIP_TICK_INTERVAL start_time (snd r) message_with_ts_memory) turns)
  end.

End DemoNode.

(** * The seed node *)

Module DemoSeedNode.

(** One round of the loop; the loop's variable is the poll interval. *)
Definition seed_round (t : turn) (poll_interval : Z) : D (Z + Z) :=
  poll_socket t (tick_socket (fun poll_interval => write_socket t poll_interval)).

(** [main] from the joining on, without seed nodes. *)
Definition seed_run (turns : list turn) : D (Z + Z) :=
  join_result ← pittacus_gossip_join [];
  if join_result <? 0 then fail (bytes_of "Gossip join failed: " ++ fmt_d join_result)
  else
    gossip_fd ← pittacus_gossip_socket_fd;
    rounds seed_round turns GOSSIP_TICK_INTERVAL.

Definition seed_main (garbage : Gossip.pittacus_gossip) (sin_zero why : list Z) (turns : list turn)
    : M (world * console) (Z + Z) :=
  gossip ← on_world (pittacus_gossip_create garbage (sockaddr_in (htons 65000) sin_zero));
  match gossip with
  | None => init_failed why
  | Some g => with_node g (seed_run turns)
  end.

End DemoSeedNode.
