(* ===== verification/Tests.v ===== *)
(** The three test programs under [test], transcribed: each of their
    functions, with its assertions, runs here on the definitions of the
    library. *)
From S2P Require Import Prelude.
From S2P Require Import Config.
From S2P Require Import Utils.
From S2P Require Import World.
From S2P Require Import Member.
From S2P Require Import VectorClock.
From S2P Require Import Messages.

(** * Assertions *)

(** An assertion that fails aborts the program, which then has no result. *)
Definition assert {S} (b : bool) : M S unit := if b then mret tt else ubS.

(** What a pointer that is asserted not to be NULL points to. *)
Definition assert_some {S A} (p : option A) : M S A := match p with Some x => mret x | None => ubS end.

(** [for (i = 0; i < n; ++i)] of the tests. *)
Fixpoint each {S A} (l : list A) (body : A -> M S unit) : M S unit :=
  match l with [] => mret tt | x :: l => body x;; each l body end.

(** * [test_utils.c] *)

(** The [sockaddr_in] of [create_test_member]: 127.0.0.1, the port; its last
    eight bytes are never written, and are whatever the stack holds. *)
Definition test_address (rest : list Z) (port : Z) : list Z :=
  store host 2 AF_INET ++ store host 2 (hton host 2 (u16 port)) ++ [127; 0; 0; 1] ++ rest.

Definition create_test_member (rest : list Z) (port : Z) : M world (Z * cluster_member) :=
  cluster_member_init (test_address rest port) 16.

(** With the assertion that it succeeded. *)
Definition test_member (rest : list Z) (port : Z) : M world cluster_member :=
  r ← create_test_member rest port; assert (fst r =? 0);; mret (snd r).

Section Tests.
(** What the stack holds at each call of [create_test_member]. *)
Context (stack : nat -> list Z).

(** * [vector_clock_test.c] *)

Definition test_vector_clock_init : M world unit :=
  let clock := vector_clock_init in
  assert (vc_size clock =? 0);; assert (vc_current_idx clock =? 0);;
  assert (bool_decide (vc_records clock = replicate (Z.to_nat MAX_VECTOR_SIZE) (VectorRecord 0 0))).

(** The clock, and the record that the pointer points to. *)
Definition set_record (clock : vector_clock) (member : cluster_member) (seq_num : Z)
    : M world (Z * vector_record * vector_clock) :=
  r ← liftO (vector_clock_set clock member seq_num);
  rec ← liftO (aread (vc_records (snd r)) (fst r));
  mret (fst r, rec, snd r).

Definition clock_is (clock : vector_clock) (size current_idx : Z) : M world unit :=
  assert (vc_size clock =? size);; assert (vc_current_idx clock =? current_idx).

Definition seq_is (clock : vector_clock) (i seq_num : Z) : M world unit :=
  rec ← liftO (aread (vc_records clock) i); assert (vr_sequence_number rec =? seq_num).

Definition test_vector_clock_set : M world unit :=
  let clock := vector_clock_init in
  member ← create_test_member (stack 0) 12345;
  r ← set_record clock (snd member) 1;
  let '(set_result1, rec, clock) := r in
  assert (vr_sequence_number rec =? 1);; clock_is clock 1 1;;
  r ← set_record clock (snd member) 2;
  let '(set_result2, rec, clock) := r in
  assert (vr_sequence_number rec =? 2);; clock_is clock 1 1;;
  assert (set_result1 =? set_result2);;
  member2 ← create_test_member (stack 1) 12346;
  r ← set_record clock (snd member2) 3;
  let '(set_result3, rec, clock) := r in
  assert (vr_sequence_number rec =? 3);; clock_is clock 2 2;;
  assert (negb (set_result3 =? set_result2)).

(** The loop over the members, from [i] on. *)
Fixpoint overflow_loop (n : nat) (i : Z) (clock : vector_clock) : M world vector_clock :=
  match n with
  | O => mret clock
  | S n' =>
      member ← create_test_member (stack (Z.to_nat i)) (1000 + i);
      r ← set_record clock (snd member) i;
      let '(_, rec, clock) := r in
      assert (vr_sequence_number rec =? i);;
      overflow_loop n' (i + 1) clock
  end.

Definition test_vector_clock_set_overflow : M world unit :=
  let members_size := MAX_VECTOR_SIZE + 1 in
  clock ← overflow_loop (Z.to_nat members_size) 0 vector_clock_init;
  clock_is clock 20 (members_size - MAX_VECTOR_SIZE);;
  seq_is clock (MAX_VECTOR_SIZE - 1) (MAX_VECTOR_SIZE - 1);;
  seq_is clock 0 MAX_VECTOR_SIZE.

Definition test_vector_clock_increment : M world unit :=
  let clock := vector_clock_init in
  member ← create_test_member (stack 0) 12345;
  r ← liftO (vector_clock_increment clock (snd member));
  let '(increment_result, clock) := r in
  assert (bool_decide (increment_result = None));;
  r ← set_record clock (snd member) 1;
  let '(set_result, rec, clock) := r in
  assert (vr_sequence_number rec =? 1);; clock_is clock 1 1;;
  r ← liftO (vector_clock_increment clock (snd member));
  let '(increment_result, clock) := r in
  assert (bool_decide (increment_result = Some set_result));;
  seq_is clock set_result 2;; clock_is clock 1 1.

(** [assert(vector_clock_compare(...) == res)]; the first clock. *)
Definition compares (first second : vector_clock) (merge : bool) (res : vector_clock_comp_res)
    : M world vector_clock :=
  r ← liftO (vector_clock_compare first second merge);
  assert (bool_decide (fst r = res));; mret (snd r).

Definition increments (clock : vector_clock) (member : cluster_member) : M world vector_clock :=
  r ← liftO (vector_clock_increment clock member);
  _ ← assert_some (fst r); mret (snd r).

Definition test_vector_clock_compare : M world unit :=
  member1 ← create_test_member (stack 0) 12345;
  member2 ← create_test_member (stack 1) 12346;
  r ← set_record vector_clock_init (snd member1) 1;
  let clock1 := snd r in
  r ← set_record vector_clock_init (snd member2) 1;
  let clock2 := snd r in
  clock1 ← compares clock1 clock2 true VC_CONFLICT;
  assert (vc_size clock1 =? 2);; seq_is clock1 0 1;; seq_is clock1 1 1;;
  clock1 ← increments clock1 (snd member2);
  seq_is clock1 1 2;;
  clock2 ← compares clock2 clock1 false VC_BEFORE;
  assert (vc_size clock2 =? 1);; seq_is clock2 0 1;;
  clock1 ← compares clock1 clock2 false VC_AFTER;
  clock2 ← compares clock2 clock1 true VC_BEFORE;
  clock2 ← compares clock2 clock1 true VC_EQUAL;
  clock1 ← compares clock1 clock2 true VC_EQUAL;
  r ← set_record clock1 (snd member1) 3;
  let clock1 := snd r in
  r ← set_record clock2 (snd member2) 3;
  let clock2 := snd r in
  clock2 ← compares clock2 clock1 false VC_CONFLICT;
  _ ← compares clock1 clock2 false VC_CONFLICT;
  mret tt.

Definition compares_record (clock : vector_clock) (record : vector_record) (merge : bool)
    (res : vector_clock_comp_res) : M world vector_clock :=
  r ← liftO (vector_clock_compare_with_record clock record merge);
  assert (bool_decide (fst r = res));; mret (snd r).

Definition test_vector_clock_compare_with_record : M world unit :=
  member ← create_test_member (stack 0) 12345;
  r ← set_record vector_clock_init (snd member) 1;
  let '(_, test_record, actual_clock) := r in
  test_clock ← compares_record vector_clock_init test_record true VC_BEFORE;
  clock_is test_clock 1 1;; seq_is test_clock 0 1;;
  test_clock ← compares_record test_clock test_record false VC_EQUAL;
  test_clock ← increments test_clock (snd member);
  test_clock ← compares_record test_clock test_record false VC_AFTER;
  r ← set_record actual_clock (snd member) 3;
  let '(_, test_record, _) := r in
  test_clock ← compares_record test_clock test_record false VC_BEFORE;
  clock_is test_clock 1 1;; seq_is test_clock 0 2.

Definition test_vector_clock_copy : M world unit :=
  member1 ← create_test_member (stack 0) 12345;
  member2 ← create_test_member (stack 1) 12346;
  r ← set_record vector_clock_init (snd member1) 1;
  let clock1 := snd r in
  r ← set_record vector_clock_init (snd member2) 1;
  let clock2 := snd r in
  clock1 ← liftO (vector_clock_copy clock1 clock2);
  clock_is clock1 1 1;;
  rec1 ← liftO (aread (vc_records clock1) 0);
  rec2 ← liftO (aread (vc_records clock2) 0);
  assert (vr_member_id rec1 =? vr_member_id rec2);;
  assert (vr_sequence_number rec1 =? vr_sequence_number rec2).

Definition test_vector_clock_record_copy : M world unit :=
  member1 ← create_test_member (stack 0) 12345;
  member2 ← create_test_member (stack 1) 12346;
  r ← set_record vector_clock_init (snd member1) 1;
  r ← set_record vector_clock_init (snd member2) 1;
  let '(_, record2, _) := r in
  let record1 := vector_clock_record_copy record2 in
  assert (vr_member_id record1 =? vr_member_id record2);;
  assert (vr_sequence_number record1 =? vr_sequence_number record2).

Definition vector_clock_test_main : M world Z :=
  test_vector_clock_init;; test_vector_clock_set;; test_vector_clock_set_overflow;;
  test_vector_clock_increment;; test_vector_clock_compare;; test_vector_clock_compare_with_record;;
  test_vector_clock_copy;; test_vector_clock_record_copy;; mret 0.

(** * [member_test.c] *)

Definition equals_is (first second : cluster_member) (b : bool) : M world unit :=
  r ← liftO (cluster_member_equals first second); assert (Bool.eqb r b).

Definition test_cluster_member_equals : M world unit :=
  member1 ← test_member (stack 0) 12345;
  member2 ← test_member (stack 1) 12345;
  let member2 := ClusterMember (cm_version member2) (cm_uid member1) (cm_address_len member2) (cm_address member2) in
  equals_is member1 member1 true;; equals_is member1 member2 true;; equals_is member2 member1 true;;
  member2 ← test_member (stack 2) 12346;
  equals_is member1 member2 false;; equals_is member2 member1 false.

Definition test_set : M world cluster_member_set :=
  r ← cluster_member_set_init; assert (fst r =? 0);; assert_some (snd r).

(** [assert(cluster_member_set_put(...) == 0)]. *)
Definition puts (set : cluster_member_set) (members : list cluster_member) : M world cluster_member_set :=
  r ← cluster_member_set_put set members; assert (fst r =? 0);; mret (snd r).

Definition set_is (set : cluster_member_set) (size capacity : Z) : M world unit :=
  assert (ms_size set =? size);; assert (ms_capacity set =? capacity).

Definition finds (set : cluster_member_set) (member : cluster_member) : M world (option member_cell) :=
  liftO (cluster_member_set_find_by_addr set (cm_address member) (cm_address_len member)).

Definition removes (set : cluster_member_set) (member : loc) (b : bool) : M world cluster_member_set :=
  r ← liftO (cluster_member_set_remove set member); assert (Bool.eqb (fst r) b);; mret (snd r).

Definition removes_addr (set : cluster_member_set) (member : cluster_member) (b : bool)
    : M world cluster_member_set :=
  r ← liftO (cluster_member_set_remove_by_addr set (cm_address member) (cm_address_len member));
  assert (Bool.eqb (fst r) b);; mret (snd r).

Definition is_null {A} (p : option A) : bool := match p with None => true | Some _ => false end.

Definition test_cluster_member_set_put_remove : M world unit :=
  set ← test_set;
  assert (0 <? ms_capacity set);; assert (ms_size set =? 0);;
  let init_capacity := ms_capacity set in
  member1 ← test_member (stack 0) 12345;
  set ← puts set [member1]; set_is set 1 init_capacity;;
  set ← puts set [member1]; set_is set 1 init_capacity;;
  member2 ← test_member (stack 1) 12346;
  set ← puts set [member2]; set_is set 2 init_capacity;;
  search_result ← finds set member1;
  c ← assert_some search_result;
  equals_is (cell_member c) member1 true;;
  set ← removes set (cell_ptr c) true; set_is set 1 init_capacity;;
  set ← removes set (cell_ptr c) false;
  search_result ← finds set member1; assert (is_null search_result);;
  set ← removes_addr set member2 true; set_is set 0 init_capacity;;
  set ← removes_addr set member2 false;
  search_result ← finds set member2; assert (is_null search_result).

(** The members with ports from 1000 on. *)
Fixpoint test_members (n : nat) (i : Z) : M world (list cluster_member) :=
  match n with
  | O => mret []
  | S n' =>
      member ← test_member (stack (Z.to_nat i)) (1000 + i);
      members ← test_members n' (i + 1);
      mret (member :: members)
  end.

Definition test_cluster_member_set_extension : M world unit :=
  set ← test_set;
  let members_size := ms_capacity set * 3 in
  members ← test_members (Z.to_nat members_size) 0;
  set ← puts set members;
  assert (ms_size set =? members_size);; assert (members_size <? ms_capacity set);;
  each members (fun member => search_result ← finds set member; assert (negb (is_null search_result)));;
  set ← puts set members;
  assert (ms_size set =? members_size).

(** The members made and put one by one. *)
Fixpoint put_each (n : nat) (i : Z) (set : cluster_member_set) : M world cluster_member_set :=
  match n with
  | O => mret set
  | S n' =>
      member ← test_member (stack (Z.to_nat i)) (1000 + i);
      set ← puts set [member];
      put_each n' (i + 1) set
  end.

Definition test_cluster_member_set_random_members : M world unit :=
  set ← test_set;
  set ← put_each 10 0 set;
  rnd_members1 ← cluster_member_set_random_members set 5;
  assert (zlen rnd_members1 =? 5);;
  each rnd_members1 (fun c =>
    search_result ← finds set (cell_member c);
    found ← assert_some search_result;
    assert (Nat.eqb (cell_ptr found) (cell_ptr c)));;
  rnd_members2 ← cluster_member_set_random_members set 10;
  assert (zlen rnd_members2 =? 10);;
  each (zip rnd_members2 (ms_set set)) (fun '(c, e) =>
    found ← assert_some e; assert (Nat.eqb (cell_ptr c) (cell_ptr found)));;
  rnd_members3 ← cluster_member_set_random_members set 15;
  assert (zlen rnd_members3 =? 10).

Definition member_test_main : M world Z :=
  test_cluster_member_equals;; test_cluster_member_set_put_remove;; test_cluster_member_set_extension;;
  test_cluster_member_set_random_members;; mret 0.

(** * [messages_test.c] *)

Definition validate_headers (expected actual : message_header) : M world unit :=
  assert (bool_decide (mh_protocol_id expected = mh_protocol_id actual));;
  assert (mh_message_type expected =? mh_message_type actual);;
  assert (mh_sequence_num expected =? mh_sequence_num actual).

Definition test_message_header : M world unit :=
  let header := message_header_init MESSAGE_ACK_TYPE 1 in
  assert (mh_message_type header =? MESSAGE_ACK_TYPE);; assert (mh_sequence_num header =? 1);;
  assert (bool_decide (mh_protocol_id header = [112; 116; 99; 115; 0])).

(** The buffer before it is written. *)
Context (garbage : list Z).

(** What all six tests do: the encoder writes the message into the buffer,
    the decoder reads as many bytes back, and both refuse a small buffer. *)
Definition encodes_decodes {T} (encode : list Z -> Z -> out (Z * list Z))
    (decode : list Z -> Z -> M world (Z * option T)) (validate : T -> M world unit) : M world unit :=
  r ← liftO (encode garbage MESSAGE_MAX_SIZE);
  let '(encode_result, buf) := r in
  assert (0 <? encode_result);;
  r ← decode buf encode_result;
  assert (0 <? fst r);; assert (fst r =? encode_result);;
  out_msg ← assert_some (snd r);
  validate out_msg;;
  r ← liftO (encode buf 1); assert (fst r =? PITTACUS_ERR_BUFFER_NOT_ENOUGH);;
  r ← decode (snd r) 12; assert (fst r =? PITTACUS_ERR_BUFFER_NOT_ENOUGH).

Definition test_message_hello_enc_dec : M world unit :=
  member ← test_member (stack 0) 12345;
  let msg := MessageHello (message_header_init MESSAGE_HELLO_TYPE 1) member in
  encodes_decodes (message_hello_encode msg) message_hello_decode (fun out_msg =>
    validate_headers (hello_header msg) (hello_header out_msg);;
    equals_is (hello_this_member msg) (hello_this_member out_msg) true).

Definition test_message_welcome_enc_dec : M world unit :=
  member ← test_member (stack 0) 12345;
  let msg := MessageWelcome (message_header_init MESSAGE_WELCOME_TYPE 1) 2 member in
  encodes_decodes (message_welcome_encode msg) message_welcome_decode (fun out_msg =>
    validate_headers (welcome_header msg) (welcome_header out_msg);;
    equals_is (welcome_this_member msg) (welcome_this_member out_msg) true;;
    assert (welcome_hello_sequence_num msg =? welcome_hello_sequence_num out_msg)).

Definition test_message_member_list_enc_dec : M world unit :=
  member1 ← test_member (stack 0) 12345;
  member2 ← test_member (stack 1) 12346;
  let msg := MessageMemberList (message_header_init MESSAGE_MEMBER_LIST_TYPE 1) 2 [member1; member2] in
  encodes_decodes (message_member_list_encode msg) message_member_list_decode (fun out_msg =>
    validate_headers (ml_header msg) (ml_header out_msg);;
    assert (ml_members_n msg =? ml_members_n out_msg);;
    each [0; 1] (fun i =>
      x ← liftO (aread (ml_members msg) i); y ← liftO (aread (ml_members out_msg) i);
      equals_is x y true)).

Definition test_message_ack_enc_dec : M world unit :=
  let msg := MessageAck (message_header_init MESSAGE_ACK_TYPE 1) 2 in
  encodes_decodes (message_ack_encode msg) (fun m size => liftO (message_ack_decode m size)) (fun out_msg =>
    validate_headers (ack_header msg) (ack_header out_msg);;
    assert (ack_ack_sequence_num msg =? ack_ack_sequence_num out_msg)).

(** "data" with the NUL at its end: as the NUL is part of the data, equal
    bytes are equal strings. *)
Definition test_message_data_enc_dec : M world unit :=
  let data := [100; 97; 116; 97; 0] in
  member ← test_member (stack 0) 12345;
  r ← set_record vector_clock_init member 2;
  let '(_, data_version, _) := r in
  let msg := MessageData (message_header_init MESSAGE_DATA_TYPE 1) (vector_clock_record_copy data_version)
               (zlen data) data in
  encodes_decodes (message_data_encode msg) (fun m size => liftO (message_data_decode m size)) (fun out_msg =>
    validate_headers (data_header msg) (data_header out_msg);;
    assert (data_data_size msg =? data_data_size out_msg);;
    same ← liftO (memcmp_eq (data_data msg) (data_data out_msg) (zlen data)); assert same;;
    assert (vr_member_id (data_data_version out_msg) =? vr_member_id data_version);;
    assert (vr_sequence_number (data_data_version out_msg) =? vr_sequence_number data_version)).

Definition test_message_status_enc_dec : M world unit :=
  member1 ← test_member (stack 0) 12345;
  member2 ← test_member (stack 1) 12346;
  r ← set_record vector_clock_init member1 2;
  let '(_, clock_record1, clock) := r in
  r ← set_record clock member2 3;
  let '(_, clock_record2, clock) := r in
  data_version ← liftO (vector_clock_copy vector_clock_init clock);
  let msg := MessageStatus (message_header_init MESSAGE_STATUS_TYPE 1) data_version in
  encodes_decodes (message_status_encode msg) (fun m size => liftO (message_status_decode m size)) (fun out_msg =>
    validate_headers (status_header msg) (status_header out_msg);;
    clock_is (status_data_version out_msg) 2 0;;
    rec ← liftO (aread (vc_records (status_data_version out_msg)) 0);
    assert (bool_decide (rec = clock_record1));;
    rec ← liftO (aread (vc_records (status_data_version out_msg)) 1);
    assert (bool_decide (rec = clock_record2))).

(** A decoder refuses the message. *)
Definition refuses {T} (decode : list Z -> Z -> M world (Z * option T)) (buf : list Z) (size : Z) : M world unit :=
  r ← decode buf size; assert (fst r =? PITTACUS_ERR_INVALID_MESSAGE).

Definition test_message_invalid_message_type : M world unit :=
  let msg := MessageAck (message_header_init 255 1) 2 in
  r ← liftO (message_ack_encode msg garbage MESSAGE_MAX_SIZE);
  let '(encode_result, buf) := r in
  assert (0 <? encode_result);;
  refuses message_hello_decode buf encode_result;;
  refuses message_welcome_decode buf encode_result;;
  refuses message_member_list_decode buf encode_result;;
  refuses (fun m size => liftO (message_ack_decode m size)) buf encode_result;;
  refuses (fun m size => liftO (message_data_decode m size)) buf encode_result;;
  refuses (fun m size => liftO (message_status_decode m size)) buf encode_result.

Definition messages_test_main : M world Z :=
  test_message_header;; test_message_hello_enc_dec;; test_message_welcome_enc_dec;;
  test_message_member_list_enc_dec;; test_message_ack_enc_dec;; test_message_data_enc_dec;;
  test_message_status_enc_dec;; test_message_invalid_message_type;; mret 0.
End Tests.

(** * Running them *)

(** A host with memory whose clock stands still, and an empty stack. *)
Definition test_host : world :=
  World (Oracle (fun _ => true) (fun _ => (1480000000, 0)) (fun k => 7 * Z.of_nat k) (fun _ => 0)
    (fun _ => 0) (fun _ => 0) (fun _ _ => 0) (fun _ => (0, []))) 0 0 0 [] [] [].
Definition clean (_ : nat) : list Z := replicate 8 0.

(** The status that a program returns. *)
Definition exit_status (m : M world Z) : option Z :=
  match m test_host with Ok (r, _) => Some r | _ => None end.

(** No assertion of the three programs fails. *)
Lemma vector_clock_test_passes : exit_status (vector_clock_test_main clean) = Some 0.
Proof. vm_compute. reflexivity. Qed.

Lemma member_test_passes : exit_status (member_test_main clean) = Some 0.
Proof. vm_compute. reflexivity. Qed.

Lemma messages_test_passes : exit_status (messages_test_main clean (replicate 512 170)) = Some 0.
Proof. vm_compute. reflexivity. Qed.

(** But the addresses of the test are not initialised to their end: where the
    stack holds something else at the second call, the first assertion on two
    equal members fails. *)
Lemma member_test_depends_on_stack :
  exit_status (member_test_main (fun k => replicate 8 (Z.of_nat k))) = None.
Proof. vm_compute. reflexivity. Qed.
