(* ===== verification/MemberFacts.v ===== *)
(** Facts about members: the wire format of a member, and the set of
    members as a list. *)
From S2P Require Import Prelude.
From S2P Require Import Config.
From S2P Require Import Utils.
From S2P Require Import World.
From S2P Require Import Member.

(** * Wire format *)

(** A member whose fields fit their types and whose address is readable. *)
Definition member_wf (m : cluster_member) : Prop :=
  is_u16 (cm_version m) /\ is_u32 (cm_uid m) /\ is_u32 (cm_address_len m) /\
  cm_address_len m <= zlen (cm_address m).

#[export] Instance member_wf_dec m : Decision (member_wf m).
Proof. unfold member_wf. apply _. Defined.

(** The address proper. *)
Definition member_addr (m : cluster_member) : list Z :=
  ztake (cm_address_len m) (cm_address m).

Definition wire_member (m : cluster_member) : list Z :=
  bytes_be 2 (cm_version m) ++ bytes_be 4 (cm_uid m) ++
  bytes_be 4 (cm_address_len m) ++ member_addr m.

Definition wire_member_len (m : cluster_member) : Z := 10 + cm_address_len m.

(** Members that the code cannot tell apart: the bytes after the address
    do not count. *)
Definition member_eqv (m m' : cluster_member) : Prop :=
  cm_version m = cm_version m' /\ cm_uid m = cm_uid m' /\
  cm_address_len m = cm_address_len m' /\ member_addr m = member_addr m'.

#[export] Instance member_eqv_equiv : Equivalence member_eqv.
Proof.
  split.
  - by intros m.
  - unfold member_eqv. intros m m'. intuition congruence.
  - unfold member_eqv. intros m1 m2 m3. intuition congruence.
Qed.

#[export] Instance wire_member_proper : Proper (member_eqv ==> eq) wire_member.
Proof. intros m m' (Hv & Hu & Hl & Ha). unfold wire_member. congruence. Qed.

#[export] Instance member_eqv_dec m m' : Decision (member_eqv m m').
Proof. unfold member_eqv. apply _. Defined.

Lemma zlen_member_addr m : member_wf m -> zlen (member_addr m) = cm_address_len m.
Proof. intros (_ & _ & [? _] & ?). apply zlen_ztake. lia. Qed.

Lemma zlen_wire_member m : member_wf m -> zlen (wire_member m) = wire_member_len m.
Proof.
  intros Hm. unfold wire_member, wire_member_len.
  autorewrite with zlen. rewrite zlen_member_addr by done. lia.
Qed.

Lemma cluster_member_encode_at m mem c pre old size :
  mem = pre ++ old -> c = zlen pre -> member_wf m ->
  wire_member_len m <= size -> wire_member_len m <= zlen old ->
  wire_member_len m < 2 ^ 31 ->
  cluster_member_encode m mem c size
    = Ok (wire_member_len m, (pre ++ wire_member m) ++ zdrop (wire_member_len m) old).
Proof.
  intros -> -> Hm Hs Ho Hb. pose proof Hm as (Hv & Hu & Hl & Ha).
  pose proof (zlen_nonneg pre) as Hp.
  unfold wire_member_len in *. unfold cluster_member_encode. unfold is_u32 in Hl.
  config_unfold. destruct (Z.ltb_spec size (2 * 4 + 2 + cm_address_len m)) as [?|_]; [lia|].
  rewrite (uint16_encode_at _ _ _ pre old) by (done || lia). out_step.
  rewrite (uint32_encode_at _ _ _ (pre ++ bytes_be 2 (cm_version m)) (zdrop 2 old));
    [|done|zlen_solve|done|zlen_solve]. out_step.
  rewrite (uint32_encode_at _ _ _ ((pre ++ bytes_be 2 (cm_version m)) ++ bytes_be 4 (cm_uid m))
             (zdrop 4 (zdrop 2 old)));
    [|done|zlen_solve|done|zlen_solve]. out_step.
  rewrite rd_prefix by word_lia. out_step. fold (member_addr m).
  rewrite (wr_at _ _ (((pre ++ bytes_be 2 (cm_version m)) ++ bytes_be 4 (cm_uid m))
                      ++ bytes_be 4 (cm_address_len m)) (zdrop 4 (zdrop 4 (zdrop 2 old))));
    [|done|zlen_solve|rewrite zlen_member_addr by done; zlen_solve].
  out_step. rewrite i32_id by word_lia. rewrite zlen_member_addr by done.
  rewrite !zdrop_zdrop by word_lia. unfold wire_member. rewrite <- !app_assoc.
  f_equal. f_equal; [lia|]. repeat (apply (f_equal (app _))). f_equal. lia.
Qed.

Lemma cluster_member_decode_at m mem c pre rest size :
  mem = pre ++ wire_member m ++ rest -> c = zlen pre -> member_wf m ->
  10 <= size -> wire_member_len m < 2 ^ 31 ->
  cluster_member_decode mem c size
    = Ok (wire_member_len m,
          Some (ClusterMember (cm_version m) (cm_uid m) (cm_address_len m)
                  (member_addr m ++ rest))).
Proof.
  intros -> -> Hm Hs Hb. pose proof Hm as (Hv & Hu & Hl & Ha).
  unfold wire_member_len, wire_member in *. unfold cluster_member_decode. config_unfold.
  destruct (Z.ltb_spec size (2 * 4 + 2)) as [?|_]; [lia|].
  rewrite (uint16_decode_at (cm_version m) _ (zlen pre) pre
    (bytes_be 4 (cm_uid m) ++ bytes_be 4 (cm_address_len m) ++ member_addr m ++ rest));
    [|app_solve|done|done]. out_step.
  rewrite (uint32_decode_at (cm_uid m) _ (zlen pre + 2) (pre ++ bytes_be 2 (cm_version m))
    (bytes_be 4 (cm_address_len m) ++ member_addr m ++ rest));
    [|app_solve|zlen_solve|done]. out_step.
  rewrite (uint32_decode_at (cm_address_len m) _ (zlen pre + 2 + 4)
    ((pre ++ bytes_be 2 (cm_version m)) ++ bytes_be 4 (cm_uid m)) (member_addr m ++ rest));
    [|app_solve|zlen_solve|done]. out_step.
  rewrite i32_id by word_lia. f_equal. f_equal; [lia|]. do 2 f_equal.
  etrans; [|apply (zdrop_app (pre ++ bytes_be 2 (cm_version m) ++ bytes_be 4 (cm_uid m)
                              ++ bytes_be 4 (cm_address_len m)))].
  f_equal; [zlen_solve|app_solve].
Qed.

(** * Comparison and copy *)

(** The copy [cluster_member_copy] makes: the address bytes only. *)
Definition stored (m : cluster_member) : cluster_member :=
  ClusterMember (cm_version m) (cm_uid m) (cm_address_len m) (member_addr m).

(** A member of the set: its address is the allocated copy. *)
Definition stored_wf (m : cluster_member) : Prop :=
  member_wf m /\ zlen (cm_address m) = cm_address_len m.

#[export] Instance stored_wf_dec m : Decision (stored_wf m).
Proof. unfold stored_wf. apply _. Defined.

Lemma stored_eqv m : member_wf m -> member_eqv (stored m) m.
Proof.
  intros Hm. unfold member_eqv, stored. cbn. split_and!; try done.
  unfold member_addr at 1. cbn. apply ztake_all.
  rewrite zlen_member_addr by done. lia.
Qed.

Lemma stored_stored_wf m : member_wf m -> stored_wf (stored m).
Proof.
  intros Hm. pose proof Hm as (? & ? & ? & ?). unfold stored_wf, member_wf, stored. cbn.
  rewrite zlen_member_addr by done. split_and!; try done; lia.
Qed.

Lemma cluster_member_equals_spec a b :
  member_wf a -> member_wf b ->
  cluster_member_equals a b = Ok (bool_decide (member_eqv a b)).
Proof.
  intros Ha Hb. pose proof Ha as (_ & _ & [? _] & ?). pose proof Hb as (_ & _ & [? _] & ?).
  unfold cluster_member_equals, member_eqv.
  destruct (Z.eqb_spec (cm_uid a) (cm_uid b)) as [E1|E1];
    [|rewrite bool_decide_false by tauto; done].
  destruct (Z.eqb_spec (cm_version a) (cm_version b)) as [E2|E2];
    [|rewrite bool_decide_false by tauto; done].
  destruct (Z.eqb_spec (cm_address_len a) (cm_address_len b)) as [E3|E3];
    [|rewrite bool_decide_false by tauto; done].
  cbn [andb]. unfold memcmp_eq. rewrite !rd_prefix by lia. out_step.
  f_equal. apply bool_decide_ext. unfold member_addr. rewrite E3. tauto.
Qed.

Lemma wp_cluster_member_copy w m (Q : Z * cluster_member -> world -> Prop) :
  no_oom w -> member_wf m ->
  (forall w', world_le w w' -> sent w' = sent w -> inbox w' = inbox w ->
     Q (PITTACUS_ERR_NONE, stored m) w') ->
  wp (cluster_member_copy m) w Q.
Proof.
  intros Hw (_ & _ & [? _] & ?) HQ. unfold cluster_member_copy.
  apply wp_bind, wp_malloc_ok; [done|]. intros w' Hle _ Hs Hi.
  apply wp_bind. eapply wp_lift; [apply rd_prefix; lia|].
  apply wp_ret. by apply HQ.
Qed.

(** * The set as a list of cells *)

(** [cells] are the members in the set; the rest of the array is not used. *)
Definition set_repr (s : cluster_member_set) (cells : list member_cell) : Prop :=
  (exists rest, ms_set s = (Some <$> cells) ++ rest) /\
  zlen cells = ms_size s /\ zlen (ms_set s) = ms_capacity s /\
  load_exceeded (ms_size s) (ms_capacity s) = false /\
  1 <= ms_capacity s < 2 ^ 32 /\
  Forall (fun c => stored_wf (cell_member c)) cells.

(** Members, in the order they were added. *)
Definition set_members_of (cells : list member_cell) : list cluster_member :=
  cell_member <$> cells.

Section SetRepr.
Context (s : cluster_member_set) (cells : list member_cell).
Context (Hs : set_repr s cells).

Lemma set_repr_fuel : Z.to_nat (ms_size s) = length cells.
Proof. destruct Hs as (_ & Hn & _). rewrite <- Hn. unfold zlen. lia. Qed.

Lemma set_repr_room : ms_size s < ms_capacity s.
Proof.
  destruct Hs as (_ & Hn & _ & Hl & Hc & _). unfold load_exceeded in Hl.
  apply Z.leb_gt in Hl. pose proof (zlen_nonneg cells). lia.
Qed.

Lemma set_cell_repr (k : nat) c :
  cells !! k = Some c -> set_cell s (Z.of_nat k) = Ok c.
Proof.
  intros Hk. destruct Hs as ([rest Hr] & _). unfold set_cell.
  rewrite (aread_Ok _ _ (Some c)); [done|].
  rewrite Hr, lookup_app_l, list_lookup_fmap, Hk; [done|].
  rewrite length_fmap. by eapply lookup_lt_Some.
Qed.

Lemma set_repr_wf (k : nat) c : cells !! k = Some c -> stored_wf (cell_member c).
Proof.
  destruct Hs as (_ & _ & _ & _ & _ & Hf). intros Hk.
  by apply (Forall_lookup_1 _ _ _ _ Hf Hk).
Qed.

(** Every search loop of the set is a search in the list of cells. *)
Lemma set_find (P : member_cell -> Prop) `{forall c, Decision (P c)} (p : Z -> out bool) :
  (forall k c, cells !! k = Some c -> p (Z.of_nat k) = Ok (bool_decide (P c))) ->
  ofind (Z.to_nat (ms_size s)) 0 p = Ok ((fun r => Z.of_nat (fst r)) <$> list_find P cells).
Proof.
  intros Hp. rewrite set_repr_fuel. rewrite (ofind_list_find P); [done|].
  intros k c Hk. rewrite Z.add_0_l. by apply Hp.
Qed.

Lemma set_contains_repr m :
  member_wf m ->
  set_contains s m
    = Ok (bool_decide (Exists (fun x => member_eqv x m) (set_members_of cells))).
Proof.
  intros Hm. unfold set_contains.
  rewrite (set_find (fun c => member_eqv (cell_member c) m)).
  2:{ intros k c Hk. rewrite (set_cell_repr k c Hk). out_step.
      apply cluster_member_equals_spec; [|done]. apply (set_repr_wf k c Hk). }
  out_step. unfold set_members_of. f_equal.
  destruct (list_find _ cells) as [[k c]|] eqn:E; cbn; symmetry.
  - apply bool_decide_eq_true. apply Exists_fmap.
    apply list_find_Some in E as (Hk & Hc & _). apply Exists_exists.
    exists c. split; [|done]. by apply list_elem_of_lookup_2 with k.
  - apply bool_decide_eq_false. rewrite Exists_fmap, Exists_exists.
    intros (c & Hc & He). apply list_find_None in E.
    rewrite Forall_forall in E. by apply (E c Hc).
Qed.
End SetRepr.
