(* ===== verification/MemberSetFacts.v ===== *)
(** The operations of the member set against lists: insertion without
    duplicates, growth, removal by address, reservoir sampling. *)
From S2P Require Import Prelude.
From S2P Require Import Config.
From S2P Require Import Utils.
From S2P Require Import World.
From S2P Require Import Member.
From S2P Require Import MemberFacts.

(** * Specification *)

(** What putting one member does to the list of members, and a batch. *)
Definition put_one (l : list cluster_member) (m : cluster_member) : list cluster_member :=
  if bool_decide (Exists (fun x => member_eqv x m) l) then l else l ++ [stored m].

Definition put_all (l news : list cluster_member) : list cluster_member :=
  fold_left put_one news l.

(** No two members of the set are equal for the code. *)
Definition no_dup_members (l : list cluster_member) : Prop :=
  forall i j x y, l !! i = Some x -> l !! j = Some y -> member_eqv x y -> i = j.

Lemma put_one_no_dup l m :
  member_wf m -> no_dup_members l -> no_dup_members (put_one l m).
Proof.
  intros Hm Hl. unfold put_one. case_bool_decide as He; [done|].
  assert (forall i x, l !! i = Some x -> ~ member_eqv x (stored m)) as Hn.
  { intros i x Hi Hx. apply He. apply Exists_exists. exists x. split.
    - by apply list_elem_of_lookup_2 with i.
    - by rewrite Hx, stored_eqv. }
  intros i j x y [Hi|[Hi1 Hi]]%lookup_app_Some [Hj|[Hj1 Hj]]%lookup_app_Some Hxy.
  - by eapply Hl.
  - apply list_lookup_singleton_Some in Hj as [_ <-]. by destruct (Hn i x).
  - apply list_lookup_singleton_Some in Hi as [_ <-]. destruct (Hn j y); [done|]. by symmetry.
  - apply list_lookup_singleton_Some in Hi as [? _].
    apply list_lookup_singleton_Some in Hj as [? _]. lia.
Qed.

Lemma put_all_no_dup news l :
  Forall member_wf news -> no_dup_members l -> no_dup_members (put_all l news).
Proof.
  intros Hf. revert l. induction Hf as [|m news Hm _ IH]; intros l Hl; [done|].
  apply IH. by apply put_one_no_dup.
Qed.

(** * Growth *)

Lemma extend_capacity_ok fuel req cap :
  0 <= req -> 4 * req < 3 * 2 ^ 31 -> 1 <= cap < 2 ^ 32 ->
  2 ^ (31 - Z.of_nat fuel) <= cap ->
  exists c, extend_capacity fuel req cap = Ok c /\ cap <= c < 2 ^ 32 /\
            load_exceeded req c = false.
Proof.
  intros Hr Hb. revert cap. induction fuel as [|fuel IH]; intros cap Hc Hf.
  - exists cap. unfold extend_capacity.
    destruct (load_exceeded req cap) eqn:E; [|split_and!; (done || lia)].
    unfold load_exceeded in E. apply Z.leb_le in E. change (2 ^ (31 - Z.of_nat 0)) with (2 ^ 31) in Hf.
    lia.
  - cbn [extend_capacity]. destruct (load_exceeded req cap) eqn:E.
    2:{ exists cap. split_and!; (done || lia). }
    unfold load_exceeded in E. apply Z.leb_le in E.
    assert (cap < 2 ^ 31) as Hlt by lia. unfold MEMBERS_EXTENSION_FACTOR.
    rewrite u32_id by (unfold is_u32; lia).
    destruct (IH (cap * 2)) as (c & Ec & Hcc & Hl); [lia| |exists c; split_and!; (done || lia)].
    destruct (Z.le_gt_cases (Z.of_nat fuel) 30) as [Hle|Hgt].
    + replace (31 - Z.of_nat fuel) with (Z.succ (31 - Z.of_nat (S fuel))) by lia.
      rewrite Z.pow_succ_r by lia. lia.
    + assert (2 ^ (31 - Z.of_nat fuel) <= 2 ^ 0); [|lia].
      destruct (Z.eq_dec (Z.of_nat fuel) 31) as [->|?]; [done|].
      rewrite Z.pow_neg_r by lia. lia.
Qed.

(** Copying the array keeps the cells. *)
Lemma copy_cells_ok s cells (cap : nat) :
  set_repr s cells -> (length cells <= cap)%nat ->
  exists rest,
    ofor (Z.to_nat (ms_size s)) 0
      (fun i new_member_set =>
         e ← aread (ms_set s) i;
         match e with
         | Some c => awrite new_member_set i (Some c)
         | None => mret new_member_set
         end) (replicate cap None)
    = Ok ((Some <$> cells) ++ rest) /\ length rest = (cap - length cells)%nat.
Proof.
  intros Hs Hc. rewrite (set_repr_fuel _ _ Hs). destruct Hs as ([rest Hr] & _).
  edestruct (ofor_inv (fun i a => length a = cap /\
      take (Z.to_nat i) a = Some <$> take (Z.to_nat i) cells)
      (length cells) 0) as (a & Ea & Hl & Ht); cycle 2.
  - exists (drop (length cells) a). rewrite Ea. split.
    + f_equal. rewrite <- (take_drop (length cells) a) at 1. f_equal.
      rewrite Z.add_0_l, Nat2Z.id in Ht. by rewrite Ht, firstn_all.
    + rewrite length_drop. lia.
  - split; [apply length_replicate|done].
  - intros j b Hj (Hl & Ht).
    destruct (lookup_lt_is_Some_2 cells (Z.to_nat j)) as [c Hk]; [lia|].
    exists (<[Z.to_nat j := Some c]> b).
    assert (ms_set s !! Z.to_nat j = Some (Some c)) as Hsj.
    { rewrite Hr, lookup_app_l, list_lookup_fmap, Hk; [done|]. rewrite length_fmap. lia. }
    split.
    + rewrite <- (Z2Nat.id j) by lia. rewrite (aread_Ok _ _ _ Hsj). out_step.
      rewrite awrite_Ok by lia. by rewrite Nat2Z.id.
    + rewrite length_insert. split; [done|].
      replace (Z.to_nat (j + 1)) with (S (Z.to_nat j)) by lia.
      rewrite (take_S_r _ _ (Some c)) by (apply list_lookup_insert_eq; lia).
      rewrite (take_S_r _ _ c) by done. rewrite fmap_app, <- Ht.
      f_equal. apply take_insert_ge. lia.
Qed.

Section PutFacts.
Context (w : world) (Hw : no_oom w).

(** Growth: the same cells, room for [req] members. *)
Lemma wp_set_extend s cells req (Q : option cluster_member_set -> world -> Prop) :
  set_repr s cells -> ms_size s <= req -> 4 * req < 3 * 2 ^ 31 ->
  (forall s' w', set_repr s' cells -> ms_size s' = ms_size s ->
     load_exceeded req (ms_capacity s') = false ->
     world_le w w' -> sent w' = sent w -> inbox w' = inbox w -> Q (Some s') w') ->
  wp (cluster_member_set_extend s req) w Q.
Proof.
  intros Hs Hreq Hb HQ. pose proof Hs as (_ & Hn & _ & _ & Hc & Hf).
  pose proof (zlen_nonneg cells).
  destruct (extend_capacity_ok extend_fuel req (ms_capacity s)) as (c & Ec & Hcc & Hl);
    [lia|done|done|change (2 ^ _) with 0; lia|].
  unfold load_exceeded in Hl. apply Z.leb_gt in Hl.
  destruct (copy_cells_ok s cells (Z.to_nat c) Hs) as (rest & Er & Hrest);
    [unfold zlen in Hn; lia|].
  unfold cluster_member_set_extend.
  apply wp_bind. eapply wp_lift; [done|].
  apply wp_bind, wp_malloc_ok; [done|]. intros w' Hle _ Hse Hi.
  apply wp_bind. eapply wp_lift; [exact Er|]. apply wp_ret.
  apply HQ; [|done| |done|done|done].
  - unfold zlen in Hn. unfold set_repr, load_exceeded. cbn. split_and!; try lia; [by eexists|done| |done].
    unfold zlen. rewrite length_app, length_fmap. lia.
  - cbn. unfold load_exceeded. apply Z.leb_gt. lia.
Qed.

Lemma put_cell_repr s cells cell a :
  set_repr s cells -> load_exceeded (ms_size s + 1) (ms_capacity s) = false ->
  stored_wf (cell_member cell) ->
  awrite (ms_set s) (ms_size s) (Some cell) = Ok a ->
  set_repr (MemberSet a (u32 (ms_size s + 1)) (ms_capacity s)) (cells ++ [cell]).
Proof.
  intros Hs Hroom Hc Ha. pose proof Hs as ([rest Hr] & Hn & Hz & _ & Hcap & Hf).
  pose proof (set_repr_room _ _ Hs) as Hlt. pose proof (zlen_nonneg cells).
  unfold set_repr. cbn. rewrite u32_id by (unfold is_u32; lia).
  rewrite <- Hn in Ha. unfold zlen in Ha at 1. rewrite awrite_Ok in Ha by (unfold zlen in *; lia).
  injection Ha as <-. split_and!; try (done || lia).
  - rewrite Hr. destruct rest as [|o rest].
    { rewrite Hr, app_nil_r in Hz. unfold zlen in *. rewrite length_fmap in Hz. lia. }
    exists rest. rewrite fmap_app, <- app_assoc. rewrite insert_app_r_alt by by rewrite length_fmap.
    rewrite length_fmap, Nat.sub_diag. done.
  - rewrite zlen_app. unfold zlen at 2. cbn. lia.
  - unfold zlen. rewrite length_insert. done.
  - apply Forall_app. auto.
Qed.
End PutFacts.

(** The insertion loop adds the new members, in order and without
    duplicates. *)
Lemma wp_put_loop news w s cells (Q : Z * cluster_member_set -> world -> Prop) :
  no_oom w -> set_repr s cells -> Forall member_wf news ->
  load_exceeded (ms_size s + zlen news) (ms_capacity s) = false ->
  (forall s' cells' w', set_repr s' cells' ->
     set_members_of cells' = put_all (set_members_of cells) news ->
     ms_capacity s' = ms_capacity s ->
     world_le w w' -> sent w' = sent w -> inbox w' = inbox w ->
     Q (PITTACUS_ERR_NONE, s') w') ->
  wp (put_loop s news) w Q.
Proof.
  intros Hw Hs Hf. revert w s cells Hw Hs Q.
  induction Hf as [|m news Hm Hf IH]; intros w s cells Hw Hs Q Hl HQ.
  { apply wp_ret. by apply (HQ s cells w). }
  cbn [put_loop]. apply wp_bind. eapply wp_lift; [by apply set_contains_repr|].
  rewrite zlen_cons in Hl. pose proof (zlen_nonneg news).
  unfold load_exceeded in Hl. apply Z.leb_gt in Hl.
  case_bool_decide as He; cbn beta iota.
  - apply (IH w s cells); [done|done|unfold load_exceeded; apply Z.leb_gt; lia|].
    intros s' cells' w' Hs' Hp. apply (HQ s' cells' w'); [done|]. rewrite Hp. cbn. unfold put_one.
    by rewrite bool_decide_true.
  - apply wp_bind, wp_malloc_ok; [done|]. intros w1 Hle1 _ Hse1 Hi1.
    apply wp_bind, wp_cluster_member_copy; [by eapply no_oom_le|done|].
    intros w2 Hle2 Hse2 Hi2. cbn [snd].
    pose proof (set_repr_room _ _ Hs) as Hroom. pose proof Hs as (_ & Hn & Hz & _).
    pose proof (zlen_nonneg cells).
    destruct (awrite (ms_set s) (ms_size s)
                (Some (MemberCell (allocs w) (stored m)))) as [a| |] eqn:Ea;
      [|exfalso; revert Ea; rewrite <- Hn; unfold zlen at 1; rewrite awrite_Ok;
        [done|unfold zlen in *; lia]..].
    apply wp_bind. eapply wp_lift; [done|].
    eapply (IH w2 _ (cells ++ [MemberCell (allocs w) (stored m)])).
    + eapply no_oom_le; [|done]. by transitivity w1.
    + eapply put_cell_repr; try done; [unfold load_exceeded; apply Z.leb_gt; lia|].
      by apply stored_stored_wf.
    + cbn. destruct Hs as (_ & _ & _ & _ & ? & _). unfold load_exceeded.
      rewrite u32_id by (unfold is_u32; lia). apply Z.leb_gt. lia.
    + intros s' cells' w' Hs' Hp Hc Hle Hse Hi. apply (HQ s' cells' w'); try done.
      * rewrite Hp. unfold set_members_of. rewrite fmap_app. cbn. unfold put_one.
        by rewrite bool_decide_false.
      * etrans; [exact Hle1|]. by etrans.
      * congruence.
      * congruence.
Qed.

Lemma wp_set_put news w s cells (Q : Z * cluster_member_set -> world -> Prop) :
  no_oom w -> set_repr s cells -> Forall member_wf news ->
  4 * (ms_size s + zlen news) < 3 * 2 ^ 31 ->
  (forall s' cells' w', set_repr s' cells' ->
     set_members_of cells' = put_all (set_members_of cells) news ->
     world_le w w' -> sent w' = sent w -> inbox w' = inbox w ->
     Q (PITTACUS_ERR_NONE, s') w') ->
  wp (cluster_member_set_put s news) w Q.
Proof.
  intros Hw Hs Hf Hb HQ. unfold cluster_member_set_put. cbn zeta.
  pose proof Hs as (_ & Hn & _). pose proof (zlen_nonneg cells). pose proof (zlen_nonneg news).
  rewrite u32_id by (unfold is_u32; lia).
  destruct (load_exceeded _ _) eqn:E.
  - apply wp_bind. eapply wp_set_extend; [done|done|lia|lia|].
    intros s' w' Hs' Hsz Hl Hle Hse Hi. eapply wp_put_loop; try done.
    + by eapply no_oom_le.
    + by rewrite Hsz.
    + intros s2 cells2 w2 Hs2 Hp _ Hle2 Hse2 Hi2. eapply HQ; try done; congruence || by etrans.
  - eapply wp_put_loop; try done. intros s2 cells2 w2 Hs2 Hp _ Hle2 Hse2 Hi2. by eapply HQ.
Qed.

(** * Removal *)

(** The shift loop moves the entries after [idx] one place down. *)
Lemma shift_loop_ok {A} (l : list A) (idx n : nat) :
  (n < length l)%nat -> (idx <= n)%nat ->
  exists a, ofor (n - idx) (Z.of_nat idx)
              (fun i a => x ← aread a (i + 1); awrite a i x) l = Ok a /\
    length a = length l /\
    forall k, a !! k = if bool_decide (idx <= k < n)%nat then l !! S k else l !! k.
Proof.
  intros Hn Hi.
  edestruct (ofor_inv (fun i (a : list A) => length a = length l /\
      forall k, a !! k = if bool_decide (idx <= k < Z.to_nat i)%nat then l !! S k else l !! k)
      (n - idx) (Z.of_nat idx) (fun i a => x ← aread a (i + 1); awrite a i x) l)
    as (a & Ea & Hl & Hk).
  - split; [done|]. intros k. rewrite bool_decide_false; [done|lia].
  - intros j b Hj [Hl Hk].
    destruct (lookup_lt_is_Some_2 b (S (Z.to_nat j))) as [x Hx]; [lia|].
    exists (<[Z.to_nat j := x]> b). split.
    + replace (j + 1) with (Z.of_nat (S (Z.to_nat j))) by lia.
      rewrite (aread_Ok _ _ _ Hx). out_step.
      rewrite <- (Z2Nat.id j) at 1 by lia. rewrite awrite_Ok by lia. done.
    + rewrite length_insert. split; [done|]. intros k.
      rewrite list_lookup_insert. rewrite Hk in Hx. rewrite bool_decide_false in Hx by lia.
      case_decide as Hd.
      * destruct Hd as [<- _]. rewrite bool_decide_true by lia. done.
      * rewrite Hk. destruct (decide (k = Z.to_nat j)) as [->|?]; [lia|].
        by rewrite (bool_decide_ext _ (idx <= k < Z.to_nat (j + 1))%nat) by lia.
  - exists a. split; [done|]. split; [done|]. intros k. rewrite Hk.
    by rewrite (bool_decide_ext _ (idx <= k < n)%nat) by lia.
Qed.

Lemma cluster_member_set_shift_repr s cells idx :
  set_repr s cells -> (idx < length cells)%nat ->
  exists s', cluster_member_set_shift s (Z.of_nat idx) = Ok s' /\
    set_repr s' (delete idx cells) /\ ms_capacity s' = ms_capacity s.
Proof.
  intros Hs Hi. pose proof (set_repr_room _ _ Hs) as Hroom.
  pose proof Hs as ([rest Hr] & Hn & Hz & Hl & Hc & Hf). unfold zlen in Hn, Hz.
  unfold load_exceeded in Hl. apply Z.leb_gt in Hl.
  destruct (shift_loop_ok (ms_set s) idx (length cells - 1)) as (a & Ea & Hla & Hk); [lia|lia|].
  unfold cluster_member_set_shift.
  replace (Z.to_nat _) with (length cells - 1 - idx)%nat by lia. rewrite Ea. out_step.
  eexists. split; [done|]. split; [|done].
  pose proof (length_delete cells idx (lookup_lt_is_Some_2 _ _ Hi)) as Hld.
  unfold set_repr, zlen, load_exceeded. cbn. rewrite u32_id by (unfold is_u32; lia).
  split_and!; try (done || lia).
  - exists (drop (length cells - 1) a).
    rewrite <- (take_drop (length cells - 1) a) at 1. f_equal.
    apply list_eq. intros k. rewrite list_lookup_fmap.
    destruct (decide (k < length cells - 1)%nat) as [Hlt|Hge].
    + rewrite lookup_take_lt by done. rewrite Hk.
      case_bool_decide as Hb; rewrite Hr.
      * rewrite list_lookup_delete_ge by lia.
        rewrite lookup_app_l by (rewrite length_fmap; lia). by rewrite list_lookup_fmap.
      * rewrite list_lookup_delete_lt by lia.
        rewrite lookup_app_l by (rewrite length_fmap; lia). by rewrite list_lookup_fmap.
    + rewrite lookup_take_ge by lia. rewrite lookup_ge_None_2 by lia. done.
  - by apply Forall_delete.
Qed.

Lemma find_addr_idx_repr s cells addr n :
  set_repr s cells -> 0 <= n <= zlen addr ->
  Forall (fun m => n <= cm_address_len m) (set_members_of cells) ->
  find_addr_idx s addr n
    = Ok ((fun r => Z.of_nat (fst r)) <$>
          list_find (fun c => ztake n (cm_address (cell_member c)) = ztake n addr) cells).
Proof.
  intros Hs Hn Hf. unfold find_addr_idx.
  apply (set_find s cells Hs (fun c => ztake n (cm_address (cell_member c)) = ztake n addr)).
  intros k c Hk. rewrite (set_cell_repr _ _ Hs k c Hk). out_step.
  destruct (set_repr_wf _ _ Hs k c Hk) as [_ Hz].
  unfold set_members_of in Hf. rewrite Forall_fmap in Hf.
  pose proof (Forall_lookup_1 _ _ _ _ Hf Hk) as Hlen. cbn in Hlen.
  unfold memcmp_eq. rewrite !rd_prefix by lia. done.
Qed.

(** Removal by address: the first member with that address goes, the others
    keep their order; nothing changes when there is none. *)
Lemma remove_by_addr_repr s cells addr n :
  set_repr s cells -> 0 <= n <= zlen addr ->
  Forall (fun m => n <= cm_address_len m) (set_members_of cells) ->
  exists s', cluster_member_set_remove_by_addr s addr n =
      Ok (bool_decide (is_Some (list_find
            (fun c => ztake n (cm_address (cell_member c)) = ztake n addr) cells)), s') /\
    set_repr s' match list_find (fun c => ztake n (cm_address (cell_member c)) = ztake n addr)
                        cells with
                | Some (k, _) => delete k cells
                | None => cells
                end.
Proof.
  intros Hs Hn Hf. unfold cluster_member_set_remove_by_addr.
  rewrite (find_addr_idx_repr s cells) by done. out_step.
  destruct (list_find _ cells) as [[k c]|] eqn:E; cbn.
  - apply list_find_Some in E as (Hk & _).
    destruct (cluster_member_set_shift_repr s cells k Hs) as (s' & -> & Hs' & _);
      [by eapply lookup_lt_Some|].
    by exists s'.
  - by exists s.
Qed.

(** * Reservoir sampling *)

Lemma NoDup_list_insert {A} (l : list A) k x :
  NoDup l -> x ∉ l -> NoDup (<[k := x]> l).
Proof.
  rewrite !NoDup_alt. intros Hl Hx i j y. rewrite !list_lookup_insert.
  repeat case_decide; intros [= Hi] [= Hj]; try lia.
  - subst. by destruct Hx; eapply list_elem_of_lookup_2.
  - subst. by destruct Hx; eapply list_elem_of_lookup_2.
  - by eapply Hl.
Qed.

(** The cells sampled are entries of the set at distinct positions. *)
Definition sample_of (cells r : list member_cell) (bound : nat) : Prop :=
  exists idxs : list nat,
    NoDup idxs /\ Forall (fun i => (i < bound)%nat) idxs /\
    Forall2 (fun i c => cells !! i = Some c) idxs r.

Lemma sample_of_insert cells r bound (k : nat) c :
  sample_of cells r bound -> cells !! bound = Some c -> (k < length r)%nat ->
  sample_of cells (<[k := c]> r) (S bound).
Proof.
  intros (idxs & Hnd & Hb & Hr) Hc Hk. exists (<[k := bound]> idxs).
  assert (bound ∉ idxs) as Hni.
  { intros Hin. rewrite Forall_forall in Hb.
    specialize (Hb _ Hin). cbn in Hb. lia. }
  split_and!.
  - by apply NoDup_list_insert.
  - apply Forall_insert; [|lia]. refine (List.Forall_impl _ _ Hb). intros i ?. lia.
  - by apply Forall2_insert.
Qed.

Lemma sample_of_mono cells r b b' :
  (b <= b')%nat -> sample_of cells r b -> sample_of cells r b'.
Proof.
  intros Hle (idxs & Hnd & Hb & Hr). exists idxs. split_and!; try done.
  refine (List.Forall_impl _ _ Hb). intros i ?. lia.
Qed.

Lemma sample_of_elem cells r b c : sample_of cells r b -> c ∈ r -> c ∈ cells.
Proof.
  intros (idxs & _ & _ & Hr) [j Hj]%list_elem_of_lookup.
  destruct (Forall2_lookup_r _ _ _ _ _ Hr Hj) as (i & _ & Hi).
  by eapply list_elem_of_lookup_2.
Qed.

(** The replacement phase keeps a sample of the right size. *)
Lemma wp_sample_loop n w s cells actual (idx : nat) r
    (Q : list member_cell -> world -> Prop) :
  set_repr s cells -> sample_of cells r idx -> zlen r = actual ->
  (idx + n = length cells)%nat ->
  (forall r' w', sample_of cells r' (length cells) -> zlen r' = actual ->
     world_le w w' -> allocs w' = allocs w -> sent w' = sent w -> inbox w' = inbox w ->
     Q r' w') ->
  wp (sample_loop n s actual (Z.of_nat idx) r) w Q.
Proof.
  intros Hs. revert w idx r. induction n as [|n IH]; intros w idx r Hr Hl Hi HQ.
  { apply wp_ret. rewrite Nat.add_0_r in Hi. subst idx. by apply HQ. }
  cbn [sample_loop]. apply wp_bind, wp_pt_random. intros w1 Hle1 Ha1 Hse1 Hi1.
  destruct (lookup_lt_is_Some_2 cells idx) as [c Hc]; [lia|].
  replace (Z.of_nat idx + 1) with (Z.of_nat (S idx)) by lia.
  assert (forall r', sample_of cells r' (S idx) -> zlen r' = actual ->
            wp (sample_loop n s actual (Z.of_nat (S idx)) r') w1 Q) as Hnext.
  { intros r' Hr' Hl'. apply IH; [done|done|lia|].
    intros r2 w2 H1 H2 H3 H4 H5 H6. apply HQ; try done; congruence || by etrans. }
  set (ridx := u32 _ mod Z.of_nat (S idx)).
  assert (0 <= ridx) as Hge by (apply Z.mod_pos_bound; lia).
  apply wp_bind. destruct (Z.ltb_spec ridx actual) as [Hlt|_].
  - apply wp_bind. eapply wp_lift; [by apply set_cell_repr with cells|].
    rewrite <- (Z2Nat.id ridx) by done.
    eapply wp_lift; [apply awrite_Ok; unfold zlen in Hl; lia|].
    apply Hnext; [|unfold zlen in *; by rewrite length_insert].
    apply sample_of_insert; [done|done|]. unfold zlen in Hl. lia.
  - apply wp_ret. apply Hnext; [|done]. apply (sample_of_mono _ _ idx); [lia|done].
Qed.

Lemma fill_reservoir_ok s cells (n : nat) :
  set_repr s cells -> (n <= length cells)%nat ->
  ofor n 0 (fun i r => c ← set_cell s i; mret (r ++ [c])) [] = Ok (take n cells).
Proof.
  intros Hs Hn.
  edestruct (ofor_inv (fun i r => r = take (Z.to_nat i) cells) n 0) as (r & Er & ->); cycle 2.
  - rewrite Er. by rewrite Z.add_0_l, Nat2Z.id.
  - done.
  - intros j b Hj ->. destruct (lookup_lt_is_Some_2 cells (Z.to_nat j)) as [c Hc]; [lia|].
    exists (take (Z.to_nat j) cells ++ [c]). split.
    + rewrite <- (Z2Nat.id j) at 1 by lia. by rewrite (set_cell_repr _ _ Hs _ _ Hc).
    + replace (Z.to_nat (j + 1)) with (S (Z.to_nat j)) by lia. by rewrite (take_S_r _ _ c).
Qed.

(** [cluster_member_set_random_members]: whatever the random numbers, the
    result has [min(reservoir_size, size)] cells of the set, at distinct
    positions; the whole set in order when the reservoir is large enough. *)
Lemma wp_random_members w s cells n (Q : list member_cell -> world -> Prop) :
  set_repr s cells -> 0 <= n ->
  (forall r w', sample_of cells r (length cells) -> zlen r = Z.min n (ms_size s) ->
     (ms_size s <= n -> r = cells) ->
     world_le w w' -> allocs w' = allocs w -> sent w' = sent w -> inbox w' = inbox w ->
     Q r w') ->
  wp (cluster_member_set_random_members s n) w Q.
Proof.
  intros Hs Hn HQ. pose proof Hs as (_ & Hsz & _). unfold zlen in Hsz.
  assert (forall k, (k <= length cells)%nat -> sample_of cells (take k cells) k) as Htake.
  { intros k Hk. exists (seq 0 k). split_and!.
    - apply NoDup_seq.
    - apply List.Forall_forall. intros i. rewrite List.in_seq. lia.
    - apply Forall2_same_length_lookup_2.
      + rewrite length_seq, length_take. lia.
      + intros i x c [-> Hi]%lookup_seq. by rewrite lookup_take_lt by lia. }
  unfold cluster_member_set_random_members.
  destruct (Z.eqb_spec (ms_size s) 0) as [E|E].
  { apply wp_ret. apply HQ; try done; try lia.
    - apply (sample_of_mono _ _ 0); [lia|]. apply (Htake 0%nat). lia.
    - rewrite zlen_nil. lia.
    - intros _. destruct cells; [done|cbn in Hsz; lia]. }
  set (actual := if n <? ms_size s then n else ms_size s).
  assert (actual = Z.min n (ms_size s)) as Ha.
  { unfold actual. destruct (Z.ltb_spec n (ms_size s)); lia. }
  cbn zeta. apply wp_bind. eapply wp_lift; [apply (fill_reservoir_ok s cells); [done|lia]|].
  assert (zlen (take (Z.to_nat actual) cells) = actual) as Hzl.
  { unfold zlen. rewrite length_take. lia. }
  destruct (Z.ltb_spec actual (ms_size s)) as [Hlt|Hge].
  - rewrite <- (Z2Nat.id actual) at 3 by lia.
    apply (wp_sample_loop _ _ _ cells); [done|apply Htake; lia|done|lia|].
    intros r w' H1 H2 H3 H4 H5 H6. apply HQ; try done; lia.
  - apply wp_ret. rewrite take_ge in * by lia. apply HQ; try done; try lia.
    rewrite <- (firstn_all cells) at 2. by apply Htake.
Qed.
