(* ===== verification/MemoryFacts.v ===== *)
(** Facts about the memory of members: heaps in parts, and the functions of
    [Memory] against those of [Member]. *)
From S2P Require Import Prelude.
From S2P Require Import Config.
From S2P Require Import Utils.
From S2P Require Import World.
From S2P Require Import Member.
From S2P Require Import Messages.
From S2P Require Import Memory.
From S2P Require Import MemberFacts.
From S2P Require Import MemberSetFacts.

(** * Heaps in parts *)

(** The heap [h] consists of the blocks [bs], each once, and of [r]. *)
Definition holds (h : gmap loc block) (bs : list (loc * block)) (r : gmap loc block) : Prop :=
  NoDup bs.*1 /\ (forall l b, (l, b) ∈ bs -> h !! l = Some b /\ r !! l = None) /\
  (forall l, l ∉ bs.*1 -> h !! l = r !! l).

#[export] Instance holds_perm h : Proper ((≡ₚ) ==> eq ==> iff) (holds h).
Proof.
  intros bs bs' Hp r _ <-. unfold holds.
  enough (forall bs bs', bs ≡ₚ bs' -> NoDup bs.*1 /\
    (forall l b, (l, b) ∈ bs -> h !! l = Some b /\ r !! l = None) /\
    (forall l, l ∉ bs.*1 -> h !! l = r !! l) -> NoDup bs'.*1 /\
    (forall l b, (l, b) ∈ bs' -> h !! l = Some b /\ r !! l = None) /\
    (forall l, l ∉ bs'.*1 -> h !! l = r !! l)) as H by (split; by apply H).
  clear. intros bs bs' Hp (Hn & Hb & Hr). split_and!.
  - by rewrite <- Hp.
  - intros l b. rewrite <- Hp. apply Hb.
  - intros l. rewrite <- Hp. apply Hr.
Qed.

Section Holds.
Implicit Types h r : gmap loc block.
Implicit Types bs : list (loc * block).

Lemma holds_nil h r : holds h [] r <-> h = r.
Proof.
  split.
  - intros (_ & _ & H). apply map_eq. intros l. apply H. apply not_elem_of_nil.
  - intros ->. split; [constructor|]. split; [|done]. by intros l b H%not_elem_of_nil.
Qed.

Lemma holds_in h bs r l b : holds h bs r -> (l, b) ∈ bs -> h !! l = Some b.
Proof. intros (_ & H & _) Hin. by apply H. Qed.

Lemma holds_head h bs r l b : holds h ((l, b) :: bs) r -> h !! l = Some b.
Proof. intros H. eapply holds_in; [exact H|]. by left. Qed.

Lemma holds_rest h bs r l b : holds h bs r -> r !! l = Some b -> h !! l = Some b.
Proof.
  intros (_ & Hb & Hr) Hl. rewrite Hr; [done|]. intros ([l' b'] & -> & Hin)%list_elem_of_fmap.
  apply Hb in Hin as [_ Hn]. cbn in Hl. congruence.
Qed.

Lemma holds_new h bs r l b : holds h bs r -> h !! l = None -> holds (<[l := b]> h) ((l, b) :: bs) r.
Proof.
  intros (Hn & Hb & Hr) Hl.
  assert (l ∉ bs.*1) as Hni.
  { intros ([l' b'] & -> & Hin)%list_elem_of_fmap. apply Hb in Hin as [Hs _]. cbn in Hl. congruence. }
  split_and!.
  - by apply NoDup_cons.
  - intros l' b' [[= -> ->]|Hin]%elem_of_cons.
    + rewrite lookup_insert_eq. rewrite <- Hr by done. done.
    + assert (l' <> l) as Hne by (intros ->; apply Hni; by apply (list_elem_of_fmap_2 fst) in Hin).
      rewrite lookup_insert_ne by done. by apply Hb.
  - intros l' Hni'. cbn in Hni'. apply not_elem_of_cons in Hni' as [Hne Hni'].
    rewrite lookup_insert_ne by done. by apply Hr.
Qed.

Lemma holds_store h bs r l b b' :
  holds h ((l, b) :: bs) r -> holds (<[l := b']> h) ((l, b') :: bs) r.
Proof.
  intros (Hn & Hb & Hr). cbn in Hn. apply NoDup_cons in Hn as [Hni Hn]. split_and!.
  - by apply NoDup_cons.
  - intros l2 b2 [[= -> ->]|Hin]%elem_of_cons.
    + rewrite lookup_insert_eq. split; [done|]. by apply (Hb l b); left.
    + assert (l2 <> l) as Hne by (intros ->; apply Hni; by apply (list_elem_of_fmap_2 fst) in Hin).
      rewrite lookup_insert_ne by done. by apply Hb; right.
  - intros l2 Hni2. pose proof Hni2 as Hni3. cbn in Hni2. apply not_elem_of_cons in Hni2 as [Hne _].
    rewrite lookup_insert_ne by done. by apply Hr.
Qed.

Lemma holds_free h bs r l b : holds h ((l, b) :: bs) r -> holds (delete l h) bs r.
Proof.
  intros (Hn & Hb & Hr). cbn in Hn. apply NoDup_cons in Hn as [Hni Hn]. split_and!; [done| |].
  - intros l2 b2 Hin.
    assert (l2 <> l) as Hne by (intros ->; apply Hni; by apply (list_elem_of_fmap_2 fst) in Hin).
    rewrite lookup_delete_ne by done. by apply Hb; right.
  - intros l2 Hni2. destruct (decide (l2 = l)) as [->|Hne].
    + rewrite lookup_delete_eq. symmetry. by apply (Hb l b); left.
    + rewrite lookup_delete_ne by done. apply Hr. cbn. by apply not_elem_of_cons.
Qed.

(** Part of the blocks may be counted to the rest. *)
Lemma holds_app h bs bs' r : holds h (bs ++ bs') r -> exists r', holds h bs r' /\ holds r' bs' r.
Proof.
  revert bs. induction bs' as [|[l b] bs' IH]; intros bs H.
  { exists r. rewrite app_nil_r in H. split; [done|]. by apply holds_nil. }
  destruct (IH (bs ++ [(l, b)])) as (r' & H1 & H2); [by rewrite <- app_assoc|].
  assert (bs ++ [(l, b)] ≡ₚ (l, b) :: bs) as Ep by by rewrite Permutation_app_comm.
  rewrite Ep in H1. destruct H as (Hn & _ & _). rewrite fmap_app in Hn.
  apply NoDup_app in Hn as (_ & _ & Hn). cbn in Hn. apply NoDup_cons in Hn as [Hni _].
  assert (r' !! l = None) as Hl by (destruct H1 as (_ & Hb & _); by apply (Hb l b); left).
  exists (<[l := b]> r'). split; [|by apply holds_new].
  destruct H1 as (Hn1 & Hb1 & Hr1). cbn in Hn1. apply NoDup_cons in Hn1 as [Hni1 Hn1]. split_and!; [done| |].
  - intros l2 b2 Hin.
    assert (l2 <> l) as Hne by (intros ->; apply Hni1; by apply (list_elem_of_fmap_2 fst) in Hin).
    rewrite lookup_insert_ne by done. by apply Hb1; right.
  - intros l2 Hni2. destruct (decide (l2 = l)) as [->|Hne].
    + rewrite lookup_insert_eq. by apply Hb1; left.
    + rewrite lookup_insert_ne by done. apply Hr1. cbn. by apply not_elem_of_cons.
Qed.

Lemma holds_join h bs bs' r r' : holds h bs r' -> holds r' bs' r -> holds h (bs ++ bs') r.
Proof.
  intros (Hn & Hb & Hr) (Hn' & Hb' & Hr'). split_and!.
  - rewrite fmap_app. apply NoDup_app. split; [done|]. split; [|done].
    intros l ([l1 b1] & -> & H1)%list_elem_of_fmap ([l2 b2] & E & H2)%list_elem_of_fmap. cbn in E. subst l2.
    apply Hb in H1 as [_ H1]. apply Hb' in H2 as [H2 _]. congruence.
  - intros l b [H|H]%elem_of_app.
    + destruct (Hb l b H) as [E Ln]. split; [done|]. destruct (decide (l ∈ bs'.*1)) as [Hin|Hin].
      * apply list_elem_of_fmap in Hin as ([l' b'] & -> & Hin). by apply Hb' in Hin as [_ ?].
      * by rewrite <- Hr'.
    + destruct (Hb' l b H) as [E Ln]. split; [|done]. rewrite Hr; [done|].
      intros ([l' b'] & -> & Hin)%list_elem_of_fmap. apply Hb in Hin as [_ ?]. cbn in *. congruence.
  - intros l. rewrite fmap_app, not_elem_of_app. intros [H1 H2]. by rewrite Hr, Hr'.
Qed.
End Holds.

(** A state: its environment, its buffer, and its heap in parts; what was not
    handed out yet is not in the heap. *)
Record parts (w : world) (buf : list Z) (bs : list (loc * block)) (r : gmap loc block) (s : memory)
    : Prop := Parts {
  pa_world : me_world s = w;
  pa_buffer : me_buffer s = buf;
  pa_fresh : forall l, (allocs w <= l)%nat -> me_heap s !! l = None;
  pa_heap : holds (me_heap s) bs r
}.

#[export] Instance parts_perm w buf : Proper ((≡ₚ) ==> eq ==> eq ==> iff) (parts w buf).
Proof.
  intros bs bs' Hp r _ <- s _ <-. split; intros [H1 H2 H3 H4]; split; try done.
  - by rewrite <- Hp.
  - by rewrite Hp.
Qed.

Lemma parts_move w buf bs bs' r s : parts w buf bs r s -> bs ≡ₚ bs' -> parts w buf bs' r s.
Proof. by intros H <-. Qed.

(** A datagram overwrites the buffer, which is not in the heap. *)
Definition with_buffer (bytes : list Z) (s : memory) : memory := Memory (me_heap s) bytes (me_world s).

Lemma with_buffer_parts bytes w buf bs r s : parts w buf bs r s -> parts w bytes bs r (with_buffer bytes s).
Proof. by intros []. Qed.

(** * Simulation *)

(** The function on values and the one on memory have the same outcome. *)
Definition sims {A B} (m : M world A) (w : world) (p : MM B) (s : memory)
    (R : A -> world -> B -> memory -> Prop) : Prop :=
  match m w, p s with
  | Ok (a, w'), Ok (b, s') => R a w' b s'
  | Ub, Ub | Nofuel, Nofuel => True
  | _, _ => False
  end.

Section Sims.
Context {A B : Type}.
Implicit Types (w : world) (s : memory).

Lemma sims_ret (a : A) w (b : B) s R : R a w b s -> sims (mret a) w (mret b) s R.
Proof. done. Qed.

Lemma sims_mono (m : M world A) w (p : MM B) s (R R' : A -> world -> B -> memory -> Prop) :
  sims m w p s R -> (forall a w' b s', R a w' b s' -> R' a w' b s') -> sims m w p s R'.
Proof. unfold sims. destruct (m w) as [[a w']| |], (p s) as [[b s']| |]; naive_solver. Qed.

Lemma sims_bind {C D} (m : M world A) (f : A -> M world C) (p : MM B) (g : B -> MM D) w s R R' :
  sims m w p s R -> (forall a w' b s', R a w' b s' -> sims (f a) w' (g b) s' R') ->
  sims (m ≫= f) w (p ≫= g) s R'.
Proof.
  unfold sims. unfold mbind, M_bind.
  destruct (m w) as [[a w']| |], (p s) as [[b s']| |]; naive_solver.
Qed.

(** A step of one side. *)
Lemma sims_right {C} (m : M world A) (p : MM C) (g : C -> MM B) w s c s' R :
  p s = Ok (c, s') -> sims m w (g c) s' R -> sims m w (p ≫= g) s R.
Proof. intros E H. unfold sims, mbind, M_bind in *. by rewrite E. Qed.

(** Both sides compute from values only, the right one from what it reads. *)
Lemma sims_lift {C D} (o : out A) (o' : out C) (conv : A -> C) (f : A -> M world B) (p : MM C)
    (g : C -> MM D) w s R :
  p s = liftO o' s -> o' = (a ← o; mret (conv a)) ->
  (forall a, o = Ok a -> sims (f a) w (g (conv a)) s R) ->
  sims (liftO o ≫= f) w (p ≫= g) s R.
Proof.
  intros Ep -> H. unfold sims, mbind, M_bind in *. rewrite Ep. destruct o as [a| |]; cbn; [|done..].
  by apply H.
Qed.

Lemma sims_lift_left {C D} (o : out C) (conv : C -> A) (f : A -> M world B) (p : MM C)
    (g : C -> MM D) w s R :
  p s = liftO o s -> (forall c, o = Ok c -> sims (f (conv c)) w (g c) s R) ->
  sims (liftO (c ← o; mret (conv c)) ≫= f) w (p ≫= g) s R.
Proof.
  intros Ep H. unfold sims, mbind, M_bind in *. rewrite Ep. destruct o as [c| |]; cbn; [|done..].
  by apply H.
Qed.

Lemma sims_lift_out {C D} (o : out C) (o' : out D) (conv : C -> D) (f : C -> out A) (p : MM D)
    (g : D -> MM B) w s R :
  p s = liftO o' s -> o' = (a ← o; mret (conv a)) ->
  (forall a, o = Ok a -> sims (liftO (f a)) w (g (conv a)) s R) ->
  sims (liftO (o ≫= f)) w (p ≫= g) s R.
Proof.
  intros Ep -> H. unfold sims, mbind, M_bind in *. rewrite Ep. destruct o as [a| |]; cbn; [|done..].
  by apply H.
Qed.

Lemma sims_post {C} (o : out C) (f : C -> out A) (p : MM B) w s R R' :
  sims (liftO o) w p s R' ->
  (forall a w' b s', R' a w' b s' -> exists c, f a = Ok c /\ R c w' b s') ->
  sims (liftO (o ≫= f)) w p s R.
Proof.
  intros H Hf. unfold sims, liftO in *. destruct o as [a| |]; cbn; [|done..].
  destruct (p s) as [[b s']| |]; [|done..]. destruct (Hf _ _ _ _ H) as (c & -> & Hc). done.
Qed.
End Sims.

Lemma out_id {A} (o : out A) : o = (a ← o; mret a).
Proof. by destruct o. Qed.

Lemma malloc_parts b w buf bs r s :
  parts w buf bs r s ->
  sims malloc w (malloc_m b) s (fun p w' p' s' => p' = p /\
    match p with Some l => parts w' buf ((l, b) :: bs) r s' | None => parts w' buf bs r s' end).
Proof.
  intros [Hw Hb Hf Hh]. unfold sims, malloc_m. rewrite Hw. unfold malloc.
  destruct (alloc_ok (answers w) (allocs w)); (split; [done|]); split; cbn; try done.
  - intros l Hl. rewrite lookup_insert_ne by lia. apply Hf. lia.
  - apply holds_new; [done|]. by apply Hf.
  - intros l Hl. apply Hf. lia.
Qed.

Lemma free_parts l b w buf bs r s :
  parts w buf ((l, b) :: bs) r s -> exists s', free_m l s = Ok (tt, s') /\ parts w buf bs r s'.
Proof.
  intros [Hw Hb Hf Hh]. unfold free_m. rewrite (holds_head _ _ _ _ _ Hh). eexists. split; [done|].
  split; cbn; try done; [|by eapply holds_free].
  intros l' Hl. rewrite lookup_delete_None. right. by apply Hf.
Qed.

Lemma store_parts l b b' w buf bs r s :
  parts w buf ((l, b) :: bs) r s ->
  exists s', store_m l b' s = Ok (tt, s') /\ parts w buf ((l, b') :: bs) r s'.
Proof.
  intros [Hw Hb Hf Hh]. pose proof (holds_head _ _ _ _ _ Hh) as Hl. unfold store_m. rewrite Hl.
  eexists. split; [done|]. split; cbn; try done; [|by eapply holds_store].
  intros l' Hl'. rewrite lookup_insert_ne; [by apply Hf|]. intros ->. rewrite Hf in Hl by done. done.
Qed.

Lemma load_member_at l ms i m s :
  me_heap s !! l = Some (MembersBlock ms) -> aread ms i = Ok (Some m) -> load_member l i s = Ok (m, s).
Proof. intros Hl Hi. unfold load_member. by rewrite Hl, Hi. Qed.

Lemma store_member_parts l i m ms ms' w buf bs r s :
  parts w buf ((l, MembersBlock ms) :: bs) r s -> awrite ms i (Some m) = Ok ms' ->
  exists s', store_member l i m s = Ok (tt, s') /\ parts w buf ((l, MembersBlock ms') :: bs) r s'.
Proof.
  intros Hp Hi. unfold store_member. rewrite (holds_head _ _ _ _ _ (pa_heap _ _ _ _ _ Hp)), Hi.
  by eapply store_parts.
Qed.

(** * Arrays of another type *)

Section Arrays.
Context {A B : Type} (f : A -> B).
#[local] Abbreviation each := (fmap (M := list) f).
Implicit Types l : list A.

Lemma aread_fmap l i : aread (each l) i = (x ← aread l i; mret (f x)).
Proof.
  unfold aread. destruct (0 <=? i); [|done]. rewrite list_lookup_fmap.
  by destruct (l !! Z.to_nat i).
Qed.

Lemma awrite_fmap l i x : awrite (each l) i (f x) = (a ← awrite l i x; mret (each a)).
Proof.
  unfold awrite, zlen. rewrite length_fmap. destruct (_ && _); [|done].
  cbn. by rewrite list_fmap_insert.
Qed.

Lemma ofor_fmap (body : Z -> list A -> out (list A)) (body' : Z -> list B -> out (list B)) n :
  (forall i l, body' i (each l) = (a ← body i l; mret (each a))) ->
  forall i l, ofor n i body' (each l) = (a ← ofor n i body l; mret (each a)).
Proof.
  intros Hb. induction n as [|n IH]; intros i l; [done|]. cbn [ofor]. rewrite Hb.
  destruct (body i l) as [a| |]; cbn; [apply IH|done|done].
Qed.
End Arrays.

Lemma ofind_ext (n : nat) i (p q : Z -> out bool) : (forall j, p j = q j) -> ofind n i p = ofind n i q.
Proof.
  intros H. revert i. induction n as [|n IH]; intros i; [done|]. cbn. rewrite H.
  destruct (q i) as [[]| |]; cbn; try done.
Qed.

(** What a loop that ends keeps. *)
Lemma ofor_keeps {A} (Inv : Z -> A -> Prop) n (body : Z -> A -> out A) : forall i a a',
  Inv i a ->
  (forall j b b', i <= j < i + Z.of_nat n -> Inv j b -> body j b = Ok b' -> Inv (j + 1) b') ->
  ofor n i body a = Ok a' -> Inv (i + Z.of_nat n) a'.
Proof.
  induction n as [|n IH]; intros i a a' Ha Hb E; cbn [ofor] in E.
  { injection E as <-. by rewrite Z.add_0_r. }
  destruct (body i a) as [b| |] eqn:Eb; try done. cbn in E.
  replace (i + Z.of_nat (S n)) with (i + 1 + Z.of_nat n) by lia.
  eapply IH; [eapply Hb; [|exact Ha|exact Eb]; lia| |exact E]. intros j c c' Hj. apply Hb. lia.
Qed.

(** A search that only reads. *)
Lemma find_reads (n : nat) (p : Z -> out bool) (q : Z -> MM bool) s : forall i,
  (forall j, i <= j < i + Z.of_nat n -> q j s = liftO (p j) s) -> find_m n i q s = liftO (ofind n i p) s.
Proof.
  induction n as [|n IH]; intros i H; [done|]. cbn [find_m ofind].
  unfold mbind at 1, M_bind at 1. rewrite H by lia.
  destruct (p i) as [[]| |]; cbn; try done. apply IH. intros j Hj. apply H. lia.
Qed.
