(* ===== verification/MemorySetFacts.v ===== *)
(** The set of members on memory does what the set of values does, and owns
    its blocks. *)
From S2P Require Import Prelude.
From S2P Require Import Config.
From S2P Require Import Utils.
From S2P Require Import World.
From S2P Require Import Member.
From S2P Require Import Messages.
From S2P Require Import Memory.
From S2P Require Import MemberFacts.
From S2P Require Import MemberSetFacts.
From S2P Require Import MemoryFacts.

(** * The blocks of a set *)

(** A member of the set with the block of its address; none when the copy of
    the address failed. *)
Abbreviation item := (member_cell * option loc)%type.

Definition item_struct (it : item) : cluster_member_t :=
  let m := cell_member (fst it) in
  MemberT (cm_version m) (cm_uid m) (cm_address_len m)
    (match snd it with Some a => Heap a | None => Null end).

Definition address_block (it : item) : list (loc * block) :=
  match snd it with Some a => [(a, AddressBlock (cm_address (cell_member (fst it))))] | None => [] end.

Definition item_blocks (it : item) : list (loc * block) :=
  (cell_ptr (fst it), MembersBlock [Some (item_struct it)]) :: address_block it.

Definition items_blocks (items : list item) : list (loc * block) := items ≫= item_blocks.

Definition item_ok (it : item) : Prop := snd it = None -> cm_address (cell_member (fst it)) = [].

(** The entries of the array in use are the items. *)
Record set_items (S : cluster_member_set) (items : list item) : Prop := SetItems {
  si_take : take (length items) (ms_set S) = (fun it => Some (fst it)) <$> items;
  si_size : ms_size S = zlen items;
  si_capacity : zlen (ms_set S) = ms_capacity S;
  si_bound : ms_capacity S < 2 ^ 32;
  si_ok : Forall item_ok items
}.

(** Its pointers. *)
Definition entry_ptr (e : option member_cell) : option loc := cell_ptr <$> e.
Definition entry_ptrs (l : list (option member_cell)) : list (option loc) := entry_ptr <$> l.
Definition table_of (S : cluster_member_set) : block := TableBlock (entry_ptrs (ms_set S)).

Definition set_blocks (t : cluster_member_set_t) (S : cluster_member_set) (items : list item) :
    list (loc * block) := (st_set t, table_of S) :: items_blocks items.

(** [t] is the set [S], on blocks of its own beside [bs] and [r]. *)
Definition owns (w : world) (buf : list Z) (bs : list (loc * block)) (r : gmap loc block)
    (t : cluster_member_set_t) (S : cluster_member_set) (s : memory) : Prop :=
  st_size t = ms_size S /\ st_capacity t = ms_capacity S /\
  exists items, set_items S items /\ parts w buf (set_blocks t S items ++ bs) r s.

Section Set_.
Context (w : world) (buf : list Z) (bs : list (loc * block)) (r : gmap loc block).
Context (t : cluster_member_set_t) (S : cluster_member_set) (items : list item).
Hypothesis Hsz : st_size t = ms_size S.
Hypothesis Hit : set_items S items.

Lemma set_items_length : Z.to_nat (ms_size S) = length items.
Proof. rewrite (si_size _ _ Hit). unfold zlen. lia. Qed.

Lemma set_items_fit : (length items <= length (ms_set S))%nat.
Proof.
  pose proof (si_take _ _ Hit) as E. apply (f_equal length) in E.
  rewrite length_take, length_fmap in E. lia.
Qed.

Lemma set_items_lookup k it : items !! k = Some it -> ms_set S !! k = Some (Some (fst it)).
Proof.
  intros Hk. apply lookup_lt_Some in Hk as Hlt.
  rewrite <- (lookup_take_lt _ (length items) k) by done. by rewrite (si_take _ _ Hit), list_lookup_fmap, Hk.
Qed.

Section On.
Context (s : memory) (Hp : parts w buf (set_blocks t S items ++ bs) r s).

Lemma load_table_at : load_table (st_set t) s = Ok (entry_ptrs (ms_set S), s).
Proof. unfold load_table. by rewrite (holds_head _ _ _ _ _ (pa_heap _ _ _ _ _ Hp)). Qed.

Lemma item_block_in it l b : it ∈ items -> (l, b) ∈ item_blocks it -> me_heap s !! l = Some b.
Proof.
  intros Hin Hb. eapply holds_in; [apply Hp|]. apply elem_of_app. left. right.
  apply list_elem_of_bind. by exists it.
Qed.

(** Its value, wherever the buffer is. *)
Lemma item_value it : it ∈ items -> member_of s (item_struct it) = cell_member (fst it).
Proof.
  intros Hin. unfold member_of, item_struct. cbn. pose proof (si_ok _ _ Hit) as Ho.
  rewrite Forall_forall in Ho. pose proof (Ho _ Hin) as Hn. unfold item_ok in Hn.
  assert (forall a, snd it = Some a ->
    me_heap s !! a = Some (AddressBlock (cm_address (cell_member (fst it))))) as Ha.
  { intros a Ea. eapply item_block_in; [exact Hin|]. unfold item_blocks, address_block. rewrite Ea.
    right. by left. }
  destruct (snd it) as [a|]; cbn.
  - rewrite (Ha a) by done. by destruct (cell_member (fst it)).
  - destruct (cell_member (fst it)). cbn in *. by rewrite Hn.
Qed.

Lemma set_entry_at k it : items !! k = Some it ->
  set_entry t (Z.of_nat k) s = Ok ((cell_ptr (fst it), item_struct it), s) /\
  set_cell S (Z.of_nat k) = Ok (fst it).
Proof.
  intros Hk. pose proof (set_items_lookup k it Hk) as Hs. split.
  - unfold set_entry, mbind, M_bind. rewrite load_table_at. unfold liftO.
    unfold entry_ptrs. rewrite aread_fmap, (aread_Ok _ _ _ Hs). cbn.
    rewrite (load_member_at _ [Some (item_struct it)] 0 (item_struct it)); [done| |done].
    eapply item_block_in; [by eapply list_elem_of_lookup_2|]. by left.
  - unfold set_cell. by rewrite (aread_Ok _ _ _ Hs).
Qed.

(** A search that looks at members only. *)
Lemma set_search (p : cluster_member -> out bool) (q : cluster_member_t -> MM bool) :
  (forall it, it ∈ items -> q (item_struct it) s = liftO (p (cell_member (fst it))) s) ->
  find_m (Z.to_nat (st_size t)) 0 (fun i => c ← set_entry t i; q (snd c)) s =
  liftO (ofind (Z.to_nat (ms_size S)) 0 (fun i => c ← set_cell S i; p (cell_member c))) s.
Proof.
  intros Hq. rewrite Hsz. apply find_reads. intros j Hj. rewrite set_items_length in Hj.
  destruct (lookup_lt_is_Some_2 items (Z.to_nat j)) as [it Hk]; [lia|].
  destruct (set_entry_at _ _ Hk) as [E E']. rewrite Z2Nat.id in E, E' by lia.
  unfold mbind at 1, M_bind at 1. rewrite E, E'. cbn. apply Hq. by eapply list_elem_of_lookup_2.
Qed.
End On.
End Set_.

(** * Insertion *)

(** What is read through a pointer into the buffer. *)
Definition buffered (buf : list Z) (m : cluster_member_t) (v : cluster_member) : Prop :=
  exists at_, mt_address m = Buffer at_ /\
    v = ClusterMember (mt_version m) (mt_uid m) (mt_address_len m) (zdrop at_ buf).

Lemma buffered_value buf m v s : buffered buf m v -> me_buffer s = buf -> member_of s m = v.
Proof. intros (at_ & Ea & ->) <-. unfold member_of. by rewrite Ea. Qed.

Lemma equals_reads s a b :
  cluster_member_equals_m a b s = liftO (cluster_member_equals (member_of s a) (member_of s b)) s.
Proof.
  unfold cluster_member_equals_m, cluster_member_equals, mbind, M_bind, getS. cbn.
  by destruct (_ && _ && _).
Qed.

(** The copy: a block of its own for the address, unless memory is short. *)
Lemma copy_sims w buf bs r dst m v s :
  parts w buf ((dst, MembersBlock [None]) :: bs) r s -> buffered buf m v ->
  sims (cluster_member_copy v) w (cluster_member_copy_m dst m) s (fun x w' y s' => y = fst x /\
    exists a, item_ok (MemberCell dst (snd x), a) /\
      parts w' buf (item_blocks (MemberCell dst (snd x), a) ++ bs) r s').
Proof.
  intros Hp Hv. unfold cluster_member_copy, cluster_member_copy_m.
  eapply sims_bind; [by apply malloc_parts|]. intros p w1 p' s1 [-> Hp1]. destruct p as [a|].
  - rewrite Permutation_swap in Hp1.
    destruct (store_member_parts _ 0 (MemberT (mt_version m) (mt_uid m) (mt_address_len m) (Heap a))
      _ _ _ _ _ _ _ Hp1 eq_refl) as (s2 & E2 & Hp2).
    eapply sims_right; [exact E2|]. eapply sims_right; [done|].
    pose proof (buffered_value buf m v s2 Hv (pa_buffer _ _ _ _ _ Hp2)) as Ev.
    assert (addressed s2 (mt_address m) = cm_address v) as -> by (by rewrite <- Ev).
    assert (mt_address_len m = cm_address_len v) as El by (by rewrite <- Ev).
    rewrite El. eapply (sims_lift _ _ (fun x => x)); [done|apply out_id|]. intros bytes _.
    rewrite Permutation_swap in Hp2.
    destruct (store_parts _ _ (AddressBlock bytes) _ _ _ _ _ Hp2) as (s3 & E3 & Hp3).
    eapply sims_right; [exact E3|]. apply sims_ret. split; [done|]. exists (Some a). split; [done|].
    cbn. rewrite Permutation_swap. unfold item_struct. cbn. rewrite <- Ev. exact Hp3.
  - destruct (store_member_parts _ 0 (MemberT (mt_version m) (mt_uid m) (mt_address_len m) Null)
      _ _ _ _ _ _ _ Hp1 eq_refl) as (s2 & E2 & Hp2).
    eapply sims_right; [exact E2|]. apply sims_ret. split; [done|]. exists None. split; [done|].
    pose proof (buffered_value buf m v s2 Hv (pa_buffer _ _ _ _ _ Hp2)) as Ev. rewrite <- Ev. exact Hp2.
Qed.

Lemma awrite_inv {A} (l : list A) i x l' :
  awrite l i x = Ok l' -> 0 <= i < zlen l /\ l' = <[Z.to_nat i := x]> l.
Proof.
  unfold awrite. destruct (_ && _) eqn:E; [|done]. intros [= <-].
  apply andb_prop in E as [?%Z.leb_le ?%Z.ltb_lt]. done.
Qed.

Lemma set_items_add S items cell a set' :
  set_items S items -> item_ok (cell, a) -> awrite (ms_set S) (ms_size S) (Some cell) = Ok set' ->
  set_items (MemberSet set' (u32 (ms_size S + 1)) (ms_capacity S)) (items ++ [(cell, a)]).
Proof.
  intros [Ht Hs Hc Hb Ho] Hi [Hlt ->]%awrite_inv. unfold zlen in *. split; cbn.
  - rewrite length_app, fmap_app, <- Ht. cbn. rewrite Hs, Nat2Z.id, Nat.add_1_r.
    rewrite (take_S_r _ _ (Some cell)) by (apply list_lookup_insert_eq; lia).
    f_equal. apply take_insert_ge. lia.
  - unfold zlen. rewrite length_app. cbn. rewrite u32_id by (unfold is_u32; lia). lia.
  - unfold zlen. by rewrite length_insert.
  - done.
  - apply Forall_app. by split; [|constructor].
Qed.

Section Put.
Context (buf : list Z) (r : gmap loc block) (arr : loc).
Context (ms : list cluster_member_t) (vs : list cluster_member).
Hypothesis Harr : r !! arr = Some (MembersBlock (Some <$> ms)).
Hypothesis Hms : Forall2 (buffered buf) ms vs.

(** The array of new members is not part of the set. *)
Lemma load_new w bs s j m : parts w buf bs r s -> ms !! j = Some m -> load_member arr (Z.of_nat j) s = Ok (m, s).
Proof.
  intros Hp Hj. eapply load_member_at; [by eapply holds_rest; [apply Hp|]|].
  apply aread_Ok. by rewrite list_lookup_fmap, Hj.
Qed.

(** The search for a new member. *)
Lemma contains_reads w bs t S items s j m v :
  st_size t = ms_size S -> set_items S items -> parts w buf (set_blocks t S items ++ bs) r s ->
  ms !! j = Some m -> buffered buf m v ->
  find_m (Z.to_nat (st_size t)) 0
    (fun i => c ← set_entry t i; current ← load_member arr (Z.of_nat j);
              cluster_member_equals_m (snd c) current) s =
  liftO (ofind (Z.to_nat (ms_size S)) 0
    (fun i => c ← set_cell S i; cluster_member_equals (cell_member c) v)) s.
Proof.
  intros Hsz Hit Hp Hj Hv.
  apply (set_search w buf bs r t S items Hsz Hit s Hp (fun x => cluster_member_equals x v)
    (fun x => current ← load_member arr (Z.of_nat j); cluster_member_equals_m x current)).
  intros it Hin. unfold mbind, M_bind. rewrite (load_new _ _ _ _ _ Hp Hj), equals_reads.
  rewrite (item_value w buf bs r t S items Hit s Hp it Hin).
  by rewrite (buffered_value buf m v s Hv (pa_buffer _ _ _ _ _ Hp)).
Qed.

Lemma put_loop_sims bs : forall rest (j : nat) w t S s, drop j vs = rest -> owns w buf bs r t S s ->
  sims (put_loop S rest) w (put_loop_m (length rest) t arr (Z.of_nat j)) s
    (fun x w' y s' => fst y = fst x /\ owns w' buf bs r (snd y) (snd x) s').
Proof.
  induction rest as [|v rest IH]; intros j w t S s Hd Ho; [by apply sims_ret|].
  assert (vs !! j = Some v) as Hv by (rewrite <- (Nat.add_0_r j), <- lookup_drop; by rewrite Hd).
  destruct (Forall2_lookup_r _ _ _ _ _ Hms Hv) as (m & Hm & Hb).
  assert (drop (j + 1) vs = rest) as Hd' by (rewrite <- drop_drop, Hd; done).
  destruct Ho as (Hsz & Hc & items & Hit & Hp). cbn [length put_loop put_loop_m].
  unfold set_contains. eapply sims_lift_left; [by eapply contains_reads|]. intros [i|] _; cbn beta iota.
  { replace (Z.of_nat j + 1) with (Z.of_nat (j + 1)) by lia. apply IH; [done|].
    split; [done|]. split; [done|]. by exists items. }
  eapply sims_bind; [by apply malloc_parts|]. intros p w1 p' s1 [-> Hp1]. destruct p as [cell|].
  2:{ apply sims_ret. split; [done|]. split; [done|]. split; [done|]. by exists items. }
  eapply sims_right; [by eapply load_new|].
  eapply sims_bind; [by eapply copy_sims|]. intros x w2 y s2 (-> & a & Hok & Hp2). cbn beta.
  eapply sims_right.
  { apply (load_table_at w2 buf (item_blocks (MemberCell cell (snd x), a) ++ bs) r t S items s2).
    eapply parts_move; [exact Hp2|]. solve_Permutation. }
  rewrite Hsz. eapply (sims_lift _ _ entry_ptrs); [done|
    exact (awrite_fmap entry_ptr (ms_set S) (ms_size S) (Some (MemberCell cell (snd x))))|].
  intros set' Eset. cbn beta.
  assert (parts w2 buf ((st_set t, table_of S) ::
    items_blocks items ++ item_blocks (MemberCell cell (snd x), a) ++ bs) r s2) as Hp3.
  { eapply parts_move; [exact Hp2|]. unfold set_blocks. solve_Permutation. }
  destruct (store_parts _ _ (TableBlock (entry_ptrs set')) _ _ _ _ _ Hp3) as (s3 & E3 & Hp4).
  eapply sims_right; [exact E3|]. replace (Z.of_nat j + 1) with (Z.of_nat (j + 1)) by lia.
  apply IH; [done|]. cbn. split; [done|]. split; [done|].
  exists (items ++ [(MemberCell cell (snd x), a)]). split; [by apply set_items_add|].
  unfold set_blocks, items_blocks. rewrite bind_app. cbn. by rewrite app_nil_r, <- app_assoc.
Qed.
End Put.

(** * Growth *)

Lemma extend_capacity_range fuel req cap c :
  0 <= cap < 2 ^ 32 -> extend_capacity fuel req cap = Ok c -> 0 <= c < 2 ^ 32.
Proof.
  revert cap. induction fuel as [|fuel IH]; intros cap Hc E; cbn in E.
  - destruct (load_exceeded req cap); [done|]. by injection E as <-.
  - destruct (load_exceeded req cap); [|by injection E as <-]. eapply IH; [apply u32_range|exact E].
Qed.

(** The loop that copies the array. *)
Definition copy_entry {A} (set : list (option A)) (i : Z) (table : list (option A)) : out (list (option A)) :=
  e ← aread set i; match e with Some c => awrite table i (Some c) | None => mret table end.

Lemma copy_entry_ptr set i table :
  copy_entry (entry_ptrs set) i (entry_ptrs table) =
  (a ← copy_entry set i table; mret (entry_ptrs a)).
Proof.
  unfold copy_entry, entry_ptrs. rewrite aread_fmap. destruct (aread set i) as [[c|]| |]; cbn; try done.
  exact (awrite_fmap entry_ptr table i (Some c)).
Qed.

Lemma copied_items S items cap c table :
  set_items S items -> c = Z.of_nat cap -> c < 2 ^ 32 ->
  ofor (Z.to_nat (ms_size S)) 0 (copy_entry (ms_set S)) (replicate cap None) = Ok table ->
  set_items (MemberSet table (ms_size S) c) items.
Proof.
  intros Hit -> Hb E. pose proof Hit as [Ht Hs Hc _ Ho]. rewrite (set_items_length _ _ Hit) in E.
  apply (ofor_keeps (fun i a => length a = cap /\
    take (Z.to_nat i) a = take (Z.to_nat i) ((fun it => Some (fst it)) <$> items))) in E.
  - rewrite Z.add_0_l, Nat2Z.id in E. destruct E as [El Et]. split; cbn; try done.
    + rewrite Et. apply take_ge. by rewrite length_fmap.
    + unfold zlen. by rewrite El.
  - split; [apply length_replicate|done].
  - intros j b b' Hj [Hl Hk] Eb. unfold copy_entry in Eb.
    destruct (lookup_lt_is_Some_2 items (Z.to_nat j)) as [it Hi]; [lia|].
    rewrite <- (Z2Nat.id j) in Eb by lia. rewrite (aread_Ok _ _ _ (set_items_lookup S items Hit _ _ Hi)) in Eb.
    cbn in Eb. apply awrite_inv in Eb as [Hlt ->]. unfold zlen in Hlt.
    rewrite length_insert, Nat2Z.id. split; [done|].
    replace (Z.to_nat (j + 1)) with (Datatypes.S (Z.to_nat j)) by lia.
    rewrite (take_S_r _ _ (Some (fst it))) by (apply list_lookup_insert_eq; lia).
    rewrite (take_S_r _ _ (Some (fst it))) by (by rewrite list_lookup_fmap, Hi).
    rewrite <- Hk. f_equal. apply take_insert_ge. lia.
Qed.

Lemma extend_sims w buf bs r t S s req :
  owns w buf bs r t S s ->
  sims (cluster_member_set_extend S req) w (cluster_member_set_extend_m t req) s (fun x w' y s' =>
    match x, y with
    | Some S', Some t' => owns w' buf bs r t' S' s'
    | None, None => owns w' buf bs r t S s'
    | _, _ => False
    end).
Proof.
  intros (Hsz & Hc & items & Hit & Hp). unfold cluster_member_set_extend, cluster_member_set_extend_m.
  rewrite Hc, Hsz. eapply (sims_lift _ _ (fun x => x)); [done|apply out_id|]. intros c Ec. cbn beta.
  apply extend_capacity_range in Ec; [|split; [|apply (si_bound _ _ Hit)]].
  2:{ rewrite <- (si_capacity _ _ Hit). apply zlen_nonneg. }
  eapply sims_bind; [by apply malloc_parts|]. intros p w1 p' s1 [-> Hp1]. destruct p as [l|].
  2:{ apply sims_ret. split; [done|]. split; [done|]. by exists items. }
  eapply sims_right.
  { apply (load_table_at w1 buf ((l, TableBlock (replicate (Z.to_nat c) None)) :: bs) r t S items s1).
    eapply parts_move; [exact Hp1|]. solve_Permutation. }
  change (fun i new_member_set => e ← aread (ms_set S) i;
    match e with Some c => awrite new_member_set i (Some c) | None => mret new_member_set end)
    with (copy_entry (ms_set S)).
  change (fun i table => e ← aread (entry_ptrs (ms_set S)) i;
    match e with Some c => awrite table i (Some c) | None => mret table end)
    with (copy_entry (entry_ptrs (ms_set S))).
  eapply (sims_lift _ _ entry_ptrs); [done| |].
  { rewrite <- (fmap_replicate entry_ptr _ None). apply ofor_fmap. intros. apply copy_entry_ptr. }
  intros table Et. cbn beta.
  destruct (store_parts _ _ (TableBlock (entry_ptrs table)) _ _ _ _ _ Hp1) as (s2 & E2 & Hp2).
  eapply sims_right; [exact E2|]. unfold set_blocks in Hp2. cbn [app] in Hp2.
  rewrite Permutation_swap in Hp2.
  destruct (free_parts _ _ _ _ _ _ _ Hp2) as (s3 & E3 & Hp3).
  eapply sims_right; [exact E3|]. apply sims_ret. split; [done|]. split; [done|].
  exists items. split; [|exact Hp3]. eapply copied_items; [done| | |exact Et]; lia.
Qed.

(** * The operations *)

Section Ops.
Context (w : world) (buf : list Z) (bs : list (loc * block)) (r : gmap loc block).

Lemma put_gen (arr : loc) ms vs q t S s :
  q !! arr = Some (MembersBlock (Some <$> ms)) -> Forall2 (buffered buf) ms vs ->
  owns w buf [] q t S s ->
  sims (cluster_member_set_put S vs) w (cluster_member_set_put_m t arr (zlen vs)) s
    (fun x w' y s' => fst y = fst x /\ owns w' buf [] q (snd y) (snd x) s').
Proof.
  intros Harr Hms Ho. pose proof Ho as (Hsz & Hc & _).
  unfold cluster_member_set_put, cluster_member_set_put_m. cbn zeta.
  rewrite Hsz, Hc. replace (Z.to_nat (zlen vs)) with (length vs) by (unfold zlen; lia).
  destruct (load_exceeded _ _).
  - eapply sims_bind; [by apply extend_sims|]. intros [S'|] w1 [t'|] s1 H; cbn beta iota in H; try done.
    apply (put_loop_sims buf q arr ms vs Harr Hms [] vs 0%nat); done.
  - apply (put_loop_sims buf q arr ms vs Harr Hms [] vs 0%nat); done.
Qed.

(** From a block that is set aside. *)
Lemma put_taken_sims (arr : loc) ms vs bs' t S s :
  Forall2 (buffered buf) ms vs -> owns w buf ((arr, MembersBlock (Some <$> ms)) :: bs') r t S s ->
  sims (cluster_member_set_put S vs) w (cluster_member_set_put_m t arr (zlen vs)) s
    (fun x w' y s' => fst y = fst x /\
       owns w' buf ((arr, MembersBlock (Some <$> ms)) :: bs') r (snd y) (snd x) s').
Proof.
  intros Hms (Hsz & Hc & items & Hit & [H1 H2 H3 Hp]).
  destruct (holds_app _ _ _ _ Hp) as (r' & Hh & Hr').
  eapply sims_mono; [apply (put_gen arr ms vs r' t S s); [by eapply holds_head|done|]|].
  { split; [done|]. split; [done|]. exists items. split; [done|]. split; try done. by rewrite app_nil_r. }
  intros x w' y s' (Ey & Hsz' & Hc' & items' & Hit' & [H1' H2' H3' Hp']). split; [done|].
  split; [done|]. split; [done|]. exists items'. split; [done|]. split; try done.
  rewrite app_nil_r in Hp'. by eapply holds_join.
Qed.

Lemma init_sims s :
  parts w buf bs r s ->
  sims cluster_member_set_init w cluster_member_set_init_m s (fun x w' y s' => fst y = fst x /\
    match snd x, snd y with
    | Some S', Some t => owns w' buf bs r t S' s'
    | None, None => parts w' buf bs r s'
    | _, _ => False
    end).
Proof.
  intros Hp. unfold cluster_member_set_init, cluster_member_set_init_m.
  eapply sims_bind; [by apply malloc_parts|]. intros p w1 p' s1 [-> Hp1]. destruct p as [l|]; [|by apply sims_ret].
  apply sims_ret. split; [done|]. cbn. split; [done|]. split; [done|]. exists []. split; [by split|].
  exact Hp1.
Qed.

(** An item is destroyed: both its blocks go. *)
Lemma item_destroy_parts it s bs' :
  parts w buf (item_blocks it ++ bs') r s ->
  exists s', cluster_member_set_item_destroy_m (Some (cell_ptr (fst it))) s = Ok (tt, s') /\ parts w buf bs' r s'.
Proof.
  intros Hp. unfold cluster_member_set_item_destroy_m, mbind, M_bind.
  rewrite (load_member_at _ [Some (item_struct it)] 0 (item_struct it)); [|by apply (holds_head _ _ _ _ _ (pa_heap _ _ _ _ _ Hp))|done].
  unfold cluster_member_destroy_m, free_pointer, item_struct. unfold item_blocks, address_block in Hp.
  destruct (snd it) as [a|]; cbn [mt_address app] in *.
  - rewrite Permutation_swap in Hp. destruct (free_parts _ _ _ _ _ _ _ Hp) as (s1 & E1 & Hp1).
    rewrite E1. by eapply free_parts.
  - by eapply free_parts.
Qed.

Lemma destroy_items_parts t S items : forall n (i : nat) s,
  set_items S items -> (i + n = length items)%nat ->
  parts w buf ((st_set t, table_of S) :: items_blocks (drop i items) ++ bs) r s ->
  exists s', destroy_items n (Z.of_nat i) t s = Ok (tt, s') /\ parts w buf ((st_set t, table_of S) :: bs) r s'.
Proof.
  induction n as [|n IH]; intros i s Hit Hi Hp.
  { exists s. split; [done|]. rewrite drop_ge in Hp by lia. exact Hp. }
  destruct (lookup_lt_is_Some_2 items i) as [it Hk]; [lia|].
  cbn [destroy_items]. unfold mbind at 1, M_bind at 1. unfold load_table.
  rewrite (holds_head _ _ _ _ _ (pa_heap _ _ _ _ _ Hp)). unfold table_of, entry_ptrs.
  unfold mbind at 1, M_bind at 1, liftO. rewrite aread_fmap, (aread_Ok _ _ _ (set_items_lookup S items Hit i it Hk)). cbn [mbind out_bind mret out_ret].
  rewrite (drop_S _ _ _ Hk) in Hp.
  destruct (item_destroy_parts it s ((st_set t, table_of S) :: items_blocks (drop (Datatypes.S i) items) ++ bs))
    as (s1 & E1 & Hp1).
  { eapply parts_move; [exact Hp|]. unfold items_blocks. cbn. solve_Permutation. }
  unfold mbind at 1, M_bind at 1, entry_ptr. cbn [fmap option_fmap option_map]. rewrite E1.
  replace (Z.of_nat i + 1) with (Z.of_nat (Datatypes.S i)) by lia. apply IH; [done|lia|exact Hp1].
Qed.

(** The set gives back all it owns. *)
Lemma destroy_parts t S s :
  owns w buf bs r t S s ->
  exists s', cluster_member_set_destroy_m t s = Ok (tt, s') /\ parts w buf bs r s'.
Proof.
  intros (Hsz & _ & items & Hit & Hp). unfold cluster_member_set_destroy_m, mbind, M_bind.
  rewrite Hsz, (set_items_length S items Hit).
  destruct (destroy_items_parts t S items (length items) 0%nat s Hit) as (s1 & E1 & Hp1); [lia|exact Hp|].
  change (Z.of_nat 0) with 0 in E1. rewrite E1. by eapply free_parts.
Qed.
End Ops.

(** * Removal and search *)

Lemma ofind_found n p : forall i k, ofind n i p = Ok (Some k) -> i <= k < i + Z.of_nat n /\ p k = Ok true.
Proof.
  induction n as [|n IH]; intros i k E; [done|]. cbn in E.
  destruct (p i) as [[]| |] eqn:Ep; try done; cbn in E.
  - injection E as <-. split; [lia|done].
  - apply IH in E as [? ?]. split; [lia|done].
Qed.

Lemma out_ok_bind {A B} (a : A) (f : A -> out B) : (Ok a ≫= f) = f a.
Proof. done. Qed.

Section Remove.
Context (w : world) (buf : list Z) (bs : list (loc * block)) (r : gmap loc block).

Lemma delete_items S items k a :
  set_items S items -> (k < length items)%nat -> length a = length (ms_set S) ->
  (forall j, a !! j = if bool_decide (k <= j < length items - 1)%nat then ms_set S !! Datatypes.S j
                      else ms_set S !! j) ->
  set_items (MemberSet a (u32 (ms_size S - 1)) (ms_capacity S)) (delete k items).
Proof.
  intros Hit Hk Hl Ha. pose proof Hit as [Ht Hs Hc Hb Ho].
  pose proof (set_items_fit S items Hit) as Hfit. unfold zlen in *.
  pose proof (length_delete items k (lookup_lt_is_Some_2 _ _ Hk)) as Hd. split; cbn.
  - rewrite Hd. apply list_eq. intros j. rewrite list_lookup_fmap.
    destruct (decide (j < length items - 1)%nat) as [Hlt|Hge].
    2:{ rewrite lookup_take_ge by lia. by rewrite lookup_ge_None_2 by lia. }
    rewrite lookup_take_lt by done. rewrite Ha. case_bool_decide as Hb'.
    + rewrite list_lookup_delete_ge by lia.
      destruct (lookup_lt_is_Some_2 items (Datatypes.S j)) as [it Ei]; [lia|].
      by rewrite Ei, (set_items_lookup S items Hit _ _ Ei).
    + rewrite list_lookup_delete_lt by lia. destruct (lookup_lt_is_Some_2 items j) as [it Ei]; [lia|].
      by rewrite Ei, (set_items_lookup S items Hit _ _ Ei).
  - unfold zlen. rewrite Hd, u32_id by (unfold is_u32; lia). lia.
  - unfold zlen. by rewrite Hl.
  - done.
  - by apply Forall_delete.
Qed.

Lemma shift_parts t S items k s :
  st_size t = ms_size S -> st_capacity t = ms_capacity S -> set_items S items -> (k < length items)%nat ->
  parts w buf ((st_set t, table_of S) :: items_blocks (delete k items) ++ bs) r s ->
  exists S' t' s', cluster_member_set_shift S (Z.of_nat k) = Ok S' /\
    cluster_member_set_shift_m t (Z.of_nat k) s = Ok (t', s') /\ owns w buf bs r t' S' s'.
Proof.
  intros Hsz Hc Hit Hk Hp. pose proof (set_items_fit S items Hit) as Hfit.
  destruct (shift_loop_ok (ms_set S) k (length items - 1)) as (a & Ea & Hl & Ha); [lia|lia|].
  assert (Z.to_nat (ms_size S - 1 - Z.of_nat k) = (length items - 1 - k)%nat) as En
    by (rewrite (si_size _ _ Hit); unfold zlen; lia).
  destruct (store_parts _ _ (TableBlock (entry_ptrs a)) _ _ _ _ _ Hp) as (s' & Es & Hp').
  exists (MemberSet a (u32 (ms_size S - 1)) (ms_capacity S)),
    (SetT (st_set t) (u32 (st_size t - 1)) (st_capacity t)), s'. split_and!.
  - unfold cluster_member_set_shift. by rewrite En, Ea.
  - unfold cluster_member_set_shift_m, mbind, M_bind. unfold load_table.
    rewrite (holds_head _ _ _ _ _ (pa_heap _ _ _ _ _ Hp)). unfold table_of, entry_ptrs.
    rewrite Hsz, En, (ofor_fmap entry_ptr (fun i a => x ← aread a (i + 1); awrite a i x)).
    2:{ intros i l. rewrite aread_fmap. destruct (aread l (i + 1)) as [x| |]; cbn; try done.
        apply awrite_fmap. }
    rewrite Ea. cbn. fold (entry_ptrs a). by rewrite Es.
  - split; [cbn; by rewrite Hsz|]. split; [done|]. exists (delete k items).
    split; [by apply delete_items|exact Hp'].
Qed.

(** The item at [k] is destroyed, the others move up. *)
Lemma removed_parts t S items k it s :
  st_size t = ms_size S -> st_capacity t = ms_capacity S -> set_items S items -> items !! k = Some it ->
  parts w buf (set_blocks t S items ++ bs) r s ->
  exists S' t' s', (members' ← cluster_member_set_shift S (Z.of_nat k); mret (true, members')) = Ok (true, S') /\
    (cluster_member_set_item_destroy_m (Some (cell_ptr (fst it)));;
     members' ← cluster_member_set_shift_m t (Z.of_nat k); mret (true, members')) s = Ok ((true, t'), s') /\
    owns w buf bs r t' S' s'.
Proof.
  intros Hsz Hc Hit Hk Hp. apply lookup_lt_Some in Hk as Hlt.
  destruct (item_destroy_parts w buf r it s ((st_set t, table_of S) :: items_blocks (delete k items) ++ bs))
    as (s1 & E1 & Hp1).
  { eapply parts_move; [exact Hp|]. unfold set_blocks, items_blocks.
    assert (items ≡ₚ it :: delete k items) as Ei by by apply delete_Permutation.
    rewrite Ei at 1. cbn. solve_Permutation. }
  destruct (shift_parts t S items k s1 Hsz Hc Hit Hlt Hp1) as (S' & t' & s2 & E2 & E3 & Ho).
  exists S', t', s2. split; [by rewrite E2|]. split; [|done].
  by rewrite (M_ok_bind _ _ _ _ _ E1), (M_ok_bind _ _ _ _ _ E3).
Qed.

Lemma remove_sims t S member s :
  owns w buf bs r t S s ->
  sims (liftO (cluster_member_set_remove S member)) w (cluster_member_set_remove_m t member) s
    (fun x w' y s' => w' = w /\ fst y = fst x /\ owns w buf bs r (snd y) (snd x) s').
Proof.
  intros (Hsz & Hc & items & Hit & Hp). unfold cluster_member_set_remove, cluster_member_set_remove_m.
  eapply sims_right; [by apply (load_table_at w buf bs r t S items)|].
  rewrite Hsz, (ofind_ext _ _ (fun i => e ← aread (entry_ptrs (ms_set S)) i;
    mret (match e with Some c => Nat.eqb c member | None => false end))
    (fun i => e ← aread (ms_set S) i;
    mret (match e with Some c => Nat.eqb (cell_ptr c) member | None => false end))).
  2:{ intros j. unfold entry_ptrs. rewrite aread_fmap. by destruct (aread (ms_set S) j) as [[]| |]. }
  destruct (ofind _ _ _) as [[i|]| |] eqn:E; [| |done|done].
  2:{ unfold sims. cbn. split; [done|]. split; [done|]. split; [done|]. split; [done|]. by exists items. }
  apply ofind_found in E as [Hi E]. rewrite (set_items_length S items Hit) in Hi.
  destruct (lookup_lt_is_Some_2 items (Z.to_nat i)) as [it Hk]; [lia|].
  rewrite <- (Z2Nat.id i) in E |- * by lia.
  rewrite (aread_Ok _ _ _ (set_items_lookup S items Hit _ _ Hk)) in E. cbn in E. injection E as E%Nat.eqb_eq.
  destruct (removed_parts t S items _ it s Hsz Hc Hit Hk Hp) as (S' & t' & s' & E1 & E2 & Ho).
  unfold sims. rewrite <- E, out_ok_bind, E1, (M_ok_bind _ _ s (Some (Z.of_nat (Z.to_nat i))) s), E2 by done. done.
Qed.

Lemma find_addr_reads t S items addr n s :
  st_size t = ms_size S -> set_items S items -> parts w buf (set_blocks t S items ++ bs) r s ->
  find_addr_idx_m t addr n s = liftO (find_addr_idx S addr n) s.
Proof.
  intros Hsz Hit Hp. unfold find_addr_idx_m, find_addr_idx.
  apply (set_search w buf bs r t S items Hsz Hit s Hp (fun x => memcmp_eq (cm_address x) addr n)
    (fun m => s ← getS; liftO (memcmp_eq (addressed s (mt_address m)) addr n))).
  intros it Hin. unfold mbind, M_bind, getS.
  pose proof (item_value w buf bs r t S items Hit s Hp it Hin) as Ev. by rewrite <- Ev.
Qed.

Lemma find_addr_found S items addr n i :
  set_items S items -> find_addr_idx S addr n = Ok (Some i) ->
  exists it, i = Z.of_nat (Z.to_nat i) /\ items !! Z.to_nat i = Some it.
Proof.
  intros Hit E. unfold find_addr_idx in E. apply ofind_found in E as [Hi _].
  rewrite (set_items_length S items Hit) in Hi.
  destruct (lookup_lt_is_Some_2 items (Z.to_nat i)) as [it Hk]; [lia|]. exists it. split; [lia|done].
Qed.

Lemma find_by_addr_sims t S addr n s :
  owns w buf bs r t S s ->
  sims (liftO (cluster_member_set_find_by_addr S addr n)) w (cluster_member_set_find_by_addr_m t addr n) s
    (fun x w' y s' => w' = w /\ s' = s /\ y = cell_ptr <$> x).
Proof.
  intros (Hsz & Hc & items & Hit & Hp).
  unfold cluster_member_set_find_by_addr, cluster_member_set_find_by_addr_m, sims, mbind, M_bind.
  rewrite (find_addr_reads t S items addr n s Hsz Hit Hp). unfold liftO.
  destruct (find_addr_idx S addr n) as [[i|]| |] eqn:E; try done. cbn.
  destruct (find_addr_found S items addr n i Hit E) as (it & Ei & Hk). rewrite Ei.
  destruct (set_entry_at w buf bs r t S items Hit s Hp _ _ Hk) as [E1 E2]. by rewrite E1, E2.
Qed.

Lemma remove_by_addr_sims t S addr n s :
  owns w buf bs r t S s ->
  sims (liftO (cluster_member_set_remove_by_addr S addr n)) w
    (cluster_member_set_remove_by_addr_m t addr n) s
    (fun x w' y s' => w' = w /\ fst y = fst x /\ owns w buf bs r (snd y) (snd x) s').
Proof.
  intros (Hsz & Hc & items & Hit & Hp).
  unfold cluster_member_set_remove_by_addr, cluster_member_set_remove_by_addr_m, sims.
  pose proof (find_addr_reads t S items addr n s Hsz Hit Hp) as Ef.
  destruct (find_addr_idx S addr n) as [[i|]| |] eqn:E; [| |by unfold mbind, M_bind; rewrite Ef..];
    rewrite (M_ok_bind _ _ _ _ _ Ef), out_ok_bind.
  2:{ cbn. split; [done|]. split; [done|]. split; [done|]. split; [done|]. by exists items. }
  destruct (find_addr_found S items addr n i Hit E) as (it & Ei & Hk). rewrite Ei.
  destruct (removed_parts t S items _ it s Hsz Hc Hit Hk Hp) as (S' & t' & s' & E1 & E2 & Ho).
  rewrite (M_ok_bind _ _ _ _ _ (load_table_at w buf bs r t S items s Hp)), E1.
  rewrite (M_ok_bind _ _ s (Some (cell_ptr (fst it))) s), E2; [done|].
  unfold liftO, entry_ptrs. by rewrite aread_fmap, (aread_Ok _ _ _ (set_items_lookup S items Hit _ _ Hk)).
Qed.
End Remove.
