(* ===== verification/DecodeMemoryFacts.v ===== *)
(** The decoders that allocate, on memory: what they leave there. *)
From S2P Require Import Prelude.
From S2P Require Import Config.
From S2P Require Import Utils.
From S2P Require Import World.
From S2P Require Import Member.
From S2P Require Import Messages.
From S2P Require Import Memory.
From S2P Require Import MemberFacts.
From S2P Require Import MemberSetFacts.
From S2P Require Import MemoryFacts.
From S2P Require Import MemorySetFacts.

(** A decoded member: its address stays in the buffer. *)
Definition decoded_at (at_ : Z) (v : cluster_member) : cluster_member_t :=
  MemberT (cm_version v) (cm_uid v) (cm_address_len v) (Buffer (at_ + sizeof_u16 + sizeof_u32 + sizeof_u32)).

Definition decoded_as (at_ : Z) (x : Z * option cluster_member) : Z * option cluster_member_t :=
  (fst x, decoded_at at_ <$> snd x).

Lemma member_decode_reads at_ size s :
  cluster_member_decode_m at_ size s =
  liftO (x ← cluster_member_decode (me_buffer s) at_ size; mret (decoded_as at_ x)) s.
Proof.
  unfold cluster_member_decode_m, cluster_member_decode, mbind, M_bind, getS.
  destruct (size <? _); [done|]. unfold liftO. cbn [out_bind].
  destruct (uint16_decode (me_buffer s) at_) as [v| |]; cbn [out_bind]; [|done..].
  destruct (uint32_decode (me_buffer s) (at_ + sizeof_u16)) as [u| |]; cbn [out_bind]; [|done..].
  destruct (uint32_decode (me_buffer s) (at_ + sizeof_u16 + sizeof_u32)) as [n| |]; cbn [out_bind]; [|done..].
  reflexivity.
Qed.

(** What a member decoder that returns has returned. *)
Lemma decode_inv buf at_ size n o :
  cluster_member_decode buf at_ size = Ok (n, o) ->
  match o with Some v => buffered buf (decoded_at at_ v) v | None => n = PITTACUS_ERR_BUFFER_NOT_ENOUGH end.
Proof.
  unfold cluster_member_decode. destruct (size <? _); [by intros [= <- <-]|]. cbn zeta.
  intros (a & _ & (b & _ & (c & _ & [= _ <-])%out_bind_Ok)%out_bind_Ok)%out_bind_Ok.
  eexists. split; reflexivity.
Qed.

(** * What a decoder leaves *)

(** Nothing, or the block that it allocated for members. *)
Definition undecoded (w : world) (buf : list Z) (bs : list (loc * block)) (r : gmap loc block) (s : memory)
    : Prop := parts w buf bs r s \/ exists l ms, parts w buf ((l, MembersBlock ms) :: bs) r s.

(** The results agree; a message that was decoded has its members in a block
    of its own, their addresses in the buffer. *)
Definition unpacked {A B} (values : A -> list cluster_member) (at_ : B -> loc) (same : A -> B -> Prop)
    (buf : list Z) (bs : list (loc * block)) (r : gmap loc block)
    (x : Z * option A) (w : world) (y : Z * option B) (s : memory) : Prop :=
  fst y = fst x /\
  match snd x, snd y with
  | Some v, Some m => same v m /\ exists ms, Forall2 (buffered buf) ms (values v) /\
      parts w buf ((at_ m, MembersBlock (Some <$> ms)) :: bs) r s
  | None, None => fst x < 0 /\ undecoded w buf bs r s
  | _, _ => False
  end.

Section Decoders.
Context (w : world) (buf : list Z) (bs : list (loc * block)) (r : gmap loc block) (s : memory).
Hypothesis Hp : parts w buf bs r s.

(** The end of the decoders of hello and welcome: one member. *)
Lemma one_member_sims {A B} (values : A -> list cluster_member) (where_ : B -> loc) (same : A -> B -> Prop)
    at_ size (value : cluster_member -> A) (msg : loc -> B) (result : Z -> Z) :
  (forall v, values (value v) = [v]) -> (forall l, where_ (msg l) = l) -> (forall v l, same (value v) (msg l)) ->
  sims
    (p ← malloc;
     match p with
     | None => mret (PITTACUS_ERR_ALLOCATION_FAILED, None)
     | Some _ =>
         x ← liftO (cluster_member_decode buf at_ size);
         match x with
         | (n, Some v) => if n <? 0 then mret (n, None) else mret (result n, Some (value v))
         | (n, None) => mret (n, None)
         end
     end) w
    (p ← malloc_m (MembersBlock [None]);
     match p with
     | None => mret (PITTACUS_ERR_ALLOCATION_FAILED, None)
     | Some l =>
         x ← cluster_member_decode_m at_ size;
         match x with
         | (n, Some m) =>
             store_member l 0 m;;
             if n <? 0 then mret (n, None) else mret (result n, Some (msg l))
         | (n, None) => mret (n, None)
         end
     end) s (unpacked values where_ same buf bs r).
Proof.
  intros Hv Hw Hsame. eapply sims_bind; [by apply malloc_parts|]. intros p w1 p' s1 [-> Hp1]. destruct p as [l|].
  2:{ apply sims_ret. split; [done|]. cbn. split; [done|]. by left. }
  eapply sims_lift; [apply member_decode_reads| |].
  { by rewrite (pa_buffer _ _ _ _ _ Hp1). }
  intros [n [v|]] E; cbn [decoded_as fst snd fmap option_fmap option_map].
  2:{ apply sims_ret. split; [done|]. cbn. split; [|by right; eexists _, _].
      by apply decode_inv in E as ->. }
  destruct (store_member_parts _ 0 (decoded_at at_ v) _ _ _ _ _ _ _ Hp1 eq_refl) as (s2 & E2 & Hp2).
  eapply sims_right; [exact E2|]. destruct (Z.ltb_spec n 0) as [Hneg|Hpos].
  - apply sims_ret. split; [done|]. cbn. split; [done|]. right. by eexists _, _.
  - apply sims_ret. split; [done|]. cbn. split; [done|]. exists [decoded_at at_ v]. rewrite Hv, Hw.
    split; [|exact Hp2]. constructor; [exact (decode_inv _ _ _ _ _ E)|constructor].
Qed.

Lemma hello_decode_sims size :
  sims (message_hello_decode buf size) w (message_hello_decode_m size) s
    (unpacked (fun v => [hello_this_member v]) ht_this_member (fun v m => ht_header m = hello_header v) buf bs r).
Proof.
  unfold message_hello_decode, message_hello_decode_m. eapply sims_right; [done|].
  rewrite (pa_buffer _ _ _ _ _ Hp).
  eapply (sims_lift _ _ (fun x => x)); [done|apply out_id|]. intros valid _.
  destruct (negb valid); [apply sims_ret; split; [done|]; split; [done|]; by left|].
  cbn zeta. destruct (size <? _); [apply sims_ret; split; [done|]; split; [done|]; by left|].
  eapply (sims_lift _ _ (fun x => x)); [done|apply out_id|]. intros h _.
  by apply (one_member_sims _ _ _ _ _ (fun v => MessageHello (snd h) v) (fun l => HelloT (snd h) l)
    (fun n => i32 (sizeof_message_header + n))).
Qed.

Lemma welcome_decode_sims size :
  sims (message_welcome_decode buf size) w (message_welcome_decode_m size) s
    (unpacked (fun v => [welcome_this_member v]) wt_this_member
       (fun v m => wt_header m = welcome_header v /\ wt_hello_sequence_num m = welcome_hello_sequence_num v)
       buf bs r).
Proof.
  unfold message_welcome_decode, message_welcome_decode_m. eapply sims_right; [done|].
  rewrite (pa_buffer _ _ _ _ _ Hp).
  eapply (sims_lift _ _ (fun x => x)); [done|apply out_id|]. intros valid _.
  destruct (negb valid); [apply sims_ret; split; [done|]; split; [done|]; by left|].
  cbn zeta. destruct (size <? _); [apply sims_ret; split; [done|]; split; [done|]; by left|].
  eapply (sims_lift _ _ (fun x => x)); [done|apply out_id|]. intros h _.
  eapply (sims_lift _ _ (fun x => x)); [done|apply out_id|]. intros seq _.
  by apply (one_member_sims _ _ _ _ _ (fun v => MessageWelcome (snd h) seq v) (fun l => WelcomeT (snd h) seq l)
    (fun n => i32 (fst h + sizeof_u32 + n))).
Qed.
End Decoders.

(** * The member list *)

(** The loop fills the block from [i] on. *)
Lemma decode_members_sims buf bs r l end_ : forall n w (ms : list cluster_member_t) cursor s,
  parts w buf ((l, MembersBlock ((Some <$> ms) ++ replicate n None)) :: bs) r s ->
  sims (liftO (decode_members n buf cursor end_)) w
    (decode_members_m n l (zlen ms) cursor end_) s (fun x w' y s' => w' = w /\
      match x, y with
      | inr (c, vs), inr c' => c' = c /\ length vs = n /\ exists ms', Forall2 (buffered buf) ms' vs /\
          parts w buf ((l, MembersBlock (Some <$> ms ++ ms')) :: bs) r s'
      | inl e, inl e' => e' = e /\ e < 0 /\ exists block, parts w buf ((l, MembersBlock block) :: bs) r s'
      | _, _ => False
      end).
Proof.
  induction n as [|n IH]; intros w ms cursor s Hp.
  { unfold sims. cbn. split; [done|]. split; [done|]. split; [done|]. exists [].
    rewrite app_nil_r in *. by split; [constructor|]. }
  cbn [decode_members decode_members_m].
  eapply sims_lift_out; [apply member_decode_reads|by rewrite (pa_buffer _ _ _ _ _ Hp)|].
  intros [m [v|]] E; cbn [decoded_as fst snd fmap option_fmap option_map].
  2:{ unfold sims. cbn. split; [done|]. split; [done|]. apply decode_inv in E as ->. split; [done|]. by eexists. }
  assert (awrite ((Some <$> ms) ++ replicate (S n) None) (zlen ms) (Some (decoded_at cursor v)) =
    Ok ((Some <$> ms ++ [decoded_at cursor v]) ++ replicate n None)) as Ew.
  { unfold zlen. rewrite awrite_Ok by (rewrite length_app, length_fmap, length_replicate; lia).
    rewrite insert_app_r_alt by by rewrite length_fmap.
    rewrite length_fmap, Nat.sub_diag. cbn. by rewrite fmap_app, <- app_assoc. }
  destruct (store_member_parts _ _ _ _ _ _ _ _ _ _ Hp Ew) as (s1 & E1 & Hp1).
  eapply sims_right; [exact E1|]. destruct (Z.ltb_spec m 0) as [Hneg|Hpos].
  { unfold sims. cbn. split; [done|]. split; [done|]. split; [done|]. by eexists. }
  specialize (IH w (ms ++ [decoded_at cursor v]) (cursor + m) s1 Hp1).
  rewrite zlen_app in IH. change (zlen [decoded_at cursor v]) with 1 in IH.
  eapply sims_post; [exact IH|]. intros [e|[c vs]] w' [e'|c'] s' [-> H]; try done.
  { destruct H as (-> & Hneg & Hb). eexists. split; [done|]. cbn. by split_and!. }
  destruct H as (-> & <- & ms' & Hf & Hp'). eexists. split; [done|]. cbn. split_and!; try done.
  exists (decoded_at cursor v :: ms'). split; [constructor; [exact (decode_inv _ _ _ _ _ E)|done]|].
  by rewrite <- app_assoc in Hp'.
Qed.

(** Values that are read from the buffer. *)
Lemma uint16_decode_range m c n : uint16_decode m c = Ok n -> is_u16 n.
Proof.
  unfold uint16_decode, uint16_decode_on. intros (x & _ & [= <-])%out_bind_Ok. unfold ntoh, hton, host.
  apply (word_le_range (rev (bytes_le 2 _))), Forall_rev, bytes_le_byte.
Qed.

Lemma header_decode_fails m size n : message_header_decode m size = Ok (n, None) -> n < 0.
Proof.
  unfold message_header_decode. destruct (size <? _); [by intros [= <-]|].
  by intros (a & _ & (b & _ & (c & _ & (d & _ & [= _])%out_bind_Ok)%out_bind_Ok)%out_bind_Ok)%out_bind_Ok.
Qed.

Lemma list_decode_sims w buf bs r s size :
  parts w buf bs r s ->
  sims (message_member_list_decode buf size) w (message_member_list_decode_m size) s
    (unpacked ml_members lt_members
       (fun v m => lt_header m = ml_header v /\ lt_members_n m = ml_members_n v /\
          ml_members_n v = zlen (ml_members v)) buf bs r).
Proof.
  intros Hp. unfold message_member_list_decode, message_member_list_decode_m. eapply sims_right; [done|].
  rewrite (pa_buffer _ _ _ _ _ Hp).
  eapply (sims_lift _ _ (fun x => x)); [done|apply out_id|]. intros valid _.
  destruct (negb valid); [apply sims_ret; split; [done|]; split; [done|]; by left|].
  cbn zeta. destruct (size <? _); [apply sims_ret; split; [done|]; split; [done|]; by left|].
  eapply (sims_lift _ _ (fun x => x)); [done|apply out_id|]. intros [h [header|]] Eh.
  2:{ apply sims_ret. split; [done|]. split; [by eapply header_decode_fails|by left]. }
  eapply (sims_lift _ _ (fun x => x)); [done|apply out_id|]. intros members_n En.
  eapply sims_bind; [by apply malloc_parts|]. intros p w1 p' s1 [-> Hp1]. destruct p as [l|].
  2:{ apply sims_ret. split; [done|]. split; [done|]. by left. }
  eapply sims_bind; [by apply (decode_members_sims buf bs r l size _ w1 [])|].
  intros [e|[c vs]] w2 [e'|c'] s2 [-> H]; try done.
  - destruct H as (-> & Hneg & block & Hp2). apply sims_ret. split; [done|]. split; [done|]. right. by eexists _, _.
  - destruct H as (-> & Hl & ms & Hf & Hp2). apply sims_ret. split; [done|]. cbn.
    split; [|by exists ms]. split; [done|]. split; [done|]. unfold zlen. rewrite Hl.
    apply uint16_decode_range in En. unfold is_u16 in En. lia.
Qed.
