(* ===== verification/VectorClockFacts.v ===== *)
(** Vector clocks as finite maps from originators to sequence numbers: the
    invariant of a clock, lookup, update with round-robin replacement, and
    the comparison against the pointwise order of maps. *)
From S2P Require Import Prelude.
From S2P Require Import Config.
From S2P Require Import Utils.
From S2P Require Import World.
From S2P Require Import Member.
From S2P Require Import VectorClock.

(** * Invariant and abstraction *)

Definition record_wf (r : vector_record) : Prop :=
  is_u32 (vr_sequence_number r) /\ is_u64 (vr_member_id r).

#[export] Instance record_wf_dec r : Decision (record_wf r).
Proof. unfold record_wf. apply _. Defined.

(** The records in use. *)
Definition live (c : vector_clock) : list vector_record :=
  ztake (vc_size c) (vc_records c).

Definition clock_ids (c : vector_clock) : list Z := vr_member_id <$> live c.

(** A clock that can be read: received clocks satisfy it. *)
Definition clock_ok (c : vector_clock) : Prop :=
  zlen (vc_records c) = MAX_VECTOR_SIZE /\ 0 <= vc_size c <= MAX_VECTOR_SIZE /\
  Forall record_wf (live c) /\ NoDup (clock_ids c).

(** A clock that is maintained: the next slot is the first unused one until
    all are in use. *)
Definition clock_wf (c : vector_clock) : Prop :=
  clock_ok c /\ 0 <= vc_current_idx c < MAX_VECTOR_SIZE /\
  (vc_size c < MAX_VECTOR_SIZE -> vc_current_idx c = vc_size c).

#[export] Instance clock_ok_dec c : Decision (clock_ok c).
Proof. unfold clock_ok. apply _. Defined.
#[export] Instance clock_wf_dec c : Decision (clock_wf c).
Proof. unfold clock_wf. apply _. Defined.

Definition rec_pair (r : vector_record) : Z * Z := (vr_member_id r, vr_sequence_number r).

Definition clock_map (c : vector_clock) : gmap Z Z := list_to_map (rec_pair <$> live c).

Lemma vector_record_eta r : VectorRecord (vr_sequence_number r) (vr_member_id r) = r.
Proof. by destruct r. Qed.

Lemma rec_map_lookup (l : list vector_record) id s :
  NoDup (vr_member_id <$> l) ->
  (list_to_map (rec_pair <$> l) : gmap Z Z) !! id = Some s <-> VectorRecord s id ∈ l.
Proof.
  intros Hnd. rewrite <- elem_of_list_to_map.
  - rewrite list_elem_of_fmap. split.
    + intros (r & E & Hr). unfold rec_pair in E. injection E as -> ->.
      by rewrite vector_record_eta.
    + intros Hr. by exists (VectorRecord s id).
  - by rewrite <- list_fmap_compose.
Qed.

Lemma clock_map_lookup c id s :
  clock_ok c -> clock_map c !! id = Some s <-> VectorRecord s id ∈ live c.
Proof. intros (_ & _ & _ & Hnd). by apply rec_map_lookup. Qed.

Lemma length_live c : clock_ok c -> length (live c) = Z.to_nat (vc_size c).
Proof.
  intros (Hl & Hs & _). unfold live, ztake, zlen in *. rewrite length_take. config_lia.
Qed.

Lemma live_lookup c k r :
  clock_ok c -> live c !! k = Some r -> vc_records c !! k = Some r.
Proof. intros _ H. unfold live, ztake in H. by apply lookup_take_Some in H as [? _]. Qed.

Lemma live_map c k r :
  clock_ok c -> live c !! k = Some r ->
  clock_map c !! vr_member_id r = Some (vr_sequence_number r).
Proof.
  intros Hc Hk. apply clock_map_lookup; [done|]. rewrite vector_record_eta.
  by eapply list_elem_of_lookup_2.
Qed.

Lemma live_id_inj c i j r r' :
  clock_ok c -> live c !! i = Some r -> live c !! j = Some r' ->
  vr_member_id r = vr_member_id r' -> i = j.
Proof.
  intros (_ & _ & _ & Hnd) Hi Hj E. rewrite NoDup_alt in Hnd.
  apply (Hnd i j (vr_member_id r)); unfold clock_ids.
  - by rewrite list_lookup_fmap, Hi.
  - by rewrite list_lookup_fmap, Hj, E.
Qed.

(** * Search *)

(** The search either finds the only record of the originator, or the clock
    does not know the originator. *)
Lemma find_by_member_id_spec c id :
  clock_ok c ->
  (exists (k : nat) r,
     vector_clock_find_by_member_id c id = Ok (Z.of_nat k) /\
     live c !! k = Some r /\ vr_member_id r = id /\
     clock_map c !! id = Some (vr_sequence_number r)) \/
  (vector_clock_find_by_member_id c id = Ok PITTACUS_ERR_NOT_FOUND /\
   clock_map c !! id = None).
Proof.
  intros Hc. unfold vector_clock_find_by_member_id.
  rewrite <- (length_live c Hc).
  rewrite (ofind_list_find (fun r => vr_member_id r = id)).
  2:{ intros k r Hk. rewrite Z.add_0_l, (aread_Ok _ _ r) by by apply live_lookup. out_step.
      f_equal. case_bool_decide; [by apply Z.eqb_eq|by apply Z.eqb_neq]. }
  out_step. destruct (list_find _ (live c)) as [[k r]|] eqn:E; cbn.
  - left. apply list_find_Some in E as (Hk & Hid & _). exists k, r.
    split_and!; try done. rewrite <- Hid. by eapply live_map.
  - right. split; [done|]. apply list_find_None in E. rewrite Forall_forall in E.
    apply eq_None_not_Some. intros [s Hs]. apply clock_map_lookup in Hs; [|done].
    by apply (E _ Hs).
Qed.

(** * Update *)

(** The originator that loses its record when [id] is set. *)
Definition evicted (c : vector_clock) (id : Z) : gmap Z Z :=
  match clock_map c !! id with
  | Some _ => clock_map c
  | None =>
      if vc_size c <? MAX_VECTOR_SIZE then clock_map c
      else match vc_records c !! Z.to_nat (vc_current_idx c) with
           | Some r => delete (vr_member_id r) (clock_map c)
           | None => clock_map c
           end
  end.

(** Replacing record [k] of a list of records with distinct originators. *)
Lemma rec_map_insert (l : list vector_record) k r old :
  NoDup (vr_member_id <$> l) -> l !! k = Some old ->
  (vr_member_id r = vr_member_id old \/ vr_member_id r ∉ vr_member_id <$> l) ->
  NoDup (vr_member_id <$> <[k := r]> l) /\
  (list_to_map (rec_pair <$> <[k := r]> l) : gmap Z Z) =
    <[vr_member_id r := vr_sequence_number r]>
      (delete (vr_member_id old) (list_to_map (rec_pair <$> l))).
Proof.
  intros Hnd Hk Hid.
  assert (k < length l)%nat as Hlt by by eapply lookup_lt_Some.
  assert (forall j r', l !! j = Some r' -> j <> k -> vr_member_id r' <> vr_member_id old) as Ho.
  { intros j r' Hj Hjk E. rewrite NoDup_alt in Hnd. apply Hjk.
    apply (Hnd j k (vr_member_id r')); rewrite list_lookup_fmap, ?Hj, ?Hk; cbn; congruence. }
  assert (forall j r', l !! j = Some r' -> j <> k -> vr_member_id r' <> vr_member_id r) as Hr.
  { intros j r' Hj Hjk E. destruct Hid as [E'|Hni]; [by apply (Ho j r'); congruence|].
    apply Hni. rewrite <- E. apply list_elem_of_fmap_2. by eapply list_elem_of_lookup_2. }
  assert (NoDup (vr_member_id <$> <[k := r]> l)) as Hnd'.
  { rewrite NoDup_alt in *. intros i j id. rewrite !list_lookup_fmap, !list_lookup_insert.
    repeat case_decide; cbn; try lia.
    - intros [= <-] (r' & Hj & E)%fmap_Some. exfalso. apply (Hr j r'); [done|lia|done].
    - intros (r' & Hj & E)%fmap_Some [= <-]. exfalso. apply (Hr i r'); [done|lia|done].
    - intros Hi Hj. apply (Hnd i j id); by rewrite list_lookup_fmap. }
  split; [done|]. apply map_eq. intros id. apply option_eq. intros s.
  rewrite rec_map_lookup by done. rewrite lookup_insert_Some, lookup_delete_Some.
  rewrite rec_map_lookup by done. rewrite !list_elem_of_lookup. split.
  - intros [j Hj]. rewrite list_lookup_insert in Hj. case_decide as Hd.
    + injection Hj as ->. left. done.
    + assert (j <> k) by (intros ->; apply Hd; lia). right. split_and!.
      * intros E. by apply (Hr j _ Hj).
      * intros E. by apply (Ho j _ Hj).
      * by exists j.
  - intros [[<- <-]|(Hne & Hne' & j & Hj)].
    + exists k. rewrite list_lookup_insert_eq by done. by rewrite vector_record_eta.
    + exists j. rewrite list_lookup_insert_ne; [done|]. intros <-. rewrite Hk in Hj.
      by injection Hj as ->.
Qed.

Lemma live_insert c k r :
  clock_ok c -> (k < length (live c))%nat ->
  live (VectorClock (vc_size c) (vc_current_idx c) (<[k := r]> (vc_records c)))
    = <[k := r]> (live c).
Proof.
  intros Hc Hk. rewrite length_live in Hk by done. unfold live, ztake. cbn.
  by rewrite take_insert_lt.
Qed.

(** Writing over a record of the clock that keeps its originator, or takes
    one that the clock does not know. *)
Lemma replace_record c k r old :
  clock_ok c -> record_wf r -> live c !! k = Some old ->
  (vr_member_id r = vr_member_id old \/ clock_map c !! vr_member_id r = None) ->
  exists recs, awrite (vc_records c) (Z.of_nat k) r = Ok recs /\
    recs !! k = Some r /\ zlen recs = zlen (vc_records c) /\
    clock_ok (VectorClock (vc_size c) (vc_current_idx c) recs) /\
    clock_map (VectorClock (vc_size c) (vc_current_idx c) recs) =
      <[vr_member_id r := vr_sequence_number r]> (delete (vr_member_id old) (clock_map c)).
Proof.
  intros Hc Hr Hk Hid. pose proof (live_lookup _ _ _ Hc Hk) as Hrk.
  assert (k < length (live c))%nat as Hlt by by eapply lookup_lt_Some.
  exists (<[k := r]> (vc_records c)).
  pose proof Hc as (Hl & Hs & Hf & Hnd).
  assert (vr_member_id r = vr_member_id old \/ vr_member_id r ∉ vr_member_id <$> live c) as Hid'.
  { destruct Hid as [?|Hn]; [by left|right]. intros (r' & E & Hr')%list_elem_of_fmap.
    rewrite E in Hn. apply list_elem_of_lookup in Hr' as [j Hj].
    by rewrite (live_map _ _ _ Hc Hj) in Hn. }
  destruct (rec_map_insert (live c) k r old Hnd Hk Hid') as [Hnd' Hm].
  split; [by apply awrite_Ok; eapply lookup_lt_Some|].
  split; [by apply list_lookup_insert_eq; eapply lookup_lt_Some|].
  split; [unfold zlen; by rewrite length_insert|].
  unfold clock_map, clock_ok, clock_ids. rewrite live_insert by done. cbn.
  split_and!; try done; try lia.
  - unfold zlen in *. by rewrite length_insert.
  - by apply Forall_insert.
Qed.

(** Taking the next unused slot for a new originator. *)
Lemma append_record c r :
  clock_ok c -> vc_size c < MAX_VECTOR_SIZE -> record_wf r ->
  clock_map c !! vr_member_id r = None ->
  exists recs, awrite (vc_records c) (vc_size c) r = Ok recs /\
    recs !! Z.to_nat (vc_size c) = Some r /\ zlen recs = zlen (vc_records c) /\
    forall idx, clock_ok (VectorClock (vc_size c + 1) idx recs) /\
      clock_map (VectorClock (vc_size c + 1) idx recs) =
        <[vr_member_id r := vr_sequence_number r]> (clock_map c).
Proof.
  intros Hc Hlt Hr Hid. pose proof Hc as (Hl & Hs & Hf & Hnd).
  assert (Z.to_nat (vc_size c) < length (vc_records c))%nat as Hlen by (unfold zlen in Hl; lia).
  exists (<[Z.to_nat (vc_size c) := r]> (vc_records c)).
  split; [by rewrite <- (Z2Nat.id (vc_size c)) at 1 by lia; apply awrite_Ok|].
  split; [by apply list_lookup_insert_eq|].
  split; [unfold zlen; by rewrite length_insert|]. intros idx.
  assert (live (VectorClock (vc_size c + 1) idx
                  (<[Z.to_nat (vc_size c) := r]> (vc_records c))) = live c ++ [r]) as Hlive.
  { unfold live, ztake. cbn. replace (Z.to_nat (vc_size c + 1)) with (S (Z.to_nat (vc_size c))) by lia.
    rewrite (take_S_r _ _ r) by by apply list_lookup_insert_eq.
    by rewrite take_insert_ge by lia. }
  assert (vr_member_id r ∉ clock_ids c) as Hni.
  { intros (r' & E & Hr')%list_elem_of_fmap. rewrite E in Hid.
    apply list_elem_of_lookup in Hr' as [j Hj]. by rewrite (live_map _ _ _ Hc Hj) in Hid. }
  assert (NoDup (vr_member_id <$> live c ++ [r])) as Hnd'.
  { rewrite fmap_app. apply NoDup_app. split_and!; [done| |by apply NoDup_singleton].
    intros x Hx ->%list_elem_of_singleton. done. }
  unfold clock_ok, clock_map, clock_ids. rewrite Hlive. cbn [vc_records vc_size].
  split; [split_and!; try done; try lia|].
  - unfold zlen in *. by rewrite length_insert.
  - apply Forall_app. auto.
  - apply map_eq. intros id. apply option_eq. intros s.
    rewrite rec_map_lookup by done. rewrite lookup_insert_Some, rec_map_lookup by done.
    rewrite elem_of_app, list_elem_of_singleton. split.
    + intros [H|<-]; [|by left]. right. split; [|done]. intros <-. apply Hni.
      apply list_elem_of_fmap. by eexists (VectorRecord s _).
    + intros [[<- <-]|[_ H]]; [right|by left]. apply vector_record_eta.
Qed.

(** Setting an originator: it has the new number, one other originator may
    have lost its record, the invariant is kept. *)
Lemma vector_clock_set_by_id_spec c id seq :
  clock_wf c -> is_u64 id -> is_u32 seq ->
  exists (k : nat) c', vector_clock_set_by_id c id seq = Ok (Z.of_nat k, c') /\
    clock_wf c' /\ clock_map c' = <[id := seq]> (evicted c id) /\
    vc_records c' !! k = Some (VectorRecord seq id).
Proof.
  intros (Hc & Hi & Hci) Hid Hseq. unfold vector_clock_set_by_id.
  assert (record_wf (VectorRecord seq id)) as Hr by done.
  pose proof Hc as (Hl & Hs & _).
  destruct (find_by_member_id_spec c id Hc) as [(k & r & -> & Hk & E & Hm)|[-> Hm]]; out_step.
  - destruct (Z.ltb_spec (Z.of_nat k) 0) as [?|_]; [lia|].
    rewrite (aread_Ok _ _ r) by by apply live_lookup. out_step. rewrite E.
    destruct (replace_record c k (VectorRecord seq id) r) as (recs & -> & Hrk & Hlr & Hok & Hmap);
      [done|done|done|by left|]. out_step.
    exists k. eexists. split; [done|]. split; [done|]. split; [|done].
    rewrite Hmap. cbn. unfold evicted. rewrite Hm, E. by rewrite insert_delete_eq.
  - change (PITTACUS_ERR_NOT_FOUND <? 0) with true. cbn iota.
    rewrite u16_id by config_lia.
    unfold evicted. rewrite Hm. destruct (Z.ltb_spec (vc_size c) MAX_VECTOR_SIZE) as [Hlt|Hge].
    + rewrite Hci by done.
      destruct (append_record c (VectorRecord seq id)) as (recs & -> & Hrk & Hlr & Hall);
        [done|done|done|done|]. out_step.
      exists (Z.to_nat (vc_size c)). eexists. split; [by rewrite Z2Nat.id by lia|].
      destruct (Hall (if MAX_VECTOR_SIZE <=? vc_size c + 1 then 0 else vc_size c + 1)) as [Hok Hmap].
      split; [|done]. split; [done|]. cbn [vc_current_idx vc_size].
      destruct (Z.leb_spec MAX_VECTOR_SIZE (vc_size c + 1)); config_lia.
    + assert (vc_size c = MAX_VECTOR_SIZE) as Hsz by lia.
      destruct (lookup_lt_is_Some_2 (live c) (Z.to_nat (vc_current_idx c))) as [old Hold];
        [rewrite length_live by done; lia|].
      rewrite (live_lookup _ _ _ Hc Hold).
      destruct (replace_record c _ (VectorRecord seq id) old Hc Hr Hold) as (recs & Ew & Hrk & Hlr & Hok & Hmap);
        [by right|]. rewrite Z2Nat.id in Ew by lia. rewrite Ew. out_step.
      exists (Z.to_nat (vc_current_idx c)). eexists. split; [by rewrite Z2Nat.id by lia|].
      split; [|split; [exact Hmap|done]].
      split; [exact Hok|]. cbn [vc_current_idx vc_size].
      destruct (Z.leb_spec MAX_VECTOR_SIZE (vc_current_idx c + 1)); config_lia.
Qed.

(** * Comparison *)

(** Some originator is newer in [a] than in [b]; a map that does not know
    an originator has seen nothing from it. *)
Definition newer_in (a b : gmap Z Z) : Prop :=
  map_Exists (fun id s => default (-1) (b !! id) < s) a.

#[export] Instance newer_in_dec a b : Decision (newer_in a b).
Proof. unfold newer_in. apply _. Defined.

(** The result for "the first is newer somewhere", "the second is newer
    somewhere". *)
Definition comp_of (after before : bool) : vector_clock_comp_res :=
  match after, before with
  | false, false => VC_EQUAL
  | true, false => VC_AFTER
  | false, true => VC_BEFORE
  | true, true => VC_CONFLICT
  end.

Definition compare_maps (a b : gmap Z Z) : vector_clock_comp_res :=
  comp_of (bool_decide (newer_in a b)) (bool_decide (newer_in b a)).

(** The comparison of one record with what is known of its originator. *)
Definition record_comp (known : option Z) (s : Z) : vector_clock_comp_res :=
  comp_of (s <? default (-1) known) (default (-1) known <? s).

Lemma resolve_after a b :
  vector_clock_resolve_comp_result (comp_of a b) VC_AFTER = comp_of true b.
Proof. by destruct a, b. Qed.
Lemma resolve_before a b :
  vector_clock_resolve_comp_result (comp_of a b) VC_BEFORE = comp_of a true.
Proof. by destruct a, b. Qed.

Lemma clock_map_range c id s : clock_ok c -> clock_map c !! id = Some s -> is_u32 s /\ is_u64 id.
Proof.
  intros Hc Hm. pose proof Hc as (_ & _ & Hf & _). apply clock_map_lookup in Hm; [|done].
  rewrite Forall_forall in Hf. apply (Hf _ Hm).
Qed.

(** [vector_clock_compare_with_record]: the result for the originator of
    the record; when merging, a newer record is taken over. *)
Lemma compare_with_record_spec c r merge :
  clock_wf c -> record_wf r ->
  exists c', vector_clock_compare_with_record c r merge =
      Ok (record_comp (clock_map c !! vr_member_id r) (vr_sequence_number r), c') /\
    clock_wf c' /\
    (if merge && bool_decide (default (-1) (clock_map c !! vr_member_id r)
                              < vr_sequence_number r)
     then clock_map c' = <[vr_member_id r := vr_sequence_number r]> (evicted c (vr_member_id r))
     else c' = c).
Proof.
  intros Hwf [Hs Hid]. pose proof Hwf as (Hc & Hi & Hci).
  unfold vector_clock_compare_with_record, record_comp.
  destruct (find_by_member_id_spec c (vr_member_id r) Hc)
    as [(k & rec & -> & Hk & E & Hm)|[-> Hm]]; out_step; rewrite ?Hm.
  - destruct (Z.ltb_spec (Z.of_nat k) 0) as [?|_]; [lia|].
    rewrite (aread_Ok _ _ rec) by by apply live_lookup. out_step.
    cbn [from_option id].
    destruct (Z.ltb_spec (vr_sequence_number r) (vr_sequence_number rec)) as [Hlt|Hge].
    { destruct (Z.ltb_spec (vr_sequence_number rec) (vr_sequence_number r)) as [?|_]; [lia|].
      exists c. rewrite bool_decide_false by lia. rewrite andb_false_r. done. }
    destruct (Z.ltb_spec (vr_sequence_number rec) (vr_sequence_number r)) as [Hlt|Hge'].
    + rewrite bool_decide_true by done. destruct merge; cbn [andb]; [|by exists c].
      destruct (replace_record c k (VectorRecord (vr_sequence_number r) (vr_member_id rec)) rec)
        as (recs & -> & _ & _ & Hok & Hmap); [done|by rewrite E|done|by left|]. out_step.
      eexists. split; [done|]. split; [done|]. rewrite Hmap. cbn. rewrite E.
      unfold evicted. rewrite Hm. by rewrite insert_delete_eq.
    + exists c. rewrite bool_decide_false by lia. rewrite andb_false_r. done.
  - change (PITTACUS_ERR_NOT_FOUND <? 0) with true. cbn iota.
    cbn [from_option]. unfold is_u32 in Hs.
    rewrite bool_decide_true by lia. rewrite andb_true_r.
    destruct (Z.ltb_spec (vr_sequence_number r) (-1)) as [?|_]; [lia|].
    destruct (Z.ltb_spec (-1) (vr_sequence_number r)) as [_|?]; [|lia].
    destruct merge; [|by exists c].
    destruct (vector_clock_set_by_id_spec c (vr_member_id r) (vr_sequence_number r) Hwf Hid Hs)
      as (k & c' & -> & Hwf' & Hmap & _). out_step. by exists c'.
Qed.

(** Reading only needs a readable clock. *)
Lemma compare_with_record_read c r :
  clock_ok c -> record_wf r ->
  vector_clock_compare_with_record c r false =
    Ok (record_comp (clock_map c !! vr_member_id r) (vr_sequence_number r), c).
Proof.
  intros Hc [Hs Hid]. unfold vector_clock_compare_with_record, record_comp.
  destruct (find_by_member_id_spec c (vr_member_id r) Hc)
    as [(k & rec & -> & Hk & E & Hm)|[-> Hm]]; out_step; rewrite ?Hm.
  - destruct (Z.ltb_spec (Z.of_nat k) 0) as [?|_]; [lia|].
    rewrite (aread_Ok _ _ rec) by by apply live_lookup. out_step.
    cbn [from_option id].
    destruct (Z.ltb_spec (vr_sequence_number r) (vr_sequence_number rec)),
      (Z.ltb_spec (vr_sequence_number rec) (vr_sequence_number r)); done || lia.
  - change (PITTACUS_ERR_NOT_FOUND <? 0) with true. cbn iota.
    cbn [from_option]. unfold is_u32 in Hs.
    destruct (Z.ltb_spec (vr_sequence_number r) (-1)) as [?|_]; [lia|].
    destruct (Z.ltb_spec (-1) (vr_sequence_number r)) as [_|?]; [done|lia].
Qed.
