(* ===== verification/CompareFacts.v ===== *)
(** [vector_clock_compare] against the comparison of maps: the two loops,
    the bit mask of the records met, and the merge. *)
From S2P Require Import Prelude.
From S2P Require Import Config.
From S2P Require Import Utils.
From S2P Require Import World.
From S2P Require Import Member.
From S2P Require Import VectorClock.
From S2P Require Import VectorClockFacts.

(** * The bit mask *)

Lemma shl1_ok n : 0 <= n < 31 -> shl1 n = Ok (2 ^ n).
Proof.
  intros Hn. unfold shl1.
  replace (_ && _) with true by (symmetry; rewrite andb_true_iff, Z.leb_le, Z.ltb_lt; lia).
  by rewrite Z.shiftl_1_l.
Qed.

(** The mask has exactly the bits of the indices below the size. *)
Lemma visited_mask n : 0 <= n < 31 -> u32 (2 ^ n - 1) = Z.ones n.
Proof.
  intros Hn. rewrite Z.ones_equiv, <- Z.sub_1_r. apply u32_id. unfold is_u32.
  pose proof (Z.pow_lt_mono_r 2 n 31). pose proof (Z.pow_pos_nonneg 2 n). lia.
Qed.

Lemma testbit_set vis i k :
  0 <= i -> Z.testbit (Z.lor vis (2 ^ i)) k = (Z.testbit vis k || (i =? k)).
Proof. intros Hi. by rewrite Z.lor_spec, Z.pow2_bits_eqb. Qed.

(** The bit [k] of the records of [second] that [first] does not have. *)
Lemma missing_bit vis n k :
  0 <= n -> 0 <= k ->
  Z.testbit (Z.lxor vis (Z.ones n)) k = xorb (Z.testbit vis k) (k <? n).
Proof. intros Hn Hk. by rewrite Z.lxor_spec, Z.testbit_ones_nonneg. Qed.

Lemma bits_zero x :
  0 <= x -> (forall k, 0 <= k -> Z.testbit x k = false) -> x = 0.
Proof.
  intros Hx H. apply Z.bits_inj'. intros k Hk. rewrite H by done. by rewrite Z.bits_0.
Qed.

(** * The comparison loop *)

Section Compare.
Context (a b : vector_clock) (merge : bool) (Ha : clock_ok a) (Hb : clock_ok b).

(** What [b] knows of the originator of a record. *)
Definition known (r : vector_record) : Z := default (-1) (clock_map b !! vr_member_id r).

(** The record of [first] after the loop has passed it. *)
Definition merged_record (r : vector_record) : vector_record :=
  if merge then VectorRecord (Z.max (vr_sequence_number r) (known r)) (vr_member_id r) else r.

(** The first clock after [i] steps. *)
Definition merged_upto (i : nat) : vector_clock :=
  VectorClock (vc_size a) (vc_current_idx a)
    ((merged_record <$> take i (live a)) ++ drop i (vc_records a)).

Definition after_in (l : list vector_record) : bool :=
  existsb (fun r => known r <? vr_sequence_number r) l.
Definition before_in (l : list vector_record) : bool :=
  existsb (fun r => vr_sequence_number r <? known r) l.

(** [k] is the index in [b] of the originator of a record of [l]. *)
Definition met (l : list vector_record) (k : nat) : Prop :=
  exists r r', r ∈ l /\ live b !! k = Some r' /\ vr_member_id r' = vr_member_id r.

Definition compare_inv (i : Z) (st : vector_clock_comp_res * Z * vector_clock) : Prop :=
  let l := take (Z.to_nat i) (live a) in
  let '(result, vis, first) := st in
  result = comp_of (after_in l) (before_in l) /\ first = merged_upto (Z.to_nat i) /\
  0 <= vis /\ (forall k : nat, Z.testbit vis (Z.of_nat k) = true <-> met l k).

Lemma met_snoc l r k : met (l ++ [r]) k <-> met l k \/ met [r] k.
Proof.
  unfold met. setoid_rewrite elem_of_app. split.
  - intros (x & r' & [H|H] & H1 & H2); [left|right]; eauto.
  - intros [(x & r' & H & H1 & H2)|(x & r' & H & H1 & H2)]; exists x, r'; eauto.
Qed.

Lemma merged_upto_step i r :
  live a !! i = Some r ->
  (known r <= vr_sequence_number r \/ merge = false) ->
  merged_upto (S i) = merged_upto i.
Proof.
  intros Hi Hk. unfold merged_upto. f_equal.
  rewrite (take_S_r _ _ _ Hi), fmap_app, <- app_assoc. f_equal.
  rewrite (drop_S _ r i) by by apply live_lookup. cbn [fmap list_fmap]. f_equal.
  unfold merged_record. destruct merge; [|done].
  destruct Hk as [Hk|?]; [|done]. rewrite Z.max_l by done. by destruct r.
Qed.

Lemma merged_upto_write i r :
  live a !! i = Some r -> vr_sequence_number r < known r -> merge = true ->
  awrite (vc_records (merged_upto i)) (Z.of_nat i) (VectorRecord (known r) (vr_member_id r))
    = Ok (vc_records (merged_upto (S i))).
Proof.
  intros Hi Hk Hm. assert (i < length (live a))%nat as Hlt by by eapply lookup_lt_Some.
  assert (i < length (vc_records a))%nat as Hlt'.
  { eapply lookup_lt_Some. by apply (live_lookup _ _ _ Ha Hi). }
  unfold merged_upto. cbn [vc_records]. rewrite awrite_Ok.
  2:{ rewrite length_app, length_fmap, length_take, length_drop. lia. }
  f_equal. rewrite (take_S_r _ _ _ Hi), fmap_app, <- app_assoc.
  rewrite insert_app_r_alt by (rewrite length_fmap, length_take; lia).
  f_equal. rewrite length_fmap, length_take, Nat.min_l, Nat.sub_diag by lia.
  rewrite (drop_S _ r i) by by apply live_lookup. cbn. f_equal.
  unfold merged_record. rewrite Hm. by rewrite Z.max_r by lia.
Qed.

Lemma merged_upto_read i r :
  live a !! i = Some r -> aread (vc_records (merged_upto i)) (Z.of_nat i) = Ok r.
Proof.
  intros Hi. assert (i < length (live a))%nat as Hlt by by eapply lookup_lt_Some.
  apply aread_Ok. unfold merged_upto. cbn [vc_records].
  rewrite lookup_app_r by (rewrite length_fmap, length_take; lia).
  rewrite length_fmap, length_take, Nat.min_l, Nat.sub_diag by lia.
  rewrite lookup_drop, Nat.add_0_r. by apply live_lookup.
Qed.

Lemma after_in_snoc l r : after_in (l ++ [r]) = after_in l || (known r <? vr_sequence_number r).
Proof. unfold after_in. rewrite existsb_app. cbn. by rewrite orb_false_r. Qed.
Lemma before_in_snoc l r : before_in (l ++ [r]) = before_in l || (vr_sequence_number r <? known r).
Proof. unfold before_in. rewrite existsb_app. cbn. by rewrite orb_false_r. Qed.

Lemma visit_bit vis l r k r' i :
  (forall k : nat, Z.testbit vis (Z.of_nat k) = true <-> met l k) ->
  live b !! k = Some r' -> vr_member_id r' = vr_member_id r ->
  Z.testbit (Z.lor vis (2 ^ Z.of_nat k)) (Z.of_nat i) = true <-> met (l ++ [r]) i.
Proof.
  intros Hv Hk E. rewrite testbit_set, orb_true_iff, Hv, met_snoc, Z.eqb_eq by lia.
  split; intros [?|H]; try (by left); right.
  - assert (k = i) as <- by lia. exists r, r'. split_and!; try done. by apply list_elem_of_singleton.
  - destruct H as (x & r2 & ->%list_elem_of_singleton & H1 & H2).
    f_equal. apply (live_id_inj b k i r' r2); congruence.
Qed.

(** One step of the loop keeps the invariant. *)
Lemma compare_step_ok i st :
  0 <= i < Z.of_nat (length (live a)) -> compare_inv i st ->
  exists st', compare_step b merge i st = Ok st' /\ compare_inv (i + 1) st'.
Proof.
  intros Hi Hinv. destruct st as [[res vis] f]. destruct Hinv as (-> & -> & Hv0 & Hv).
  destruct (lookup_lt_is_Some_2 (live a) (Z.to_nat i)) as [r Hr]; [lia|].
  pose proof (merged_upto_read _ _ Hr) as Hread. rewrite Z2Nat.id in Hread by lia.
  unfold compare_step. rewrite Hread. out_step.
  unfold compare_inv. replace (Z.to_nat (i + 1)) with (S (Z.to_nat i)) by lia.
  rewrite (take_S_r _ _ _ Hr), after_in_snoc, before_in_snoc.
  set (l := take (Z.to_nat i) (live a)) in *.
  destruct Ha as (_ & _ & Hfa & _). pose proof (Forall_lookup_1 _ _ _ _ Hfa Hr) as [Hs _].
  destruct (find_by_member_id_spec b (vr_member_id r) Hb) as [(k & r' & -> & Hk & E & Hm)|[-> Hm]];
    out_step.
  - assert (known r = vr_sequence_number r') as Hkn by (unfold known; by rewrite Hm).
    destruct (Z.ltb_spec (Z.of_nat k) 0) as [?|_]; [lia|].
    pose proof (lookup_lt_Some _ _ _ Hk) as Hkl. rewrite length_live in Hkl by done.
    pose proof Hb as (_ & Hsb & _).
    rewrite shl1_ok by config_lia. out_step.
    rewrite (aread_Ok _ _ r') by by apply live_lookup. out_step. rewrite <- Hkn.
    assert (0 <= Z.lor vis (2 ^ Z.of_nat k)) as Hlor by (apply Z.lor_nonneg; lia).
    pose proof (fun i' => visit_bit vis l r k r' i' Hv Hk E) as Hbit.
    destruct (Z.ltb_spec (known r) (vr_sequence_number r)) as [Hlt|Hge].
    { eexists. split; [done|]. rewrite resolve_after, orb_true_r.
      destruct (Z.ltb_spec (vr_sequence_number r) (known r)) as [?|_]; [lia|].
      rewrite orb_false_r. split_and!; try done. symmetry. apply (merged_upto_step _ r); [done|lia]. }
    destruct (Z.ltb_spec (vr_sequence_number r) (known r)) as [Hlt'|Hge'].
    + rewrite resolve_before, orb_true_r, orb_false_r. destruct merge eqn:Em.
      * pose proof (merged_upto_write _ _ Hr Hlt' Em) as Hw. rewrite Z2Nat.id in Hw by lia.
        rewrite Hw. out_step. eexists. split; [done|]. by split_and!.
      * eexists. split; [done|]. split_and!; try done. symmetry.
        by apply (merged_upto_step _ r); [|right].
    + eexists. split; [done|]. rewrite !orb_false_r. split_and!; try done. symmetry.
      apply (merged_upto_step _ r); [done|lia].
  - change (PITTACUS_ERR_NOT_FOUND <? 0) with true. cbn iota.
    assert (known r = -1) as Hkn by (unfold known; by rewrite Hm). unfold is_u32 in Hs.
    eexists. split; [done|]. rewrite resolve_after, Hkn.
    destruct (Z.ltb_spec (-1) (vr_sequence_number r)) as [_|?]; [|lia].
    destruct (Z.ltb_spec (vr_sequence_number r) (-1)) as [?|_]; [lia|].
    rewrite orb_true_r, orb_false_r. split_and!; try done.
    + symmetry. apply (merged_upto_step _ r); [done|lia].
    + intros k. rewrite Hv, met_snoc. split; [by left|intros [?|H]; [done|]]. exfalso.
      destruct H as (x & r2 & ->%list_elem_of_singleton & H1 & H2).
      rewrite <- H2, (live_map _ _ _ Hb H1) in Hm. done.
Qed.

(** The loop: the result over all records, the merged first clock, and the
    mask of the records of [b] whose originator [a] has. *)
Lemma compare_loop_ok :
  exists vis, ofor (Z.to_nat (vc_size a)) 0 (compare_step b merge) (VC_EQUAL, 0, a)
    = Ok (comp_of (after_in (live a)) (before_in (live a)), vis,
          merged_upto (length (live a))) /\
    0 <= vis /\ (forall k : nat, Z.testbit vis (Z.of_nat k) = true <-> met (live a) k).
Proof.
  rewrite <- (length_live a Ha).
  destruct (ofor_inv compare_inv (length (live a)) 0 (compare_step b merge) (VC_EQUAL, 0, a))
    as ([[res vis] f] & -> & Hi).
  - unfold compare_inv. cbn. split_and!; try done.
    + unfold merged_upto. cbn. by destruct a.
    + intros k. rewrite Z.bits_0. split; [done|]. intros (r & r' & Hin & _).
      by apply not_elem_of_nil in Hin.
  - intros j st Hj. apply compare_step_ok. lia.
  - unfold compare_inv in Hi. rewrite Z.add_0_l, Nat2Z.id, firstn_all in Hi.
    destruct Hi as (-> & -> & Hv0 & Hv). by exists vis.
Qed.
End Compare.

(** * The result *)

Section Result.
Context (a b : vector_clock) (Ha : clock_ok a) (Hb : clock_ok b).

Lemma after_in_newer :
  after_in b (live a) = bool_decide (newer_in (clock_map a) (clock_map b)).
Proof.
  apply eq_bool_prop_intro. rewrite bool_decide_spec. unfold after_in, newer_in.
  rewrite Is_true_true, existsb_exists. split.
  - intros (r & Hr & Hlt%Z.ltb_lt). apply list_elem_of_In, list_elem_of_lookup in Hr as [k Hk].
    exists (vr_member_id r), (vr_sequence_number r). split; [|done]. by eapply live_map.
  - intros (id & s & Hm & Hlt). apply clock_map_lookup in Hm; [|done].
    exists (VectorRecord s id). split; [by apply list_elem_of_In|]. by apply Z.ltb_lt.
Qed.

(** The second is newer where it has a newer number, or an originator that
    the first does not have. *)
Lemma newer_second :
  newer_in (clock_map b) (clock_map a) <->
  before_in b (live a) = true \/
  exists k r', live b !! k = Some r' /\ ~ met b (live a) k.
Proof.
  unfold newer_in, before_in. rewrite existsb_exists. split.
  - intros (id & s & Hm & Hlt). pose proof (clock_map_range _ _ _ Hb Hm) as [Hs _].
    destruct (clock_map a !! id) as [s'|] eqn:Ea.
    + left. apply clock_map_lookup in Ea; [|done]. exists (VectorRecord s' id).
      split; [by apply list_elem_of_In|]. unfold known. cbn. rewrite Hm. by apply Z.ltb_lt.
    + right. apply clock_map_lookup in Hm as [k Hk]%list_elem_of_lookup; [|done].
      exists k, (VectorRecord s id). split; [done|]. intros (r & r' & Hr & Hk' & E).
      rewrite Hk in Hk'. injection Hk' as <-. cbn in E.
      apply list_elem_of_lookup in Hr as [j Hj]. rewrite E, (live_map _ _ _ Ha Hj) in Ea. done.
  - intros [(r & Hr & Hlt%Z.ltb_lt)|(k & r' & Hk & Hn)].
    + apply list_elem_of_In, list_elem_of_lookup in Hr as [j Hj].
      pose proof (live_map _ _ _ Ha Hj) as Hma. pose proof (clock_map_range _ _ _ Ha Hma) as [Hs _].
      unfold known in Hlt. destruct (clock_map b !! vr_member_id r) as [s|] eqn:Eb; cbn in Hlt;
        [|unfold is_u32 in Hs; lia].
      exists (vr_member_id r), s. split; [done|]. by rewrite Hma.
    + pose proof (live_map _ _ _ Hb Hk) as Hmb. pose proof (clock_map_range _ _ _ Hb Hmb) as [Hs _].
      exists (vr_member_id r'), (vr_sequence_number r'). split; [done|].
      destruct (clock_map a !! vr_member_id r') as [s|] eqn:Ea; cbn; [|unfold is_u32 in Hs; lia].
      exfalso. apply Hn. apply clock_map_lookup in Ea; [|done].
      by exists (VectorRecord s (vr_member_id r')), r'.
Qed.
End Result.

Section MissingBits.
Context (a b : vector_clock) (Ha : clock_ok a) (Hb : clock_ok b).
Context (vis : Z) (Hv0 : 0 <= vis).
Context (Hv : forall k : nat, Z.testbit vis (Z.of_nat k) = true <-> met b (live a) k).

Definition missing : Z := Z.lxor vis (Z.ones (vc_size b)).

Lemma missing_nonneg : 0 <= missing.
Proof.
  destruct Hb as (_ & Hs & _). unfold missing. apply Z.lxor_nonneg.
  rewrite Z.ones_equiv. pose proof (Z.pow_pos_nonneg 2 (vc_size b)). lia.
Qed.

(** A set bit of the mask is a record of [b] that [a] does not have. *)
Lemma missing_iff (k : nat) :
  Z.testbit missing (Z.of_nat k) = true <->
  exists r', live b !! k = Some r' /\ ~ met b (live a) k.
Proof.
  pose proof Hb as (_ & Hs & _).
  assert (Z.of_nat k < vc_size b <-> (k < length (live b))%nat) as Hk
    by (rewrite length_live by done; lia).
  unfold missing. rewrite missing_bit by lia. specialize (Hv k).
  destruct (Z.ltb_spec (Z.of_nat k) (vc_size b)) as [Hlt|Hge].
  - rewrite xorb_true_r, negb_true_iff, <- not_true_iff_false, Hv.
    destruct (lookup_lt_is_Some_2 (live b) k) as [r' Hr]; [lia|].
    split; [eauto|by intros (? & _ & ?)].
  - rewrite xorb_false_r, Hv. split.
    + intros (r & r' & _ & H & _). apply lookup_lt_Some in H. lia.
    + intros (r' & H & _). apply lookup_lt_Some in H. lia.
Qed.

Lemma missing_nonzero :
  missing <> 0 <-> exists k r', live b !! k = Some r' /\ ~ met b (live a) k.
Proof.
  pose proof missing_nonneg as Hn. split.
  - intros Hne. exists (Z.to_nat (Z.log2 missing)). apply missing_iff.
    pose proof (Z.log2_nonneg missing). rewrite Z2Nat.id by done. apply Z.bit_log2. lia.
  - intros (k & r' & Hk & Hm) E. assert (Z.testbit missing (Z.of_nat k) = true) as Ht.
    { apply missing_iff. eauto. }
    by rewrite E, Z.bits_0 in Ht.
Qed.

(** The result computed from the loop and the mask. *)
Lemma compare_result :
  (if missing =? 0 then comp_of (after_in b (live a)) (before_in b (live a))
   else vector_clock_resolve_comp_result
          (comp_of (after_in b (live a)) (before_in b (live a))) VC_BEFORE)
  = compare_maps (clock_map a) (clock_map b).
Proof.
  unfold compare_maps. rewrite <- (after_in_newer a b Ha).
  pose proof (newer_second a b Ha Hb) as Hn. rewrite <- missing_nonzero in Hn.
  destruct (Z.eqb_spec missing 0) as [E|E].
  - f_equal. apply eq_bool_prop_intro. rewrite bool_decide_spec, Is_true_true. tauto.
  - rewrite resolve_before, bool_decide_true; [done|]. apply Hn. by right.
Qed.
End MissingBits.

(** Without merging the comparison reads both clocks and returns what the
    maps say. *)
Lemma vector_clock_compare_read a b :
  clock_ok a -> clock_ok b ->
  vector_clock_compare a b false = Ok (compare_maps (clock_map a) (clock_map b), a).
Proof.
  intros Ha Hb. pose proof Hb as (_ & Hsb & _). unfold vector_clock_compare.
  destruct (compare_loop_ok a b false Ha Hb) as (vis & -> & Hv0 & Hv). out_step.
  rewrite shl1_ok by config_lia. out_step. rewrite visited_mask by config_lia.
  fold (missing b vis).
  assert (merged_upto a b false (length (live a)) = a) as ->.
  { unfold merged_upto, merged_record. rewrite list_fmap_id, firstn_all.
    rewrite length_live by done. unfold live, ztake. rewrite take_drop. by destruct a. }
  rewrite <- (compare_result a b Ha Hb vis Hv0 Hv). by destruct (missing b vis =? 0).
Qed.

(** * Merging *)

(** The join of two versions: for each originator the newer number. *)
Definition join_maps (a b : gmap Z Z) : gmap Z Z :=
  union_with (fun x y => Some (Z.max x y)) a b.

Lemma clock_size c : clock_ok c -> Z.of_nat (size (clock_map c)) = vc_size c.
Proof.
  intros Hc. pose proof Hc as (_ & Hs & _ & Hnd). unfold clock_map.
  rewrite map_size_list_to_map by by rewrite <- list_fmap_compose.
  rewrite length_fmap, length_live by done. lia.
Qed.

Section Merge.
Context (a b : vector_clock) (Ha : clock_wf a) (Hb : clock_ok b).
(** Everything the two clocks know fits one clock. *)
Context (Hfit : Z.of_nat (size (join_maps (clock_map a) (clock_map b))) <= MAX_VECTOR_SIZE).

Definition looped : vector_clock := merged_upto a b true (length (live a)).
Definition prefix_map (i : nat) : gmap Z Z := list_to_map (rec_pair <$> take i (live b)).

Lemma live_looped : live looped = merged_record b true <$> live a.
Proof.
  destruct Ha as [Hok _]. unfold looped, merged_upto, live at 1, ztake. cbn.
  rewrite firstn_all. rewrite take_app_length'; [done|].
  by rewrite length_fmap, length_live.
Qed.

Lemma looped_map id :
  clock_map looped !! id =
    (fun s => Z.max s (default (-1) (clock_map b !! id))) <$> (clock_map a !! id).
Proof.
  unfold clock_map at 1. rewrite live_looped. unfold clock_map at 2.
  induction (live a) as [|r l IH]; [done|].
  cbn. destruct (decide (vr_member_id r = id)) as [<-|Hne].
  - by rewrite !lookup_insert_eq.
  - by rewrite !lookup_insert_ne.
Qed.

Lemma looped_wf : clock_wf looped.
Proof.
  pose proof Ha as (Hok & Hi & Hci). pose proof Hok as (Hl & Hs & Hf & Hnd).
  unfold clock_wf, clock_ok, clock_ids. rewrite live_looped.
  split_and!; try done; try (cbn; lia).
  - unfold looped, merged_upto. cbn. unfold zlen in *.
    rewrite length_app, length_fmap, length_take, length_drop, length_live by done. lia.
  - apply Forall_fmap. apply Forall_forall. intros r Hr. rewrite Forall_forall in Hf.
    destruct (Hf r Hr) as [Hsr Hid]. split; [|done]. cbn. unfold known, is_u32 in *.
    destruct (clock_map b !! vr_member_id r) as [s|] eqn:E; cbn; [|lia].
    apply (clock_map_range _ _ _ Hb) in E as [E _]. unfold is_u32 in E. lia.
  - rewrite <- list_fmap_compose. by rewrite (list_fmap_ext _ vr_member_id).
Qed.

Lemma join_looped : join_maps (clock_map a) (clock_map b) = clock_map looped ∪ clock_map b.
Proof.
  apply map_eq. intros id. unfold join_maps. rewrite lookup_union_with, lookup_union, looped_map.
  destruct (clock_map a !! id) as [s|] eqn:Ea, (clock_map b !! id) as [s'|] eqn:Eb; cbn; try done.
  f_equal. destruct Ha as [Hok _]. apply (clock_map_range _ _ _ Hok) in Ea as [Hs _].
  unfold is_u32 in Hs. lia.
Qed.

Lemma prefix_map_step i r :
  live b !! i = Some r ->
  prefix_map (S i) = <[vr_member_id r := vr_sequence_number r]> (prefix_map i) /\
  prefix_map i !! vr_member_id r = None.
Proof.
  intros Hi. assert (prefix_map i !! vr_member_id r = None) as Hn.
  { apply not_elem_of_list_to_map. intros (x & E & Hx)%list_elem_of_fmap.
    apply list_elem_of_fmap in Hx as (r' & -> & Hr'). apply list_elem_of_lookup in Hr' as [j Hj].
    apply lookup_take_Some in Hj as [Hj Hlt]. cbn in E.
    pose proof (live_id_inj b i j r r' Hb Hi Hj E). lia. }
  split; [|done]. unfold prefix_map. rewrite (take_S_r _ _ _ Hi), fmap_app, list_to_map_app.
  apply map_eq. intros id. rewrite lookup_union.
  destruct (decide (id = vr_member_id r)) as [->|Hne].
  - fold (prefix_map i). rewrite Hn, lookup_insert_eq. cbn. by rewrite lookup_insert_eq.
  - rewrite lookup_insert_ne by done. cbn. rewrite lookup_insert_ne, lookup_empty by done.
    by destruct (list_to_map _ !! id).
Qed.

Lemma prefix_map_sub i : prefix_map i ⊆ clock_map b.
Proof.
  apply map_subseteq_spec. intros id s Hm. pose proof Hb as (_ & _ & _ & Hnd).
  apply clock_map_lookup; [done|]. apply rec_map_lookup in Hm.
  - apply list_elem_of_lookup in Hm as [j [Hj _]%lookup_take_Some].
    by eapply list_elem_of_lookup_2.
  - rewrite fmap_take. eapply sublist_NoDup; [exact Hnd|apply sublist_take].
Qed.

(** A step of the merge loop on a missing record appends it. *)
Lemma merge_append f i r :
  clock_wf f -> clock_map f = clock_map looped ∪ prefix_map i ->
  live b !! i = Some r -> clock_map a !! vr_member_id r = None ->
  exists k f', vector_clock_set_by_id f (vr_member_id r) (vr_sequence_number r) = Ok (k, f') /\
    clock_wf f' /\ clock_map f' = clock_map looped ∪ prefix_map (S i).
Proof.
  intros Hf Hm Hi Hna. destruct (prefix_map_step _ _ Hi) as [Hstep Hnp].
  pose proof (live_map _ _ _ Hb Hi) as Hmb. pose proof (clock_map_range _ _ _ Hb Hmb) as [Hs Hid].
  destruct (vector_clock_set_by_id_spec f _ _ Hf Hid Hs) as (k & f' & -> & Hf' & Hm' & _).
  exists (Z.of_nat k), f'. split; [done|]. split; [done|].
  assert (clock_map f !! vr_member_id r = None) as Hnf.
  { rewrite Hm, lookup_union, Hnp, looped_map, Hna. done. }
  rewrite Hm', Hstep. rewrite <- insert_union_r by by rewrite looped_map, Hna. rewrite <- Hm.
  unfold evicted. rewrite Hnf. destruct Hf as [Hfok _].
  replace (vc_size f <? MAX_VECTOR_SIZE) with true; [done|]. symmetry. apply Z.ltb_lt.
  rewrite <- (clock_size f Hfok). rewrite join_looped in Hfit.
  assert (size (clock_map f) < size (clock_map looped ∪ clock_map b))%nat; [|lia].
  apply map_subset_size. split.
  - rewrite Hm. apply map_union_mono_l, prefix_map_sub.
  - intros Hsub. apply (map_subseteq_spec _ _) with (i := vr_member_id r) (x := vr_sequence_number r) in Hsub.
    + by rewrite Hnf in Hsub.
    + apply lookup_union_Some_raw. right. rewrite looped_map, Hna. done.
Qed.

Context (vis : Z) (Hv0 : 0 <= vis).
Context (Hv : forall k : nat, Z.testbit vis (Z.of_nat k) = true <-> met b (live a) k).

Lemma met_known k r :
  live b !! k = Some r -> met b (live a) k <-> is_Some (clock_map looped !! vr_member_id r).
Proof.
  intros Hk. destruct Ha as [Hok _]. rewrite looped_map, fmap_is_Some. split.
  - intros (x & r' & Hx & Hk' & E). rewrite Hk in Hk'. injection Hk' as <-. rewrite E.
    apply list_elem_of_lookup in Hx as [j Hj]. rewrite (live_map _ _ _ Hok Hj). eauto.
  - intros [s Hs]. apply clock_map_lookup in Hs; [|done].
    by exists (VectorRecord s (vr_member_id r)), r.
Qed.

(** A record that [a] has adds nothing. *)
Lemma prefix_step_met i :
  Z.testbit (missing b vis) (Z.of_nat i) = false ->
  clock_map looped ∪ prefix_map (S i) = clock_map looped ∪ prefix_map i.
Proof.
  intros Ht. destruct (live b !! i) as [r|] eqn:Hi.
  - destruct (prefix_map_step _ _ Hi) as [-> Hn].
    destruct (clock_map looped !! vr_member_id r) as [s|] eqn:E.
    + apply map_eq. intros id. rewrite !lookup_union.
      destruct (decide (id = vr_member_id r)) as [->|Hne].
      * by rewrite lookup_insert_eq, Hn, E.
      * by rewrite lookup_insert_ne.
    + exfalso. apply not_true_iff_false in Ht. apply Ht.
      apply (missing_iff a b Hb vis Hv). exists r. split; [done|].
      rewrite (met_known _ _ Hi), E. by intros [? ?].
  - apply lookup_ge_None in Hi. unfold prefix_map. by rewrite !take_ge by lia.
Qed.

Lemma prefix_all i :
  (forall k : nat, (i <= k)%nat -> Z.testbit (missing b vis) (Z.of_nat k) = false) ->
  clock_map looped ∪ prefix_map i = clock_map looped ∪ clock_map b.
Proof.
  intros Ht. assert (forall n, clock_map looped ∪ prefix_map i
                               = clock_map looped ∪ prefix_map (i + n)) as Hn.
  { induction n as [|n IH]; [by rewrite Nat.add_0_r|].
    rewrite Nat.add_succ_r, prefix_step_met; [done|]. apply Ht. lia. }
  rewrite (Hn (length (live b))). unfold prefix_map. by rewrite take_ge by lia.
Qed.

Lemma low_bit m : negb (Z.land m 1 =? 0) = Z.testbit m 0.
Proof.
  rewrite Z.bit0_odd. change 1 with (Z.ones 1). rewrite Z.land_ones by done.
  change (2 ^ 1) with 2. rewrite Zmod_odd. by destruct (Z.odd m).
Qed.

Lemma merge_missing_ok fuel i f :
  (32 <= fuel + i)%nat -> clock_wf f -> clock_map f = clock_map looped ∪ prefix_map i ->
  exists f', merge_missing fuel f b (Z.of_nat i) (Z.shiftr (missing b vis) (Z.of_nat i)) = Ok f' /\
    clock_wf f' /\ clock_map f' = clock_map looped ∪ clock_map b.
Proof.
  revert i f. induction fuel as [|fuel IH]; intros i f Hfi Hf Hm; cbn [merge_missing];
    (destruct (Z.eqb_spec (Z.shiftr (missing b vis) (Z.of_nat i)) 0) as [E|E];
     [exists f; split; [done|]; split; [done|]; rewrite Hm; apply prefix_all; intros k Hk;
      replace (Z.of_nat k) with (Z.of_nat (k - i) + Z.of_nat i) by lia;
      rewrite <- Z.shiftr_spec, E by lia; apply Z.bits_0|]).
  - exfalso. apply E. apply bits_zero; [apply Z.shiftr_nonneg, missing_nonneg; done|].
    intros k Hk. rewrite Z.shiftr_spec by done. rewrite <- (Z2Nat.id k), <- Nat2Z.inj_add by done.
    apply not_true_iff_false. rewrite (missing_iff a b Hb vis Hv).
    intros (r & Hr & _). apply lookup_lt_Some in Hr. rewrite length_live in Hr by done.
    destruct Hb as (_ & ? & _). config_lia.
  - rewrite low_bit, Z.shiftr_spec, Z.add_0_l by done.
    rewrite Z.shiftr_shiftr by lia. replace (Z.of_nat i + 1) with (Z.of_nat (S i)) by lia.
    destruct (Z.testbit (missing b vis) (Z.of_nat i)) eqn:Ht.
    + pose proof Ht as (r & Hr & Hn)%(missing_iff a b Hb vis Hv).
      rewrite (aread_Ok _ _ r) by by apply live_lookup. out_step.
      destruct (merge_append f i r Hf Hm Hr) as (k & f' & -> & Hf' & Hm').
      { rewrite (met_known _ _ Hr), looped_map, fmap_is_Some in Hn. by apply eq_None_not_Some. }
      out_step. apply IH; [lia|done|done].
    + out_step. apply IH; [lia|done|]. by rewrite prefix_step_met.
Qed.
End Merge.

(** Merging: the result of the comparison, and the join in the first clock. *)
Lemma vector_clock_compare_merge a b :
  clock_wf a -> clock_ok b ->
  Z.of_nat (size (join_maps (clock_map a) (clock_map b))) <= MAX_VECTOR_SIZE ->
  exists c, vector_clock_compare a b true
              = Ok (compare_maps (clock_map a) (clock_map b), c) /\
    clock_wf c /\ clock_map c = join_maps (clock_map a) (clock_map b).
Proof.
  intros Ha Hb Hfit. pose proof Ha as [Hok _]. pose proof Hb as (_ & Hsb & _).
  unfold vector_clock_compare.
  destruct (compare_loop_ok a b true Hok Hb) as (vis & -> & Hv0 & Hv). out_step.
  rewrite shl1_ok by config_lia. out_step. rewrite visited_mask by config_lia.
  fold (missing b vis). fold (looped a b).
  rewrite <- (compare_result a b Hok Hb vis Hv0 Hv). rewrite (join_looped a b Ha).
  destruct (merge_missing_ok a b Ha Hb Hfit vis Hv0 Hv merge_fuel 0 (looped a b))
    as (c & Ec & Hc & Hm); [done|by apply looped_wf|by symmetry; apply (right_id_L ∅ (∪))|].
  change (Z.of_nat 0) with 0 in Ec. rewrite Z.shiftr_0_r in Ec.
  destruct (Z.eqb_spec (missing b vis) 0) as [E|E].
  - exists (looped a b). split; [done|]. split; [by apply looped_wf|].
    unfold merge_fuel in Ec. rewrite E in Ec. injection Ec as <-. exact Hm.
  - rewrite Ec. out_step. by exists c.
Qed.

(** * Eviction *)

(** A clock gives up a record only when it knows too many originators. *)
Lemma not_evicted c id (ids : gset Z) :
  clock_wf c -> dom (clock_map c) ⊆ ids -> id ∈ ids -> Z.of_nat (size ids) <= MAX_VECTOR_SIZE ->
  evicted c id = clock_map c.
Proof.
  intros (Hc & _) Hdom Hid Hsz. unfold evicted. destruct (clock_map c !! id) eqn:E; [done|].
  destruct (Z.ltb_spec (vc_size c) MAX_VECTOR_SIZE) as [?|Hfull]; [done|]. exfalso.
  apply not_elem_of_dom in E.
  assert ({[id]} ∪ dom (clock_map c) ⊆ ids) as Hsub by set_solver.
  apply subseteq_size in Hsub. rewrite size_union, size_singleton, size_dom in Hsub by set_solver.
  pose proof (clock_size c Hc). lia.
Qed.
