(* ===== verification/QueueFacts.v ===== *)
(** The doubly linked queue as a list: a representation predicate, and each
    pointer operation as the list operation it implements. *)
From S2P Require Import Prelude.
From S2P Require Import Config.
From S2P Require Import Utils.
From S2P Require Import World.
From S2P Require Import Queue.

(** * Representation *)

(** An envelope with the given links. *)
Definition link (p n : option loc) (e : message_envelope_out) : message_envelope_out :=
  set_prev p (set_next n e).

Abbreviation entry := (loc * message_envelope_out)%type.

(** The locations before and after position [i]. *)
Definition prev_loc (xs : list entry) (i : nat) : option loc :=
  match i with O => None | S j => fst <$> xs !! j end.
Definition next_loc (xs : list entry) (i : nat) : option loc := fst <$> xs !! S i.

(** [xs] lists the envelopes from head to tail: the links agree, and the
    heap holds no other envelope (nothing is leaked). *)
Record queue_repr (q : message_queue) (xs : list entry) : Prop := QueueRepr {
  qr_head : q_head q = fst <$> head xs;
  qr_tail : q_tail q = fst <$> last xs;
  qr_nodup : NoDup xs.*1;
  qr_cells : forall i l x, xs !! i = Some (l, x) ->
    q_heap q !! l = Some (link (prev_loc xs i) (next_loc xs i) x);
  qr_only : forall l e, q_heap q !! l = Some e -> l ∈ xs.*1
}.

Lemma link_link p n p' n' x : link p n (link p' n' x) = link p n x.
Proof. done. Qed.
Lemma set_prev_link p n p' x : set_prev p (link p' n x) = link p n x.
Proof. done. Qed.
Lemma set_next_link p n n' x : set_next n (link p n' x) = link p n x.
Proof. done. Qed.

(** A function on envelopes that does not look at the links. *)
Definition keeps_links (f : message_envelope_out -> message_envelope_out) : Prop :=
  forall p n x, f (link p n x) = link p n (f x).

Lemma set_attempt_keeps_links ts num : keeps_links (set_attempt ts num).
Proof. done. Qed.

Lemma empty_repr : queue_repr (MessageQueue ∅ None None) [].
Proof. split; try done. constructor. Qed.

(** * Positions *)

Lemma loc_inj (xs : list entry) i j l x y :
  NoDup xs.*1 -> xs !! i = Some (l, x) -> xs !! j = Some (l, y) -> i = j.
Proof.
  intros Hnd Hi Hj. rewrite NoDup_alt in Hnd.
  apply (Hnd i j l); by rewrite list_lookup_fmap, ?Hi, ?Hj.
Qed.

Lemma entry_locs (xs : list entry) i l x : xs !! i = Some (l, x) -> l ∈ xs.*1.
Proof.
  intros H. apply list_elem_of_fmap. exists (l, x). split; [done|].
  by eapply list_elem_of_lookup_2.
Qed.

Section Repr.
Context (q : message_queue) (xs : list entry) (Hq : queue_repr q xs).

Lemma repr_deref i l x :
  xs !! i = Some (l, x) -> deref q l = Ok (link (prev_loc xs i) (next_loc xs i) x).
Proof. intros Hi. unfold deref. by rewrite (qr_cells _ _ Hq _ _ _ Hi). Qed.

Lemma repr_head_some i l x : xs !! i = Some (l, x) -> exists h, q_head q = Some h.
Proof.
  intros Hi. rewrite (qr_head _ _ Hq). destruct xs as [|[h y] ys]; [done|by exists h].
Qed.

Lemma repr_nil : q_head q = None -> xs = [].
Proof. rewrite (qr_head _ _ Hq). by destruct xs as [|[h y] ys]. Qed.

Lemma repr_size : size (q_heap q) = length xs.
Proof.
  rewrite <- size_dom. rewrite <- (length_fmap fst xs).
  rewrite <- (size_list_to_set (C := gset loc)) by apply (qr_nodup _ _ Hq).
  f_equal. apply set_eq. intros l. rewrite elem_of_dom, elem_of_list_to_set. split.
  - intros [e He]. by apply (qr_only _ _ Hq _ _ He).
  - intros ([l' x] & -> & [i Hi]%list_elem_of_lookup)%list_elem_of_fmap.
    cbn. rewrite (qr_cells _ _ Hq _ _ _ Hi). eauto.
Qed.

Lemma repr_fresh l : q_heap q !! l = None -> l ∉ xs.*1.
Proof.
  intros Hl ([l' x] & -> & [i Hi]%list_elem_of_lookup)%list_elem_of_fmap. cbn in Hl.
  by rewrite (qr_cells _ _ Hq _ _ _ Hi) in Hl.
Qed.

(** Updating the contents of an envelope. *)
Lemma update_repr i l x f :
  keeps_links f -> xs !! i = Some (l, x) ->
  exists q', update q l f = Ok q' /\ queue_repr q' (<[i := (l, f x)]> xs) /\
    q_head q' = q_head q.
Proof.
  intros Hf Hi. unfold update. rewrite (repr_deref _ _ _ Hi). out_step.
  eexists. split; [done|]. split; [|done]. rewrite Hf.
  assert (Hlocs : (<[i:=(l, f x)]> xs).*1 = xs.*1).
  { rewrite list_fmap_insert. apply list_insert_id. by rewrite list_lookup_fmap, Hi. }
  assert (Hat : forall j, fst <$> (<[i:=(l, f x)]> xs) !! j = fst <$> xs !! j).
  { intros j. by rewrite <- !list_lookup_fmap, Hlocs. }
  assert (Hp : forall j, prev_loc (<[i:=(l, f x)]> xs) j = prev_loc xs j)
    by (intros [|j]; cbn; done).
  assert (Hn : forall j, next_loc (<[i:=(l, f x)]> xs) j = next_loc xs j)
    by (intros j; apply Hat).
  split; cbn.
  - rewrite (qr_head _ _ Hq), !head_lookup. symmetry. apply Hat.
  - rewrite (qr_tail _ _ Hq), !last_lookup, length_insert. symmetry. apply Hat.
  - rewrite Hlocs. apply (qr_nodup _ _ Hq).
  - intros j l' x' Hj. rewrite Hp, Hn. rewrite list_lookup_insert in Hj. case_decide as Hd.
    + destruct Hd as [<- _]. injection Hj as <- <-. by rewrite lookup_insert_eq.
    + rewrite lookup_insert_ne.
      * by apply (qr_cells _ _ Hq).
      * intros <-. apply Hd. pose proof (loc_inj _ _ _ _ _ _ (qr_nodup _ _ Hq) Hi Hj).
        split; [done|]. by eapply lookup_lt_Some.
  - intros l' e He. rewrite Hlocs. destruct (decide (l' = l)) as [->|Hne].
    + by eapply entry_locs.
    + rewrite lookup_insert_ne in He by done. by apply (qr_only _ _ Hq _ _ He).
Qed.
End Repr.

(** * Enqueue *)

(** The queue with a new envelope allocated and not yet linked. *)
Definition alloc_envelope (q : message_queue) (l : loc) (e : message_envelope_out) : message_queue :=
  MessageQueue (<[l := e]> (q_heap q)) (q_head q) (q_tail q).

Lemma last_snoc_loc (xs : list entry) l x : fst <$> last (xs ++ [(l, x)]) = Some l.
Proof. by rewrite last_snoc. Qed.

Lemma prev_loc_snoc (xs : list entry) y i :
  (i <= length xs)%nat -> prev_loc (xs ++ [y]) i = prev_loc xs i.
Proof. destruct i as [|i]; intros Hi; [done|]. cbn. by rewrite lookup_app_l by lia. Qed.

Lemma next_loc_snoc (xs : list entry) l x i :
  (i < length xs)%nat ->
  next_loc (xs ++ [(l, x)]) i = if bool_decide (S i = length xs) then Some l else next_loc xs i.
Proof.
  intros Hi. unfold next_loc. case_bool_decide as E.
  - by rewrite E, list_lookup_middle.
  - by rewrite lookup_app_l by lia.
Qed.

Lemma last_entry (xs : list entry) t : fst <$> last xs = Some t ->
  exists x, xs !! pred (length xs) = Some (t, x) /\ (0 < length xs)%nat.
Proof.
  rewrite last_lookup. intros ([t' x] & Hx & ->)%fmap_Some. exists x. split; [done|].
  apply lookup_lt_Some in Hx. lia.
Qed.

Lemma singleton_repr (h : gmap loc message_envelope_out) l x :
  (forall l', l' <> l -> <[l := link None None x]> h !! l' = None) ->
  queue_repr (MessageQueue (<[l := link None None x]> h) (Some l) (Some l)) [(l, x)].
Proof.
  intros Ho. split; cbn; try done.
  - apply NoDup_singleton.
  - intros i l' x' Hi. apply list_lookup_singleton_Some in Hi as [-> [= <- <-]].
    by rewrite lookup_insert_eq.
  - intros l' e He. apply list_elem_of_singleton.
    destruct (decide (l' = l)) as [->|Hne]; [done|]. by rewrite (Ho l' Hne) in He.
Qed.

Section EnqueueRemove.
Context (q : message_queue) (xs : list entry) (Hq : queue_repr q xs).

(** Enqueueing appends. *)
Lemma enqueue_repr l x :
  q_heap q !! l = None -> en_prev x = None ->
  exists q', gossip_envelope_enqueue (alloc_envelope q l x) l = Ok q' /\
    queue_repr q' (xs ++ [(l, x)]).
Proof.
  intros Hl Hx. pose proof (repr_fresh q xs Hq l Hl) as Hni.
  assert (NoDup (xs ++ [(l, x)]).*1) as Hnd.
  { rewrite fmap_app. apply NoDup_app. split_and!; [apply (qr_nodup _ _ Hq)| |apply NoDup_singleton].
    intros y Hy ->%list_elem_of_singleton. done. }
  assert (link None None x = set_next None x) as Hlx by (unfold link, set_prev; by rewrite <- Hx).
  unfold gossip_envelope_enqueue, update, deref, alloc_envelope. cbn [q_heap].
  rewrite lookup_insert_eq. out_step. rewrite insert_insert_eq.
  cbn [q_head q_tail]. rewrite (qr_head _ _ Hq), (qr_tail _ _ Hq).
  destruct (fst <$> last xs) as [t|] eqn:Ht.
  - apply last_entry in Ht as (y & Hy & Hlen).
    destruct (head xs) as [[h hx]|] eqn:Hh; [|by apply head_None in Hh as ->].
    change (fst <$> Some (h, hx)) with (Some h). cbn iota. cbn [q_heap].
    rewrite lookup_insert_eq. out_step.
    cbn [q_heap]. rewrite insert_insert_eq.
    assert (t <> l) as Htl by (intros ->; apply Hni; by eapply entry_locs).
    rewrite lookup_insert_ne by done. rewrite (qr_cells _ _ Hq _ _ _ Hy). out_step.
    eexists. split; [done|]. split; cbn.
    + rewrite head_lookup, lookup_app_l by done. by rewrite <- head_lookup, Hh.
    + symmetry. apply last_snoc_loc.
    + done.
    + intros i l' x' [Hi|[Hge Hi]]%lookup_app_Some.
      * assert (i < length xs)%nat as Hlt by by eapply lookup_lt_Some.
        rewrite prev_loc_snoc, next_loc_snoc by lia.
        assert (l' <> l) as Hne by (intros ->; apply Hni; by eapply entry_locs).
        case_bool_decide as E.
        -- assert (i = pred (length xs)) as -> by lia. rewrite Hy in Hi. injection Hi as <- <-.
           rewrite lookup_insert_eq. by rewrite set_next_link.
        -- rewrite lookup_insert_ne, lookup_insert_ne by
             (try done; intros <-; pose proof (loc_inj _ _ _ _ _ _ (qr_nodup _ _ Hq) Hi Hy); lia).
           by apply (qr_cells _ _ Hq).
      * apply list_lookup_singleton_Some in Hi as [? [= <- <-]].
        assert (i = length xs) as -> by lia. rewrite lookup_insert_ne, lookup_insert_eq by done.
        unfold next_loc. rewrite (lookup_ge_None_2 (xs ++ _)) by (rewrite length_app; cbn; lia).
        destruct (length xs) as [|n] eqn:El; [lia|]. cbn in Hy. cbn.
        rewrite lookup_app_l by lia. by rewrite Hy.
    + intros l' e He. rewrite fmap_app. change ([(l, x)].*1) with [l].
      rewrite elem_of_app, list_elem_of_singleton.
      destruct (decide (l' = l)) as [->|Hne]; [by right|left].
      destruct (decide (l' = t)) as [->|Hne']; [by eapply entry_locs|].
      rewrite !lookup_insert_ne in He by done. by apply (qr_only _ _ Hq _ _ He).
  - assert (xs = []) as -> by by apply fmap_None, last_None in Ht.
    out_step. eexists. split; [done|]. rewrite <- Hlx.
    apply singleton_repr. intros l' Hne. rewrite lookup_insert_ne by done.
    destruct (q_heap q !! l') as [e|] eqn:He; [|done]. by apply (qr_only _ _ Hq) in He as ?%not_elem_of_nil.
Qed.

(** * Removal *)

(** The position in the list of entry [i] of the list without [k]. *)
Definition skip (k i : nat) : nat := if bool_decide (i < k)%nat then i else S i.

Lemma lookup_skip k i : delete k xs !! i = xs !! skip k i.
Proof.
  unfold skip. case_bool_decide.
  - by apply list_lookup_delete_lt.
  - apply list_lookup_delete_ge. lia.
Qed.

Lemma prev_loc_skip k i :
  prev_loc (delete k xs) i = if bool_decide (i = k) then prev_loc xs k
                             else prev_loc xs (skip k i).
Proof.
  case_bool_decide as E.
  - subst i. destruct k as [|k]; [done|]. cbn. by rewrite list_lookup_delete_lt by lia.
  - unfold skip. destruct i as [|i]; case_bool_decide; cbn; try done; try lia.
    + by rewrite list_lookup_delete_lt by lia.
    + by rewrite list_lookup_delete_ge by lia.
Qed.

Lemma next_loc_skip k i :
  next_loc (delete k xs) i = if bool_decide (S i = k) then next_loc xs k
                             else next_loc xs (skip k i).
Proof.
  unfold next_loc. rewrite lookup_skip. unfold skip.
  repeat case_bool_decide; subst; try done; try lia. 
Qed.

Lemma skip_ne k i : skip k i <> k.
Proof. unfold skip. case_bool_decide; lia. Qed.

(** The queue after the two link updates of a removal: [h] is the heap
    with the neighbours of [k] joined. *)
Lemma joined_repr k l x (h : gmap loc message_envelope_out) hd tl :
  xs !! k = Some (l, x) ->
  (forall i l' y, xs !! i = Some (l', y) -> i <> k ->
     h !! l' = Some (link (if bool_decide (i = S k) then prev_loc xs k else prev_loc xs i)
                          (if bool_decide (S i = k) then next_loc xs k else next_loc xs i) y)) ->
  (forall l' e, h !! l' = Some e -> l' ∈ xs.*1) ->
  hd = fst <$> head (delete k xs) -> tl = fst <$> last (delete k xs) ->
  queue_repr (MessageQueue (delete l h) hd tl) (delete k xs).
Proof.
  intros Hk Hh Ho -> ->. pose proof (qr_nodup _ _ Hq) as Hnd. split; cbn; try done.
  - eapply sublist_NoDup; [exact Hnd|]. apply fmap_sublist, sublist_delete.
  - intros i l' y Hi. rewrite lookup_skip in Hi.
    rewrite lookup_delete_ne by
      (intros <-; exact (skip_ne _ _ (loc_inj _ _ _ _ _ _ Hnd Hi Hk))).
    rewrite (Hh _ _ _ Hi (skip_ne k i)), prev_loc_skip, next_loc_skip. unfold skip.
    f_equal. f_equal; repeat case_bool_decide; try done; lia.
  - intros l' e [Hne He]%lookup_delete_Some. apply Ho in He.
    apply list_elem_of_fmap in He as ([l2 y] & -> & [j Hj]%list_elem_of_lookup).
    cbn in *. assert (j <> k) as Hjk by (intros ->; rewrite Hk in Hj; by injection Hj as -> ->).
    apply list_elem_of_fmap. exists (l2, y). split; [done|].
    apply list_elem_of_lookup. exists (if bool_decide (j < k)%nat then j else pred j).
    rewrite lookup_skip. unfold skip. rewrite <- Hj. f_equal.
    repeat case_bool_decide; lia.
Qed.

Lemma next_loc_some k n : next_loc xs k = Some n -> exists y, xs !! S k = Some (n, y).
Proof. intros ([n' y] & Hy & ->)%fmap_Some. by exists y. Qed.

Lemma prev_loc_some k p :
  prev_loc xs k = Some p -> exists m y, k = S m /\ xs !! m = Some (p, y).
Proof.
  destruct k as [|m]; [done|]. intros ([p' y] & Hy & ->)%fmap_Some. by exists m, y.
Qed.

Lemma head_delete k l x :
  xs !! k = Some (l, x) ->
  fst <$> head (delete k xs) = if bool_decide (k = 0)%nat then next_loc xs k else q_head q.
Proof.
  intros Hk. rewrite (qr_head _ _ Hq), !head_lookup, lookup_skip. unfold skip.
  case_bool_decide; case_bool_decide; subst; try done; lia.
Qed.

Lemma last_delete k l x :
  xs !! k = Some (l, x) ->
  fst <$> last (delete k xs) =
    match next_loc xs k with None => prev_loc xs k | Some _ => q_tail q end.
Proof.
  intros Hk. assert (k < length xs)%nat as Hlt by by eapply lookup_lt_Some.
  rewrite (qr_tail _ _ Hq), !last_lookup, lookup_skip, length_delete by eauto.
  unfold skip. destruct (next_loc xs k) as [n|] eqn:En.
  - apply next_loc_some in En as [y Hy]. apply lookup_lt_Some in Hy.
    rewrite bool_decide_false by lia. do 2 f_equal. lia.
  - apply fmap_None, lookup_ge_None in En. destruct k as [|m].
    + rewrite bool_decide_false by lia. by rewrite lookup_ge_None_2 by lia.
    + rewrite bool_decide_true by lia. cbn [prev_loc]. do 2 f_equal. lia.
Qed.

(** The heap after the link updates of a removal. *)
Definition join_next (k : nat) (h : gmap loc message_envelope_out) :=
  match next_loc xs k with
  | Some n => match h !! n with
              | Some e => <[n := set_prev (prev_loc xs k) e]> h
              | None => h
              end
  | None => h
  end.
Definition join_prev (k : nat) (h : gmap loc message_envelope_out) :=
  match prev_loc xs k with
  | Some p => match h !! p with
              | Some e => <[p := set_next (next_loc xs k) e]> h
              | None => h
              end
  | None => h
  end.

Lemma join_next_lookup k i l' y :
  xs !! i = Some (l', y) ->
  join_next k (q_heap q) !! l' =
    Some (link (if bool_decide (i = S k) then prev_loc xs k else prev_loc xs i)
               (next_loc xs i) y).
Proof.
  intros Hi. pose proof (qr_cells _ _ Hq _ _ _ Hi) as Hc. unfold join_next.
  destruct (next_loc xs k) as [n|] eqn:En.
  - pose proof En as [ny Hn]%next_loc_some. rewrite (qr_cells _ _ Hq _ _ _ Hn).
    destruct (decide (l' = n)) as [->|Hne].
    + pose proof (loc_inj _ _ _ _ _ _ (qr_nodup _ _ Hq) Hi Hn) as ->.
      rewrite Hi in Hn. injection Hn as <-. rewrite lookup_insert_eq.
      by rewrite bool_decide_true, set_prev_link.
    + rewrite lookup_insert_ne by done. rewrite bool_decide_false; [done|].
      intros ->. rewrite Hn in Hi. congruence.
  - rewrite bool_decide_false; [done|]. intros ->. unfold next_loc in En. by rewrite Hi in En.
Qed.

Lemma join_both_lookup k i l' y :
  xs !! i = Some (l', y) ->
  join_prev k (join_next k (q_heap q)) !! l' =
    Some (link (if bool_decide (i = S k) then prev_loc xs k else prev_loc xs i)
               (if bool_decide (S i = k) then next_loc xs k else next_loc xs i) y).
Proof.
  intros Hi. pose proof (join_next_lookup k _ _ _ Hi) as Hc. unfold join_prev.
  destruct (prev_loc xs k) as [p|] eqn:Ep.
  - pose proof Ep as (m & py & -> & Hp)%prev_loc_some.
    rewrite (join_next_lookup (S m) _ _ _ Hp).
    destruct (decide (l' = p)) as [->|Hne].
    + pose proof (loc_inj _ _ _ _ _ _ (qr_nodup _ _ Hq) Hi Hp) as ->.
      rewrite Hi in Hp. injection Hp as <-. rewrite lookup_insert_eq.
      rewrite (bool_decide_true (S m = S m)) by done.
      by rewrite !bool_decide_false by lia.
    + rewrite lookup_insert_ne by done. rewrite (bool_decide_false (S i = S m)); [done|].
      intros [= ->]. rewrite Hp in Hi. congruence.
  - rewrite (bool_decide_false (S i = k)); [done|]. intros <-. cbn in Ep. by rewrite Hi in Ep.
Qed.

Lemma join_none k h l' :
  h !! l' = None -> join_next k h !! l' = None /\ join_prev k h !! l' = None.
Proof.
  intros Hl. unfold join_next, join_prev.
  split; case_match; try done; case_match; try done;
    (rewrite lookup_insert_ne; [done|congruence]).
Qed.

(** Removing an envelope frees it and deletes its entry. *)
Lemma remove_repr k l x :
  xs !! k = Some (l, x) ->
  exists q', gossip_envelope_remove q l = Ok q' /\ queue_repr q' (delete k xs).
Proof.
  intros Hk. pose proof (fun hd tl =>
    joined_repr k l x (join_prev k (join_next k (q_heap q))) hd tl Hk) as Hr.
  unfold gossip_envelope_remove. rewrite (repr_deref q xs Hq _ _ _ Hk). out_step.
  cbn [en_prev en_next link set_prev set_next].
  set (q1 := MessageQueue (join_next k (q_heap q)) (q_head q)
               match next_loc xs k with Some _ => q_tail q | None => prev_loc xs k end).
  replace (match next_loc xs k with Some n => _ | None => _ end) with (Ok q1).
  2:{ subst q1. unfold join_next, update, deref. destruct (next_loc xs k) as [n|] eqn:En; [|done].
      apply next_loc_some in En as [y Hy]. by rewrite (qr_cells _ _ Hq _ _ _ Hy). }
  out_step.
  set (q2 := MessageQueue (join_prev k (join_next k (q_heap q)))
               match prev_loc xs k with Some _ => q_head q | None => next_loc xs k end
               (q_tail q1)).
  replace (match prev_loc xs k with Some p => _ | None => _ end) with (Ok q2).
  2:{ subst q2 q1. unfold join_prev, update, deref. cbn [q_heap q_tail q_head].
      destruct (prev_loc xs k) as [p|] eqn:Ep; [|done].
      pose proof Ep as (m & y & -> & Hy)%prev_loc_some.
      by rewrite (join_next_lookup (S m) _ _ _ Hy). }
  out_step. unfold gossip_envelope_destroy, deref. cbn [q_heap].
  pose proof (join_both_lookup k _ _ _ Hk) as Hl. subst q2 q1. cbn [q_heap q_head q_tail].
  rewrite Hl. out_step. eexists. split; [done|]. apply Hr.
  - intros i l' y Hi _. by apply join_both_lookup.
  - intros l' e He. apply (qr_only _ _ Hq l' (default e (q_heap q !! l'))).
    destruct (q_heap q !! l') eqn:E; [done|].
    apply (join_none k) in E as [E _]. apply (join_none k) in E as [_ E]. congruence.
  - rewrite (head_delete _ _ _ Hk). destruct (prev_loc xs k) as [p|] eqn:Ep.
    + apply prev_loc_some in Ep as (m & ? & -> & _). by rewrite bool_decide_false by lia.
    + rewrite bool_decide_true; [done|]. destruct k as [|m]; [done|].
      apply fmap_None, lookup_ge_None in Ep. apply lookup_lt_Some in Hk. lia.
  - rewrite (last_delete _ _ _ Hk). by destruct (next_loc xs k).
Qed.
End EnqueueRemove.

(** * Search and clearing *)

(** The location of the first envelope with the given sequence number. *)
Definition find_seq (n : Z) (xs : list entry) : option loc :=
  (fun r => fst (snd r)) <$> list_find (fun e => en_sequence_num (snd e) = n) xs.

Section Walk.
Context (q : message_queue) (xs : list entry) (Hq : queue_repr q xs).

Lemma next_loc_suffix pre l x ys :
  xs = pre ++ (l, x) :: ys ->
  q_heap q !! l = Some (link (prev_loc xs (length pre)) (fst <$> head ys) x).
Proof.
  intros E. rewrite (qr_cells _ _ Hq (length pre) l x) by (subst; by rewrite list_lookup_middle).
  do 3 f_equal. unfold next_loc. subst xs. rewrite cons_middle, app_assoc, lookup_app_r
    by (rewrite length_app; cbn; lia).
  rewrite length_app. cbn [length]. replace (_ - _)%nat with O by lia. by destruct ys.
Qed.

Lemma deref_suffix pre l x ys :
  xs = pre ++ (l, x) :: ys ->
  deref q l = Ok (link (prev_loc xs (length pre)) (fst <$> head ys) x).
Proof. intros E. unfold deref. by rewrite (next_loc_suffix _ _ _ _ E). Qed.

Lemma find_loop_suffix n ys : forall pre fuel,
  xs = pre ++ ys -> (length ys <= fuel)%nat ->
  find_loop fuel (fst <$> head ys) q n = Ok (find_seq n ys).
Proof.
  induction ys as [|[l x] ys IH]; intros pre fuel E Hf; [by destruct fuel|].
  destruct fuel as [|fuel]; cbn in Hf; [lia|]. change (fst <$> head ((l, x) :: ys)) with (Some l). cbn [find_loop].
  rewrite (deref_suffix _ _ _ _ E). out_step. cbn [en_sequence_num link set_prev set_next].
  unfold find_seq. cbn [list_find snd]. case_decide as Hd.
  - by rewrite (proj2 (Z.eqb_eq _ _) Hd).
  - rewrite (proj2 (Z.eqb_neq _ _) Hd). cbn [en_next link set_prev set_next].
    rewrite (IH (pre ++ [(l, x)]) fuel) by (rewrite <- ?app_assoc; done || lia).
    unfold find_seq. by destruct (list_find _ ys) as [[? []]|].
Qed.

(** The fuel of the walk is enough, and it finds the first match. *)
Lemma find_repr n : gossip_envelope_find_by_sequence_num q n = Ok (find_seq n xs).
Proof.
  unfold gossip_envelope_find_by_sequence_num, queue_fuel.
  rewrite (qr_head _ _ Hq), (repr_size q xs Hq).
  apply (find_loop_suffix n xs []); [done|lia].
Qed.

Lemma find_seq_some n l :
  find_seq n xs = Some l -> exists i x, xs !! i = Some (l, x) /\ en_sequence_num x = n.
Proof.
  unfold find_seq. destruct (list_find _ xs) as [[i [l' x]]|] eqn:E; [|done].
  intros [= <-]. apply list_find_Some in E as (? & ? & _). by exists i, x.
Qed.

Lemma clear_loop_suffix ys : forall pre fuel (q' : message_queue),
  xs = pre ++ ys -> (length ys <= fuel)%nat ->
  (forall l, l ∈ ys.*1 -> q_heap q' !! l = q_heap q !! l) ->
  (forall l e, q_heap q' !! l = Some e -> l ∈ ys.*1) ->
  exists q2, clear_loop fuel (fst <$> head ys) q' = Ok q2 /\ q_heap q2 = ∅.
Proof.
  induction ys as [|[l x] ys IH]; intros pre fuel q' E Hf Hc Ho.
  { exists q'. split; [by destruct fuel|]. apply map_eq. intros l. rewrite lookup_empty.
    apply eq_None_not_Some. intros [e He]. by apply Ho, not_elem_of_nil in He. }
  destruct fuel as [|fuel]; cbn in Hf; [lia|]. change (fst <$> head ((l, x) :: ys)) with (Some l). cbn [clear_loop].
  assert (q_heap q' !! l = Some (link (prev_loc xs (length pre)) (fst <$> head ys) x)) as Hl.
  { rewrite Hc by (cbn; left). by apply next_loc_suffix. }
  unfold gossip_envelope_destroy, deref. rewrite Hl. out_step. cbn [en_next link set_prev set_next].
  assert (l ∉ ys.*1) as Hni.
  { pose proof (qr_nodup _ _ Hq) as Hnd. rewrite E, fmap_app in Hnd.
    apply NoDup_app in Hnd as (_ & _ & Hnd). by apply NoDup_cons in Hnd as [? _]. }
  apply (IH (pre ++ [(l, x)])); cbn [q_heap]; [by rewrite <- app_assoc|lia| |].
  - intros l' Hl'. rewrite lookup_delete_ne by (by intros ->). apply Hc. by right.
  - intros l' e [Hne He]%lookup_delete_Some. apply Ho in He.
    apply elem_of_cons in He as [He|He]; [by subst|done].
Qed.

(** Clearing frees every envelope. *)
Lemma clear_repr : gossip_envelope_clear q = Ok (MessageQueue ∅ None None).
Proof.
  unfold gossip_envelope_clear, queue_fuel. rewrite (qr_head _ _ Hq), (repr_size q xs Hq).
  destruct (clear_loop_suffix xs [] (S (length xs)) q) as (q2 & -> & E); try done; [lia| |].
  - apply (qr_only _ _ Hq).
  - out_step. by rewrite E.
Qed.
End Walk.
