(* ===== verification/WireFacts.v ===== *)
(** The wire format below the messages: the header, a version record and a
    vector clock, as byte strings that the encoders write and the decoders
    read back. *)
From S2P Require Import Prelude.
From S2P Require Import Config.
From S2P Require Import Utils.
From S2P Require Import World.
From S2P Require Import Member.
From S2P Require Import VectorClock.
From S2P Require Import Messages.
From S2P Require Import MemberFacts.
From S2P Require Import VectorClockFacts.

(** * Single bytes at a cursor *)

Lemma awrite_at (m : list Z) c pre old x :
  m = pre ++ old -> c = zlen pre -> 1 <= zlen old ->
  awrite m c x = Ok ((pre ++ [x]) ++ zdrop 1 old).
Proof.
  intros -> -> Ho. destruct old as [|y old]; [by rewrite zlen_nil in Ho|].
  unfold zlen at 1. rewrite awrite_Ok by (rewrite length_app; cbn; lia).
  rewrite insert_app_r_alt by lia. rewrite Nat.sub_diag. cbn.
  by rewrite <- app_assoc.
Qed.

Lemma aread_at (m : list Z) c pre x rest :
  m = pre ++ x :: rest -> c = zlen pre -> aread m c = Ok x.
Proof. intros -> ->. apply aread_Ok. by apply list_lookup_middle. Qed.

(** * Header *)

Definition header_wf (h : message_header) : Prop :=
  mh_protocol_id h = PROTOCOL_ID /\ is_byte (mh_message_type h) /\
  is_u16 (mh_reserved h) /\ is_u32 (mh_sequence_num h).

#[export] Instance header_wf_dec h : Decision (header_wf h).
Proof. unfold header_wf. apply _. Defined.

Definition wire_header (h : message_header) : list Z :=
  mh_protocol_id h ++ [mh_message_type h] ++ bytes_be 2 (mh_reserved h)
  ++ bytes_be 4 (mh_sequence_num h).

Definition with_seq (n : Z) (h : message_header) : message_header :=
  MessageHeader (mh_protocol_id h) (mh_message_type h) (mh_reserved h) n.

Lemma zlen_wire_header h : header_wf h -> zlen (wire_header h) = sizeof_message_header.
Proof.
  intros (Hid & _). unfold wire_header. rewrite Hid. autorewrite with zlen. done.
Qed.

Lemma header_init_wf t n : is_byte t -> is_u32 n -> header_wf (message_header_init t n).
Proof. intros ??. split_and!; done. Qed.

Lemma with_seq_wf n h : is_u32 n -> header_wf h -> header_wf (with_seq n h).
Proof. intros ? (? & ? & ? & ?). by split_and!. Qed.

(** Only the last four bytes of a header depend on the sequence number. *)
Lemma wire_header_with_seq n h :
  header_wf h ->
  wire_header (with_seq n h) = ztake 8 (wire_header h) ++ bytes_be 4 n.
Proof.
  intros (Hid & _). unfold wire_header. rewrite !app_assoc.
  replace 8 with (zlen ((mh_protocol_id h ++ [mh_message_type h]) ++ bytes_be 2 (mh_reserved h)))
    by (rewrite Hid; autorewrite with zlen; done).
  by rewrite ztake_app.
Qed.

Lemma message_header_encode_at h old size :
  header_wf h -> sizeof_message_header <= size -> sizeof_message_header <= zlen old ->
  message_header_encode h old size
    = Ok (sizeof_message_header, wire_header h ++ zdrop sizeof_message_header old).
Proof.
  intros (Hid & Ht & Hr & Hs) Hsz Ho. unfold message_header_encode. config_unfold.
  destruct (Z.ltb_spec size 12) as [?|_]; [lia|].
  rewrite Hid, (rd_at PROTOCOL_ID 0 [] PROTOCOL_ID []) by done. out_step.
  rewrite (wr_at old 0 [] old) by (done || (change (zlen PROTOCOL_ID) with 5; lia)). out_step.
  change (zlen PROTOCOL_ID) with 5.
  rewrite (awrite_at _ 5 PROTOCOL_ID (zdrop 5 old)) by (done || zlen_solve). out_step.
  rewrite (uint16_encode_at _ _ (5 + 1) (PROTOCOL_ID ++ [mh_message_type h]) (zdrop 1 (zdrop 5 old)))
    by (done || zlen_solve). out_step.
  rewrite (uint32_encode_at _ _ (5 + 1 + 2)
             ((PROTOCOL_ID ++ [mh_message_type h]) ++ bytes_be 2 (mh_reserved h))
             (zdrop 2 (zdrop 1 (zdrop 5 old))))
    by (done || zlen_solve). out_step.
  rewrite !zdrop_zdrop by lia. unfold wire_header. rewrite Hid, <- !app_assoc. done.
Qed.

Lemma message_header_decode_at h m rest size :
  header_wf h -> m = wire_header h ++ rest -> sizeof_message_header <= size ->
  message_header_decode m size = Ok (sizeof_message_header, Some h).
Proof.
  intros (Hid & Ht & Hr & Hs) -> Hsz. unfold message_header_decode, wire_header. config_unfold.
  rewrite Hid.
  destruct (Z.ltb_spec size 12) as [?|_]; [lia|].
  rewrite (rd_at _ 0 [] PROTOCOL_ID _ 5) by (done || app_solve). out_step.
  rewrite (aread_at _ 5 PROTOCOL_ID (mh_message_type h)
             (bytes_be 2 (mh_reserved h) ++ bytes_be 4 (mh_sequence_num h) ++ rest))
    by (done || app_solve). out_step.
  rewrite (uint16_decode_at (mh_reserved h) _ (5 + 1) (PROTOCOL_ID ++ [mh_message_type h])
             (bytes_be 4 (mh_sequence_num h) ++ rest)) by (done || app_solve). out_step.
  rewrite (uint32_decode_at (mh_sequence_num h) _ (5 + 1 + 2)
             ((PROTOCOL_ID ++ [mh_message_type h]) ++ bytes_be 2 (mh_reserved h)) rest)
    by (done || app_solve || zlen_solve). out_step.
  rewrite <- Hid. by destruct h.
Qed.

Lemma message_type_decode_at h rest size :
  header_wf h -> sizeof_message_header <= size ->
  message_type_decode (wire_header h ++ rest) size = Ok (mh_message_type h).
Proof.
  intros (Hid & _) Hsz. unfold message_type_decode.
  destruct (Z.ltb_spec size sizeof_message_header) as [?|_]; [lia|].
  apply (aread_at _ _ PROTOCOL_ID (mh_message_type h)
           (bytes_be 2 (mh_reserved h) ++ bytes_be 4 (mh_sequence_num h) ++ rest)); [|done].
  unfold wire_header. rewrite Hid. app_solve.
Qed.

(** The validity test accepts exactly the messages of the expected type. *)
Lemma message_is_payload_valid_at h rest size type :
  header_wf h -> sizeof_message_header <= size ->
  message_is_payload_valid (wire_header h ++ rest) size type
    = Ok (mh_message_type h =? type).
Proof.
  intros Hh Hsz. unfold message_is_payload_valid. rewrite message_type_decode_at by done.
  out_step. destruct (mh_message_type h =? type); [|done]. pose proof Hh as (Hid & _).
  unfold memcmp_eq. unfold wire_header. rewrite Hid.
  rewrite (rd_at PROTOCOL_ID 0 [] PROTOCOL_ID [] PROTOCOL_ID_LENGTH) by done.
  rewrite (rd_at _ 0 [] PROTOCOL_ID _ PROTOCOL_ID_LENGTH) by (done || app_solve).
  reflexivity.
Qed.

(** Too short for a header: no message type is valid. *)
Lemma payload_short m size type :
  size < sizeof_message_header -> 0 <= type ->
  message_is_payload_valid m size type = Ok false.
Proof.
  intros Hs Ht. unfold message_is_payload_valid, message_type_decode.
  rewrite (proj2 (Z.ltb_lt _ _) Hs). out_step.
  destruct (Z.eqb_spec PITTACUS_ERR_BUFFER_NOT_ENOUGH type); [config_lia|done].
Qed.

(** * Version records *)

Definition wire_record (r : vector_record) : list Z :=
  bytes_be 4 (vr_sequence_number r) ++ bytes_le 8 (vr_member_id r).

Lemma zlen_bytes_le n w : zlen (bytes_le n w) = Z.of_nat n.
Proof. unfold zlen. by rewrite length_bytes_le. Qed.
#[export] Hint Rewrite zlen_bytes_le : zlen.

Lemma zlen_wire_record r : zlen (wire_record r) = VECTOR_RECORD_SIZE.
Proof. unfold wire_record. autorewrite with zlen. done. Qed.
#[export] Hint Rewrite zlen_wire_record : zlen.

Lemma vector_clock_record_encode_at r m c pre old size :
  m = pre ++ old -> c = zlen pre -> record_wf r ->
  VECTOR_RECORD_SIZE <= size -> VECTOR_RECORD_SIZE <= zlen old ->
  vector_clock_record_encode r m c size
    = Ok (VECTOR_RECORD_SIZE, (pre ++ wire_record r) ++ zdrop VECTOR_RECORD_SIZE old).
Proof.
  intros -> -> [Hs Hid] Hsz Ho. unfold vector_clock_record_encode. config_unfold.
  destruct (Z.ltb_spec size (4 + 8)) as [?|_]; [lia|].
  rewrite (uint32_encode_at _ _ _ pre old) by (done || lia). out_step.
  unfold host, store.
  rewrite (wr_at _ _ (pre ++ bytes_be 4 (vr_sequence_number r)) (zdrop 4 old))
    by (done || zlen_solve). out_step.
  rewrite zlen_bytes_le, zdrop_zdrop by lia. unfold wire_record. rewrite <- !app_assoc.
  rewrite i32_id by lia. f_equal. f_equal. lia.
Qed.

Lemma fetch_bytes_le n w : 0 <= w < 256 ^ Z.of_nat n -> fetch host (bytes_le n w) = w.
Proof. intros Hw. unfold fetch, host. by rewrite word_bytes_le, Z.mod_small. Qed.

Lemma vector_clock_record_decode_at r m c pre rest size :
  m = pre ++ wire_record r ++ rest -> c = zlen pre -> record_wf r ->
  VECTOR_RECORD_SIZE <= size ->
  vector_clock_record_decode m c size = Ok (VECTOR_RECORD_SIZE, Some r).
Proof.
  intros -> -> [Hs Hid] Hsz. unfold vector_clock_record_decode, wire_record. config_unfold.
  destruct (Z.ltb_spec size (4 + 8)) as [?|_]; [lia|].
  rewrite (uint32_decode_at (vr_sequence_number r) _ _ pre (bytes_le 8 (vr_member_id r) ++ rest))
    by (done || app_solve). out_step.
  rewrite (rd_at _ _ (pre ++ bytes_be 4 (vr_sequence_number r)) (bytes_le 8 (vr_member_id r)) rest)
    by (app_solve || zlen_solve). out_step.
  rewrite fetch_bytes_le by word_lia. rewrite i32_id by lia. rewrite vector_record_eta.
  f_equal. f_equal. lia.
Qed.

(** * Vector clocks *)

Definition wire_records (l : list vector_record) : list Z := mjoin (wire_record <$> l).

Definition wire_clock (c : vector_clock) : list Z :=
  bytes_be 2 (vc_size c) ++ wire_records (live c).

Lemma zlen_wire_records l : zlen (wire_records l) = VECTOR_RECORD_SIZE * zlen l.
Proof.
  induction l as [|r l IH]; [done|]. change (wire_records (r :: l)) with (wire_record r ++ wire_records l).
  autorewrite with zlen. rewrite IH. lia.
Qed.
#[export] Hint Rewrite zlen_wire_records : zlen.

Lemma zlen_live c : clock_ok c -> zlen (live c) = vc_size c.
Proof.
  intros Hc. unfold zlen. rewrite length_live by done. destruct Hc as (_ & ? & _). lia.
Qed.

Lemma zlen_wire_clock c :
  clock_ok c -> zlen (wire_clock c) = sizeof_u16 + vc_size c * VECTOR_RECORD_SIZE.
Proof.
  intros Hc. unfold wire_clock. autorewrite with zlen. rewrite zlen_live by done. config_lia.
Qed.

Lemma encode_records_at c ys : forall i pre old cursor end_,
  clock_ok c -> live c = take i (live c) ++ ys -> length (take i (live c)) = i ->
  cursor = zlen pre -> end_ < 2 ^ 64 ->
  cursor + VECTOR_RECORD_SIZE * zlen ys <= end_ -> VECTOR_RECORD_SIZE * zlen ys <= zlen old ->
  encode_records (length ys) (Z.of_nat i) c (pre ++ old) cursor end_
    = Ok (inr (cursor + VECTOR_RECORD_SIZE * zlen ys,
               (pre ++ wire_records ys) ++ zdrop (VECTOR_RECORD_SIZE * zlen ys) old)).
Proof.
  induction ys as [|r ys IH]; intros i pre old cursor end_ Hc E Hi -> Hend Hb Ho.
  { rewrite (@zlen_nil vector_record), Z.mul_0_r, Z.add_0_r, zdrop_0. change (wire_records []) with (@nil Z).
    by rewrite app_nil_r. }
  cbn [length encode_records]. rewrite zlen_cons in *.
  pose proof (zlen_nonneg ys) as Hys. pose proof (zlen_nonneg pre) as Hpre.
  assert (live c !! i = Some r) as Hr.
  { rewrite E. apply list_lookup_middle. done. }
  rewrite (aread_Ok _ i r) by by apply live_lookup. out_step.
  assert (record_wf r) as Hwf.
  { destruct Hc as (_ & _ & Hf & _). apply (Forall_lookup_1 _ _ _ _ Hf Hr). }
  rewrite u64_id by config_lia.
  rewrite (vector_clock_record_encode_at r _ _ pre old) by (done || config_lia). out_step.
  change (VECTOR_RECORD_SIZE <? 0) with false. cbn iota.
  replace (Z.of_nat i + 1) with (Z.of_nat (S i)) by lia.
  assert (take (S i) (live c) = take i (live c) ++ [r]) as Et by by apply take_S_r.
  rewrite (IH (S i) (pre ++ wire_record r)); clear IH; try done.
  - do 2 f_equal. f_equal; [config_lia|].
    change (wire_records (r :: ys)) with (wire_record r ++ wire_records ys).
    rewrite <- !app_assoc, zdrop_zdrop by config_lia. do 4 f_equal. config_lia.
  - rewrite Et. by rewrite <- app_assoc.
  - rewrite Et, length_app. cbn. lia.
  - autorewrite with zlen. done.
  - config_lia.
  - rewrite zlen_zdrop_max by config_lia. config_lia.
Qed.

Lemma vector_clock_encode_at c m at_ pre old size :
  m = pre ++ old -> at_ = zlen pre -> clock_ok c ->
  zlen (wire_clock c) <= size -> zlen (wire_clock c) <= zlen old ->
  at_ + size < 2 ^ 64 ->
  vector_clock_encode c m at_ size
    = Ok (zlen (wire_clock c), (pre ++ wire_clock c) ++ zdrop (zlen (wire_clock c)) old).
Proof.
  intros -> -> Hc. rewrite zlen_wire_clock by done. intros Hsz Ho Hend.
  pose proof Hc as (_ & Hn & _). pose proof (zlen_nonneg pre) as Hpre.
  unfold vector_clock_encode.
  destruct (Z.ltb_spec size (sizeof_u16 + vc_size c * VECTOR_RECORD_SIZE)) as [?|_]; [lia|].
  rewrite (uint16_encode_at _ _ _ pre old) by (done || config_lia). out_step.
  rewrite <- (length_live c Hc).
  rewrite (encode_records_at c (live c) 0 (pre ++ bytes_be 2 (vc_size c)) (zdrop 2 old)); try done.
  - out_step. rewrite zlen_live by done. rewrite i32_id by config_lia.
    f_equal. f_equal; [config_lia|]. unfold wire_clock.
    rewrite <- !app_assoc, zdrop_zdrop by config_lia. do 3 f_equal. f_equal. config_lia.
  - autorewrite with zlen. config_lia.
  - rewrite zlen_live by done. config_lia.
  - rewrite zlen_live by done. rewrite zlen_zdrop_max by config_lia. config_lia.
Qed.

Lemma decode_records_at ys : forall (i : nat) pre rest cursor end_ recs,
  Forall record_wf ys -> cursor = zlen pre -> end_ < 2 ^ 64 ->
  cursor + VECTOR_RECORD_SIZE * zlen ys <= end_ -> (i + length ys <= length recs)%nat ->
  decode_records (length ys) (Z.of_nat i) (pre ++ wire_records ys ++ rest) cursor end_ recs
    = Ok (inr (cursor + VECTOR_RECORD_SIZE * zlen ys,
               take i recs ++ ys ++ drop (i + length ys) recs)).
Proof.
  induction ys as [|r ys IH]; intros i pre rest cursor end_ recs Hf -> Hend Hb Hl.
  { rewrite (@zlen_nil vector_record), Z.mul_0_r, Z.add_0_r. cbn. by rewrite Nat.add_0_r, take_drop. }
  apply Forall_cons in Hf as [Hr Hf]. cbn [length decode_records] in *. rewrite zlen_cons in *.
  pose proof (zlen_nonneg ys) as Hys. pose proof (zlen_nonneg pre) as Hpre.
  rewrite u64_id by config_lia.
  change (wire_records (r :: ys)) with (wire_record r ++ wire_records ys).
  rewrite (vector_clock_record_decode_at r _ _ pre (wire_records ys ++ rest))
    by (done || app_solve || config_lia). out_step.
  rewrite awrite_Ok by lia. out_step. change (VECTOR_RECORD_SIZE <? 0) with false. cbn iota.
  replace (Z.of_nat i + 1) with (Z.of_nat (S i)) by lia.
  replace (pre ++ (wire_record r ++ wire_records ys) ++ rest)
    with ((pre ++ wire_record r) ++ wire_records ys ++ rest) by app_solve.
  rewrite IH; clear IH; try done.
  - do 2 f_equal. f_equal; [config_lia|].
    rewrite (take_S_r _ _ r) by (apply list_lookup_insert_eq; lia).
    rewrite take_insert_ge, drop_insert_lt by lia. rewrite <- app_assoc. cbn.
    do 3 f_equal. f_equal. lia.
  - autorewrite with zlen. done.
  - config_lia.
  - rewrite length_insert. lia.
Qed.

(** Clocks that cannot be told apart: the same records in use, in the same
    order. *)
Definition clock_eqv (c c' : vector_clock) : Prop := live c = live c'.

#[export] Instance clock_eqv_equiv : Equivalence clock_eqv.
Proof. split; [by intros c| by intros c c' ?|]. intros c1 c2 c3. unfold clock_eqv. congruence. Qed.
#[export] Instance clock_eqv_dec c c' : Decision (clock_eqv c c').
Proof. unfold clock_eqv. apply _. Defined.
#[export] Instance clock_map_proper : Proper (clock_eqv ==> eq) clock_map.
Proof. intros c c' H. unfold clock_map. by rewrite H. Qed.

Lemma vector_clock_decode_at c m at_ pre rest size dst :
  m = pre ++ wire_clock c ++ rest -> at_ = zlen pre -> clock_ok c ->
  zlen (wire_clock c) <= size -> at_ + size < 2 ^ 64 ->
  zlen (vc_records dst) = MAX_VECTOR_SIZE ->
  exists c', vector_clock_decode m at_ size dst = Ok (zlen (wire_clock c), Some c') /\
    clock_eqv c' c /\ clock_ok c'.
Proof.
  intros -> -> Hc. rewrite zlen_wire_clock by done. intros Hsz Hend Hdst.
  pose proof Hc as (Hlen & Hn & Hf & Hnd). pose proof (zlen_nonneg pre) as Hpre.
  unfold vector_clock_decode, wire_clock.
  rewrite (uint16_decode_at (vc_size c) _ _ pre (wire_records (live c) ++ rest))
    by (app_solve || config_lia). out_step.
  rewrite u64_id by config_lia.
  destruct (Z.ltb_spec (zlen pre + size - (zlen pre + sizeof_u16)) (vc_size c * VECTOR_RECORD_SIZE))
    as [?|_]; [config_lia|].
  replace (pre ++ (bytes_be 2 (vc_size c) ++ wire_records (live c)) ++ rest)
    with ((pre ++ bytes_be 2 (vc_size c)) ++ wire_records (live c) ++ rest) by app_solve.
  pose proof (length_live c Hc) as Hll.
  assert (length (vc_records dst) = 20%nat) as Hd by (unfold zlen in Hdst; config_lia).
  rewrite <- (length_live c Hc).
  rewrite (decode_records_at (live c) 0);
    [| done | autorewrite with zlen; done | lia | rewrite zlen_live by done; config_lia
     | rewrite Hll; config_lia].
  out_step. rewrite zlen_live by done. rewrite i32_id by config_lia.
  set (c' := VectorClock _ _ _). assert (live c' = live c) as E.
  { subst c'. unfold live at 1, ztake. cbn [vc_records vc_size]. rewrite take_0, app_nil_l. apply take_app_length'. done. }
  exists c'. split; [do 2 f_equal; config_lia|]. split; [exact E|].
  unfold clock_ok, clock_ids. rewrite E. subst c'. cbn [vc_records vc_size].
  split_and!; try done; try lia.
  unfold zlen. rewrite take_0, app_nil_l, length_app, length_drop, Hll, Hd. config_lia.
Qed.

(** * Copying a clock *)

Lemma copy_record_step (src recs : list vector_record) (i : nat) r :
  src !! i = Some r -> (i < length recs)%nat -> take i recs = take i src ->
  take (S i) (<[i := r]> recs) = take (S i) src.
Proof.
  intros Hr Hi E. rewrite (take_S_r _ _ r) by by apply list_lookup_insert_eq.
  rewrite take_insert_ge by lia. rewrite (take_S_r src _ r) by done. by rewrite E.
Qed.

Lemma vector_clock_copy_ok dst src :
  clock_ok src -> zlen (vc_records dst) = MAX_VECTOR_SIZE ->
  exists c, vector_clock_copy dst src = Ok c /\ clock_eqv c src /\ clock_ok c /\
    vc_size c = vc_size src.
Proof.
  intros Hs Hd. pose proof Hs as (Hl & Hn & Hf & Hnd). unfold vector_clock_copy.
  destruct (ofor_inv (fun i recs => zlen recs = MAX_VECTOR_SIZE /\
              take (Z.to_nat i) recs = take (Z.to_nat i) (vc_records src))
              (Z.to_nat (vc_size src)) 0
              (fun i records => rec ← aread (vc_records src) i;
                                awrite records i (vector_clock_record_copy rec))
              (vc_records dst)) as (recs & -> & Hr & E).
  - done.
  - intros j recs Hj [Hr E]. assert (Z.to_nat j < length recs)%nat as Hjl
      by (unfold zlen in Hr; config_lia).
    destruct (lookup_lt_is_Some_2 (vc_records src) (Z.to_nat j)) as [r Hjr];
      [unfold zlen in Hl; config_lia|].
    rewrite <- (Z2Nat.id j) by lia. rewrite (aread_Ok _ _ r) by done. out_step.
    rewrite awrite_Ok by done. eexists. split; [done|].
    split; [unfold zlen in *; by rewrite length_insert|].
    replace (Z.to_nat (Z.of_nat (Z.to_nat j) + 1)) with (S (Z.to_nat j)) by lia.
    unfold vector_clock_record_copy. rewrite vector_record_eta. by apply copy_record_step.
  - out_step. rewrite Z.add_0_l, Nat2Z.id in E.
    assert (live (VectorClock (vc_size src) (vc_current_idx src) recs) = live src) as El
      by (unfold live, ztake; done).
    eexists. split; [done|]. split; [exact El|].
    unfold clock_ok, clock_ids. rewrite El. cbn [vc_records vc_size]. split_and!; try done; lia.
Qed.
