(* ===== verification/MessageFacts.v ===== *)
(** The six messages behind one interface: a codec is a message type with
    its wire format, and its laws say that encoding writes the wire format,
    that decoding reads it back, and which errors are returned otherwise. *)
From S2P Require Import Prelude.
From S2P Require Import Config.
From S2P Require Import Utils.
From S2P Require Import World.
From S2P Require Import Member.
From S2P Require Import VectorClock.
From S2P Require Import Messages.
From S2P Require Import MemberFacts.
From S2P Require Import VectorClockFacts.
From S2P Require Import WireFacts.

(** * The interface *)

Class Codec (T : Type) := {
  codec_type : Z;                              (** the message type byte *)
  codec_header : T -> message_header;
  codec_with_seq : Z -> T -> T;                (** renumber the message *)
  codec_body : T -> list Z;                    (** the bytes after the header *)
  codec_wf : T -> Prop;
  codec_eqv : T -> T -> Prop;
  codec_need : T -> Z;                         (** buffer size the encoder asks for *)
  codec_encode : T -> list Z -> Z -> out (Z * list Z);
  codec_decode : decoder T
}.

Definition wire `{Codec T} (t : T) : list Z := wire_header (codec_header t) ++ codec_body t.

(** What a decoder that succeeds leaves behind: a message equivalent to [t]
    and the world moved forward by allocations only. *)
Definition decoded `{Codec T} (t : T) (w : world) (r : Z * option T) (w' : world) : Prop :=
  exists t', r = (zlen (wire t), Some t') /\ codec_eqv t' t /\ codec_wf t' /\
    world_le w w' /\ sent w' = sent w /\ inbox w' = inbox w.

(** A decoder that allocates: without memory it reports that. *)
Definition decoded_any {T} `{Codec T} (t : T) (w : world) (r : Z * option T) (w' : world) : Prop :=
  if alloc_ok (answers w) (allocs w) then decoded t w r w'
  else r = (PITTACUS_ERR_ALLOCATION_FAILED, None) /\ world_le w w' /\ sent w' = sent w /\ inbox w' = inbox w.

Lemma decoded_any_ok {T} `{Codec T} (t : T) w r w' : no_oom w -> decoded_any t w r w' -> decoded t w r w'.
Proof. intros Hw. unfold decoded_any. by rewrite Hw. Qed.

Class CodecLaws (T : Type) `{Codec T} := {
  codec_header_ok t :
    codec_wf t -> header_wf (codec_header t) /\ mh_message_type (codec_header t) = codec_type;
  codec_type_ok : 0 < codec_type < 256;
  codec_seq_header n t : codec_header (codec_with_seq n t) = with_seq n (codec_header t);
  codec_seq_body n t : codec_body (codec_with_seq n t) = codec_body t;
  codec_seq_wf n t : is_u32 n -> codec_wf t -> codec_wf (codec_with_seq n t);
  codec_need_wire t : codec_wf t -> zlen (wire t) <= codec_need t;
  codec_encode_ok t old size :
    codec_wf t -> codec_need t <= size < 2 ^ 31 -> size <= zlen old ->
    codec_encode t old size = Ok (zlen (wire t), wire t ++ zdrop (zlen (wire t)) old);
  codec_encode_short t old size :
    size < codec_need t -> codec_encode t old size = Ok (PITTACUS_ERR_BUFFER_NOT_ENOUGH, old);
  codec_decode_ok t rest w :
    no_oom w -> codec_wf t -> zlen (wire t) < 2 ^ 31 ->
    wp (codec_decode (wire t ++ rest) (zlen (wire t))) w (decoded t w);
  codec_decode_invalid m size w :
    message_is_payload_valid m size codec_type = Ok false ->
    codec_decode m size w = Ok ((PITTACUS_ERR_INVALID_MESSAGE, None), w)
}.

Section CodecFacts.
Context `{CodecLaws T}.
Implicit Types t : T.

(** Renumbering a message is overwriting bytes 8 to 11 of its wire format:
    what the send loop does to the buffer that several envelopes share. *)
Lemma wire_with_seq n t :
  codec_wf t ->
  wire (codec_with_seq n t) = ztake 8 (wire t) ++ bytes_be 4 n ++ zdrop 12 (wire t).
Proof.
  intros Ht. destruct (codec_header_ok t Ht) as [Hh _].
  unfold wire. rewrite codec_seq_header, codec_seq_body, wire_header_with_seq by done.
  pose proof (zlen_wire_header _ Hh) as Hl. change sizeof_message_header with 12 in Hl.
  rewrite <- app_assoc. f_equal; [|f_equal].
  - unfold ztake. rewrite take_app_le; [done|]. unfold zlen in Hl. lia.
  - by rewrite <- Hl, zdrop_app.
Qed.

Lemma codec_wire_min t : codec_wf t -> sizeof_message_header <= zlen (wire t).
Proof.
  intros Ht. destruct (codec_header_ok t Ht) as [Hh _]. unfold wire.
  rewrite zlen_app, (zlen_wire_header _ Hh). pose proof (zlen_nonneg (codec_body t)). lia.
Qed.

Lemma codec_type_decode t rest :
  codec_wf t -> message_type_decode (wire t ++ rest) (zlen (wire t)) = Ok codec_type.
Proof.
  intros Ht. destruct (codec_header_ok t Ht) as [Hh <-]. unfold wire at 1. rewrite <- app_assoc.
  apply message_type_decode_at; [done|]. by apply codec_wire_min.
Qed.

Lemma codec_valid t rest type :
  codec_wf t ->
  message_is_payload_valid (wire t ++ rest) (zlen (wire t)) type = Ok (codec_type =? type).
Proof.
  intros Ht. destruct (codec_header_ok t Ht) as [Hh <-]. unfold wire at 1. rewrite <- app_assoc.
  apply message_is_payload_valid_at; [done|]. by apply codec_wire_min.
Qed.
End CodecFacts.

(** * Hello *)

#[export] Instance hello_codec : Codec message_hello := {
  codec_type := MESSAGE_HELLO_TYPE;
  codec_header := hello_header;
  codec_with_seq n t := MessageHello (with_seq n (hello_header t)) (hello_this_member t);
  codec_body t := wire_member (hello_this_member t);
  (* a decoder refuses a member with an address shorter than 6 bytes *)
  codec_wf t := header_wf (hello_header t) /\
    mh_message_type (hello_header t) = MESSAGE_HELLO_TYPE /\
    member_wf (hello_this_member t) /\ 6 <= cm_address_len (hello_this_member t);
  codec_eqv t t' := hello_header t = hello_header t' /\
    member_eqv (hello_this_member t) (hello_this_member t');
  codec_need t := 28 + cm_address_len (hello_this_member t);
  codec_encode := message_hello_encode;
  codec_decode := message_hello_decode
}.

(** What a decoder makes of an address that is followed by other bytes. *)
Lemma member_extend m rest :
  member_wf m ->
  let m' := ClusterMember (cm_version m) (cm_uid m) (cm_address_len m) (member_addr m ++ rest) in
  member_eqv m' m /\ member_wf m'.
Proof.
  intros Hm. pose proof (zlen_member_addr m Hm) as Ha. pose proof Hm as (? & ? & ? & ?). cbn.
  unfold member_eqv, member_wf. cbn. rewrite zlen_app, Ha. pose proof (zlen_nonneg rest).
  split_and!; try done; try lia.
  unfold member_addr at 1. cbn. rewrite <- Ha at 1. apply ztake_app.
Qed.

(** The common start of the decoders: the validity test and the header. *)
Lemma payload_ok h body rest type :
  header_wf h -> mh_message_type h = type ->
  message_is_payload_valid ((wire_header h ++ body) ++ rest) (zlen (wire_header h ++ body)) type
    = Ok true /\
  message_header_decode ((wire_header h ++ body) ++ rest) (zlen (wire_header h ++ body))
    = Ok (sizeof_message_header, Some h).
Proof.
  intros Hh <-. pose proof (zlen_wire_header _ Hh) as Hl. pose proof (zlen_nonneg body) as Hb.
  rewrite <- app_assoc. rewrite message_is_payload_valid_at by (done || (rewrite zlen_app; lia)).
  rewrite Z.eqb_refl. split; [done|].
  apply message_header_decode_at with (body ++ rest); [done|done|]. rewrite zlen_app. lia.
Qed.

(** Decoding an embedded member: it is followed by [rest] in the buffer. *)
Lemma member_decode_at m pre rest at_ size :
  at_ = zlen pre -> member_wf m -> 10 <= size -> wire_member_len m < 2 ^ 31 ->
  exists m', cluster_member_decode (pre ++ wire_member m ++ rest) at_ size
      = Ok (wire_member_len m, Some m') /\ member_eqv m' m /\ member_wf m' /\ cm_address_len m' = cm_address_len m.
Proof.
  intros -> Hm Hs Hb. rewrite (cluster_member_decode_at m _ _ pre rest) by done.
  eexists. split; [done|]. destruct (member_extend m rest Hm). done.
Qed.

Lemma wp_hello_decode_any (t : message_hello) rest w :
  codec_wf t -> zlen (wire t) < 2 ^ 31 ->
  wp (message_hello_decode (wire t ++ rest) (zlen (wire t))) w (decoded_any t w).
Proof.
  intros (Hh & Hty & Hm & Ha) Hb. 
  pose proof (zlen_wire_header _ Hh) as Hlh. pose proof (zlen_wire_member _ Hm) as Hlm.
  assert (zlen (wire t) = 12 + (10 + cm_address_len (hello_this_member t))) as Hlw
    by (unfold wire; cbn; by rewrite zlen_app, Hlh, Hlm).
  destruct (payload_ok _ (codec_body t) rest _ Hh Hty) as [Hv Hd].
  change (wire_header (hello_header t) ++ codec_body t) with (wire t) in *.
  unfold message_hello_decode. apply wp_bind. eapply wp_lift; [exact Hv|]. cbn [negb].
  destruct (Z.ltb_spec (zlen (wire t)) (sizeof_message_header + sizeof_cluster_member - sizeof_pointer))
    as [?|_]; [config_lia|].
  apply wp_bind. eapply wp_lift; [rewrite Hd; reflexivity|].
  apply wp_bind, wp_malloc. intros w' Hle _ Hs Hi. unfold decoded_any.
  destruct (alloc_ok (answers w) (allocs w)); [|by apply wp_ret].
  destruct (member_decode_at (hello_this_member t) (wire_header (hello_header t)) rest
              sizeof_message_header (zlen (wire t) - sizeof_message_header))
    as (m' & Em & He & Hwf & Hal); [done|done|config_lia|unfold wire_member_len; config_lia|].
  apply wp_bind. eapply wp_lift.
  { rewrite u64_id by config_lia. unfold wire at 1. rewrite <- app_assoc. exact Em. }
  cbn beta iota. unfold wire_member_len in *. pose proof Hm as (_ & _ & Hl & _).
  destruct (Z.ltb_spec (10 + cm_address_len (hello_this_member t)) 0) as [?|_]; [config_lia|].
  apply wp_ret. rewrite i32_id by config_lia.
  exists (MessageHello (hello_header t) m'). cbn. rewrite Hal. split_and!; try done.
  by rewrite Hlw.
Qed.

Lemma wp_hello_decode (t : message_hello) rest w :
  no_oom w -> codec_wf t -> zlen (wire t) < 2 ^ 31 ->
  wp (message_hello_decode (wire t ++ rest) (zlen (wire t))) w (decoded t w).
Proof.
  intros Hw Ht Hb. eapply wp_mono; [by apply wp_hello_decode_any|]. intros r w'. by apply decoded_any_ok.
Qed.

#[export] Instance hello_laws : CodecLaws message_hello.
Proof.
  split; cbn [codec_type codec_header codec_with_seq codec_body codec_wf codec_eqv codec_need
              codec_encode codec_decode hello_codec]; try done.
  - by intros t (? & ? & _).
  - intros n t ? (? & ? & ? & ?). split_and!; try done. by apply with_seq_wf.
  - intros t (Hh & _ & Hm & _). unfold wire. cbn [codec_header codec_body hello_codec].
    rewrite zlen_app, zlen_wire_header, zlen_wire_member by done. unfold wire_member_len. config_lia.
  - intros t old size (Hh & _ & Hm & Ha) Hsz Ho. unfold message_hello_encode, wire.
    cbn [codec_header codec_body hello_codec].
    pose proof Hm as (_ & _ & Hl & _).
    destruct (Z.ltb_spec size (sizeof_message_header + sizeof_cluster_member - sizeof_pointer
                               + cm_address_len (hello_this_member t))) as [?|_]; [config_lia|].
    rewrite message_header_encode_at by (done || config_lia). out_step.
    change (sizeof_message_header <? 0) with false. cbn iota.
    pose proof (zlen_wire_header _ Hh) as Hlh.
    rewrite u64_id by config_lia.
    rewrite (cluster_member_encode_at _ _ _ (wire_header (hello_header t))
               (zdrop sizeof_message_header old));
      [|done|done|done|unfold wire_member_len; config_lia
       |rewrite zlen_zdrop_max by config_lia; unfold wire_member_len; config_lia
       |unfold wire_member_len; config_lia].
    out_step. rewrite zdrop_zdrop by (unfold wire_member_len; config_lia).
    rewrite zlen_app, Hlh, zlen_wire_member by done. rewrite i32_id by (unfold wire_member_len; config_lia).
    done.
  - intros t old size Hsz. unfold message_hello_encode.
    cbv zeta. by rewrite (proj2 (Z.ltb_lt size _)) by config_lia.
  - intros. by apply wp_hello_decode.
  - intros m size w Hv. unfold message_hello_decode. unfold mbind, M_bind, liftO. by rewrite Hv.
Qed.

(** Unfold the fields of a codec instance. *)
Ltac codec_cbn :=
  cbn [codec_type codec_header codec_with_seq codec_body codec_wf codec_eqv codec_need
       codec_encode codec_decode].

(** The error branch of a decoder on a message that is not valid. *)
Ltac codec_invalid d :=
  intros m size w Hv; cbn in Hv |- *; unfold d, mbind, M_bind, liftO, mbind, out_bind; by rewrite Hv.

(** * Welcome *)

#[export] Instance welcome_codec : Codec message_welcome := {
  codec_type := MESSAGE_WELCOME_TYPE;
  codec_header := welcome_header;
  codec_with_seq n t := MessageWelcome (with_seq n (welcome_header t))
                          (welcome_hello_sequence_num t) (welcome_this_member t);
  codec_body t := bytes_be 4 (welcome_hello_sequence_num t) ++ wire_member (welcome_this_member t);
  codec_wf t := header_wf (welcome_header t) /\
    mh_message_type (welcome_header t) = MESSAGE_WELCOME_TYPE /\
    is_u32 (welcome_hello_sequence_num t) /\
    member_wf (welcome_this_member t) /\ 6 <= cm_address_len (welcome_this_member t);
  codec_eqv t t' := welcome_header t = welcome_header t' /\
    welcome_hello_sequence_num t = welcome_hello_sequence_num t' /\
    member_eqv (welcome_this_member t) (welcome_this_member t');
  codec_need t := 32 + cm_address_len (welcome_this_member t);
  codec_encode := message_welcome_encode;
  codec_decode := message_welcome_decode
}.

Lemma zlen_wire_welcome (t : message_welcome) :
  codec_wf t -> zlen (wire t) = 26 + cm_address_len (welcome_this_member t).
Proof.
  intros (Hh & _ & _ & Hm & _). unfold wire. cbn. autorewrite with zlen.
  rewrite zlen_wire_header, zlen_wire_member by done. unfold wire_member_len. config_lia.
Qed.

Lemma welcome_encode_ok (t : message_welcome) old size :
  codec_wf t -> codec_need t <= size < 2 ^ 31 -> size <= zlen old ->
  message_welcome_encode t old size = Ok (zlen (wire t), wire t ++ zdrop (zlen (wire t)) old).
Proof.
  intros Ht Hsz Ho. rewrite (zlen_wire_welcome t Ht). pose proof Ht as (Hh & _ & Hn & Hm & Ha).
  cbn in Hsz. pose proof (zlen_wire_header _ Hh) as Hlh. pose proof Hm as (_ & _ & Hl & _).
  unfold message_welcome_encode.
  destruct (Z.ltb_spec size (sizeof_message_header + sizeof_u32 + sizeof_cluster_member
            - sizeof_pointer + cm_address_len (welcome_this_member t))) as [?|_]; [config_lia|].
  rewrite message_header_encode_at by (done || config_lia). out_step.
  rewrite (uint32_encode_at _ _ _ (wire_header (welcome_header t)) (zdrop sizeof_message_header old))
    by (done || (rewrite zlen_zdrop_max by config_lia; config_lia)). out_step.
  rewrite u64_id by config_lia.
  rewrite (cluster_member_encode_at _ _ _
             (wire_header (welcome_header t) ++ bytes_be 4 (welcome_hello_sequence_num t))
             (zdrop 4 (zdrop sizeof_message_header old)));
    [|done|autorewrite with zlen; config_lia|done|unfold wire_member_len; config_lia
     |rewrite !zlen_zdrop_max by config_lia; unfold wire_member_len; config_lia
     |unfold wire_member_len; config_lia].
  out_step. unfold wire_member_len. rewrite !zdrop_zdrop by config_lia.
  rewrite i32_id by config_lia. f_equal. f_equal; [config_lia|].
  unfold wire. cbn. rewrite <- !app_assoc. do 4 f_equal. config_lia.
Qed.

Lemma wp_welcome_decode_any (t : message_welcome) rest w :
  codec_wf t -> zlen (wire t) < 2 ^ 31 ->
  wp (message_welcome_decode (wire t ++ rest) (zlen (wire t))) w (decoded_any t w).
Proof.
  intros Ht Hb. pose proof (zlen_wire_welcome t Ht) as Hlw.
  pose proof Ht as (Hh & Hty & Hn & Hm & Ha). pose proof (zlen_wire_header _ Hh) as Hlh.
  destruct (payload_ok _ (codec_body t) rest _ Hh Hty) as [Hv Hd].
  change (wire_header (welcome_header t) ++ codec_body t) with (wire t) in *.
  unfold message_welcome_decode. apply wp_bind. eapply wp_lift; [exact Hv|]. cbn [negb].
  destruct (Z.ltb_spec (zlen (wire t)) (sizeof_message_header + sizeof_u32
              + sizeof_cluster_member - sizeof_pointer)) as [?|_]; [config_lia|].
  apply wp_bind. eapply wp_lift; [rewrite Hd; reflexivity|]. cbn [fst].
  apply wp_bind. eapply wp_lift.
  { apply (uint32_decode_at (welcome_hello_sequence_num t) _ _ (wire_header (welcome_header t))
             (wire_member (welcome_this_member t) ++ rest)); [|done|done].
    unfold wire. cbn. app_solve. }
  apply wp_bind, wp_malloc. intros w' Hle _ Hs Hi. unfold decoded_any.
  destruct (alloc_ok (answers w) (allocs w)); [|by apply wp_ret].
  destruct (member_decode_at (welcome_this_member t)
              (wire_header (welcome_header t) ++ bytes_be 4 (welcome_hello_sequence_num t)) rest
              (sizeof_message_header + sizeof_u32)
              (zlen (wire t) - (sizeof_message_header + sizeof_u32)))
    as (m' & Em & He & Hwf & Hal);
    [autorewrite with zlen; config_lia|done|config_lia|unfold wire_member_len; config_lia|].
  apply wp_bind. eapply wp_lift.
  { rewrite u64_id by config_lia. unfold wire at 1. cbn. rewrite <- app_assoc in Em |- *.
    rewrite <- app_assoc. exact Em. }
  cbn beta iota. unfold wire_member_len in *. pose proof Hm as (_ & _ & Hl & _).
  destruct (Z.ltb_spec (10 + cm_address_len (welcome_this_member t)) 0) as [?|_]; [config_lia|].
  apply wp_ret. rewrite i32_id by config_lia.
  exists (MessageWelcome (welcome_header t) (welcome_hello_sequence_num t) m').
  cbn. rewrite Hal, Hlw. split_and!; try done. f_equal. config_lia.
Qed.

Lemma wp_welcome_decode (t : message_welcome) rest w :
  no_oom w -> codec_wf t -> zlen (wire t) < 2 ^ 31 ->
  wp (message_welcome_decode (wire t ++ rest) (zlen (wire t))) w (decoded t w).
Proof.
  intros Hw Ht Hb. eapply wp_mono; [by apply wp_welcome_decode_any|]. intros r w'. by apply decoded_any_ok.
Qed.

#[export] Instance welcome_laws : CodecLaws message_welcome.
Proof.
  split; codec_cbn; try done.
  - by intros t (? & ? & _).
  - intros n t ? (? & ? & ? & ? & ?). split_and!; try done. by apply with_seq_wf.
  - intros t Ht. rewrite (zlen_wire_welcome t Ht). cbn. lia.
  - apply welcome_encode_ok.
  - intros t old size Hsz. cbn in Hsz |- *. unfold message_welcome_encode.
    cbv zeta. by rewrite (proj2 (Z.ltb_lt size _)) by config_lia.
  - intros. by apply wp_welcome_decode.
  - codec_invalid @message_welcome_decode.
Qed.

(** * Acknowledgement *)

#[export] Instance ack_codec : Codec message_ack := {
  codec_type := MESSAGE_ACK_TYPE;
  codec_header := ack_header;
  codec_with_seq n t := MessageAck (with_seq n (ack_header t)) (ack_ack_sequence_num t);
  codec_body t := bytes_be 4 (ack_ack_sequence_num t);
  codec_wf t := header_wf (ack_header t) /\ mh_message_type (ack_header t) = MESSAGE_ACK_TYPE /\
    is_u32 (ack_ack_sequence_num t);
  codec_eqv := eq;
  codec_need t := 16;
  codec_encode := message_ack_encode;
  codec_decode m size := liftO (message_ack_decode m size)
}.

Lemma zlen_wire_ack (t : message_ack) : codec_wf t -> zlen (wire t) = 16.
Proof.
  intros (Hh & _). unfold wire. cbn. autorewrite with zlen. by rewrite zlen_wire_header.
Qed.

Lemma ack_encode_ok (t : message_ack) old size :
  codec_wf t -> 16 <= size -> 16 <= zlen old ->
  message_ack_encode t old size = Ok (16, wire t ++ zdrop 16 old).
Proof.
  intros Ht Hsz Ho. pose proof Ht as (Hh & _ & Hn). pose proof (zlen_wire_header _ Hh) as Hlh.
  unfold message_ack_encode.
  destruct (Z.ltb_spec size (sizeof_message_header + sizeof_u32)) as [?|_]; [config_lia|].
  rewrite message_header_encode_at by (done || config_lia). out_step.
  change (sizeof_message_header <? 0) with false. cbn iota.
  rewrite (uint32_encode_at _ _ _ (wire_header (ack_header t)) (zdrop sizeof_message_header old))
    by (done || (rewrite zlen_zdrop_max by config_lia; config_lia)). out_step.
  rewrite zdrop_zdrop by config_lia. done.
Qed.

Lemma ack_decode_ok (t : message_ack) rest :
  codec_wf t -> message_ack_decode (wire t ++ rest) (zlen (wire t)) = Ok (16, Some t).
Proof.
  intros Ht. pose proof (zlen_wire_ack t Ht) as Hlw. pose proof Ht as (Hh & Hty & Hn).
  pose proof (zlen_wire_header _ Hh) as Hlh.
  destruct (payload_ok _ (codec_body t) rest _ Hh Hty) as [Hv Hd].
  change (wire_header (ack_header t) ++ codec_body t) with (wire t) in *.
  unfold message_ack_decode. rewrite Hv. out_step. cbn [negb].
  destruct (Z.ltb_spec (zlen (wire t)) (sizeof_message_header + sizeof_u32)) as [?|_]; [config_lia|].
  rewrite Hd. out_step.
  rewrite (uint32_decode_at (ack_ack_sequence_num t) _ _ (wire_header (ack_header t)) rest)
    by (done || (unfold wire; app_solve)). out_step. by destruct t.
Qed.

#[export] Instance ack_laws : CodecLaws message_ack.
Proof.
  split; codec_cbn; try done.
  - by intros t (? & ? & _).
  - intros n t ? (? & ? & ?). split_and!; try done. by apply with_seq_wf.
  - intros t Ht. by rewrite zlen_wire_ack.
  - intros t old size Ht Hsz Ho. rewrite zlen_wire_ack by done. cbn in Hsz. apply ack_encode_ok; [done|lia|lia].
  - intros t old size Hsz. cbn in Hsz |- *. unfold message_ack_encode.
    cbv zeta. by rewrite (proj2 (Z.ltb_lt size _)) by config_lia.
  - intros t rest w Hw Ht _. eapply wp_lift; [by apply ack_decode_ok|].
    exists t. by rewrite zlen_wire_ack.
  - codec_invalid @message_ack_decode.
Qed.

(** * Data *)

(** The payload proper. *)
Definition payload (t : message_data) : list Z := ztake (data_data_size t) (data_data t).

#[export] Instance data_codec : Codec message_data := {
  codec_type := MESSAGE_DATA_TYPE;
  codec_header := data_header;
  codec_with_seq n t := MessageData (with_seq n (data_header t)) (data_data_version t)
                          (data_data_size t) (data_data t);
  codec_body t := wire_record (data_data_version t) ++ bytes_be 2 (data_data_size t) ++ payload t;
  codec_wf t := header_wf (data_header t) /\ mh_message_type (data_header t) = MESSAGE_DATA_TYPE /\
    record_wf (data_data_version t) /\ is_u16 (data_data_size t) /\
    data_data_size t <= zlen (data_data t);
  codec_eqv t t' := data_header t = data_header t' /\
    data_data_version t = data_data_version t' /\ data_data_size t = data_data_size t' /\
    payload t = payload t';
  codec_need t := 26 + data_data_size t;
  codec_encode := message_data_encode;
  codec_decode m size := liftO (message_data_decode m size)
}.

Lemma zlen_payload (t : message_data) : codec_wf t -> zlen (payload t) = data_data_size t.
Proof. intros (_ & _ & _ & [? _] & ?). by apply zlen_ztake. Qed.

Lemma zlen_wire_data (t : message_data) : codec_wf t -> zlen (wire t) = 26 + data_data_size t.
Proof.
  intros Ht. pose proof (zlen_payload t Ht) as Hp. destruct Ht as (Hh & _).
  unfold wire. cbn. autorewrite with zlen. rewrite zlen_wire_header, Hp by done. config_lia.
Qed.

Lemma data_encode_ok (t : message_data) old size :
  codec_wf t -> codec_need t <= size < 2 ^ 31 -> size <= zlen old ->
  message_data_encode t old size = Ok (zlen (wire t), wire t ++ zdrop (zlen (wire t)) old).
Proof.
  intros Ht Hsz Ho. rewrite (zlen_wire_data t Ht). pose proof (zlen_payload t Ht) as Hp.
  pose proof Ht as (Hh & _ & Hr & Hn & Ha). cbn in Hsz.
  pose proof (zlen_wire_header _ Hh) as Hlh. unfold message_data_encode.
  destruct (Z.ltb_spec size (sizeof_message_header + VECTOR_RECORD_SIZE + sizeof_u16
              + data_data_size t)) as [?|_]; [config_lia|].
  rewrite message_header_encode_at by (done || config_lia). out_step.
  change (sizeof_message_header <? 0) with false. cbn iota. rewrite u64_id by config_lia.
  rewrite (vector_clock_record_encode_at _ _ _ (wire_header (data_header t))
             (zdrop sizeof_message_header old))
    by (done || config_lia || (rewrite zlen_zdrop_max by config_lia; config_lia)). out_step.
  change (VECTOR_RECORD_SIZE <? 0) with false. cbn iota.
  rewrite (uint16_encode_at _ _ _ (wire_header (data_header t) ++ wire_record (data_data_version t))
             (zdrop VECTOR_RECORD_SIZE (zdrop sizeof_message_header old)))
    by (done || (autorewrite with zlen; config_lia)
        || (rewrite !zlen_zdrop_max by config_lia; config_lia)). out_step.
  rewrite rd_prefix by config_lia. out_step. fold (payload t).
  rewrite (wr_at _ _ ((wire_header (data_header t) ++ wire_record (data_data_version t))
                      ++ bytes_be 2 (data_data_size t))
             (zdrop 2 (zdrop VECTOR_RECORD_SIZE (zdrop sizeof_message_header old))));
    [|done|autorewrite with zlen; config_lia
     |rewrite Hp, !zlen_zdrop_max by config_lia; config_lia].
  out_step. rewrite Hp, !zdrop_zdrop by config_lia. rewrite i32_id by config_lia.
  do 2 f_equal. unfold wire. cbn. rewrite <- !app_assoc.
  do 5 f_equal. config_lia.
Qed.

(** The decoded payload pointer also gives access to what follows. *)
Lemma payload_extend (t : message_data) h v rest :
  codec_wf t -> payload (MessageData h v (data_data_size t) (payload t ++ rest)) = payload t.
Proof.
  intros Ht. unfold payload at 1. cbn [data_data_size data_data].
  rewrite <- (zlen_payload t Ht) at 1. apply ztake_app.
Qed.

Lemma data_decode_ok (t : message_data) rest :
  codec_wf t -> zlen (wire t) < 2 ^ 31 ->
  exists t', message_data_decode (wire t ++ rest) (zlen (wire t)) = Ok (zlen (wire t), Some t') /\
    codec_eqv t' t /\ codec_wf t'.
Proof.
  intros Ht Hb. pose proof (zlen_wire_data t Ht) as Hlw. pose proof (zlen_payload t Ht) as Hp.
  pose proof Ht as (Hh & Hty & Hr & Hn & Ha). pose proof (zlen_wire_header _ Hh) as Hlh.
  destruct (payload_ok _ (codec_body t) rest _ Hh Hty) as [Hv Hd].
  change (wire_header (data_header t) ++ codec_body t) with (wire t) in *.
  unfold message_data_decode. rewrite Hv. out_step. cbn [negb]. rewrite Hd. out_step.
  rewrite u64_id by config_lia.
  rewrite (vector_clock_record_decode_at (data_data_version t) _ _ (wire_header (data_header t))
             (bytes_be 2 (data_data_size t) ++ payload t ++ rest))
    by (done || config_lia || (unfold wire; cbn; app_solve)). out_step.
  rewrite (uint16_decode_at (data_data_size t) _ _
             (wire_header (data_header t) ++ wire_record (data_data_version t)) (payload t ++ rest))
    by (done || (autorewrite with zlen; config_lia) || (unfold wire; cbn; app_solve)). out_step.
  rewrite (proj2 (Z.eqb_eq (zlen (wire t)) _)) by config_lia. cbn [negb].
  rewrite i32_id by config_lia.
  assert (zdrop (sizeof_message_header + VECTOR_RECORD_SIZE + sizeof_u16) (wire t ++ rest)
          = payload t ++ rest) as ->.
  { rewrite <- (zdrop_app ((wire_header (data_header t) ++ wire_record (data_data_version t))
                   ++ bytes_be 2 (data_data_size t)) (payload t ++ rest)).
    f_equal; [autorewrite with zlen; config_lia|unfold wire; cbn; app_solve]. }
  eexists. split; [do 2 f_equal; config_lia|]. pose proof (zlen_nonneg rest).
  destruct (Z.ltb_spec 0 (data_data_size t)) as [Hpos|Hz]; cbn.
  - rewrite payload_extend, zlen_app, Hp by done. split_and!; try done. lia.
  - assert (data_data_size t = 0) as E by config_lia. unfold payload. cbn. rewrite E.
    split_and!; done.
Qed.

#[export] Instance data_laws : CodecLaws message_data.
Proof.
  split; codec_cbn; try done.
  - by intros t (? & ? & _).
  - intros n t ? (? & ? & ? & ? & ?). split_and!; try done. by apply with_seq_wf.
  - intros t Ht. by rewrite zlen_wire_data.
  - apply data_encode_ok.
  - intros t old size Hsz. cbn in Hsz |- *. unfold message_data_encode.
    cbv zeta. by rewrite (proj2 (Z.ltb_lt size _)) by config_lia.
  - intros t rest w Hw Ht Hb. destruct (data_decode_ok t rest Ht Hb) as (t' & E & He & Hwf).
    eapply wp_lift; [exact E|]. by exists t'.
  - codec_invalid @message_data_decode.
Qed.

(** * Status *)

#[export] Instance status_codec : Codec message_status := {
  codec_type := MESSAGE_STATUS_TYPE;
  codec_header := status_header;
  codec_with_seq n t := MessageStatus (with_seq n (status_header t)) (status_data_version t);
  codec_body t := wire_clock (status_data_version t);
  codec_wf t := header_wf (status_header t) /\
    mh_message_type (status_header t) = MESSAGE_STATUS_TYPE /\ clock_ok (status_data_version t);
  codec_eqv t t' := status_header t = status_header t' /\
    clock_eqv (status_data_version t) (status_data_version t');
  codec_need t := u32 (14 + vc_size (status_data_version t) * 12);
  codec_encode := message_status_encode;
  codec_decode m size := liftO (message_status_decode m size)
}.

Lemma zlen_wire_status (t : message_status) :
  codec_wf t -> zlen (wire t) = 14 + vc_size (status_data_version t) * 12.
Proof.
  intros (Hh & _ & Hc). unfold wire. cbn. rewrite zlen_app.
  rewrite zlen_wire_header, zlen_wire_clock by done. config_lia.
Qed.

Lemma status_need (t : message_status) : codec_wf t -> codec_need t = zlen (wire t).
Proof.
  intros Ht. rewrite zlen_wire_status by done. destruct Ht as (_ & _ & _ & Hn & _).
  apply u32_id. config_lia.
Qed.

Lemma status_encode_ok (t : message_status) old size :
  codec_wf t -> codec_need t <= size < 2 ^ 31 -> size <= zlen old ->
  message_status_encode t old size = Ok (zlen (wire t), wire t ++ zdrop (zlen (wire t)) old).
Proof.
  intros Ht Hsz Ho. rewrite (status_need t Ht) in Hsz. pose proof (zlen_wire_status t Ht) as Hlw.
  pose proof Ht as (Hh & _ & Hc). pose proof Hc as (_ & Hn & _).
  pose proof (zlen_wire_header _ Hh) as Hlh. pose proof (zlen_wire_clock _ Hc) as Hlc.
  unfold message_status_encode. rewrite u32_id by config_lia.
  destruct (Z.ltb_spec size (sizeof_message_header + sizeof_u16
              + vc_size (status_data_version t) * VECTOR_RECORD_SIZE)) as [?|_]; [config_lia|].
  rewrite message_header_encode_at by (done || config_lia). out_step.
  change (sizeof_message_header <? 0) with false. cbn iota. rewrite u64_id by config_lia.
  rewrite (vector_clock_encode_at _ _ _ (wire_header (status_header t))
             (zdrop sizeof_message_header old));
    [|done|done|done|config_lia|rewrite zlen_zdrop_max by config_lia; config_lia|config_lia].
  out_step. destruct (Z.ltb_spec (zlen (wire_clock (status_data_version t))) 0) as [?|_];
    [config_lia|]. rewrite zdrop_zdrop by config_lia. rewrite i32_id by config_lia.
  f_equal. f_equal; [config_lia|]. f_equal. f_equal. config_lia.
Qed.

Lemma status_decode_ok (t : message_status) rest :
  codec_wf t ->
  exists t', message_status_decode (wire t ++ rest) (zlen (wire t)) = Ok (zlen (wire t), Some t') /\
    codec_eqv t' t /\ codec_wf t'.
Proof.
  intros Ht. pose proof (zlen_wire_status t Ht) as Hlw. pose proof Ht as (Hh & Hty & Hc).
  pose proof Hc as (_ & Hn & _). pose proof (zlen_wire_header _ Hh) as Hlh.
  pose proof (zlen_wire_clock _ Hc) as Hlc.
  destruct (payload_ok _ (codec_body t) rest _ Hh Hty) as [Hv Hd].
  change (wire_header (status_header t) ++ codec_body t) with (wire t) in *.
  unfold message_status_decode. rewrite Hv. out_step. cbn [negb].
  destruct (Z.ltb_spec (zlen (wire t)) (sizeof_message_header + sizeof_u16)) as [?|_]; [config_lia|].
  rewrite Hd. out_step. rewrite u64_id by config_lia.
  destruct (vector_clock_decode_at (status_data_version t) (wire t ++ rest) sizeof_message_header
              (wire_header (status_header t)) rest (zlen (wire t) - sizeof_message_header)
              vector_clock_init) as (c' & Ec & He & Hok);
    [unfold wire; cbn; app_solve|done|done|config_lia|config_lia|done|].
  rewrite Ec. out_step.
  destruct (Z.ltb_spec (zlen (wire_clock (status_data_version t))) 0) as [?|_]; [config_lia|].
  rewrite i32_id by config_lia. eexists. split; [do 2 f_equal; config_lia|]. done.
Qed.

#[export] Instance status_laws : CodecLaws message_status.
Proof.
  split; codec_cbn; try done.
  - by intros t (? & ? & _).
  - intros n t ? (? & ? & ?). split_and!; try done. by apply with_seq_wf.
  - intros t Ht. by rewrite status_need.
  - apply status_encode_ok.
  - intros t old size Hsz. cbn in Hsz |- *. unfold message_status_encode. cbv zeta.
    change (sizeof_message_header + sizeof_u16) with 14. change VECTOR_RECORD_SIZE with 12.
    by rewrite (proj2 (Z.ltb_lt size _)).
  - intros t rest w Hw Ht _. destruct (status_decode_ok t rest Ht) as (t' & E & He & Hwf).
    eapply wp_lift; [exact E|]. by exists t'.
  - codec_invalid @message_status_decode.
Qed.

(** * Member list *)

Definition wire_members (l : list cluster_member) : list Z := mjoin (wire_member <$> l).

(** A member that fits the room the encoder reserves for one. *)
Definition listed_wf (m : cluster_member) : Prop :=
  member_wf m /\ cm_address_len m <= sizeof_sockaddr_storage.

#[export] Instance list_codec : Codec message_member_list := {
  codec_type := MESSAGE_MEMBER_LIST_TYPE;
  codec_header := ml_header;
  codec_with_seq n t := MessageMemberList (with_seq n (ml_header t)) (ml_members_n t) (ml_members t);
  codec_body t := bytes_be 2 (ml_members_n t) ++ wire_members (ml_members t);
  codec_wf t := header_wf (ml_header t) /\
    mh_message_type (ml_header t) = MESSAGE_MEMBER_LIST_TYPE /\
    ml_members_n t = zlen (ml_members t) /\ is_u16 (ml_members_n t) /\
    Forall listed_wf (ml_members t);
  codec_eqv t t' := ml_header t = ml_header t' /\ ml_members_n t = ml_members_n t' /\
    Forall2 member_eqv (ml_members t) (ml_members t');
  codec_need t := u32 (14 + ml_members_n t * CLUSTER_MEMBER_SIZE);
  codec_encode := message_member_list_encode;
  codec_decode := message_member_list_decode
}.

Lemma wire_members_cons m l : wire_members (m :: l) = wire_member m ++ wire_members l.
Proof. done. Qed.

Lemma zlen_wire_members l :
  Forall listed_wf l -> 0 <= zlen (wire_members l) <= zlen l * CLUSTER_MEMBER_SIZE.
Proof.
  induction 1 as [|m l [Hm Ha] _ IH]; [done|]. rewrite wire_members_cons, zlen_app, zlen_cons.
  rewrite zlen_wire_member by done. unfold wire_member_len. pose proof Hm as (_ & _ & Hl & _).
  config_lia.
Qed.

Lemma encode_members_at l ys : forall (i : nat) pre old cursor end_,
  Forall listed_wf ys -> drop i l = ys -> cursor = zlen pre -> end_ < 2 ^ 64 ->
  cursor + zlen ys * CLUSTER_MEMBER_SIZE <= end_ -> zlen ys * CLUSTER_MEMBER_SIZE <= zlen old ->
  encode_members (length ys) (Z.of_nat i) l (pre ++ old) cursor end_
    = Ok (cursor + zlen (wire_members ys),
          (pre ++ wire_members ys) ++ zdrop (zlen (wire_members ys)) old).
Proof.
  induction ys as [|m ys IH]; intros i pre old cursor end_ Hf E -> Hend Hb Ho.
  { change (wire_members []) with (@nil Z). rewrite (@zlen_nil Z), Z.add_0_r, zdrop_0.
    by rewrite app_nil_r. }
  apply Forall_cons in Hf as [[Hm Ha] Hf]. cbn [length encode_members]. rewrite zlen_cons in *.
  pose proof (zlen_nonneg pre) as Hpre. pose proof (zlen_nonneg ys) as Hys.
  pose proof Hm as (_ & _ & Hl & _). pose proof (zlen_wire_members _ Hf) as Hw.
  assert (l !! i = Some m) as Hi by (rewrite <- (Nat.add_0_r i), <- lookup_drop, E; done).
  rewrite (aread_Ok _ i m Hi). out_step. rewrite u64_id by config_lia.
  rewrite (cluster_member_encode_at m _ _ pre old);
    [|done|done|done|unfold wire_member_len; config_lia|unfold wire_member_len; config_lia
     |unfold wire_member_len; config_lia].
  out_step. replace (Z.of_nat i + 1) with (Z.of_nat (S i)) by lia.
  rewrite (IH (S i) (pre ++ wire_member m)); clear IH; try done.
  - rewrite wire_members_cons, zlen_app, zlen_wire_member by done. unfold wire_member_len.
    rewrite zdrop_zdrop by config_lia. rewrite <- !app_assoc. do 2 f_equal. config_lia.
  - rewrite <- (Nat.add_1_r i), <- drop_drop, E. done.
  - by rewrite zlen_app, zlen_wire_member.
  - unfold wire_member_len. config_lia.
  - unfold wire_member_len. rewrite zlen_zdrop_max by config_lia. config_lia.
Qed.

Lemma decode_members_at ys : forall pre rest cursor end_,
  Forall listed_wf ys -> cursor = zlen pre -> end_ < 2 ^ 31 ->
  cursor + zlen (wire_members ys) <= end_ ->
  exists ms, decode_members (length ys) (pre ++ wire_members ys ++ rest) cursor end_
      = Ok (inr (cursor + zlen (wire_members ys), ms)) /\
    Forall2 member_eqv ms ys /\ Forall listed_wf ms.
Proof.
  induction ys as [|m ys IH]; intros pre rest cursor end_ Hf -> Hend Hb.
  { exists []. change (wire_members []) with (@nil Z). rewrite (@zlen_nil Z), Z.add_0_r. done. }
  apply Forall_cons in Hf as [[Hm Ha] Hf]. cbn [length decode_members].
  rewrite wire_members_cons, zlen_app, zlen_wire_member in Hb by done.
  pose proof (zlen_nonneg pre) as Hpre. pose proof (zlen_wire_members _ Hf) as Hw.
  pose proof Hm as (_ & _ & Hl & _). unfold wire_member_len in Hb.
  rewrite u64_id by config_lia. rewrite wire_members_cons, <- app_assoc.
  destruct (member_decode_at m pre (wire_members ys ++ rest) (zlen pre) (end_ - zlen pre))
    as (m' & -> & He & Hwf & Hal); [done|done|config_lia|unfold wire_member_len; config_lia|].
  out_step. unfold wire_member_len.
  destruct (Z.ltb_spec (10 + cm_address_len m) 0) as [?|_]; [config_lia|].
  destruct (IH (pre ++ wire_member m) rest (zlen pre + (10 + cm_address_len m)) end_)
    as (ms & Ed & He' & Hwf'); [done| |done|lia|].
  { by rewrite zlen_app, zlen_wire_member. }
  rewrite (app_assoc pre), Ed. out_step. exists (m' :: ms).
  rewrite zlen_app, zlen_wire_member by done. unfold wire_member_len.
  split; [do 3 f_equal; lia|]. split; constructor; try done.
  split; [done|]. by rewrite Hal.
Qed.

Lemma zlen_wire_list (t : message_member_list) :
  codec_wf t -> zlen (wire t) = 14 + zlen (wire_members (ml_members t)).
Proof.
  intros (Hh & _). unfold wire. cbn. autorewrite with zlen.
  rewrite zlen_wire_header by done. config_lia.
Qed.

Lemma list_need (t : message_member_list) :
  codec_wf t -> codec_need t = 14 + zlen (ml_members t) * CLUSTER_MEMBER_SIZE.
Proof. intros (_ & _ & E & Hn & _). rewrite <- E. apply u32_id. config_lia. Qed.

Lemma list_encode_ok (t : message_member_list) old size :
  codec_wf t -> codec_need t <= size < 2 ^ 31 -> size <= zlen old ->
  message_member_list_encode t old size
    = Ok (zlen (wire t), wire t ++ zdrop (zlen (wire t)) old).
Proof.
  intros Ht Hsz Ho. pose proof (list_need t Ht) as Hneed. pose proof (zlen_wire_list t Ht) as Hlw.
  pose proof Ht as (Hh & _ & En & Hn & Hf). pose proof (zlen_wire_header _ Hh) as Hlh.
  pose proof (zlen_wire_members _ Hf) as Hlm.
  unfold message_member_list_encode. change (sizeof_message_header + sizeof_u16) with 14.
  fold (codec_need t). change (u32 (14 + ml_members_n t * CLUSTER_MEMBER_SIZE)) with (codec_need t).
  destruct (Z.ltb_spec size (codec_need t)) as [?|_]; [lia|]. rewrite Hneed in Hsz.
  rewrite message_header_encode_at by (done || config_lia). out_step.
  change (sizeof_message_header <? 0) with false. cbn iota.
  rewrite (uint16_encode_at _ _ _ (wire_header (ml_header t)) (zdrop sizeof_message_header old))
    by (done || (rewrite zlen_zdrop_max by config_lia; config_lia)). out_step.
  replace (Z.to_nat (ml_members_n t)) with (length (ml_members t))
    by (rewrite En; unfold zlen; lia).
  rewrite (encode_members_at (ml_members t) (ml_members t) 0
             (wire_header (ml_header t) ++ bytes_be 2 (ml_members_n t))); try done;
    [|autorewrite with zlen; config_lia|config_lia|config_lia
     |rewrite !zlen_zdrop_max by config_lia; config_lia].
  out_step. rewrite !zdrop_zdrop by config_lia. rewrite i32_id by config_lia. rewrite Hlw.
  do 2 f_equal. unfold wire. cbn. rewrite <- !app_assoc.
  do 4 f_equal. config_lia.
Qed.

Lemma wp_list_decode_any (t : message_member_list) rest w :
  codec_wf t -> zlen (wire t) < 2 ^ 31 ->
  wp (message_member_list_decode (wire t ++ rest) (zlen (wire t))) w (decoded_any t w).
Proof.
  intros Ht Hb. pose proof (zlen_wire_list t Ht) as Hlw.
  pose proof Ht as (Hh & Hty & En & Hn & Hf). pose proof (zlen_wire_header _ Hh) as Hlh.
  pose proof (zlen_wire_members _ Hf) as Hlm.
  destruct (payload_ok _ (codec_body t) rest _ Hh Hty) as [Hv Hd].
  change (wire_header (ml_header t) ++ codec_body t) with (wire t) in *.
  unfold message_member_list_decode. apply wp_bind. eapply wp_lift; [exact Hv|]. cbn [negb].
  destruct (Z.ltb_spec (zlen (wire t)) (sizeof_message_header + sizeof_u16)) as [?|_]; [config_lia|].
  apply wp_bind. eapply wp_lift; [exact Hd|]. apply wp_bind. eapply wp_lift.
  { apply (uint16_decode_at (ml_members_n t) _ _ (wire_header (ml_header t))
             (wire_members (ml_members t) ++ rest)); [|done|done]. unfold wire. cbn. app_solve. }
  apply wp_bind, wp_malloc. intros w' Hle _ Hs Hi. unfold decoded_any.
  destruct (alloc_ok (answers w) (allocs w)); [|by apply wp_ret].
  destruct (decode_members_at (ml_members t) (wire_header (ml_header t) ++ bytes_be 2 (ml_members_n t))
              rest (sizeof_message_header + sizeof_u16) (zlen (wire t)))
    as (ms & Em & He & Hwf);
    [done|autorewrite with zlen; config_lia|done|config_lia|].
  replace (Z.to_nat (ml_members_n t)) with (length (ml_members t))
    by (rewrite En; unfold zlen; lia).
  apply wp_bind. eapply wp_lift.
  { rewrite <- Em. f_equal. unfold wire. cbn. app_solve. }
  cbn beta iota. apply wp_ret. rewrite i32_id by config_lia.
  exists (MessageMemberList (ml_header t) (ml_members_n t) ms).
  split; [f_equal; config_lia|]. pose proof (Forall2_length _ _ _ He) as Hms.
  cbn. unfold zlen in *. rewrite Hms. by split_and!.
Qed.

Lemma wp_list_decode (t : message_member_list) rest w :
  no_oom w -> codec_wf t -> zlen (wire t) < 2 ^ 31 ->
  wp (message_member_list_decode (wire t ++ rest) (zlen (wire t))) w (decoded t w).
Proof.
  intros Hw Ht Hb. eapply wp_mono; [by apply wp_list_decode_any|]. intros r w'. by apply decoded_any_ok.
Qed.

#[export] Instance list_laws : CodecLaws message_member_list.
Proof.
  split; codec_cbn; try done.
  - by intros t (? & ? & _).
  - intros n t ? (? & ? & ? & ? & ?). split_and!; try done. by apply with_seq_wf.
  - intros t Ht. rewrite list_need, zlen_wire_list by done. destruct Ht as (_ & _ & _ & _ & Hf).
    pose proof (zlen_wire_members _ Hf). lia.
  - apply list_encode_ok.
  - intros t old size Hsz. cbn in Hsz |- *. unfold message_member_list_encode. cbv zeta.
    change (sizeof_message_header + sizeof_u16) with 14.
    by rewrite (proj2 (Z.ltb_lt size _)).
  - intros. by apply wp_list_decode.
  - codec_invalid @message_member_list_decode.
Qed.
