(* ===== verification/DataLogFacts.v ===== *)
(** The data log as a list of entries, one per originator: the invariant,
    and the list operation that logging a message implements. *)
From S2P Require Import Prelude.
From S2P Require Import Config.
From S2P Require Import Utils.
From S2P Require Import World.
From S2P Require Import Member.
From S2P Require Import VectorClock.
From S2P Require Import Messages.
From S2P Require Import DataLog.
From S2P Require Import MemberFacts.
From S2P Require Import VectorClockFacts.
From S2P Require Import WireFacts.
From S2P Require Import MessageFacts.

(** * Invariant and abstraction *)

(** What an entry says: originator, sequence number, payload. *)
Record log_entry := LogEntry { le_id : Z; le_seq : Z; le_payload : list Z }.

#[export] Instance log_entry_eq_dec : EqDecision log_entry.
Proof. solve_decision. Defined.

Definition entry_of (r : data_log_record) : log_entry :=
  LogEntry (vr_member_id (dr_version r)) (vr_sequence_number (dr_version r))
    (ztake (dr_data_size r) (dr_data r)).

Definition live_log (log : data_log) : list data_log_record :=
  take (Z.to_nat (dl_size log)) (dl_messages log).

Definition log_view (log : data_log) : list log_entry := entry_of <$> live_log log.

Definition log_record_wf (r : data_log_record) : Prop :=
  record_wf (dr_version r) /\ 0 <= dr_data_size r <= MESSAGE_MAX_SIZE.

#[export] Instance log_record_wf_dec r : Decision (log_record_wf r).
Proof. unfold log_record_wf. apply _. Defined.

Record log_wf (log : data_log) : Prop := LogWf {
  lw_cap : zlen (dl_messages log) = DATA_LOG_SIZE;
  lw_room : Forall (fun r => zlen (dr_data r) = MESSAGE_MAX_SIZE) (dl_messages log);
  lw_size : 0 <= dl_size log <= DATA_LOG_SIZE;
  lw_idx : 0 <= dl_current_idx log < DATA_LOG_SIZE;
  lw_next : dl_size log < DATA_LOG_SIZE -> dl_current_idx log = dl_size log;
  lw_live : Forall log_record_wf (live_log log);
  lw_ids : NoDup (le_id <$> log_view log)
}.

(** Logging on the list: in place, at the end, or over the oldest slot. *)
Definition log_put (cur : nat) (l : list log_entry) (e : log_entry) : list log_entry :=
  match list_find (fun x => le_id x = le_id e) l with
  | Some (i, _) => <[i := e]> l
  | None => if bool_decide (zlen l < DATA_LOG_SIZE) then l ++ [e] else <[cur := e]> l
  end.

(** The entry a data message stands for. *)
Definition data_entry (msg : message_data) : log_entry :=
  LogEntry (vr_member_id (data_data_version msg)) (vr_sequence_number (data_data_version msg))
    (payload msg).

Definition data_msg_wf (msg : message_data) : Prop :=
  record_wf (data_data_version msg) /\ 0 <= data_data_size msg <= MESSAGE_MAX_SIZE /\
  data_data_size msg <= zlen (data_data msg).

#[export] Instance data_msg_wf_dec m : Decision (data_msg_wf m).
Proof. unfold data_msg_wf. apply _. Defined.

Lemma log_put_in cur l e :
  (cur < length l)%nat \/ zlen l < DATA_LOG_SIZE -> e ∈ log_put cur l e.
Proof.
  intros Hc. unfold log_put. destruct (list_find _ l) as [[i x]|] eqn:E.
  - apply list_find_Some in E as (Hi%lookup_lt_Some & _).
    apply list_elem_of_lookup_2 with i. by apply list_lookup_insert_eq.
  - case_bool_decide as Hl.
    + apply elem_of_app. right. by left.
    + destruct Hc as [Hc|Hc]; [|lia]. apply list_elem_of_lookup_2 with cur.
      by apply list_lookup_insert_eq.
Qed.

Lemma NoDup_fmap_insert {A} (f : A -> Z) (l : list A) i e :
  NoDup (f <$> l) ->
  (forall j x, l !! j = Some x -> f x = f e -> j = i) -> NoDup (f <$> <[i := e]> l).
Proof.
  intros Hnd Hf. rewrite NoDup_alt in *. intros j k id. rewrite !list_lookup_fmap, !list_lookup_insert.
  repeat case_decide; cbn; try lia.
  - intros [= <-] (x & Hx & E)%fmap_Some. pose proof (Hf k x Hx (eq_sym E)). lia.
  - intros (x & Hx & E)%fmap_Some [= <-]. pose proof (Hf j x Hx (eq_sym E)). lia.
  - intros Hj Hk. apply (Hnd j k id); by rewrite list_lookup_fmap.
Qed.

Lemma log_put_ids cur l e : NoDup (le_id <$> l) -> NoDup (le_id <$> log_put cur l e).
Proof.
  intros Hnd. unfold log_put. destruct (list_find _ l) as [[i x]|] eqn:E.
  - apply list_find_Some in E as (Hi & Hx & _). apply NoDup_fmap_insert; [done|].
    intros j y Hj Ey. rewrite NoDup_alt in Hnd.
    apply (Hnd j i (le_id e)); rewrite list_lookup_fmap; [rewrite Hj|rewrite Hi]; cbn; congruence.
  - apply list_find_None in E. rewrite Forall_forall in E. case_bool_decide.
    + rewrite fmap_app. apply NoDup_app. split_and!; [done| |apply NoDup_singleton].
      intros id (y & -> & Hy)%list_elem_of_fmap Hid%list_elem_of_singleton. by apply (E y).
    + apply NoDup_fmap_insert; [done|]. intros j y Hj Ey. exfalso.
      apply (E y); [by eapply list_elem_of_lookup_2|done].
Qed.

(** * Logging *)

Section Log.
Context (log : data_log) (Hlog : log_wf log).

Lemma length_live_log : length (live_log log) = Z.to_nat (dl_size log).
Proof.
  destruct Hlog as [Hc _ Hs _ _ _ _]. unfold live_log. rewrite length_take.
  unfold zlen in Hc. config_lia.
Qed.

Lemma live_log_lookup k r : live_log log !! k = Some r -> dl_messages log !! k = Some r.
Proof. by intros [? _]%lookup_take_Some. Qed.

(** Filling a record copies the payload. *)
Lemma log_payload_ok (k : nat) version msg :
  (k < 25)%nat -> data_msg_wf msg ->
  exists r, log_payload log (Z.of_nat k) version msg = Ok (<[k := r]> (dl_messages log)) /\
    dr_version r = version /\ dr_data_size r = data_data_size msg /\
    zlen (dr_data r) = MESSAGE_MAX_SIZE /\
    ztake (dr_data_size r) (dr_data r) = payload msg.
Proof.
  intros Hk (_ & Hn & Hd). destruct Hlog as [Hc Hr _ _ _ _ _].
  assert (k < length (dl_messages log))%nat as Hlt by (unfold zlen in Hc; config_lia).
  destruct (lookup_lt_is_Some_2 _ _ Hlt) as [old Hold].
  pose proof (Forall_lookup_1 _ _ _ _ Hr Hold) as Hlen. cbn in Hlen.
  unfold log_payload. rewrite (aread_Ok _ _ old Hold). out_step.
  rewrite rd_prefix by lia. out_step. change MESSAGE_MAX_SIZE with 512 in *.
  assert (zlen (ztake (data_data_size msg) (data_data msg)) = data_data_size msg) as Hz
    by (apply zlen_ztake; lia).
  rewrite (wr_at _ 0 [] (dr_data old)) by (done || (rewrite Hz; lia)). out_step. rewrite Hz.
  rewrite awrite_Ok by done. eexists. split; [done|]. cbn. split_and!; try done.
  - rewrite zlen_app, Hz, zlen_zdrop by lia. lia.
  - rewrite <- Hz at 1. apply ztake_app.
Qed.

(** Replacing or adding one record. *)
Lemma log_wf_replace (k : nat) r size idx :
  log_record_wf r -> zlen (dr_data r) = MESSAGE_MAX_SIZE ->
  (size = dl_size log /\ Z.of_nat k < dl_size log \/
   size = dl_size log + 1 /\ Z.of_nat k = dl_size log) ->
  0 <= size <= DATA_LOG_SIZE -> 0 <= idx < DATA_LOG_SIZE ->
  (size < DATA_LOG_SIZE -> idx = size) ->
  let log' := DataLog (<[k := r]> (dl_messages log)) size idx in
  let view' := if bool_decide (Z.of_nat k = dl_size log) then log_view log ++ [entry_of r]
               else <[k := entry_of r]> (log_view log) in
  log_view log' = view' /\ (NoDup (le_id <$> view') -> log_wf log').
Proof.
  intros Hr Hd Hk Hsz Hi Hn log' view'. destruct Hlog as [Hc Hroom Hs _ _ Hl _].
  assert (length (dl_messages log) = 25%nat) as Hlen by (unfold zlen in Hc; config_lia).
  assert (live_log log' = if bool_decide (Z.of_nat k = dl_size log) then live_log log ++ [r]
                          else <[k := r]> (live_log log)) as Hlive.
  { unfold live_log. subst log'. cbn. destruct Hk as [[-> Hk]|[-> Hk]].
    - rewrite bool_decide_false by lia. by rewrite take_insert_lt by lia.
    - rewrite bool_decide_true by lia.
      replace (Z.to_nat (dl_size log + 1)) with (S k) by lia.
      rewrite (take_S_r _ _ r) by (apply list_lookup_insert_eq; config_lia).
      rewrite take_insert_ge by lia. by replace (Z.to_nat (dl_size log)) with k by lia. }
  assert (log_view log' = view') as Hv.
  { unfold log_view at 1. rewrite Hlive. subst view'. case_bool_decide.
    - by rewrite fmap_app.
    - by rewrite list_fmap_insert. }
  split; [exact Hv|]. intros Hnd. split; cbn; try done.
  - unfold zlen in *. by rewrite length_insert.
  - by apply Forall_insert.
  - rewrite Hlive. case_bool_decide; [apply Forall_app; auto|by apply Forall_insert].
  - by rewrite Hv.
Qed.

(** The two together: what writing a message to slot [k] does. *)
Lemma log_store (k : nat) version msg size idx :
  data_msg_wf msg -> version = data_data_version msg ->
  (size = dl_size log /\ Z.of_nat k < dl_size log \/
   size = dl_size log + 1 /\ Z.of_nat k = dl_size log) ->
  0 <= size <= DATA_LOG_SIZE -> 0 <= idx < DATA_LOG_SIZE ->
  (size < DATA_LOG_SIZE -> idx = size) ->
  let view' := if bool_decide (Z.of_nat k = dl_size log) then log_view log ++ [data_entry msg]
               else <[k := data_entry msg]> (log_view log) in
  exists messages, log_payload log (Z.of_nat k) version msg = Ok messages /\
    log_view (DataLog messages size idx) = view' /\
    (NoDup (le_id <$> view') -> log_wf (DataLog messages size idx)).
Proof.
  intros Hm -> Hk Hsz Hi Hn view'. pose proof Hm as (Hv & Hd & _).
  destruct (log_payload_ok k (data_data_version msg) msg) as (r & E & Ev & Es & Hz & Ep);
    [config_lia|done|].
  assert (entry_of r = data_entry msg) as Ee by (unfold entry_of, data_entry; by rewrite Ev, Ep).
  assert (log_record_wf r) as Hr by (split; [by rewrite Ev|by rewrite Es]).
  destruct (log_wf_replace k r size idx Hr Hz Hk Hsz Hi Hn) as [Hview Hwf].
  rewrite Ee in Hview, Hwf. by exists (<[k := r]> (dl_messages log)).
Qed.

(** The search loop over the live records. *)
Lemma log_search id :
  ofind (Z.to_nat (dl_size log)) 0
    (fun i => rec ← aread (dl_messages log) i; mret (vr_member_id (dr_version rec) =? id))
  = Ok ((fun r => Z.of_nat (fst r)) <$> list_find (fun x => le_id x = id) (log_view log)).
Proof.
  rewrite <- length_live_log.
  rewrite (ofind_list_find (fun r => le_id (entry_of r) = id)).
  2:{ intros k r Hk. rewrite Z.add_0_l, (aread_Ok _ _ r) by by apply live_log_lookup. out_step.
      f_equal. case_bool_decide; [by apply Z.eqb_eq|by apply Z.eqb_neq]. }
  f_equal. unfold log_view. rewrite list_find_fmap, <- option_fmap_compose.
  apply option_fmap_ext. by intros [k r].
Qed.

(** Logging a message. *)
Lemma gossip_data_log_repr msg :
  data_msg_wf msg ->
  exists log', gossip_data_log log msg = Ok log' /\ log_wf log' /\
    log_view log' = log_put (Z.to_nat (dl_current_idx log)) (log_view log) (data_entry msg).
Proof.
  intros Hm. pose proof (log_put_ids (Z.to_nat (dl_current_idx log)) (log_view log)
                           (data_entry msg) (lw_ids _ Hlog)) as Hnd.
  pose proof Hlog as [_ _ Hs Hi Hci _ _]. pose proof length_live_log as Hll.
  assert (zlen (log_view log) = dl_size log) as Hzl
    by (unfold zlen, log_view; rewrite length_fmap; lia).
  unfold gossip_data_log. rewrite log_search. out_step. unfold log_put in *.
  change (le_id (data_entry msg)) with (vr_member_id (data_data_version msg)) in *.
  destruct (list_find _ (log_view log)) as [[k e]|] eqn:E; cbn [fmap option_fmap option_map fst].
  - apply list_find_Some in E as (Hk & Hid & _). pose proof (lookup_lt_Some _ _ _ Hk) as Hlt.
    unfold log_view in Hlt. rewrite length_fmap, Hll in Hlt.
    unfold log_view in Hk. rewrite list_lookup_fmap in Hk.
    apply fmap_Some in Hk as (old & Hold & ->).
    rewrite (aread_Ok _ _ old) by by apply live_log_lookup. out_step.
    change (vr_member_id (dr_version old)) with (le_id (entry_of old)).
    rewrite Hid, vector_record_eta.
    destruct (log_store k (data_data_version msg) msg (dl_size log) (dl_current_idx log))
      as (messages & -> & Hv & Hwf); [done|done|left; lia|lia|lia|done|].
    rewrite bool_decide_false in Hv, Hwf by lia. out_step. by eauto.
  - assert (bool_decide (zlen (log_view log) < DATA_LOG_SIZE)
            = bool_decide (Z.of_nat (Z.to_nat (dl_current_idx log)) = dl_size log)) as Eb
      by (apply bool_decide_ext; lia).
    rewrite Eb in *. unfold vector_clock_record_copy. rewrite vector_record_eta.
    rewrite u32_id by config_lia.
    replace (log_payload log (dl_current_idx log))
      with (log_payload log (Z.of_nat (Z.to_nat (dl_current_idx log)))) by (f_equal; lia).
    edestruct (log_store (Z.to_nat (dl_current_idx log)) (data_data_version msg) msg)
      as (messages & -> & Hv & Hwf); cycle 6.
    { out_step. eexists. split; [done|]. split; [by apply Hwf|exact Hv]. }
    all: try done.
    + destruct (Z.ltb_spec (dl_size log) DATA_LOG_SIZE); [right|left]; lia.
    + destruct (Z.ltb_spec (dl_size log) DATA_LOG_SIZE); lia.
    + destruct (Z.leb_spec DATA_LOG_SIZE (dl_current_idx log + 1)); config_lia.
    + destruct (Z.ltb_spec (dl_size log) DATA_LOG_SIZE),
        (Z.leb_spec DATA_LOG_SIZE (dl_current_idx log + 1)); config_lia.
Qed.
End Log.

(** The empty log. *)
Lemma empty_log_wf messages :
  zlen messages = DATA_LOG_SIZE -> Forall (fun r => zlen (dr_data r) = MESSAGE_MAX_SIZE) messages ->
  log_wf (DataLog messages 0 0).
Proof. intros. split; cbn; try done. constructor. Qed.
