(* ===== verification/OutboxFacts.v ===== *)
(** The output buffer: which slot a new message gets, and which envelopes
    are dropped when all slots are in use. *)
From S2P Require Import Prelude.
From S2P Require Import Config.
From S2P Require Import Utils.
From S2P Require Import World.
From S2P Require Import Member.
From S2P Require Import VectorClock.
From S2P Require Import Messages.
From S2P Require Import Queue.
From S2P Require Import DataLog.
From S2P Require Import Gossip.
From S2P Require Import QueueFacts.

(** * Slots *)

(** An envelope on one of the slots of the output buffer. *)
Definition slot_of (x : message_envelope_out) : Z := en_buffer x / MESSAGE_MAX_SIZE.
Definition slot_ok (x : message_envelope_out) : Prop :=
  0 <= en_buffer x < OUTPUT_BUFFER_SIZE /\ en_buffer x mod MESSAGE_MAX_SIZE = 0.

#[export] Instance slot_ok_dec x : Decision (slot_ok x).
Proof. unfold slot_ok. apply _. Defined.

Definition slots_ok (xs : list entry) : Prop := Forall (fun e => slot_ok (snd e)) xs.

(** Slot [i] is used by an envelope. *)
Definition slot_used (i : Z) (xs : list entry) : Prop := Exists (fun e => slot_of (snd e) = i) xs.

#[export] Instance slot_used_dec i xs : Decision (slot_used i xs).
Proof. unfold slot_used. apply _. Defined.

Lemma slot_ok_range x : slot_ok x -> 0 <= slot_of x < MAX_OUTPUT_MESSAGES.
Proof.
  intros [Hb _]. unfold slot_of. split; [apply Z.div_pos; config_lia|].
  apply Z.div_lt_upper_bound; config_lia.
Qed.

Lemma slot_ok_buffer x : slot_ok x -> en_buffer x = slot_of x * MESSAGE_MAX_SIZE.
Proof.
  intros [_ Hm]. unfold slot_of. pose proof (Z.div_mod (en_buffer x) MESSAGE_MAX_SIZE). config_lia.
Qed.

(** * The scan *)

(** [i] is the first position with the most attempts. *)
Definition oldest_at (xs : list entry) (i : nat) (l : loc) (x : message_envelope_out) : Prop :=
  xs !! i = Some (l, x) /\
  forall j l' y, xs !! j = Some (l', y) ->
    en_attempt_num y <= en_attempt_num x /\
    ((j < i)%nat -> en_attempt_num y < en_attempt_num x).

Definition oldest_inv (pre : list entry) (o : option loc) : Prop :=
  match o with
  | None => pre = []
  | Some l => exists i x, oldest_at pre i l x
  end.

Definition occupied_inv (pre : list entry) (occ : list bool) : Prop :=
  length occ = 100%nat /\
  forall i : nat, (i < 100)%nat -> occ !! i = Some (bool_decide (slot_used (Z.of_nat i) pre)).

Lemma oldest_at_snoc pre i l x l' y :
  oldest_at pre i l x ->
  oldest_at (pre ++ [(l', y)])
    (if en_attempt_num x <? en_attempt_num y then length pre else i)
    (if en_attempt_num x <? en_attempt_num y then l' else l)
    (if en_attempt_num x <? en_attempt_num y then y else x).
Proof.
  intros [Hi Hm]. destruct (Z.ltb_spec (en_attempt_num x) (en_attempt_num y)) as [Hlt|Hge].
  - split; [by rewrite list_lookup_middle|].
    intros j l2 z [Hj|[Hge [Hj [= -> ->]]%list_lookup_singleton_Some]]%lookup_app_Some; [|lia].
    specialize (Hm _ _ _ Hj). lia.
  - split; [apply lookup_app_l_Some, Hi|]. apply lookup_lt_Some in Hi.
    intros j l2 z [Hj|[Hge' [Hj [= -> ->]]%list_lookup_singleton_Some]]%lookup_app_Some;
      [by apply (Hm _ _ _ Hj)|lia].
Qed.

Lemma occupied_inv_snoc pre occ l x :
  slot_ok x -> occupied_inv pre occ ->
  occupied_inv (pre ++ [(l, x)]) (<[Z.to_nat (slot_of x) := true]> occ).
Proof.
  intros Hx [Hl Ho]. pose proof (slot_ok_range x Hx) as Hr. split; [by rewrite length_insert|].
  intros i Hi. rewrite list_lookup_insert. case_decide as Hd.
  - destruct Hd as [<- _]. f_equal. symmetry. apply bool_decide_eq_true.
    apply Exists_app. right. apply Exists_cons. left. cbn. lia.
  - rewrite Ho by done. f_equal. apply bool_decide_ext. unfold slot_used.
    rewrite Exists_app, Exists_cons, Exists_nil. cbn.
    assert (slot_of x <> Z.of_nat i) by (intros ?; apply Hd; lia). tauto.
Qed.

Section Scan.
Context (q : message_queue) (xs : list entry) (Hq : queue_repr q xs) (Hs : slots_ok xs).

Lemma scan_loop_suffix ys : forall pre fuel oldest occ,
  xs = pre ++ ys -> (length ys <= fuel)%nat ->
  oldest_inv pre oldest -> occupied_inv pre occ ->
  exists oldest' occ', scan_loop fuel (fst <$> head ys) oldest occ q = Ok (oldest', occ') /\
    oldest_inv xs oldest' /\ occupied_inv xs occ'.
Proof.
  induction ys as [|[l x] ys IH]; intros pre fuel oldest occ E Hf Ho Hc.
  { exists oldest, occ. rewrite app_nil_r in E. subst. by destruct fuel. }
  destruct fuel as [|fuel]; cbn in Hf; [lia|].
  change (fst <$> head ((l, x) :: ys)) with (Some l). cbn [scan_loop].
  rewrite (deref_suffix q xs Hq _ _ _ _ E). out_step.
  cbn [en_attempt_num en_buffer en_next link set_prev set_next].
  assert (slot_ok x) as Hx.
  { rewrite E in Hs. by apply Forall_app in Hs as [_ [? _]%Forall_cons]. }
  pose proof (slot_ok_range x Hx) as Hr. fold (slot_of x).
  rewrite u32_id by config_lia. rewrite <- (Z2Nat.id (slot_of x)) by lia.
  pose proof Hc as [Hl _].
  assert (xs = (pre ++ [(l, x)]) ++ ys) as E' by by rewrite <- app_assoc.
  pose proof (occupied_inv_snoc pre occ l x Hx Hc) as Hc'.
  destruct oldest as [o|].
  - destruct Ho as (i & z & Hold). pose proof Hold as [Hi _].
    rewrite (repr_deref q xs Hq i o z) by (rewrite E; by apply lookup_app_l_Some). out_step.
    cbn [en_attempt_num link set_prev set_next].
    rewrite awrite_Ok by config_lia. out_step.
    apply (oldest_at_snoc _ _ _ _ l x) in Hold.
    apply (IH _ _ _ _ E'); [lia| |done].
    destruct (en_attempt_num z <? en_attempt_num x); by eexists _, _.
  - cbn in Ho. subst pre. out_step. rewrite awrite_Ok by config_lia. out_step.
    apply (IH _ _ _ _ E'); [lia| |done]. exists 0%nat, x. split; [done|].
    intros j l' y [-> [= -> ->]]%list_lookup_singleton_Some. lia.
Qed.

Lemma scan_loop_ok :
  exists oldest occ,
    scan_loop (queue_fuel q) (q_head q) None
      (replicate (Z.to_nat MAX_OUTPUT_MESSAGES) false) q = Ok (oldest, occ) /\
    oldest_inv xs oldest /\ occupied_inv xs occ.
Proof.
  unfold queue_fuel. rewrite (qr_head _ _ Hq), (repr_size q xs Hq).
  apply (scan_loop_suffix xs []); [done|lia|done|]. split; [done|].
  intros i Hi. rewrite lookup_replicate_2 by config_lia. done.
Qed.
End Scan.

(** * Eviction *)

(** The envelopes from the first that is not on buffer [c]. *)
Fixpoint drop_run (c : Z) (ys : list entry) : list entry :=
  match ys with
  | [] => []
  | (l, x) :: ys' => if en_buffer x =? c then drop_run c ys' else ys
  end.

(** The queue without the run of envelopes on buffer [c] from [i] on. *)
Definition evict (i : nat) (c : Z) (xs : list entry) : list entry :=
  take i xs ++ drop_run c (drop i xs).

Lemma evict_loop_ok c ys : forall fuel q i xs,
  queue_repr q xs -> drop i xs = ys -> (i <= length xs)%nat -> (length ys <= fuel)%nat ->
  exists q', evict_loop fuel (fst <$> head ys) c q = Ok q' /\
    queue_repr q' (take i xs ++ drop_run c ys).
Proof.
  induction ys as [|[l x] ys IH]; intros fuel q i xs Hq E Hi Hf.
  { exists q. split; [by destruct fuel|]. cbn. rewrite app_nil_r.
    rewrite <- (take_drop i xs), E, app_nil_r in Hq. by destruct fuel. }
  destruct fuel as [|fuel]; cbn in Hf; [lia|].
  change (fst <$> head ((l, x) :: ys)) with (Some l). cbn [evict_loop drop_run].
  assert (xs = take i xs ++ (l, x) :: ys) as Exs by by rewrite <- E, take_drop.
  assert (length (take i xs) = i) as Hti by (rewrite length_take; lia).
  rewrite (deref_suffix q xs Hq _ _ _ _ Exs). out_step.
  cbn [en_buffer en_next link set_prev set_next].
  destruct (en_buffer x =? c); [|exists q; split; [done|by rewrite <- Exs]].
  assert (xs !! i = Some (l, x)) as Hx by (rewrite Exs; by apply list_lookup_middle).
  destruct (remove_repr q xs Hq i l x Hx) as (q1 & -> & Hq1). out_step.
  assert (delete i xs = take i xs ++ ys) as Ed.
  { rewrite delete_take_drop, <- (Nat.add_1_r i), <- drop_drop, E. done. }
  destruct (IH fuel q1 i (delete i xs)) as (q' & -> & Hq'); [done| | |lia|].
  - by rewrite Ed, drop_app_length' by done.
  - rewrite Ed, length_app. lia.
  - exists q'. split; [done|]. rewrite Ed in Hq'. by rewrite take_app_length' in Hq'.
Qed.

(** * The slot of a new message *)

(** [available xs slot xs']: the first slot that no envelope uses, or the
    slot of the oldest envelope, whose run is dropped. *)
Inductive available (xs : list entry) : Z -> list entry -> Prop :=
| AvailFree i :
    0 <= i < MAX_OUTPUT_MESSAGES -> ~ slot_used i xs ->
    (forall j, 0 <= j < i -> slot_used j xs) ->
    available xs i xs
| AvailEvict i l x :
    (forall j, 0 <= j < MAX_OUTPUT_MESSAGES -> slot_used j xs) ->
    oldest_at xs i l x ->
    available xs (slot_of x) (evict i (en_buffer x) xs).

Lemma drop_run_incl c ys e : e ∈ drop_run c ys -> e ∈ ys.
Proof.
  induction ys as [|[l x] ys IH]; [done|]. cbn. destruct (_ =? _); [|done].
  intros He. right. by apply IH.
Qed.

Lemma evict_incl i c xs e : e ∈ evict i c xs -> e ∈ xs.
Proof.
  unfold evict. rewrite elem_of_app. intros [He|He%drop_run_incl].
  - by eapply subseteq_take.
  - by eapply subseteq_drop.
Qed.

Lemma available_incl xs slot xs' e : available xs slot xs' -> e ∈ xs' -> e ∈ xs.
Proof. destruct 1; [done|]. apply evict_incl. Qed.

Lemma available_range xs slot xs' :
  slots_ok xs -> available xs slot xs' -> 0 <= slot < MAX_OUTPUT_MESSAGES.
Proof.
  intros Hs [i Hi _ _|i l x _ [Hx _]]; [done|]. apply slot_ok_range.
  apply (Forall_lookup_1 _ _ _ _ Hs Hx).
Qed.

Lemma available_sub xs slot xs' : available xs slot xs' -> xs' `sublist_of` xs.
Proof.
  destruct 1 as [|i l x _ _]; [done|].
  assert (evict i (en_buffer x) xs `sublist_of` take i xs ++ drop i xs) as H.
  { apply sublist_app; [done|]. generalize (drop i xs) as ys.
    induction ys as [|[l' y] ys IH]; [done|]. cbn. destruct (_ =? _); [|done].
    by apply sublist_cons. }
  by rewrite take_drop in H.
Qed.

Section Find.
Context (q : message_queue) (xs : list entry) (Hq : queue_repr q xs) (Hs : slots_ok xs).

Lemma first_free_ok occ :
  occupied_inv xs occ ->
  exists r, ofind (Z.to_nat MAX_OUTPUT_MESSAGES) 0
    (fun i => b ← aread occ i; mret (negb b)) = Ok r /\
  match r with
  | Some i => 0 <= i < MAX_OUTPUT_MESSAGES /\ ~ slot_used i xs /\
              (forall j, 0 <= j < i -> slot_used j xs)
  | None => forall j, 0 <= j < MAX_OUTPUT_MESSAGES -> slot_used j xs
  end.
Proof.
  intros [Hl Ho]. change (Z.to_nat MAX_OUTPUT_MESSAGES) with 100%nat. rewrite <- Hl.
  rewrite (ofind_list_find (fun b : bool => b = false)).
  2:{ intros k b Hb. rewrite Z.add_0_l, (aread_Ok _ _ b) by done. out_step. by destruct b. }
  eexists. split; [done|].
  assert (forall j, 0 <= j < 100 -> occ !! Z.to_nat j = Some (bool_decide (slot_used j xs))) as Hj.
  { intros j Hj. rewrite Ho, Z2Nat.id by lia. done. }
  destruct (list_find _ occ) as [[k b]|] eqn:E; cbn.
  - apply list_find_Some in E as (Hk & -> & Hf). pose proof (lookup_lt_Some _ _ _ Hk) as Hlt.
    split; [config_lia|]. split.
    + specialize (Hj (Z.of_nat k)). rewrite Nat2Z.id, Hk in Hj.
      intros Hu. rewrite bool_decide_true in Hj by done. by discriminate Hj; lia.
    + intros j Hjk. specialize (Hj j ltac:(lia)). apply (Hf _ _) in Hj; [|lia].
      apply not_false_iff_true, bool_decide_eq_true in Hj. done.
  - intros j Hjr. apply list_find_None in E. rewrite Forall_forall in E.
    specialize (Hj j Hjr). apply list_elem_of_lookup_2, E in Hj.
    apply not_false_iff_true, bool_decide_eq_true in Hj. done.
Qed.

Lemma find_available_repr :
  exists slot q' xs', gossip_find_available_output_buffer q = Ok (slot * MESSAGE_MAX_SIZE, q') /\
    queue_repr q' xs' /\ available xs slot xs'.
Proof.
  unfold gossip_find_available_output_buffer.
  destruct (scan_loop_ok q xs Hq Hs) as (oldest & occ & -> & Hold & Hocc). out_step.
  destruct (first_free_ok occ Hocc) as (r & -> & Hr). out_step. destruct r as [i|].
  - exists i, q, xs. split; [done|]. split; [done|]. destruct Hr as (? & ? & ?). by constructor.
  - destruct oldest as [o|].
    2:{ cbn in Hold. rewrite Hold in Hr. destruct (Exists_nil (fun e : entry => slot_of (snd e) = 0)).
        destruct H. by apply (Hr 0). }
    destruct Hold as (i & x & Hold). pose proof Hold as [Hi _].
    rewrite (repr_deref q xs Hq i o x Hi). out_step. cbn [en_buffer link set_prev set_next].
    pose proof (drop_S _ _ _ Hi) as Ed. pose proof (lookup_lt_Some _ _ _ Hi) as Hlt.
    destruct (evict_loop_ok (en_buffer x) (drop i xs) (queue_fuel q) q i xs)
      as (q' & Ee & Hq'); [done|done|lia| |].
    { unfold queue_fuel. rewrite (repr_size q xs Hq), length_drop. lia. }
    rewrite Ed in Ee. change (fst <$> head ((o, x) :: drop (S i) xs)) with (Some o) in Ee.
    rewrite Ee. out_step. exists (slot_of x), q', (evict i (en_buffer x) xs).
    split; [|split; [done|by apply (AvailEvict xs i o x)]].
    rewrite <- slot_ok_buffer; [done|]. apply (Forall_lookup_1 _ _ _ _ Hs Hi).
Qed.
End Find.

(** * When the chosen slot is really free *)

(** Envelopes on the same slot are next to each other, and the first of
    them has been attempted most often. *)
Definition grouped (xs : list entry) : Prop :=
  forall i j k l x l' y l2 z, (i <= k <= j)%nat ->
    xs !! i = Some (l, x) -> xs !! j = Some (l', y) -> xs !! k = Some (l2, z) ->
    en_buffer x = en_buffer y ->
    en_buffer z = en_buffer x /\ en_attempt_num y <= en_attempt_num x.

(** The slot that will be chosen is used by no envelope that stays: either
    some slot is free, or the envelopes are grouped. *)
Definition slot_to_spare (xs : list entry) : Prop :=
  grouped xs \/ exists i, 0 <= i < MAX_OUTPUT_MESSAGES /\ ~ slot_used i xs.

Lemma drop_run_free c ys :
  (forall i j k l x l' y l2 z, (i <= k <= j)%nat ->
    ys !! i = Some (l, x) -> ys !! j = Some (l', y) -> ys !! k = Some (l2, z) ->
    en_buffer x = en_buffer y -> en_buffer z = en_buffer x) ->
  (exists l x ys', ys = (l, x) :: ys' /\ en_buffer x = c) ->
  Forall (fun e => en_buffer (snd e) <> c) (drop_run c ys).
Proof.
  intros Hg (l & x & ys' & -> & Hx). cbn. rewrite (proj2 (Z.eqb_eq _ _) Hx).
  assert (forall k l2 z, ys' !! k = Some (l2, z) -> en_buffer z = c ->
            forall j l3 z', (j <= k)%nat -> ys' !! j = Some (l3, z') -> en_buffer z' = c) as Hrun.
  { intros k l2 z Hk Hz j l3 z' Hjk Hj. rewrite <- Hx.
    apply (Hg 0%nat (S k) (S j) l x l2 z l3 z'); [lia|done|done|done|congruence]. }
  clear Hg Hx. induction ys' as [|[l1 y] ys IH]; [constructor|]. cbn.
  destruct (Z.eqb_spec (en_buffer y) c) as [E|Hne].
  - apply IH. intros k l2 z Hk Hz j l3 z' Hjk Hj.
    apply (Hrun (S k) l2 z Hk Hz (S j) l3 z'); [lia|done].
  - apply Forall_forall. intros [l2 z] [k Hk]%list_elem_of_lookup Hz. apply Hne.
    by apply (Hrun k l2 z Hk Hz 0%nat l1 y); [lia|].
Qed.

Lemma available_free xs slot xs' :
  slots_ok xs -> slot_to_spare xs -> available xs slot xs' -> ~ slot_used slot xs'.
Proof.
  intros Hs Hg [i Hi Hf _|i l x Hall [Hi Hold]]; [done|].
  destruct Hg as [Hg|(j & Hj & Hf)]; [|by destruct Hf; apply Hall].
  pose proof (Forall_lookup_1 _ _ _ _ Hs Hi) as Hx. cbn in Hx.
  assert (forall e, e ∈ xs -> slot_of (snd e) = slot_of x -> en_buffer (snd e) = en_buffer x) as Hb.
  { intros e He Es. rewrite !slot_ok_buffer; [by rewrite Es|done|].
    by apply (proj1 (Forall_forall _ _) Hs e He). }
  unfold slot_used. rewrite Exists_exists. intros (e & He & Es).
  pose proof (Hb e (evict_incl _ _ _ _ He) Es) as Eb. unfold evict in He.
  apply elem_of_app in He as [He|He].
  - apply list_elem_of_lookup in He as [j Hj]. apply lookup_take_Some in Hj as [Hj Hlt].
    destruct e as [l' y]. destruct (Hold _ _ _ Hj) as [_ Ho]. specialize (Ho Hlt).
    destruct (Hg j i i l' y l x l x) as [_ ?]; [lia|done|done|done|done|]. lia.
  - revert He Eb. pose proof (drop_run_free (en_buffer x) (drop i xs)) as Hr.
    rewrite Forall_forall in Hr. intros He Eb. apply (Hr) in He; [done| |].
    + intros a b c la xa lb xb lc xc Hc. rewrite !lookup_drop. intros Ha Hb' Hc'.
      apply (Hg (i + a)%nat (i + b)%nat (i + c)%nat la xa lb xb lc xc); [lia|done..].
    + exists l, x, (drop (S i) xs). by rewrite <- drop_S.
Qed.
