(* ===== verification/EnqueueFacts.v ===== *)
(** Enqueueing messages: the bytes written to the output buffer, the
    envelopes appended to the queue, and what stays unchanged. *)
From S2P Require Import Prelude.
From S2P Require Import Config.
From S2P Require Import Utils.
From S2P Require Import World.
From S2P Require Import Member.
From S2P Require Import VectorClock.
From S2P Require Import Messages.
From S2P Require Import Queue.
From S2P Require Import DataLog.
From S2P Require Import Gossip.
From S2P Require Import MemberFacts.
From S2P Require Import MemberSetFacts.
From S2P Require Import VectorClockFacts.
From S2P Require Import WireFacts.
From S2P Require Import MessageFacts.
From S2P Require Import QueueFacts.
From S2P Require Import OutboxFacts.

(** * Messages of any type *)

Definition msg_type_of (m : message) : Z :=
  match m with
  | MsgHello _ => MESSAGE_HELLO_TYPE
  | MsgWelcome _ => MESSAGE_WELCOME_TYPE
  | MsgMemberList _ => MESSAGE_MEMBER_LIST_TYPE
  | MsgData _ => MESSAGE_DATA_TYPE
  | MsgAck _ => MESSAGE_ACK_TYPE
  | MsgStatus _ => MESSAGE_STATUS_TYPE
  end.

(** Messages that are not acknowledged are sent once. *)
Definition msg_attempts (m : message) : Z :=
  match m with MsgWelcome _ | MsgAck _ => 1 | _ => MESSAGE_RETRY_ATTEMPTS end.

Definition msg_wire (m : message) : list Z :=
  match m with
  | MsgHello t => wire t | MsgWelcome t => wire t | MsgMemberList t => wire t
  | MsgData t => wire t | MsgAck t => wire t | MsgStatus t => wire t
  end.
Definition msg_wf (m : message) : Prop :=
  match m with
  | MsgHello t => codec_wf t | MsgWelcome t => codec_wf t | MsgMemberList t => codec_wf t
  | MsgData t => codec_wf t | MsgAck t => codec_wf t | MsgStatus t => codec_wf t
  end.
Definition msg_need (m : message) : Z :=
  match m with
  | MsgHello t => codec_need t | MsgWelcome t => codec_need t | MsgMemberList t => codec_need t
  | MsgData t => codec_need t | MsgAck t => codec_need t | MsgStatus t => codec_need t
  end.
Definition msg_with_seq (n : Z) (m : message) : message :=
  match m with
  | MsgHello t => MsgHello (codec_with_seq n t) | MsgWelcome t => MsgWelcome (codec_with_seq n t)
  | MsgMemberList t => MsgMemberList (codec_with_seq n t) | MsgData t => MsgData (codec_with_seq n t)
  | MsgAck t => MsgAck (codec_with_seq n t) | MsgStatus t => MsgStatus (codec_with_seq n t)
  end.

Lemma msg_need_wire m : msg_wf m -> sizeof_message_header <= zlen (msg_wire m) <= msg_need m.
Proof.
  destruct m; cbn [msg_wf msg_wire msg_need]; intros Hm;
    (split; [by apply codec_wire_min|by apply codec_need_wire]).
Qed.

Lemma msg_seq_wf n m : is_u32 n -> msg_wf m -> msg_wf (msg_with_seq n m).
Proof. destruct m; cbn [msg_wf msg_with_seq]; apply codec_seq_wf. Qed.

Lemma msg_seq_wire n m :
  msg_wf m ->
  msg_wire (msg_with_seq n m) = ztake 8 (msg_wire m) ++ bytes_be 4 n ++ zdrop 12 (msg_wire m).
Proof. destruct m; cbn [msg_wf msg_wire msg_with_seq]; apply wire_with_seq. Qed.

Lemma zlen_msg_seq_wire n m :
  msg_wf m -> zlen (msg_wire (msg_with_seq n m)) = zlen (msg_wire m).
Proof.
  intros Hm. pose proof (msg_need_wire m Hm) as [Hl _]. rewrite msg_seq_wire by done.
  rewrite !zlen_app, zlen_ztake, zlen_bytes_be, zlen_zdrop by config_lia. lia.
Qed.

Lemma gossip_encode_message_ok m buffer :
  msg_wf m -> msg_need m <= MESSAGE_MAX_SIZE -> MESSAGE_MAX_SIZE <= zlen buffer ->
  gossip_encode_message (msg_type_of m) m buffer
    = Ok (zlen (msg_wire m), msg_attempts m, msg_wire m ++ zdrop (zlen (msg_wire m)) buffer).
Proof.
  destruct m as [t|t|t|t|t|t]; cbn [msg_wf msg_need]; intros Hm Hn Hb;
    (pose proof (codec_encode_ok t buffer MESSAGE_MAX_SIZE Hm ltac:(config_lia) Hb) as E;
     cbn in E; unfold gossip_encode_message; cbn [msg_type_of]; cbn; rewrite E; done).
Qed.

Lemma gossip_encode_message_short m buffer :
  MESSAGE_MAX_SIZE < msg_need m ->
  gossip_encode_message (msg_type_of m) m buffer
    = Ok (PITTACUS_ERR_BUFFER_NOT_ENOUGH, msg_attempts m, buffer).
Proof.
  destruct m as [t|t|t|t|t|t]; cbn [msg_need]; intros Hn;
    (pose proof (codec_encode_short t buffer MESSAGE_MAX_SIZE Hn) as E;
     cbn in E; unfold gossip_encode_message; cbn [msg_type_of]; cbn; rewrite E; done).
Qed.

(** * Envelopes *)

(** A recipient: the bytes its address pointer gives access to, the length. *)
Abbreviation recipient := (list Z * Z)%type.

Definition recipient_ok (r : recipient) : Prop :=
  0 <= snd r <= zlen (fst r) /\ snd r <= sizeof_sockaddr_storage.

Definition recipient_of (m : cluster_member) : recipient := (cm_address m, cm_address_len m).

Lemma recipient_of_ok m : stored_wf m -> cm_address_len m <= sizeof_sockaddr_storage ->
  recipient_ok (recipient_of m).
Proof. intros [(_ & _ & [? _] & ?) _] ?. split; [cbn; lia|done]. Qed.

Definition new_envelope (slot size attempts seq : Z) (r : recipient) : message_envelope_out :=
  Envelope (ztake (snd r) (fst r)) (snd r) (slot * MESSAGE_MAX_SIZE) size seq 0 0 attempts None None.

(** One envelope for each recipient, numbered from [seq] on; the last
    number given. *)
Fixpoint new_envelopes (slot size attempts seq : Z) (rs : list recipient)
    : list message_envelope_out :=
  match rs with
  | [] => []
  | r :: rs => new_envelope slot size attempts (u32 (seq + 1)) r
               :: new_envelopes slot size attempts (u32 (seq + 1)) rs
  end.

Fixpoint last_seq (seq : Z) (rs : list recipient) : Z :=
  match rs with [] => seq | _ :: rs => last_seq (u32 (seq + 1)) rs end.

Lemma new_envelope_slot slot size attempts seq r : slot_of (new_envelope slot size attempts seq r) = slot.
Proof. unfold slot_of. cbn. apply Z.div_mul. done. Qed.

Lemma new_envelope_slot_ok slot size attempts seq r :
  0 <= slot < MAX_OUTPUT_MESSAGES -> slot_ok (new_envelope slot size attempts seq r).
Proof.
  intros Hs. split; cbn; [config_lia|]. by apply Z.mod_mul.
Qed.

Section Enqueue.
Context {Ctx : Type}.
Implicit Types n : node Ctx.

(** The queue and the output buffer of a node in good order. *)
Record outbox n (xs : list entry) : Prop := Outbox {
  ob_queue : queue_repr (g_outbound_messages (n_self n)) xs;
  ob_slots : slots_ok xs;
  ob_fresh : Forall (fun e => (fst e < allocs (n_world n))%nat) xs;
  ob_out : zlen (g_output_buffer (n_self n)) = OUTPUT_BUFFER_SIZE;
  ob_oom : no_oom (n_world n)
}.

(** What enqueueing does not touch. *)
Record enq_frame n n' : Prop := EnqFrame {
  ef_world : world_le (n_world n) (n_world n');
  ef_sent : sent (n_world n') = sent (n_world n);
  ef_inbox : inbox (n_world n') = inbox (n_world n);
  ef_context : n_context n' = n_context n;
  ef_socket : g_socket (n_self n') = g_socket (n_self n);
  ef_input : g_input_buffer (n_self n') = g_input_buffer (n_self n);
  ef_counter : g_data_counter (n_self n') = g_data_counter (n_self n);
  ef_version : g_data_version (n_self n') = g_data_version (n_self n);
  ef_state : g_state (n_self n') = g_state (n_self n);
  ef_address : g_self_address (n_self n') = g_self_address (n_self n);
  ef_members : g_members (n_self n') = g_members (n_self n);
  ef_log : g_data_log (n_self n') = g_data_log (n_self n);
  ef_ts : g_last_gossip_ts (n_self n') = g_last_gossip_ts (n_self n)
}.

#[export] Instance enq_frame_preorder : PreOrder enq_frame.
Proof.
  split.
  - intros n. by split.
  - intros n1 n2 n3 [] []. split; try congruence. by etrans.
Qed.

Lemma wp_self n (Q : pittacus_gossip -> node Ctx -> Prop) : Q (n_self n) n -> wp self n Q.
Proof. done. Qed.

Lemma wp_modify_self f n (Q : unit -> node Ctx -> Prop) :
  Q tt (Node (f (n_self n)) (n_world n) (n_context n)) -> wp (modify_self f) n Q.
Proof. done. Qed.

Lemma wp_liftW {A} (m : M world A) n (Q : A -> node Ctx -> Prop) :
  wp m (n_world n) (fun a w => Q a (Node (n_self n) w (n_context n))) -> wp (liftW m) n Q.
Proof. unfold wp, liftW. by destruct (m (n_world n)) as [[a w]| |]. Qed.

Lemma wp_queue_op f q' n (Q : unit -> node Ctx -> Prop) :
  f (g_outbound_messages (n_self n)) = Ok q' ->
  Q tt (Node (set_outbound_messages q' (n_self n)) (n_world n) (n_context n)) ->
  wp (queue_op f) n Q.
Proof.
  intros E HQ. unfold queue_op. apply wp_bind, wp_self, wp_bind.
  eapply wp_lift; [exact E|]. by apply wp_modify_self.
Qed.

(** A queue that shrinks or grows by entries with good slots. *)
Lemma outbox_update n n' xs xs' :
  outbox n xs -> queue_repr (g_outbound_messages (n_self n')) xs' -> slots_ok xs' ->
  Forall (fun e => (fst e < allocs (n_world n'))%nat) xs' ->
  g_output_buffer (n_self n') = g_output_buffer (n_self n) ->
  world_le (n_world n) (n_world n') -> outbox n' xs'.
Proof.
  intros [_ _ _ Ho Hoom] Hq Hs Hf E Hw. split; try done.
  - by rewrite E.
  - by eapply no_oom_le.
Qed.

Lemma fresh_le n n' xs :
  world_le (n_world n) (n_world n') ->
  Forall (fun e : entry => (fst e < allocs (n_world n))%nat) xs ->
  Forall (fun e : entry => (fst e < allocs (n_world n'))%nat) xs.
Proof. intros [_ Hw] Hf. apply (Forall_impl _ _ _ Hf). intros e ?. lia. Qed.

Lemma wp_enqueue_to_outbound n xs slot size attempts r :
  outbox n xs -> 0 <= slot < MAX_OUTPUT_MESSAGES -> recipient_ok r ->
  wp (gossip_enqueue_to_outbound (slot * MESSAGE_MAX_SIZE) size attempts (fst r) (snd r)) n
    (fun res n' => res = PITTACUS_ERR_NONE /\ enq_frame n n' /\
       g_output_buffer (n_self n') = g_output_buffer (n_self n) /\
       g_sequence_num (n_self n') = u32 (g_sequence_num (n_self n) + 1) /\
       exists l, outbox n' (xs ++ [(l, new_envelope slot size attempts
                                       (u32 (g_sequence_num (n_self n) + 1)) r)])).
Proof.
  intros Hn Hslot [Hr Hr']. pose proof Hn as [Hq Hs Hf Ho Hoom].
  unfold gossip_enqueue_to_outbound. apply wp_bind, wp_self.
  apply wp_bind, wp_modify_self, wp_bind, wp_liftW.
  unfold gossip_envelope_create. cbn [n_self n_world n_context].
  apply wp_bind, wp_malloc_ok; [done|]. intros w' Hle Ha Hsent Hin.
  apply wp_bind. eapply wp_lift; [by apply rd_prefix|].
  destruct (Z.ltb_spec sizeof_sockaddr_storage (snd r)) as [?|_]; [lia|].
  apply wp_ret. cbn beta iota.
  set (x := Envelope _ _ _ _ _ _ _ _ _ _). set (l := allocs (n_world n)) in *.
  apply wp_bind, wp_modify_self. cbn [n_self n_world n_context].
  destruct (enqueue_repr _ xs Hq l x) as (q' & Eq & Hq').
  { destruct (q_heap (g_outbound_messages (n_self n)) !! l) as [e|] eqn:E; [|done].
    apply (qr_only _ _ Hq) in E as ([l' y] & El & He)%list_elem_of_fmap. cbn in El. subst l'.
    pose proof (proj1 (Forall_forall _ _) Hf _ He) as Hlt. cbn in Hlt. lia. }
  { done. }
  apply wp_bind. eapply wp_queue_op; [exact Eq|]. apply wp_ret. cbn [n_self n_world n_context].
  split_and!; try done. exists l. apply (outbox_update n _ xs); try done.
  - apply Forall_app. split; [done|]. apply Forall_singleton. by apply new_envelope_slot_ok.
  - cbn [n_world]. rewrite Ha. apply Forall_app. split; [|apply Forall_singleton; cbn; lia].
    apply (Forall_impl _ _ _ Hf). intros e ?. lia.
Qed.

(** The state after enqueueing one envelope for each of [rs]. *)
Definition enqueued (slot size attempts : Z) (rs : list recipient) n xs n' : Prop :=
  enq_frame n n' /\ g_output_buffer (n_self n') = g_output_buffer (n_self n) /\
  g_sequence_num (n_self n') = last_seq (g_sequence_num (n_self n)) rs /\
  exists news : list entry,
    news.*2 = new_envelopes slot size attempts (g_sequence_num (n_self n)) rs /\
    outbox n' (xs ++ news).

Lemma enqueued_nil slot size attempts n xs : outbox n xs -> enqueued slot size attempts [] n xs n.
Proof.
  intros Hn. split_and!; try done. exists []. by rewrite app_nil_r.
Qed.

Lemma enqueued_cons slot size attempts r rs n xs n' l n2 :
  enq_frame n n' -> g_output_buffer (n_self n') = g_output_buffer (n_self n) ->
  g_sequence_num (n_self n') = u32 (g_sequence_num (n_self n) + 1) ->
  enqueued slot size attempts rs n'
    (xs ++ [(l, new_envelope slot size attempts (u32 (g_sequence_num (n_self n) + 1)) r)]) n2 ->
  enqueued slot size attempts (r :: rs) n xs n2.
Proof.
  intros Hf Ho Hseq (Hf' & Ho' & Hs' & news & En & Hn'). split; [by etrans|].
  split; [congruence|]. split; [by rewrite Hs', Hseq|].
  rewrite <- app_assoc in Hn'. eexists. split; [|exact Hn'].
  rewrite fmap_app, En, Hseq. done.
Qed.

Lemma wp_enqueue_all slot size attempts ms : forall n xs res,
  outbox n xs -> 0 <= slot < MAX_OUTPUT_MESSAGES ->
  Forall (fun m => recipient_ok (recipient_of m)) ms -> res = PITTACUS_ERR_NONE ->
  wp (enqueue_all (slot * MESSAGE_MAX_SIZE) size attempts ms res) n
    (fun r n' => r = PITTACUS_ERR_NONE /\
       enqueued slot size attempts (recipient_of <$> ms) n xs n').
Proof.
  induction ms as [|m ms IH]; intros n xs res Hn Hslot Hf ->.
  { apply wp_ret. split; [done|]. by apply enqueued_nil. }
  apply Forall_cons in Hf as [Hm Hf]. cbn [enqueue_all]. apply wp_bind.
  eapply wp_mono; [exact (wp_enqueue_to_outbound n xs slot size attempts (recipient_of m) Hn Hslot Hm)|].
  intros r n' (-> & Hfr & Ho & Hseq & l & Hn'). cbn beta. change (PITTACUS_ERR_NONE <? 0) with false.
  eapply wp_mono; [eapply IH; [exact Hn'|done..]|]. intros r n2 [-> He]. split; [done|].
  by eapply enqueued_cons.
Qed.

Lemma wp_broadcast_loop slot size attempts cells ys : forall (i : nat) n xs res,
  outbox n xs -> 0 <= slot < MAX_OUTPUT_MESSAGES ->
  set_repr (g_members (n_self n)) cells -> drop i cells = ys ->
  Forall (fun c => recipient_ok (recipient_of (cell_member c))) ys -> res = PITTACUS_ERR_NONE ->
  wp (broadcast_loop (length ys) (Z.of_nat i) (slot * MESSAGE_MAX_SIZE) size attempts res) n
    (fun r n' => r = PITTACUS_ERR_NONE /\
       enqueued slot size attempts (recipient_of <$> set_members_of ys) n xs n').
Proof.
  induction ys as [|c ys IH]; intros i n xs res Hn Hslot Hs Ed Hf ->.
  { apply wp_ret. split; [done|]. by apply enqueued_nil. }
  apply Forall_cons in Hf as [Hm Hf]. cbn [length broadcast_loop]. apply wp_bind, wp_self.
  assert (cells !! i = Some c) as Hc by (rewrite <- (Nat.add_0_r i), <- lookup_drop, Ed; done).
  apply wp_bind. eapply wp_lift; [by eapply set_cell_repr|]. apply wp_bind.
  eapply wp_mono; [exact (wp_enqueue_to_outbound n xs slot size attempts
                            (recipient_of (cell_member c)) Hn Hslot Hm)|].
  intros r n' (-> & Hfr & Ho & Hseq & l & Hn'). cbn beta. change (PITTACUS_ERR_NONE <? 0) with false.
  replace (Z.of_nat i + 1) with (Z.of_nat (S i)) by lia.
  eapply wp_mono; [eapply IH; [exact Hn'|done| | |done..]|].
  - by rewrite (ef_members _ _ Hfr).
  - rewrite <- (Nat.add_1_r i), <- drop_drop, Ed. done.
  - intros r n2 [-> He]. split; [done|]. by eapply enqueued_cons.
Qed.

(** Choosing the slot. *)
Lemma wp_update_output_buffer_offset n xs :
  outbox n xs ->
  wp gossip_update_output_buffer_offset n
    (fun off n' => exists slot xs', off = slot * MESSAGE_MAX_SIZE /\ available xs slot xs' /\
       outbox n' xs' /\ enq_frame n n' /\
       g_output_buffer (n_self n') = g_output_buffer (n_self n) /\
       g_sequence_num (n_self n') = g_sequence_num (n_self n)).
Proof.
  intros Hn. pose proof Hn as [Hq Hs Hf Ho Hoom]. unfold gossip_update_output_buffer_offset.
  apply wp_bind, wp_self, wp_bind. rewrite (qr_head _ _ Hq).
  destruct xs as [|[l x] xs].
  - apply wp_ret. apply wp_bind, wp_modify_self, wp_ret.
    exists 0, []. split; [done|]. split; [|split; [by apply (outbox_update n _ [])|done]].
    apply AvailFree; [done| |lia]. by intros ?%Exists_nil.
  - change (fst <$> head ((l, x) :: xs)) with (Some l). apply wp_bind.
    destruct (find_available_repr _ _ Hq Hs) as (slot & q' & xs' & Ef & Hq' & Hav).
    eapply wp_lift; [exact Ef|]. cbn [fst snd].
    apply wp_bind, wp_modify_self, wp_ret. apply wp_bind, wp_modify_self, wp_ret.
    pose proof (available_range _ _ _ Hs Hav) as Hr. rewrite u32_id by config_lia.
    exists slot, xs'. split; [done|]. split; [done|]. split; [|done].
    apply (outbox_update n _ ((l, x) :: xs)); try done.
    + apply Forall_forall. intros e He. apply (proj1 (Forall_forall _ _) Hs).
      by eapply available_incl.
    + apply Forall_forall. intros e He. apply (proj1 (Forall_forall _ _) Hf).
      by eapply available_incl.
Qed.

(** Whom a message goes to. *)
Definition spread_to (cells : list member_cell) (to : option (list Z)) (len : Z)
    (st : gossip_spreading_type) (rs : list recipient) : Prop :=
  match st with
  | GOSSIP_DIRECT => rs = [(default [] to, len)]
  | GOSSIP_RANDOM =>
      exists r, sample_of cells r (length cells) /\
        zlen r = Z.min MESSAGE_RUMOR_FACTOR (zlen cells) /\
        rs = recipient_of <$> set_members_of r
  | GOSSIP_BROADCAST => rs = recipient_of <$> set_members_of cells
  end.

(** The output buffer with a message at the start of a slot. *)
Definition put_slot (slot : Z) (bs out : list Z) : list Z :=
  ztake (slot * MESSAGE_MAX_SIZE) out
    ++ bs ++ zdrop (zlen bs) (zdrop (slot * MESSAGE_MAX_SIZE) out).

(** The state after a message has been enqueued for [rs]. *)
Definition message_enqueued (m : message) (rs : list recipient) n xs n' xs' : Prop :=
  exists slot xs1 (news : list entry), available xs slot xs1 /\
    xs' = xs1 ++ news /\ outbox n' xs' /\
    news.*2 = new_envelopes slot (zlen (msg_wire m)) (msg_attempts m)
                (g_sequence_num (n_self n)) rs /\
    g_sequence_num (n_self n') = last_seq (g_sequence_num (n_self n)) rs /\
    g_output_buffer (n_self n') = put_slot slot (msg_wire m) (g_output_buffer (n_self n)) /\
    enq_frame n n' /\ msg_wf m /\ msg_need m <= MESSAGE_MAX_SIZE.

(** The members fit an envelope. *)
Definition members_ok n (cells : list member_cell) : Prop :=
  set_repr (g_members (n_self n)) cells /\
  Forall (fun m => cm_address_len m <= sizeof_sockaddr_storage) (set_members_of cells).

Lemma members_recipients n cells :
  members_ok n cells -> Forall (fun c => recipient_ok (recipient_of (cell_member c))) cells.
Proof.
  intros [Hs Hf]. apply Forall_forall. intros c Hc. apply recipient_of_ok.
  - destruct Hs as (_ & _ & _ & _ & _ & Hw). apply (proj1 (Forall_forall _ _) Hw c Hc).
  - apply (proj1 (Forall_forall _ _) Hf). by apply list_elem_of_fmap_2.
Qed.

(** Distribution of an encoded message. *)
Lemma wp_distribute slot size attempts to len st n xs cells :
  outbox n xs -> members_ok n cells -> 0 <= slot < MAX_OUTPUT_MESSAGES ->
  (st = GOSSIP_DIRECT -> recipient_ok (default [] to, len)) ->
  wp (match st with
      | GOSSIP_DIRECT =>
          gossip_enqueue_to_outbound (slot * MESSAGE_MAX_SIZE) size attempts (default [] to) len
      | GOSSIP_RANDOM =>
          reservoir ← liftW (cluster_member_set_random_members (g_members (n_self n))
                               MESSAGE_RUMOR_FACTOR);
          enqueue_all (slot * MESSAGE_MAX_SIZE) size attempts (cell_member <$> reservoir)
            PITTACUS_ERR_NONE
      | GOSSIP_BROADCAST =>
          broadcast_loop (Z.to_nat (ms_size (g_members (n_self n)))) 0
            (slot * MESSAGE_MAX_SIZE) size attempts PITTACUS_ERR_NONE
      end) n
    (fun r n' => r = PITTACUS_ERR_NONE /\
       exists rs, spread_to cells to len st rs /\ enqueued slot size attempts rs n xs n').
Proof.
  intros Hn Hm Hslot Hto. pose proof (members_recipients n cells Hm) as Hrec.
  pose proof Hm as [Hset _]. destruct st.
  - eapply wp_mono; [exact (wp_enqueue_to_outbound n xs slot size attempts (default [] to, len)
                              Hn Hslot (Hto eq_refl))|].
    intros r n' (-> & Hfr & Ho & Hseq & l & Hn'). split; [done|]. eexists. split; [done|].
    eapply enqueued_cons; try done. by apply enqueued_nil.
  - apply wp_bind, wp_liftW. eapply wp_random_members; [exact Hset|done|].
    intros r w' Hr Hlen _ Hw Ha Hsent Hin. set (n1 := Node (n_self n) w' (n_context n)).
    assert (outbox n1 xs) as Hn1.
    { destruct Hn as [Hq Hs Hf Ho Hoom]. split; try done; [cbn; by rewrite Ha|].
      by apply (no_oom_le (n_world n)). }
    eapply wp_mono; [apply (wp_enqueue_all slot size attempts (cell_member <$> r) n1 xs); try done|].
    + apply Forall_fmap, Forall_forall. intros c Hc. apply (sample_of_elem _ _ _ _ Hr) in Hc.
      apply (proj1 (Forall_forall _ _) Hrec c Hc).
    + intros res n2 [-> (Hfr & Ho & Hseq & Hnews)]. split; [done|].
      exists (recipient_of <$> set_members_of r). split.
      { exists r. split; [done|]. split; [|done]. rewrite Hlen. f_equal.
        by destruct Hset as (_ & ? & _). }
      split; [|done]. etrans; [|exact Hfr]. by split.
  - rewrite (set_repr_fuel _ _ Hset).
    eapply wp_mono; [exact (wp_broadcast_loop slot size attempts cells cells 0 n xs
      PITTACUS_ERR_NONE Hn Hslot Hset eq_refl Hrec eq_refl)|].
    intros r n2 [-> He]. split; [done|]. by eexists.
Qed.

Lemma zlen_put_slot slot bs out :
  0 <= slot < MAX_OUTPUT_MESSAGES -> zlen out = OUTPUT_BUFFER_SIZE ->
  zlen bs <= MESSAGE_MAX_SIZE -> zlen (put_slot slot bs out) = OUTPUT_BUFFER_SIZE.
Proof.
  intros Hs Ho Hb. pose proof (zlen_nonneg bs). unfold put_slot.
  rewrite !zlen_app, zlen_ztake, !zlen_zdrop_max by config_lia. config_lia.
Qed.

(** A message that fits a slot is written to it and queued for each
    recipient. *)
Lemma wp_enqueue_message m to len st n xs cells :
  outbox n xs -> members_ok n cells -> msg_wf m -> msg_need m <= MESSAGE_MAX_SIZE ->
  (st = GOSSIP_DIRECT -> recipient_ok (default [] to, len)) ->
  wp (gossip_enqueue_message (msg_type_of m) m to len st) n
    (fun r n' => r = PITTACUS_ERR_NONE /\
       exists rs xs', spread_to cells to len st rs /\ message_enqueued m rs n xs n' xs').
Proof.
  intros Hn Hmem Hm Hneed Hto. pose proof (msg_need_wire m Hm) as Hlw.
  unfold gossip_enqueue_message. apply wp_bind.
  eapply wp_mono; [by apply wp_update_output_buffer_offset|].
  intros off n1 (slot & xs1 & -> & Hav & Hn1 & Hfr & Ho & Hseq). cbn beta.
  pose proof (available_range _ _ _ (ob_slots _ _ Hn) Hav) as Hr.
  apply wp_bind, wp_self, wp_bind.
  eapply wp_lift.
  { apply gossip_encode_message_ok; [done|done|]. pose proof (ob_out _ _ Hn1).
    rewrite zlen_zdrop_max by config_lia. config_lia. }
  cbn beta iota. apply wp_bind, wp_modify_self.
  destruct (Z.ltb_spec (zlen (msg_wire m)) 0) as [?|_]; [config_lia|].
  fold (put_slot slot (msg_wire m) (g_output_buffer (n_self n1))).
  set (out := put_slot _ _ _). set (n2 := Node _ _ _).
  assert (outbox n2 xs1) as Hn2.
  { destruct Hn1 as [Hq Hs Hf Ho1 Hoom]. split; try done. apply zlen_put_slot; [done|done|lia]. }
  assert (members_ok n2 cells) as Hmem2.
  { destruct Hmem as [Hset Hf]. split; [|done]. cbn. by rewrite (ef_members _ _ Hfr). }
  eapply wp_mono; [exact (wp_distribute slot _ _ to len st n2 xs1 cells Hn2 Hmem2 Hr Hto)|].
  intros r n3 (-> & rs & Hrs & Hfr' & Ho' & Hseq' & news & En & Hn3). split; [done|].
  exists rs, (xs1 ++ news). split; [done|]. exists slot, xs1, news. cbn [n2 n_self] in *.
  change (g_sequence_num (set_output_buffer out (n_self n1)))
    with (g_sequence_num (n_self n1)) in *.
  rewrite Hseq in *. split_and!; try done.
  - rewrite Ho'. cbn. subst out. by rewrite Ho.
  - etrans; [exact Hfr|]. etrans; [|exact Hfr']. by split.
Qed.

(** A message that does not fit is refused; the queue may have lost the
    envelopes of the slot chosen for it. *)
Lemma wp_enqueue_message_short m to len st n xs :
  outbox n xs -> MESSAGE_MAX_SIZE < msg_need m ->
  wp (gossip_enqueue_message (msg_type_of m) m to len st) n
    (fun r n' => r = PITTACUS_ERR_BUFFER_NOT_ENOUGH /\
       exists slot xs1, available xs slot xs1 /\ outbox n' xs1 /\ enq_frame n n' /\
         g_output_buffer (n_self n') = g_output_buffer (n_self n) /\
         g_sequence_num (n_self n') = g_sequence_num (n_self n)).
Proof.
  intros Hn Hneed. unfold gossip_enqueue_message. apply wp_bind.
  eapply wp_mono; [by apply wp_update_output_buffer_offset|].
  intros off n1 (slot & xs1 & -> & Hav & Hn1 & Hfr & Ho & Hseq). cbn beta.
  apply wp_bind, wp_self, wp_bind. eapply wp_lift; [by apply gossip_encode_message_short|].
  cbn beta iota. apply wp_bind, wp_modify_self.
  change (PITTACUS_ERR_BUFFER_NOT_ENOUGH <? 0) with true. apply wp_ret.
  rewrite ztake_zdrop. split; [done|]. exists slot, xs1. split; [done|].
  split; [|split; [|done]].
  - destruct Hn1. by split.
  - etrans; [exact Hfr|]. by split.
Qed.
End Enqueue.
