(* ===== verification/BufferFacts.v ===== *)
(** Reading back what was written to a byte buffer, and the messages that
    queued envelopes carry in the output buffer. *)
From S2P Require Import Prelude.
From S2P Require Import Config.
From S2P Require Import Utils.
From S2P Require Import World.
From S2P Require Import Member.
From S2P Require Import VectorClock.
From S2P Require Import Messages.
From S2P Require Import Queue.
From S2P Require Import DataLog.
From S2P Require Import Gossip.
From S2P Require Import MemberFacts.
From S2P Require Import WireFacts.
From S2P Require Import MessageFacts.
From S2P Require Import QueueFacts.
From S2P Require Import OutboxFacts.
From S2P Require Import EnqueueFacts.

(** * Reads after writes *)

Lemma lookup_window {A} (m : list A) off n (i : nat) :
  0 <= off -> ztake n (zdrop off m) !! i =
    if bool_decide (Z.of_nat i < n) then m !! (Z.to_nat off + i)%nat else None.
Proof.
  intros Ho. unfold ztake, zdrop. case_bool_decide.
  - rewrite lookup_take_lt by lia. apply lookup_drop.
  - apply lookup_take_ge. lia.
Qed.

Lemma lookup_written (m bs : list Z) a (i : nat) :
  0 <= a -> a + zlen bs <= zlen m ->
  (ztake a m ++ bs ++ zdrop (a + zlen bs) m) !! i =
    if bool_decide (a <= Z.of_nat i < a + zlen bs) then bs !! (i - Z.to_nat a)%nat else m !! i.
Proof.
  intros Ha Hb. unfold ztake, zdrop, zlen in *.
  assert (length (take (Z.to_nat a) m) = Z.to_nat a) as Hl by (rewrite length_take; lia).
  case_bool_decide.
  - rewrite lookup_app_r, Hl by lia. by rewrite lookup_app_l by lia.
  - destruct (decide (i < Z.to_nat a)%nat).
    + rewrite lookup_app_l by lia. by rewrite lookup_take_lt by lia.
    + rewrite lookup_app_r, Hl by lia. rewrite lookup_app_r by lia. rewrite lookup_drop.
      f_equal. lia.
Qed.

(** A write that succeeds: the bytes written, within bounds. *)
Lemma wr_Ok m a bs m' :
  wr m a bs = Ok m' -> zlen bs <> 0 ->
  0 <= a /\ a + zlen bs <= zlen m /\ m' = ztake a m ++ bs ++ zdrop (a + zlen bs) m.
Proof.
  unfold wr. intros E Hb. destruct (Z.eqb_spec (zlen bs) 0); [done|].
  destruct (_ && _) eqn:Eb; [|done]. apply andb_true_iff in Eb as [?%Z.leb_le ?%Z.leb_le].
  injection E as <-. done.
Qed.

Lemma rd_window m off n : 0 <= off -> 0 <= n -> off + n <= zlen m -> rd m off n = Ok (ztake n (zdrop off m)).
Proof.
  intros Ho Hn Hb. unfold rd. destruct (Z.eqb_spec n 0) as [->|_]; [done|].
  by replace (_ && _ && _) with true by (symmetry; rewrite !andb_true_iff, !Z.leb_le; lia).
Qed.

Lemma rd_wr_disjoint m a bs m' off n :
  wr m a bs = Ok m' -> zlen bs <> 0 -> 0 <= off -> 0 <= n -> off + n <= zlen m ->
  off + n <= a \/ a + zlen bs <= off -> rd m' off n = rd m off n.
Proof.
  intros E Hb Ho Hn Hm Hd. pose proof (wr_len _ _ _ _ E) as Hl.
  apply wr_Ok in E as (Ha & Hab & ->); [|done].
  rewrite !rd_window by lia. f_equal. apply list_eq. intros i.
  rewrite !lookup_window, lookup_written by lia.
  repeat case_bool_decide; try done; lia.
Qed.

Lemma rd_wr_same m a bs m' : wr m a bs = Ok m' -> zlen bs <> 0 -> rd m' a (zlen bs) = Ok bs.
Proof.
  intros E Hb. pose proof (zlen_nonneg bs). apply wr_Ok in E as (Ha & Hab & ->); [|done].
  apply (rd_at _ _ (ztake a m) bs (zdrop (a + zlen bs) m)); [done|by rewrite zlen_ztake by lia|done].
Qed.

(** A write inside the window that is read. *)
Lemma rd_wr_inside m a bs m' off n w :
  wr m a bs = Ok m' -> zlen bs <> 0 -> 0 <= off -> off <= a -> a + zlen bs <= off + n ->
  off + n <= zlen m -> rd m off n = Ok w ->
  rd m' off n = Ok (ztake (a - off) w ++ bs ++ zdrop (a - off + zlen bs) w).
Proof.
  intros E Hb Ho Hoa Han Hm Hw. pose proof (wr_len _ _ _ _ E) as Hl. pose proof (zlen_nonneg bs).
  apply wr_Ok in E as (Ha & Hab & ->); [|done].
  rewrite rd_window in Hw by lia. injection Hw as <-. rewrite rd_window by lia. f_equal.
  assert (zlen (ztake n (zdrop off m)) = n) as Hn by (rewrite zlen_ztake; [done|rewrite zlen_zdrop; lia]).
  apply list_eq. intros i. rewrite lookup_window, !lookup_written by lia.
  rewrite lookup_window by lia. repeat case_bool_decide; try lia; try done.
  - f_equal. lia.
Qed.

(** * Slots *)

Lemma put_slot_wr slot bs out :
  0 <= slot < MAX_OUTPUT_MESSAGES -> zlen out = OUTPUT_BUFFER_SIZE ->
  zlen bs <= MESSAGE_MAX_SIZE -> zlen bs <> 0 ->
  wr out (slot * MESSAGE_MAX_SIZE) bs = Ok (put_slot slot bs out).
Proof.
  intros Hs Ho Hb Hz. pose proof (zlen_nonneg bs). unfold wr, put_slot.
  rewrite (proj2 (Z.eqb_neq _ _) Hz).
  replace (_ && _) with true by (symmetry; rewrite andb_true_iff, !Z.leb_le; config_lia).
  by rewrite zdrop_zdrop by config_lia.
Qed.

(** The envelope [x] carries the message [m]: its bytes are in its slot. *)
Definition carries (out : list Z) (x : message_envelope_out) (m : message) : Prop :=
  msg_wf m /\ en_buffer_size x = zlen (msg_wire m) /\ zlen (msg_wire m) <= MESSAGE_MAX_SIZE /\
  rd out (en_buffer x) (en_buffer_size x) = Ok (msg_wire m).

Lemma carries_bounds out x m :
  zlen out = OUTPUT_BUFFER_SIZE -> slot_ok x -> carries out x m ->
  12 <= en_buffer_size x <= MESSAGE_MAX_SIZE /\ 0 <= en_buffer x /\
  en_buffer x + en_buffer_size x <= zlen out /\ en_buffer x = slot_of x * MESSAGE_MAX_SIZE /\
  0 <= slot_of x < MAX_OUTPUT_MESSAGES.
Proof.
  intros Ho Hx (Hm & Hs & Hl & _). pose proof (msg_need_wire m Hm) as [Hmin _].
  pose proof (slot_ok_range x Hx). pose proof (slot_ok_buffer x Hx).
  split_and!; try done; config_lia.
Qed.

(** Writing another slot does not disturb the message. *)
Lemma carries_put_other slot bs out x m :
  zlen out = OUTPUT_BUFFER_SIZE -> 0 <= slot < MAX_OUTPUT_MESSAGES ->
  0 < zlen bs <= MESSAGE_MAX_SIZE -> slot_ok x -> slot_of x <> slot ->
  carries out x m -> carries (put_slot slot bs out) x m.
Proof.
  intros Ho Hs Hb Hx Hne Hc. pose proof (carries_bounds _ _ _ Ho Hx Hc) as (Hsz & H0 & Hend & Eb & Hr).
  pose proof Hc as (Hm & Hsize & Hl & Hrd). split_and!; try done. rewrite <- Hrd.
  eapply rd_wr_disjoint; [apply put_slot_wr; (done || lia)|lia|done|lia|done|].
  rewrite Eb. config_lia.
Qed.

(** The message written is the one the new envelopes carry. *)
Lemma carries_put slot out x m :
  zlen out = OUTPUT_BUFFER_SIZE -> 0 <= slot < MAX_OUTPUT_MESSAGES -> msg_wf m ->
  zlen (msg_wire m) <= MESSAGE_MAX_SIZE -> en_buffer x = slot * MESSAGE_MAX_SIZE ->
  en_buffer_size x = zlen (msg_wire m) -> carries (put_slot slot (msg_wire m) out) x m.
Proof.
  intros Ho Hs Hm Hl Eb Es. pose proof (msg_need_wire m Hm) as [Hmin _].
  split_and!; try done. rewrite Eb, Es. eapply rd_wr_same; [apply put_slot_wr|]; (done || config_lia).
Qed.

(** Numbering the message of [y] in its slot: the envelopes on the slot
    carry the renumbered message, the others what they carried. *)
Lemma carries_patch out y my s out' :
  zlen out = OUTPUT_BUFFER_SIZE -> slot_ok y -> carries out y my -> is_u32 s ->
  uint32_encode s out (en_buffer y + 8) = Ok out' ->
  carries out' y (msg_with_seq s my) /\ zlen out' = OUTPUT_BUFFER_SIZE /\
  forall x m, slot_ok x -> carries out x m ->
    exists m', carries out' x m' /\ (m' = m \/ m' = msg_with_seq s m).
Proof.
  intros Ho Hy Hc Hs E. unfold uint32_encode, uint32_encode_on in E.
  rewrite store_hton, u32_id in E by done.
  pose proof (zlen_bytes_be 4 s) as H4. change (Z.of_nat 4) with 4 in H4.
  assert (forall x m, slot_ok x -> carries out x m -> en_buffer x = en_buffer y ->
            carries out' x (msg_with_seq s m)) as Hsame.
  { intros x m Hx Hcx Exy. pose proof (carries_bounds _ _ _ Ho Hx Hcx) as (Hsz & H0 & Hend & Eb & Hr).
    pose proof Hcx as (Hm & Hsize & Hl & Hrd). unfold carries.
    rewrite zlen_msg_seq_wire by done. split_and!; try done; [by apply msg_seq_wf|].
    rewrite (rd_wr_inside _ _ _ _ _ _ (msg_wire m) E); [|lia|lia|lia|lia|lia|done].
    rewrite msg_seq_wire by done. rewrite H4, Exy. by replace (en_buffer y + 8 - en_buffer y) with 8 by lia. }
  split; [by apply Hsame|]. split; [by rewrite (wr_len _ _ _ _ E)|].
  intros x m Hx Hcx. destruct (decide (en_buffer x = en_buffer y)) as [Exy|Hne].
  { exists (msg_with_seq s m). split; [by apply Hsame|by right]. }
  exists m. split; [|by left]. pose proof (carries_bounds _ _ _ Ho Hx Hcx) as (Hsz & H0 & Hend & Eb & Hr).
  pose proof (carries_bounds _ _ _ Ho Hy Hc) as (Hszy & _ & _ & Eby & Hry).
  pose proof Hcx as (Hm & Hsize & Hl & Hrd). split_and!; try done. rewrite <- Hrd.
  eapply rd_wr_disjoint; [exact E|lia|done|lia|done|]. rewrite H4. config_lia.
Qed.
