(* ===== verification/CarryFacts.v ===== *)
(** Enqueueing a message leaves the messages of the other queued envelopes
    intact, as long as the envelopes that share a slot are in good order. *)
From S2P Require Import Prelude.
From S2P Require Import Config.
From S2P Require Import Utils.
From S2P Require Import World.
From S2P Require Import Member.
From S2P Require Import VectorClock.
From S2P Require Import Messages.
From S2P Require Import Queue.
From S2P Require Import DataLog.
From S2P Require Import Gossip.
From S2P Require Import MemberFacts.
From S2P Require Import WireFacts.
From S2P Require Import MessageFacts.
From S2P Require Import QueueFacts.
From S2P Require Import OutboxFacts.
From S2P Require Import EnqueueFacts.
From S2P Require Import BufferFacts.

(** * Grouped queues *)

(** A monotone embedding of positions. *)
Lemma sublist_embedding {A} (xs ys : list A) :
  xs `sublist_of` ys ->
  exists f : nat -> nat, (forall i j, (i <= j)%nat -> (f i <= f j)%nat) /\
    forall i x, xs !! i = Some x -> ys !! f i = Some x.
Proof.
  induction 1 as [|x xs ys _ IH|x xs ys _ IH].
  - by exists id.
  - destruct IH as (f & Hm & Hf). exists (fun i => match i with O => O | S i' => S (f i') end). split.
    + intros [|i] [|j] Hij; try lia. specialize (Hm i j). lia.
    + intros [|i] y Hy; [done|]. by apply Hf.
  - destruct IH as (f & Hm & Hf). exists (fun i => S (f i)). split.
    + intros i j Hij. specialize (Hm i j Hij). lia.
    + intros i y Hy. by apply Hf.
Qed.

Lemma grouped_sublist xs ys : ys `sublist_of` xs -> grouped xs -> grouped ys.
Proof.
  intros (f & Hm & Hf)%sublist_embedding Hg i j k l x l' y l2 z [Hik Hkj] Hi Hj Hk E.
  apply (Hg (f i) (f j) (f k) l x l' y l2 z); auto.
Qed.

Lemma grouped_nil : grouped [].
Proof. by intros i j k l x l' y l2 z _ H. Qed.

(** New envelopes on a slot that no other envelope uses. *)
Lemma grouped_app xs (news : list entry) c :
  grouped xs -> (forall e, e ∈ xs -> en_buffer (snd e) <> c) ->
  (forall e, e ∈ news -> en_buffer (snd e) = c /\ en_attempt_num (snd e) = 0) ->
  grouped (xs ++ news).
Proof.
  intros Hg Hx Hn i j k l x l' y l2 z [Hik Hkj] Hi Hj Hk E.
  apply lookup_app_Some in Hi as [Hi|[Hgi Hi]].
  - pose proof (Hx _ (list_elem_of_lookup_2 _ _ _ Hi)) as Hxc. cbn in Hxc.
    apply lookup_app_Some in Hj as [Hj|[_ Hj]].
    + pose proof (lookup_lt_Some _ _ _ Hj). rewrite lookup_app_l in Hk by lia.
      by apply (Hg i j k l x l' y l2 z).
    + destruct (Hn _ (list_elem_of_lookup_2 _ _ _ Hj)) as [Hyc _]. cbn in Hyc. congruence.
  - rewrite lookup_app_r in Hj, Hk by lia.
    destruct (Hn _ (list_elem_of_lookup_2 _ _ _ Hi)) as [Hxc Hxa],
      (Hn _ (list_elem_of_lookup_2 _ _ _ Hj)) as [Hyc Hya],
      (Hn _ (list_elem_of_lookup_2 _ _ _ Hk)) as [Hzc Hza]. cbn in *. split; [congruence|lia].
Qed.

Lemma new_envelopes_elem slot size attempts rs : forall seq x,
  x ∈ new_envelopes slot size attempts seq rs ->
  en_buffer x = slot * MESSAGE_MAX_SIZE /\ en_attempt_num x = 0 /\ en_buffer_size x = size.
Proof.
  induction rs as [|r rs IH]; intros seq x Hx; cbn in Hx; [by apply not_elem_of_nil in Hx|].
  apply elem_of_cons in Hx as [->|Hx]; [done|by eapply IH].
Qed.

Section Carry.
Context {Ctx : Type}.
Implicit Types n : node Ctx.

(** After enqueueing [m], every queued envelope either carries [m] or was
    queued before and carries what it carried. *)
Lemma message_enqueued_carries m rs n xs n' xs' :
  outbox n xs -> slot_to_spare xs -> msg_wf m -> msg_need m <= MESSAGE_MAX_SIZE ->
  message_enqueued m rs n xs n' xs' ->
  (grouped xs -> grouped xs') /\
  forall l x, (l, x) ∈ xs' ->
    carries (g_output_buffer (n_self n')) x m \/
    (l, x) ∈ xs /\ forall m0, carries (g_output_buffer (n_self n)) x m0 ->
      carries (g_output_buffer (n_self n')) x m0.
Proof.
  intros Hob Hg Hm Hneed (slot & xs1 & news & Hav & -> & Hob' & En & _ & Hout & _).
  pose proof (msg_need_wire m Hm) as Hlw. pose proof (ob_out _ _ Hob) as Ho.
  pose proof (available_range _ _ _ (ob_slots _ _ Hob) Hav) as Hr.
  pose proof (available_free _ _ _ (ob_slots _ _ Hob) Hg Hav) as Hfree.
  assert (forall e, e ∈ xs1 -> slot_ok (snd e) /\ slot_of (snd e) <> slot) as Hold.
  { intros e He. split.
    - apply (proj1 (Forall_forall _ _) (ob_slots _ _ Hob)). by eapply available_incl.
    - intros Es. apply Hfree, Exists_exists. by exists e. }
  assert (forall e, e ∈ news -> en_buffer (snd e) = slot * MESSAGE_MAX_SIZE /\
            en_attempt_num (snd e) = 0 /\ en_buffer_size (snd e) = zlen (msg_wire m)) as Hnew.
  { intros e He. eapply new_envelopes_elem. rewrite <- En. by apply list_elem_of_fmap_2. }
  split.
  - intros Hgr. apply (grouped_app _ _ (slot * MESSAGE_MAX_SIZE)).
    + eapply grouped_sublist; [by eapply available_sub|done].
    + intros e He. destruct (Hold e He) as [Hs Hne]. rewrite slot_ok_buffer by done. config_lia.
    + intros e He. by destruct (Hnew e He) as (? & ? & _).
  - rewrite Hout. intros l x [He|He]%elem_of_app.
    + right. destruct (Hold _ He) as [Hs Hne]. split; [by eapply available_incl|].
      intros m0 Hc. apply carries_put_other; try done. config_lia.
    + left. destruct (Hnew _ He) as (Eb & _ & Es). apply carries_put; try done. lia.
Qed.
End Carry.
