(* ===== verification/SendFacts.v ===== *)
(** [pittacus_gossip_process_send]: an abstract pass over the outbound
    queue, and the proof that the pointer code performs it. *)
From S2P Require Import Prelude.
From S2P Require Import Config.
From S2P Require Import Utils.
From S2P Require Import World.
From S2P Require Import Member.
From S2P Require Import VectorClock.
From S2P Require Import Messages.
From S2P Require Import Queue.
From S2P Require Import DataLog.
From S2P Require Import Gossip.
From S2P Require Import Node.
From S2P Require Import MemberFacts.
From S2P Require Import MemberSetFacts.
From S2P Require Import WireFacts.
From S2P Require Import MessageFacts.
From S2P Require Import QueueFacts.
From S2P Require Import OutboxFacts.
From S2P Require Import EnqueueFacts.
From S2P Require Import BufferFacts.

(** * The abstract pass *)

(** It is time to send the envelope. *)
Definition due (x : message_envelope_out) (now : Z) : Prop :=
  en_attempt_num x = 0 \/ u64 (en_attempt_ts x + MESSAGE_RETRY_INTERVAL) <= now.

#[export] Instance due_dec x now : Decision (due x now).
Proof. unfold due. apply _. Defined.

(** The envelopes from the first that goes to another recipient. *)
Fixpoint drop_same (addr : list Z) (ys : list entry) : list entry :=
  match ys with
  | [] => []
  | (l, x) :: ys' => if bool_decide (en_recipient x = addr) then drop_same addr ys' else ys
  end.

(** The members without the first one at the address. *)
Definition remove_addr (addr : list Z) (cells : list member_cell) : list member_cell :=
  match list_find (fun c => cm_address (cell_member c) = addr) cells with
  | Some (i, _) => delete i cells
  | None => cells
  end.

(** [send_pass C todo cells kept cells' attempted failed]: the pass over the
    envelopes [todo], at times in [C], keeps [kept], leaves the members
    [cells'] and calls [sendto] for [attempted], the last call failing if
    [failed]. *)
Inductive send_pass (C : Z -> Prop) : list entry -> list member_cell ->
    list entry -> list member_cell -> list entry -> bool -> Prop :=
| PassEnd cells : send_pass C [] cells [] cells [] false
| PassDrop l x todo cells kept cells' att f :
    en_max_attempts x <= en_attempt_num x -> en_max_attempts x <= 1 ->
    send_pass C todo cells kept cells' att f ->
    send_pass C ((l, x) :: todo) cells kept cells' att f
| PassExpire l x todo cells kept cells' att f :
    en_max_attempts x <= en_attempt_num x -> 1 < en_max_attempts x ->
    send_pass C (drop_same (en_recipient x) todo) (remove_addr (en_recipient x) cells)
      kept cells' att f ->
    send_pass C ((l, x) :: todo) cells kept cells' att f
| PassWait l x now todo cells kept cells' att f :
    C now -> en_attempt_num x < en_max_attempts x -> ~ due x now ->
    send_pass C todo cells kept cells' att f ->
    send_pass C ((l, x) :: todo) cells ((l, x) :: kept) cells' att f
| PassFail l x now todo cells :
    C now -> en_attempt_num x < en_max_attempts x -> due x now ->
    send_pass C ((l, x) :: todo) cells ((l, x) :: todo) cells [(l, x)] true
| PassOnce l x now todo cells kept cells' att f :
    C now -> en_attempt_num x < en_max_attempts x -> due x now -> en_max_attempts x <= 1 ->
    send_pass C todo cells kept cells' att f ->
    send_pass C ((l, x) :: todo) cells kept cells' ((l, x) :: att) f
| PassSend l x now todo cells kept cells' att f :
    C now -> en_attempt_num x < en_max_attempts x -> due x now -> 1 < en_max_attempts x ->
    send_pass C todo cells kept cells' att f ->
    send_pass C ((l, x) :: todo) cells
      ((l, set_attempt now (en_attempt_num x + 1) x) :: kept) cells' ((l, x) :: att) f.

Lemma send_pass_mono (C D : Z -> Prop) todo cells kept cells' att f :
  (forall t, C t -> D t) -> send_pass C todo cells kept cells' att f ->
  send_pass D todo cells kept cells' att f.
Proof.
  intros HCD. induction 1; [constructor|by apply PassDrop|by apply PassExpire
    |eapply PassWait|eapply PassFail|eapply PassOnce|eapply PassSend]; eauto.
Qed.

(** * The pass of the code *)

(** The length of a socket address; one address family is in use. *)
Section Send.
Context {Ctx : Type} (len : Z).
Context (msgs : loc -> message).
Implicit Types n : node Ctx.

(** An envelope whose recipient is an address of the family. *)
Definition entry_ok (x : message_envelope_out) : Prop :=
  zlen (en_recipient x) = len /\ en_recipient_len x = len /\
  0 <= en_attempt_num x /\ en_max_attempts x < 2 ^ 16 /\ is_u32 (en_sequence_num x).

(** Equal but for the sequence number. *)
Definition renumbering (m m' : message) : Prop :=
  forall s, msg_wire (msg_with_seq s m) = msg_wire (msg_with_seq s m').

(** The queue, the members, and what each envelope carries: [msgs l] up
    to the sequence number, which envelopes on one slot share. *)
Record send_inv n (xs : list entry) (cells : list member_cell) : Prop := SendInv {
  si_outbox : outbox n xs;
  si_members : set_repr (g_members (n_self n)) cells;
  si_family : Forall (fun c => cm_address_len (cell_member c) = len) cells;
  si_entries : Forall (fun e => entry_ok (snd e)) xs;
  si_carries : forall l x, (l, x) ∈ xs ->
    exists m, carries (g_output_buffer (n_self n)) x m /\ renumbering m (msgs l)
}.

(** What sending does not touch. *)
Record send_frame n n' : Prop := SendFrame {
  sf_world : world_le (n_world n) (n_world n');
  sf_inbox : inbox (n_world n') = inbox (n_world n);
  sf_context : n_context n' = n_context n;
  sf_socket : g_socket (n_self n') = g_socket (n_self n);
  sf_input : g_input_buffer (n_self n') = g_input_buffer (n_self n);
  sf_seq : g_sequence_num (n_self n') = g_sequence_num (n_self n);
  sf_counter : g_data_counter (n_self n') = g_data_counter (n_self n);
  sf_version : g_data_version (n_self n') = g_data_version (n_self n);
  sf_state : g_state (n_self n') = g_state (n_self n);
  sf_address : g_self_address (n_self n') = g_self_address (n_self n);
  sf_log : g_data_log (n_self n') = g_data_log (n_self n);
  sf_ts : g_last_gossip_ts (n_self n') = g_last_gossip_ts (n_self n)
}.

#[export] Instance send_frame_preorder : PreOrder send_frame.
Proof.
  split.
  - intros n. by split.
  - intros n1 n2 n3 [] []. split; try congruence. by etrans.
Qed.

(** The datagram an envelope is sent as. *)
Definition sent_as (e : entry) (d : datagram) : Prop :=
  d = Datagram (msg_wire (msg_with_seq (en_sequence_num (snd e)) (msgs (fst e))))
        (en_recipient (snd e)).

Lemma renumbering_seq s m : msg_wf m -> is_u32 s -> renumbering (msg_with_seq s m) m.
Proof.
  intros Hm Hs t. pose proof (msg_need_wire m Hm) as [Hl _].
  rewrite !msg_seq_wire by auto using msg_seq_wf.
  assert (zlen (ztake 8 (msg_wire m)) = 8) as H8 by (rewrite zlen_ztake; config_lia).
  assert (zlen (ztake 8 (msg_wire m) ++ bytes_be 4 s) = 12) as H12
    by (rewrite zlen_app, H8, zlen_bytes_be; lia).
  f_equal.
  - rewrite <- H8 at 1. apply ztake_app.
  - f_equal. rewrite app_assoc. rewrite <- H12 at 1. apply zdrop_app.
Qed.

(** Fewer envelopes, or envelopes with other attempt counters. *)
Lemma send_inv_queue n n' q xs xs' cells :
  send_inv n xs cells -> queue_repr q xs' -> n_world n' = n_world n ->
  n_self n' = set_outbound_messages q (n_self n) ->
  (forall l x, (l, x) ∈ xs' -> exists y, (l, y) ∈ xs /\ en_buffer x = en_buffer y /\
     en_buffer_size x = en_buffer_size y /\ (entry_ok y -> entry_ok x)) ->
  send_inv n' xs' cells.
Proof.
  intros [[Hq Hs Hf Ho Hoom] Hset Hfam He Hc] Hq' Ew Es Hx.
  unfold slots_ok in Hs. rewrite Forall_forall in Hs, Hf, He.
  split; [split|..]; rewrite ?Es, ?Ew; try done.
  - apply Forall_forall. intros [l x] Hi. destruct (Hx l x Hi) as (y & Hy & Eb & _ & _).
    pose proof (Hs _ Hy) as Hsy. unfold slot_ok in *. cbn in *. by rewrite Eb.
  - apply Forall_forall. intros [l x] Hi. destruct (Hx l x Hi) as (y & Hy & _).
    apply (Hf _ Hy).
  - apply Forall_forall. intros [l x] Hi. destruct (Hx l x Hi) as (y & Hy & _ & _ & Hok).
    apply Hok, (He _ Hy).
  - intros l x Hi. destruct (Hx l x Hi) as (y & Hy & Eb & Ez & _).
    destruct (Hc l y Hy) as (m & Hm & Hr). exists m. split; [|done].
    unfold carries in *. cbn. by rewrite Eb, Ez.
Qed.

(** The queue after removing the entry between two lists. *)
Lemma remove_middle q pre l x ys :
  queue_repr q (pre ++ (l, x) :: ys) ->
  exists q', gossip_envelope_remove q l = Ok q' /\ queue_repr q' (pre ++ ys).
Proof.
  intros Hq. destruct (remove_repr q _ Hq (length pre) l x) as (q' & E & Hq');
    [by apply list_lookup_middle|]. exists q'. split; [done|]. by rewrite delete_middle in Hq'.
Qed.

(** The inner loop: the envelopes to the same recipient that follow. *)
Lemma drop_unreachable_ok pre l x ys : forall fuel q,
  queue_repr q (pre ++ (l, x) :: ys) -> Forall (fun e => entry_ok (snd e)) ((l, x) :: ys) ->
  (length ys <= fuel)%nat ->
  exists q', drop_unreachable fuel l (fst <$> head ys) q
      = Ok (fst <$> head (drop_same (en_recipient x) ys), q') /\
    queue_repr q' (pre ++ (l, x) :: drop_same (en_recipient x) ys).
Proof.
  induction ys as [|[l' y] ys IH]; intros fuel q Hq Hf Hl.
  { exists q. by destruct fuel. }
  destruct fuel as [|fuel]; cbn in Hl; [lia|].
  apply Forall_cons in Hf as [Hx Hf]. apply Forall_cons in Hf as [Hy Hf].
  change (fst <$> head ((l', y) :: ys)) with (Some l'). cbn [drop_unreachable drop_same].
  rewrite (deref_suffix q _ Hq (pre ++ [(l, x)]) l' y ys) by by rewrite <- app_assoc. out_step.
  rewrite (deref_suffix q _ Hq pre l x _ eq_refl). out_step.
  cbn [en_recipient en_recipient_len en_next link set_prev set_next].
  pose proof Hx as (Hzx & Hlx & _). pose proof Hy as (Hzy & Hly & _). cbn in *.
  unfold memcmp_eq. rewrite !rd_prefix by (pose proof (zlen_nonneg (en_recipient x)); lia).
  out_step. rewrite !ztake_all by lia.
  case_bool_decide as E; [|by exists q].
  destruct (remove_middle q (pre ++ [(l, x)]) l' y ys) as (q1 & -> & Hq1);
    [by rewrite <- app_assoc|]. out_step. rewrite <- app_assoc in Hq1.
  apply (IH fuel q1 Hq1); [by constructor|lia].
Qed.

Lemma drop_same_incl addr ys e : e ∈ drop_same addr ys -> e ∈ ys.
Proof.
  induction ys as [|[l x] ys IH]; [done|]. cbn. case_bool_decide; [|done].
  intros He. right. by apply IH.
Qed.

Lemma drop_same_length addr ys : (length (drop_same addr ys) <= length ys)%nat.
Proof. induction ys as [|[l x] ys IH]; [done|]. cbn. case_bool_decide; cbn; lia. Qed.

Lemma list_find_ext_in {A} (P Q : A -> Prop) `{forall x, Decision (P x)}
    `{forall x, Decision (Q x)} (l : list A) :
  (forall x, x ∈ l -> P x <-> Q x) -> list_find P l = list_find Q l.
Proof.
  induction l as [|x l IH]; intros HPQ; [done|]. cbn.
  rewrite IH by (intros y Hy; apply HPQ; by right).
  pose proof (HPQ x ltac:(left)). repeat case_decide; tauto.
Qed.

Lemma remove_addr_Forall (P : member_cell -> Prop) addr cells :
  Forall P cells -> Forall P (remove_addr addr cells).
Proof.
  intros Hf. unfold remove_addr.
  destruct (list_find _ cells) as [[k c]|]; [by apply Forall_delete|done].
Qed.

(** Removing the member at the address of an envelope. *)
Lemma remove_addr_repr s cells addr :
  set_repr s cells -> Forall (fun c => cm_address_len (cell_member c) = len) cells ->
  zlen addr = len ->
  exists b s', cluster_member_set_remove_by_addr s addr len = Ok (b, s') /\
    set_repr s' (remove_addr addr cells) /\
    Forall (fun c => cm_address_len (cell_member c) = len) (remove_addr addr cells).
Proof.
  intros Hs Hf Ha. pose proof (zlen_nonneg addr) as Hp.
  destruct (remove_by_addr_repr s cells addr len) as (s' & E & Hs'); [done|lia| |].
  { unfold set_members_of. apply Forall_fmap. apply (Forall_impl _ _ _ Hf). cbn. intros c ?. lia. }
  eexists _, s'. split; [exact E|].
  rewrite (list_find_ext_in _ (fun c => cm_address (cell_member c) = addr)) in Hs'.
  - split; [exact Hs'|]. by apply remove_addr_Forall.
  - intros c [k Hk]%list_elem_of_lookup. destruct (set_repr_wf s cells Hs k c Hk) as [_ Hz].
    pose proof (Forall_lookup_1 _ _ _ _ Hf Hk) as Hc. cbn in Hc.
    rewrite !ztake_all by lia. done.
Qed.

(** Dropping an envelope that was sent as often as it may be. *)
Lemma wp_expire_envelope n pre l x todo cells :
  send_inv n (pre ++ (l, x) :: todo) cells ->
  wp (expire_envelope l (fst <$> head todo)) n (fun h n' =>
    exists todo' cells', h = fst <$> head todo' /\ send_inv n' (pre ++ todo') cells' /\
      send_frame n n' /\ sent (n_world n') = sent (n_world n) /\
      if bool_decide (1 < en_max_attempts x)
      then todo' = drop_same (en_recipient x) todo /\ cells' = remove_addr (en_recipient x) cells
      else todo' = todo /\ cells' = cells).
Proof.
  intros Hinv. pose proof Hinv as [Hob Hset Hfam He Hc]. pose proof (ob_queue _ _ Hob) as Hq.
  pose proof He as He'. apply Forall_app in He' as [_ He']. pose proof He' as He2.
  apply Forall_cons in He2 as [Hx _]. pose proof Hx as (Hz & Hl & _). cbn in Hz, Hl.
  unfold expire_envelope. apply wp_bind, wp_self, wp_bind.
  eapply wp_lift; [by eapply deref_suffix|].
  cbn [en_recipient en_recipient_len en_max_attempts en_next link set_prev set_next].
  apply wp_bind. destruct (Z.ltb_spec 1 (en_max_attempts x)) as [Hmax|Hmax].
  - rewrite bool_decide_true by done. apply wp_bind. rewrite Hl.
    destruct (remove_addr_repr _ cells (en_recipient x) Hset Hfam Hz) as (b & s' & E & Hs' & Hf').
    eapply wp_lift; [exact E|]. apply wp_bind, wp_modify_self, wp_bind.
    destruct (drop_unreachable_ok pre l x todo (queue_fuel (g_outbound_messages (n_self n)))
                (g_outbound_messages (n_self n))) as (q1 & Ed & Hq1); [done|done| |].
    { unfold queue_fuel. rewrite (repr_size _ _ Hq), length_app. cbn. lia. }
    eapply wp_lift; [exact Ed|]. cbn [fst snd]. apply wp_bind, wp_modify_self, wp_ret.
    destruct (remove_middle _ _ _ _ _ Hq1) as (q2 & Er & Hq2).
    apply wp_bind. eapply wp_queue_op; [exact Er|]. apply wp_ret.
    eexists _, _. split; [done|]. split; [|done].
    eapply (send_inv_queue (Node (set_members s' (n_self n)) (n_world n) (n_context n)) _ q2
              (pre ++ (l, x) :: todo)); try done.
    + split; try done. by destruct Hob.
    + intros l' y Hy. exists y. split; [|done]. apply elem_of_app in Hy as [Hy|Hy];
        apply elem_of_app; [by left|right]. apply elem_of_cons. right. by eapply drop_same_incl.
  - rewrite bool_decide_false by lia. apply wp_ret.
    destruct (remove_middle _ _ _ _ _ Hq) as (q2 & Er & Hq2).
    apply wp_bind. eapply wp_queue_op; [exact Er|]. apply wp_ret.
    eexists _, _. split; [done|]. split; [|done].
    eapply (send_inv_queue n _ q2 (pre ++ (l, x) :: todo)); try done.
    intros l' y Hy. exists y. split; [|done]. apply elem_of_app in Hy as [Hy|Hy];
      apply elem_of_app; [by left|right]. by right.
Qed.

(** A [sendto] of this host can fail. *)
Definition write_fails (w : world) : Prop := exists k, sendto (answers w) k < 0.

Lemma write_fails_le w w' : world_le w w' -> write_fails w' -> write_fails w.
Proof. intros [Ea _ _] [k Hk]. exists k. by rewrite <- Ea. Qed.

(** Sending an envelope: the bytes of its message under its own number. *)
Lemma wp_transmit n pre l x todo cells :
  send_inv n (pre ++ (l, x) :: todo) cells ->
  wp (transmit l) n (fun r n' =>
    send_inv n' (pre ++ (l, x) :: todo) cells /\ send_frame n n' /\
    g_outbound_messages (n_self n') = g_outbound_messages (n_self n) /\
    (r < 0 -> write_fails (n_world n)) /\
    exists d, sent_as (l, x) d /\ sent (n_world n') = sent (n_world n) ++ [d]).
Proof.
  intros Hinv. pose proof Hinv as [Hob Hset Hfam He Hc]. pose proof (ob_queue _ _ Hob) as Hq.
  assert ((l, x) ∈ pre ++ (l, x) :: todo) as Hin by (apply elem_of_app; right; left).
  pose proof (proj1 (Forall_forall _ _) He _ Hin) as (Hz & Hl & _ & _ & Hseq). cbn in Hz, Hl, Hseq.
  pose proof (proj1 (Forall_forall _ _) (ob_slots _ _ Hob) _ Hin) as Hslot. cbn in Hslot.
  destruct (Hc l x Hin) as (m & Hm & Hr). pose proof (ob_out _ _ Hob) as Ho.
  pose proof (carries_bounds _ _ _ Ho Hslot Hm) as (Hsz & H0 & Hend & Eb & Hrange).
  unfold transmit. apply wp_bind, wp_self, wp_bind.
  eapply wp_lift; [by eapply deref_suffix|]. cbn beta iota zeta.
  cbn [en_recipient en_recipient_len en_buffer en_buffer_size en_sequence_num link set_prev set_next].
  change (sizeof_message_header - sizeof_u32) with 8.
  set (out := g_output_buffer (n_self n)) in *.
  assert (exists out', uint32_encode (en_sequence_num x) out (en_buffer x + 8) = Ok out') as [out' Eo].
  { eexists. apply (uint32_encode_at _ _ _ (ztake (en_buffer x + 8) out)
                      (zdrop (en_buffer x + 8) out)); [by rewrite ztake_zdrop| |done|].
    - by rewrite zlen_ztake by lia.
    - rewrite zlen_zdrop by lia. lia. }
  apply wp_bind. eapply wp_lift; [exact Eo|]. apply wp_bind, wp_modify_self, wp_bind.
  destruct (carries_patch out x m _ _ Ho Hslot Hm Hseq Eo) as (Hx' & Ho' & Hall).
  pose proof Hx' as (_ & _ & _ & Hrd). eapply wp_lift; [exact Hrd|].
  apply wp_bind. eapply wp_lift; [apply rd_prefix; pose proof (zlen_nonneg (en_recipient x)); lia|].
  rewrite ztake_all by lia. cbn [n_self]. apply wp_liftW, wp_pt_send_to.
  intros w' Hle Ha Hinb Hsent. cbn [n_world] in *. split; [|split; [|split; [done|split]]].
  - split; [|done|done|done|].
    + destruct Hob as [_ Hs Hf _ Hoom]. split; try done; cbn.
      * by rewrite Ha.
      * by apply (no_oom_le (n_world n)).
    + cbn. intros l' y Hy. destruct (Hc l' y Hy) as (m' & Hm' & Hr').
      pose proof (proj1 (Forall_forall _ _) (ob_slots _ _ Hob) _ Hy) as Hsy.
      destruct (Hall y m' Hsy Hm') as (m2 & Hm2 & [-> | ->]); [by exists m'|].
      eexists. split; [exact Hm2|]. pose proof Hm' as [Hwf _]. intros t.
      by rewrite (renumbering_seq _ m' Hwf Hseq t), Hr'.
  - by split.
  - intros Hneg. by eexists.
  - eexists. split; [|exact Hsent]. unfold sent_as. cbn. by rewrite Hr.
Qed.

(** The attempt is noted in the envelope. *)
Lemma note_attempt n pre l x todo cells now num :
  send_inv n (pre ++ (l, x) :: todo) cells -> 0 <= num ->
  exists q', update (g_outbound_messages (n_self n)) l (set_attempt now num) = Ok q' /\
    send_inv (Node (set_outbound_messages q' (n_self n)) (n_world n) (n_context n))
      (pre ++ (l, set_attempt now num x) :: todo) cells.
Proof.
  intros Hinv Hnum. pose proof (ob_queue _ _ (si_outbox _ _ _ Hinv)) as Hq.
  destruct (update_repr _ _ Hq (length pre) l x (set_attempt now num)) as (q' & E & Hq' & _);
    [apply set_attempt_keeps_links|by apply list_lookup_middle|].
  exists q'. split; [exact E|]. rewrite insert_app_r_alt, Nat.sub_diag in Hq' by lia. cbn in Hq'.
  eapply send_inv_queue; [exact Hinv|exact Hq'|done|done|].
  intros l' y [Hy|[Hy|Hy]%elem_of_cons]%elem_of_app; [|injection Hy as -> ->|].
  - exists y. split; [|done]. apply elem_of_app. by left.
  - exists x. split; [apply elem_of_app; right; left|]. split; [done|]. split; [done|].
    intros (? & ? & ? & ? & ?). split_and!; done.
  - exists y. split; [|done]. apply elem_of_app. right. by right.
Qed.

(** The result of the pass. *)
Definition passed n pre todo cells (cnt : Z) (r : Z) n' : Prop :=
  exists kept cells' att f ds,
    send_pass (readings (n_world n)) todo cells kept cells' att f /\
    send_inv n' (pre ++ kept) cells' /\ send_frame n n' /\
    sent (n_world n') = sent (n_world n) ++ ds /\ Forall2 sent_as att ds /\
    (r = if f then PITTACUS_ERR_WRITE_FAILED else cnt + zlen att) /\
    (f = true -> write_fails (n_world n)).

(** Going on after one envelope: [att1] was attempted and [kept1] is kept. *)
Lemma passed_step n n1 pre kept1 todo cells todo1 cells1 cnt att1 ds1 r n' :
  (forall kept cells' att f, send_pass (readings (n_world n)) todo1 cells1 kept cells' att f ->
     send_pass (readings (n_world n)) todo cells (kept1 ++ kept) cells' (att1 ++ att) f) ->
  send_frame n n1 -> sent (n_world n1) = sent (n_world n) ++ ds1 -> Forall2 sent_as att1 ds1 ->
  passed n1 (pre ++ kept1) todo1 cells1 (cnt + zlen att1) r n' ->
  passed n pre todo cells cnt r n'.
Proof.
  intros Hp Hfr Hs Hd (kept & cells' & att & f & ds & Hpass & Hinv & Hfr' & Hs' & Hd' & -> & Hwf).
  exists (kept1 ++ kept), cells', (att1 ++ att), f, (ds1 ++ ds). split_and!.
  - apply Hp. eapply send_pass_mono; [|exact Hpass]. intros t. apply readings_le, Hfr.
  - by rewrite app_assoc.
  - by etrans.
  - by rewrite Hs', Hs, app_assoc.
  - by apply Forall2_app.
  - destruct f; [done|]. rewrite zlen_app. lia.
  - intros Hf. eapply write_fails_le; [apply Hfr|by apply Hwf].
Qed.

(** One envelope that has attempts left, and what follows. *)
Lemma wp_attempt n pre l x todo cells now (k : M (node Ctx) Z) (Q : Z -> node Ctx -> Prop) :
  send_inv n (pre ++ (l, x) :: todo) cells -> en_attempt_num x < en_max_attempts x ->
  (forall n' d, sent_as (l, x) d -> send_frame n n' ->
     sent (n_world n') = sent (n_world n) ++ [d] ->
     (write_fails (n_world n) -> send_inv n' (pre ++ (l, x) :: todo) cells ->
      Q PITTACUS_ERR_WRITE_FAILED n') /\
     (send_inv n' ((pre ++ if en_max_attempts x <=? 1 then []
        else [(l, set_attempt now (en_attempt_num x + 1) x)]) ++ todo) cells -> wp k n' Q)) ->
  wp (write_result ← transmit l;
      if write_result <? 0 then mret PITTACUS_ERR_WRITE_FAILED
      else
        queue_op (fun q => update q l (set_attempt now (u16 (en_attempt_num x + 1))));;
        (if en_max_attempts x <=? 1
         then queue_op (fun q => gossip_envelope_remove q l) else mret tt);;
        k) n Q.
Proof.
  intros Hinv Hlt HQ. assert (entry_ok x) as (_ & _ & Hn0 & Hmax & _).
  { apply (proj1 (Forall_forall _ _) (si_entries _ _ _ Hinv) (l, x)).
    apply elem_of_app. right. left. }
  apply wp_bind. eapply wp_mono; [by apply wp_transmit|].
  intros r n1 (Hinv1 & Hfr1 & _ & Hwf & d & Hd & Hs). cbn beta.
  destruct (Z.ltb_spec r 0); [apply wp_ret; apply (HQ n1 d); auto|].
  rewrite u16_id by word_lia.
  destruct (note_attempt n1 pre l x todo cells now (en_attempt_num x + 1) Hinv1) as (q1 & E1 & Hinv2);
    [lia|].
  apply wp_bind. eapply wp_queue_op; [exact E1|]. apply wp_bind.
  set (n2 := Node _ _ _) in *.
  assert (send_frame n n2) as Hfr2 by (etrans; [exact Hfr1|by split]).
  destruct (en_max_attempts x <=? 1).
  - destruct (remove_middle _ _ _ _ _ (ob_queue _ _ (si_outbox _ _ _ Hinv2))) as (q2 & E2 & Hq2).
    eapply wp_queue_op; [exact E2|]. eapply (HQ _ d); [done|etrans; [exact Hfr2|by split]|done|].
    rewrite app_nil_r. eapply (send_inv_queue n2); [exact Hinv2|exact Hq2|done|done|].
    intros l' y Hy. exists y. split; [|done]. apply elem_of_app in Hy as [Hy|Hy];
      apply elem_of_app; [by left|right; by right].
  - apply wp_ret. eapply (HQ _ d); [done|done|done|]. by rewrite <- app_assoc.
Qed.

(** The loop performs the pass. *)
Lemma wp_send_loop fuel : forall pre todo cells n cnt,
  send_inv n (pre ++ todo) cells -> (length todo <= fuel)%nat ->
  wp (send_loop fuel (fst <$> head todo) cnt) n (passed n pre todo cells cnt).
Proof.
  induction fuel as [|fuel IH]; intros pre todo cells n cnt Hinv Hf.
  all: destruct todo as [|[l x] todo]; cbn [length] in Hf; try lia.
  1, 2: apply wp_ret; exists [], cells, [], false, [];
        rewrite app_nil_r in *; split_and!; try done; [apply PassEnd|by rewrite app_nil_r|unfold zlen; cbn; lia].
  change (fst <$> head ((l, x) :: todo)) with (Some l). cbn [send_loop].
  apply wp_bind, wp_self, wp_bind.
  eapply wp_lift; [apply (deref_suffix _ _ (ob_queue _ _ (si_outbox _ _ _ Hinv)) _ _ _ _ eq_refl)|].
  cbn [en_next en_attempt_num en_max_attempts en_attempt_ts link set_prev set_next].
  destruct (Z.leb_spec (en_max_attempts x) (en_attempt_num x)) as [Hmax|Hmax].
  - apply wp_bind. eapply wp_mono; [by apply wp_expire_envelope|].
    intros h n1 (todo' & cells' & -> & Hinv1 & Hfr & Hs & Hcase). cbn beta.
    assert (length todo' <= fuel)%nat as Hlen.
    { case_bool_decide; destruct Hcase as [-> _]; [|lia].
      pose proof (drop_same_length (en_recipient x) todo). lia. }
    eapply wp_mono; [by apply (IH pre todo' cells' n1 cnt)|]. intros r n' Hp.
    eapply (passed_step n n1 pre [] _ _ todo' cells' cnt [] []); try done.
    + intros kept cells2 att f Hpass. case_bool_decide; destruct Hcase as [-> ->].
      * by apply PassExpire.
      * apply PassDrop; [done|lia|done].
    + by rewrite Hs, app_nil_r.
    + by rewrite app_nil_r, zlen_nil, Z.add_0_r.
  - apply wp_bind, wp_liftW, wp_pt_time_at.
    set (now := time_at _ _). intros w' Hle Hnow Ha Hs Hi.
    set (n1 := Node (n_self n) w' (n_context n)).
    assert (send_inv n1 (pre ++ (l, x) :: todo) cells) as Hinv1.
    { destruct Hinv as [[Hq Hsl Hfr Ho Hoom] Hset Hfam He Hc]. split; [split|..]; try done.
      - cbn. by rewrite Ha.
      - by apply (no_oom_le (n_world n)). }
    assert (send_frame n n1) as Hfr1 by by split.
    assert (negb (en_attempt_num x =? 0) && (now <? u64 (en_attempt_ts x + MESSAGE_RETRY_INTERVAL))
            = bool_decide (~ due x now)) as ->.
    { unfold due. destruct (Z.eqb_spec (en_attempt_num x) 0),
        (Z.ltb_spec now (u64 (en_attempt_ts x + MESSAGE_RETRY_INTERVAL))); cbn; symmetry;
        (rewrite bool_decide_true by lia; done) || (rewrite bool_decide_false by lia; done). }
    case_bool_decide as Hdue.
    + eapply wp_mono; [apply (IH (pre ++ [(l, x)]) todo cells n1 cnt); [by rewrite <- app_assoc|lia]|].
      intros r n' Hp. eapply (passed_step n n1 pre [(l, x)] _ _ todo cells cnt [] []); try done.
      * intros kept cells2 att f Hpass. by eapply PassWait.
      * cbn. by rewrite Hs, app_nil_r.
      * by rewrite zlen_nil, Z.add_0_r.
    + eapply wp_attempt; [exact Hinv1|done|].
      intros n2 d Hd Hfr2 Hs2. cbn [n1 n_world] in Hs2. rewrite Hs in Hs2. split.
      * intros Hwf Hinv2. exists ((l, x) :: todo), cells, [(l, x)], true, [d].
        split_and!; try done; [by eapply PassFail|by etrans|by constructor|].
        intros _. by apply (write_fails_le _ _ Hle).
      * intros Hinv2. eapply wp_mono; [apply (IH _ todo cells n2 (cnt + 1) Hinv2); lia|].
        intros r n' Hp. eapply passed_step; [|by etrans|exact Hs2|by constructor|exact Hp].
        intros kept cells2 att f Hpass. destruct (Z.leb_spec (en_max_attempts x) 1).
        -- by eapply PassOnce.
        -- by eapply PassSend.
Qed.
End Send.
