(* ===== verification/NodeFacts.v ===== *)
(** The invariant of a node, and what each enqueueing function and each
    handler of [gossip.c] does to a node in good order. *)
From S2P Require Import Prelude.
From S2P Require Import Config.
From S2P Require Import Utils.
From S2P Require Import World.
From S2P Require Import Member.
From S2P Require Import VectorClock.
From S2P Require Import Messages.
From S2P Require Import Queue.
From S2P Require Import DataLog.
From S2P Require Import Gossip.
From S2P Require Import Node.
From S2P Require Import MemberFacts.
From S2P Require Import MemberSetFacts.
From S2P Require Import VectorClockFacts.
From S2P Require Import CompareFacts.
From S2P Require Import WireFacts.
From S2P Require Import MessageFacts.
From S2P Require Import DataLogFacts.
From S2P Require Import QueueFacts.
From S2P Require Import OutboxFacts.
From S2P Require Import EnqueueFacts.

(** * Node invariant *)

(** The node's own member: a whole IPv4 or IPv6 socket address. *)
Definition self_ok (m : cluster_member) : Prop :=
  stored_wf m /\ 16 <= cm_address_len m <= sizeof_sockaddr_storage /\
  Forall is_byte (cm_address m).

#[export] Instance self_ok_dec m : Decision (self_ok m).
Proof. unfold self_ok. apply _. Defined.

Section Node.
Context {Ctx : Type}.
Implicit Types n : node Ctx.

Record node_ok n (xs : list entry) (cells : list member_cell) : Prop := NodeOk {
  no_outbox : outbox n xs;
  no_members : members_ok n cells;
  no_clock : clock_wf (g_data_version (n_self n));
  no_log : log_wf (g_data_log (n_self n));
  no_address : self_ok (g_self_address (n_self n));
  no_seq : is_u32 (g_sequence_num (n_self n));
  no_input : zlen (g_input_buffer (n_self n)) = MESSAGE_MAX_SIZE
}.

Lemma last_seq_u32 s rs : is_u32 s -> is_u32 (last_seq s rs).
Proof. revert s. induction rs as [|r rs IH]; intros s Hs; [done|]. apply IH, u32_range. Qed.

Lemma node_ok_frame n n' xs xs' cells :
  node_ok n xs cells -> enq_frame n n' -> outbox n' xs' ->
  is_u32 (g_sequence_num (n_self n')) -> node_ok n' xs' cells.
Proof.
  intros [_ [Hset Hf] Hc Hl Ha _ Hi] [] Hob Hseq.
  split; try congruence; try done. by split; congruence.
Qed.

Lemma message_enqueued_ok m rs n xs n' xs' cells :
  node_ok n xs cells -> message_enqueued m rs n xs n' xs' -> node_ok n' xs' cells /\ enq_frame n n'.
Proof.
  intros Hn (slot & xs1 & news & _ & _ & Hob & _ & Hseq & _ & Hfr & _). split; [|done].
  apply (node_ok_frame n _ xs); try done. rewrite Hseq. apply last_seq_u32, (no_seq _ _ _ Hn).
Qed.

(** Messages enqueued one after the other. *)
Inductive messages_enqueued : list (message * list recipient) ->
    node Ctx -> list entry -> node Ctx -> list entry -> Prop :=
| EnqueuedNil n xs : messages_enqueued [] n xs n xs
| EnqueuedCons m rs ms n xs n1 xs1 n2 xs2 :
    message_enqueued m rs n xs n1 xs1 -> messages_enqueued ms n1 xs1 n2 xs2 ->
    messages_enqueued ((m, rs) :: ms) n xs n2 xs2
| EnqueuedAlloc ms n xs n1 n2 xs2 :
    n_self n1 = n_self n -> enq_frame n n1 -> messages_enqueued ms n1 xs n2 xs2 ->
    messages_enqueued ms n xs n2 xs2.

(** Allocations alone do not matter. *)
Lemma node_ok_alloc n n1 xs cells :
  node_ok n xs cells -> n_self n1 = n_self n -> enq_frame n n1 -> node_ok n1 xs cells.
Proof.
  intros Hn E Hf. pose proof (no_outbox _ _ _ Hn) as Hob.
  apply (node_ok_frame n _ xs); try done; [|rewrite E; apply Hn].
  apply (outbox_update n _ xs); rewrite ?E; try apply Hob; try done; [|apply Hf].
  eapply fresh_le; [apply Hf|apply Hob].
Qed.

Lemma messages_enqueued_ok ms n xs n' xs' cells :
  node_ok n xs cells -> messages_enqueued ms n xs n' xs' ->
  node_ok n' xs' cells /\ enq_frame n n'.
Proof.
  intros Hn He.
  induction He as [|m rs ms n xs n1 xs1 n2 xs2 Hm He IH|ms n xs n1 n2 xs2 E Hf He IH]; [done| |].
  - destruct (message_enqueued_ok _ _ _ _ _ _ _ Hn Hm) as [Hn1 Hf1].
    destruct (IH Hn1) as [Hn2 Hf2]. split; [done|]. by etrans.
  - destruct (IH (node_ok_alloc _ _ _ _ Hn E Hf)) as [Hn2 Hf2]. split; [done|]. by etrans.
Qed.

Lemma messages_enqueued_one m rs n xs n' xs' :
  message_enqueued m rs n xs n' xs' -> messages_enqueued [(m, rs)] n xs n' xs'.
Proof. intros H. eapply EnqueuedCons; [exact H|constructor]. Qed.

Lemma messages_enqueued_app ms ms' n xs n1 xs1 n2 xs2 :
  messages_enqueued ms n xs n1 xs1 -> messages_enqueued ms' n1 xs1 n2 xs2 ->
  messages_enqueued (ms ++ ms') n xs n2 xs2.
Proof.
  intros H H2.
  induction H as [|m rs ms n xs n1 xs1 n3 xs3 Hm He IH|ms n xs n1 n3 xs3 E Hf He IH]; [done| |].
  - eapply EnqueuedCons; [exact Hm|by apply IH].
  - eapply EnqueuedAlloc; [exact E|exact Hf|by apply IH].
Qed.

(** A message for one recipient. *)
Lemma wp_enqueue_direct m to len n xs cells :
  node_ok n xs cells -> msg_wf m -> msg_need m <= MESSAGE_MAX_SIZE -> recipient_ok (to, len) ->
  wp (gossip_enqueue_message (msg_type_of m) m (Some to) len GOSSIP_DIRECT) n
    (fun r n' => r = PITTACUS_ERR_NONE /\ exists xs', message_enqueued m [(to, len)] n xs n' xs').
Proof.
  intros Hn Hm Hneed Hto.
  eapply wp_mono; [apply (wp_enqueue_message m (Some to) len GOSSIP_DIRECT n xs cells);
                     try done; apply Hn|].
  intros r n' (-> & rs & xs' & -> & He). split; [done|]. by exists xs'.
Qed.

(** * Acknowledgement, welcome, hello *)

Definition ack_of (seq : Z) : message :=
  MsgAck (MessageAck (message_header_init MESSAGE_ACK_TYPE 0) seq).
Definition welcome_of (n : node Ctx) (seq : Z) : message :=
  MsgWelcome (MessageWelcome (message_header_init MESSAGE_WELCOME_TYPE 0) seq
                (g_self_address (n_self n))).
Definition hello_of (n : node Ctx) : message :=
  MsgHello (MessageHello (message_header_init MESSAGE_HELLO_TYPE 0) (g_self_address (n_self n))).

Lemma init_header_wf t : is_byte t -> header_wf (message_header_init t 0).
Proof. intros Ht. by apply header_init_wf. Qed.

Lemma wp_enqueue_ack seq to len n xs cells :
  node_ok n xs cells -> is_u32 seq -> recipient_ok (to, len) ->
  wp (gossip_enqueue_ack seq to len) n
    (fun r n' => r = PITTACUS_ERR_NONE /\
       exists xs', message_enqueued (ack_of seq) [(to, len)] n xs n' xs').
Proof.
  intros Hn Hs Hto. unfold gossip_enqueue_ack.
  apply (wp_enqueue_direct (ack_of seq) to len n xs cells); done.
Qed.

Lemma wp_enqueue_welcome seq to len n xs cells :
  node_ok n xs cells -> is_u32 seq -> recipient_ok (to, len) ->
  wp (gossip_enqueue_welcome seq to len) n
    (fun r n' => r = PITTACUS_ERR_NONE /\
       exists xs', message_enqueued (welcome_of n seq) [(to, len)] n xs n' xs').
Proof.
  intros Hn Hs Hto. pose proof (no_address _ _ _ Hn) as ([Hw _] & Ha & _).
  unfold gossip_enqueue_welcome. apply wp_bind, wp_self.
  apply (wp_enqueue_direct (welcome_of n seq) to len n xs cells); try done.
  - split_and!; try done; cbn; lia.
  - cbn. config_lia.
Qed.

Lemma wp_enqueue_hello to len n xs cells :
  node_ok n xs cells -> recipient_ok (to, len) ->
  wp (gossip_enqueue_hello to len) n
    (fun r n' => r = PITTACUS_ERR_NONE /\
       exists xs', message_enqueued (hello_of n) [(to, len)] n xs n' xs').
Proof.
  intros Hn Hto. pose proof (no_address _ _ _ Hn) as ([Hw _] & Ha & _).
  unfold gossip_enqueue_hello. apply wp_bind, wp_self.
  apply (wp_enqueue_direct (hello_of n) to len n xs cells); try done.
  - split_and!; try done; cbn; lia.
  - cbn. config_lia.
Qed.

(** * Data and status *)

(** The longest payload that fits a data message. *)
Definition MAX_PAYLOAD : Z := MESSAGE_MAX_SIZE - (sizeof_message_header + VECTOR_RECORD_SIZE + sizeof_u16).

Definition sendable (t : message_data) : Prop :=
  codec_wf t /\ data_data_size t <= MAX_PAYLOAD.

(** Random dissemination of a message. *)
Lemma wp_enqueue_random m n xs cells :
  node_ok n xs cells -> msg_wf m -> msg_need m <= MESSAGE_MAX_SIZE ->
  wp (gossip_enqueue_message (msg_type_of m) m None 0 GOSSIP_RANDOM) n
    (fun r n' => r = PITTACUS_ERR_NONE /\ exists rs xs',
       spread_to cells None 0 GOSSIP_RANDOM rs /\ message_enqueued m rs n xs n' xs').
Proof.
  intros Hn Hm Hneed. by apply (wp_enqueue_message m None 0 GOSSIP_RANDOM n xs cells);
    [apply Hn|apply Hn|..].
Qed.

Definition status_of (c : vector_clock) : message :=
  MsgStatus (MessageStatus (message_header_init MESSAGE_STATUS_TYPE 0) c).

Lemma status_of_ok c : clock_ok c -> msg_wf (status_of c) /\ msg_need (status_of c) <= MESSAGE_MAX_SIZE.
Proof.
  intros Hc. pose proof Hc as (_ & Hn & _). split; [by split_and!|].
  cbn. rewrite u32_id by config_lia. config_lia.
Qed.

(** The node's clock is sent as it is. *)
Lemma wp_enqueue_status to len n xs cells :
  node_ok n xs cells -> match to with Some a => recipient_ok (a, len) | None => True end ->
  wp (gossip_enqueue_status to len) n
    (fun r n' => r = PITTACUS_ERR_NONE /\ exists c rs xs',
       clock_eqv c (g_data_version (n_self n)) /\ clock_ok c /\
       spread_to cells to len match to with None => GOSSIP_RANDOM | Some _ => GOSSIP_DIRECT end rs /\
       message_enqueued (status_of c) rs n xs n' xs').
Proof.
  intros Hn Hto. pose proof (no_clock _ _ _ Hn) as [Hc _].
  unfold gossip_enqueue_status. apply wp_bind, wp_self, wp_bind.
  destruct (vector_clock_copy_ok vector_clock_init (g_data_version (n_self n)) Hc)
    as (c & Ec & He & Hcok & _); [done|].
  eapply wp_lift; [exact Ec|]. destruct (status_of_ok c Hcok) as [Hwf Hneed].
  eapply wp_mono; [apply (wp_enqueue_message (status_of c) to len _ n xs cells); try done;
                     try apply Hn; by destruct to|].
  intros r n' (-> & rs & xs' & Hrs & Hm). split; [done|]. by exists c, rs, xs'.
Qed.

(** The records the recipient has not seen, as data messages. *)
Definition log_reply (r : data_log_record) : message := MsgData (gossip_data_log_create_message r).

Definition unseen (known : gmap Z Z) (r : data_log_record) : Prop :=
  record_comp (known !! vr_member_id (dr_version r)) (vr_sequence_number (dr_version r)) = VC_BEFORE.

#[export] Instance unseen_dec known r : Decision (unseen known r).
Proof. unfold unseen. apply _. Defined.

Definition log_replies (known : gmap Z Z) (rs : list data_log_record) (to : list Z) (len : Z)
    : list (message * list recipient) :=
  (fun r => (log_reply r, [(to, len)])) <$> filter (unseen known) rs.

Definition log_sendable (log : data_log) : Prop :=
  Forall (fun r => dr_data_size r <= MAX_PAYLOAD) (live_log log).

Lemma log_reply_ok log k r :
  log_wf log -> log_sendable log -> live_log log !! k = Some r ->
  record_wf (dr_version r) /\ msg_wf (log_reply r) /\ msg_need (log_reply r) <= MESSAGE_MAX_SIZE.
Proof.
  intros Hl Hs Hk. pose proof (Forall_lookup_1 _ _ _ _ (lw_live _ Hl) Hk) as [Hv Hn].
  pose proof (Forall_lookup_1 _ _ _ _ Hs Hk) as Hm. cbn in Hm.
  pose proof (Forall_lookup_1 _ _ _ _ (lw_room _ Hl) (live_log_lookup _ _ _ Hk)) as Hr. cbn in Hr.
  split; [done|]. split.
  - cbn. unfold vector_clock_record_copy. rewrite vector_record_eta.
    split_and!; try done; config_lia.
  - cbn. unfold MAX_PAYLOAD in Hm. config_lia.
Qed.

Lemma wp_data_log_loop rv to len cells ys : forall (i : nat) n xs,
  node_ok n xs cells -> log_sendable (g_data_log (n_self n)) -> clock_ok rv ->
  recipient_ok (to, len) -> drop i (live_log (g_data_log (n_self n))) = ys ->
  wp (data_log_loop (length ys) (Z.of_nat i) rv to len PITTACUS_ERR_NONE) n
    (fun r n' => r = PITTACUS_ERR_NONE /\
       exists xs', messages_enqueued (log_replies (clock_map rv) ys to len) n xs n' xs').
Proof.
  induction ys as [|rec ys IH]; intros i n xs Hn Hs Hrv Hto Ed.
  { apply wp_ret. split; [done|]. exists xs. constructor. }
  cbn [length data_log_loop]. apply wp_bind, wp_self.
  assert (live_log (g_data_log (n_self n)) !! i = Some rec) as Hi
    by (rewrite <- (Nat.add_0_r i), <- lookup_drop, Ed; done).
  assert (drop (S i) (live_log (g_data_log (n_self n))) = ys) as Ed'
    by (rewrite <- (Nat.add_1_r i), <- drop_drop, Ed; done).
  destruct (log_reply_ok _ _ _ (no_log _ _ _ Hn) Hs Hi) as (Hv & Hwf & Hneed).
  apply wp_bind. eapply wp_lift; [apply aread_Ok; by apply live_log_lookup|].
  apply wp_bind. eapply wp_lift; [by apply compare_with_record_read|]. cbn [fst].
  replace (Z.of_nat i + 1) with (Z.of_nat (S i)) by lia.
  unfold log_replies. rewrite filter_cons. unfold unseen at 1.
  case_bool_decide as Hb; case_decide; try done.
  - apply wp_bind. eapply wp_mono; [by apply (wp_enqueue_direct (log_reply rec) to len n xs cells)|].
    intros r n1 (-> & xs1 & Hm). cbn beta. change (PITTACUS_ERR_NONE <? 0) with false.
    destruct (message_enqueued_ok _ _ _ _ _ _ _ Hn Hm) as [Hn1 Hf1].
    eapply wp_mono; [apply (IH (S i) n1 xs1); try done; by rewrite (ef_log _ _ Hf1)|].
    intros r n2 (-> & xs2 & He). split; [done|]. exists xs2. by eapply EnqueuedCons.
  - by apply (IH (S i) n xs).
Qed.

Lemma wp_enqueue_data_log rv to len n xs cells :
  node_ok n xs cells -> log_sendable (g_data_log (n_self n)) -> clock_ok rv ->
  recipient_ok (to, len) ->
  wp (gossip_enqueue_data_log rv to len) n
    (fun r n' => r = PITTACUS_ERR_NONE /\
       exists xs', messages_enqueued
         (log_replies (clock_map rv) (live_log (g_data_log (n_self n))) to len) n xs n' xs').
Proof.
  intros Hn Hs Hrv Hto. unfold gossip_enqueue_data_log. apply wp_bind, wp_self.
  rewrite <- (length_live_log _ (no_log _ _ _ Hn)).
  by apply (wp_data_log_loop rv to len cells _ 0 n xs).
Qed.
End Node.
