(* ===== verification/HandlerFacts.v ===== *)
(** What each handler and each public function does to a node in good
    order. *)
From S2P Require Import Prelude.
From S2P Require Import Config.
From S2P Require Import Utils.
From S2P Require Import World.
From S2P Require Import Member.
From S2P Require Import VectorClock.
From S2P Require Import Messages.
From S2P Require Import Queue.
From S2P Require Import DataLog.
From S2P Require Import Gossip.
From S2P Require Import Node.
From S2P Require Import MemberFacts.
From S2P Require Import MemberSetFacts.
From S2P Require Import VectorClockFacts.
From S2P Require Import CompareFacts.
From S2P Require Import WireFacts.
From S2P Require Import MessageFacts.
From S2P Require Import DataLogFacts.
From S2P Require Import QueueFacts.
From S2P Require Import OutboxFacts.
From S2P Require Import EnqueueFacts.
From S2P Require Import NodeFacts.

(** * Lists in chunks *)

(** The list cut into pieces of [k] elements; the last may be shorter. *)
Fixpoint chunks {A} (fuel k : nat) (l : list A) : list (list A) :=
  match fuel, l with
  | S fuel', _ :: _ => take k l :: chunks fuel' k (drop k l)
  | _, _ => []
  end.

Lemma chunks_concat {A} fuel k (l : list A) :
  (0 < k)%nat -> (length l <= fuel)%nat -> mjoin (chunks fuel k l) = l.
Proof.
  intros Hk. revert l. induction fuel as [|fuel IH]; intros [|x l] Hl; try done; cbn in Hl; [lia|].
  change (take k (x :: l) ++ mjoin (chunks fuel k (drop k (x :: l))) = x :: l).
  rewrite IH; [apply take_drop|]. rewrite length_drop. cbn. lia.
Qed.

(** The messages that list the members [ms], [k] at a time. *)
Definition list_of (ms : list cluster_member) : message :=
  MsgMemberList (MessageMemberList (message_header_init MESSAGE_MEMBER_LIST_TYPE 0) (zlen ms) ms).

Definition member_lists (k : nat) (ms : list cluster_member) (to : list Z) (len : Z)
    : list (message * list recipient) :=
  (fun c => (list_of c, [(to, len)])) <$> chunks (length ms) k ms.

Lemma fill_members_ok s cells num fuel : forall acc (i : nat),
  set_repr s cells -> (i <= length cells)%nat -> zlen acc <= num -> num <= zlen acc + Z.of_nat fuel ->
  let room := Z.to_nat (num - zlen acc) in
  fill_members fuel s num acc (Z.of_nat i)
    = Ok (acc ++ set_members_of (take room (drop i cells)),
          Z.of_nat (i + length (take room (drop i cells)))).
Proof.
  intros acc i Hs. revert acc i. pose proof Hs as (_ & Hn & _).
  induction fuel as [|fuel IH]; intros acc i Hi Ha Hf room; cbn [fill_members];
    destruct (Z.ltb_spec (zlen acc) num) as [Hlt|Hge]; cbn [andb].
  - lia.
  - subst room. replace (Z.to_nat (num - zlen acc)) with O by lia.
    rewrite take_0. cbn. by rewrite app_nil_r, Nat.add_0_r.
  - destruct (Z.ltb_spec (Z.of_nat i) (ms_size s)) as [Hlt'|Hge'].
    + destruct (lookup_lt_is_Some_2 cells i) as [c Hc]; [unfold zlen in Hn; lia|].
      rewrite (set_cell_repr _ _ Hs i c Hc). out_step.
      replace (Z.of_nat i + 1) with (Z.of_nat (S i)) by lia.
      rewrite IH; clear IH.
      * rewrite (drop_S _ _ _ Hc). subst room.
        replace (Z.to_nat (num - zlen acc)) with (S (Z.to_nat (num - zlen (acc ++ [cell_member c]))))
          by (rewrite zlen_app, zlen_cons, (@zlen_nil cluster_member); lia).
        cbn [take length set_members_of fmap list_fmap]. rewrite <- app_assoc. do 3 f_equal. lia.
      * unfold zlen in Hn. lia.
      * rewrite zlen_app, zlen_cons, (@zlen_nil cluster_member). lia.
      * rewrite zlen_app, zlen_cons, (@zlen_nil cluster_member). lia.
    + rewrite drop_ge by (unfold zlen in Hn; lia). rewrite take_nil. cbn.
      by rewrite app_nil_r, Nat.add_0_r.
  - subst room. replace (Z.to_nat (num - zlen acc)) with O by lia.
    rewrite take_0. cbn. by rewrite app_nil_r, Nat.add_0_r.
Qed.

Section Handlers.
Context {Ctx : Type}.
Implicit Types n : node Ctx.

Lemma list_of_ok n cells ms :
  members_ok n cells -> (forall m, m ∈ ms -> m ∈ set_members_of cells) -> zlen ms <= 3 ->
  msg_wf (list_of ms) /\ msg_need (list_of ms) <= MESSAGE_MAX_SIZE.
Proof.
  intros [Hs Hf] Hin Hl. pose proof (zlen_nonneg ms). split.
  - cbn. split_and!; try done; try config_lia.
    apply Forall_forall. intros m Hm%Hin. split.
    + destruct Hs as (_ & _ & _ & _ & _ & Hw). apply list_elem_of_fmap in Hm as (c & -> & Hc).
      apply (proj1 (Forall_forall _ _) Hw c Hc).
    + apply (proj1 (Forall_forall _ _) Hf m Hm).
  - cbn. rewrite u32_id by config_lia. config_lia.
Qed.

Lemma list_of_ok1 m :
  listed_wf m -> msg_wf (list_of [m]) /\ msg_need (list_of [m]) <= MESSAGE_MAX_SIZE.
Proof. intros Hm. split; [|done]. cbn. split_and!; try done. by apply Forall_singleton. Qed.

Lemma wp_member_list_loop num to len cells ys : forall fuel (i : nat) n xs,
  node_ok n xs cells -> recipient_ok (to, len) -> 0 < num <= 3 ->
  drop i cells = ys -> (i <= length cells)%nat -> (length ys <= fuel)%nat ->
  wp (member_list_loop fuel num (Z.of_nat i) to len PITTACUS_ERR_NONE) n
    (fun r n' => r = PITTACUS_ERR_NONE /\ exists xs', messages_enqueued
       ((fun c => (list_of c, [(to, len)])) <$> chunks fuel (Z.to_nat num) (set_members_of ys))
       n xs n' xs').
Proof.
  intros fuel. revert ys. induction fuel as [|fuel IH]; intros ys i n xs Hn Hto Hnum Ed Hi Hf.
  all: cbn [member_list_loop]; apply wp_bind, wp_self.
  all: pose proof (no_members _ _ _ Hn) as Hmem; pose proof Hmem as [Hset _];
       pose proof Hset as (_ & Hsz & _); unfold zlen in Hsz.
  all: assert (length ys = length cells - i)%nat as Hly by (by rewrite <- Ed, length_drop).
  - destruct (Z.ltb_spec (Z.of_nat i) (ms_size (g_members (n_self n)))) as [Hlt|Hge]; [lia|].
    apply wp_ret. split; [done|]. exists xs. constructor.
  - destruct (Z.ltb_spec (Z.of_nat i) (ms_size (g_members (n_self n)))) as [Hlt|Hge].
    2:{ apply wp_ret. split; [done|]. exists xs. destruct ys; [constructor|cbn in Hly; lia]. }
    apply wp_bind. eapply wp_lift.
    { apply (fill_members_ok _ cells num (Z.to_nat num) [] i); [done|done|unfold zlen; cbn; lia|].
      rewrite (@zlen_nil cluster_member). lia. }
    cbn beta iota. rewrite (@zlen_nil cluster_member), Z.sub_0_r, app_nil_l, Ed.
    set (k := Z.to_nat num). assert (0 < k <= 3)%nat as Hk by lia.
    destruct ys as [|c ys]; [cbn in Hly; lia|].
    assert (0 < zlen (set_members_of (take k (c :: ys))) <= 3) as Hz.
    { unfold zlen, set_members_of. rewrite length_fmap, length_take. cbn [length]. lia. }
    destruct (Z.ltb_spec 0 (zlen (set_members_of (take k (c :: ys))))) as [_|?]; [|lia].
    rewrite u16_id by word_lia.
    fold (list_of (set_members_of (take k (c :: ys)))).
    destruct (list_of_ok n cells (set_members_of (take k (c :: ys))) Hmem) as [Hwf Hneed]; [|lia|].
    { intros m (c' & -> & Hc')%list_elem_of_fmap. apply list_elem_of_fmap_2.
      apply subseteq_take in Hc'. rewrite <- Ed in Hc'. by eapply subseteq_drop. }
    apply wp_bind.
    eapply wp_mono; [by apply (wp_enqueue_direct (list_of (set_members_of (take k (c :: ys))))
                                 to len n xs cells)|].
    intros r n1 (-> & xs1 & Hm). cbn beta. change (PITTACUS_ERR_NONE <? 0) with false.
    destruct (message_enqueued_ok _ _ _ _ _ _ _ Hn Hm) as [Hn1 Hf1].
    eapply wp_mono; [apply (IH (drop k (c :: ys)) _ n1 xs1 Hn1 Hto Hnum)|].
    + rewrite <- Ed, drop_drop. rewrite length_take, length_drop.
      destruct (decide (k <= length cells - i)%nat); [f_equal; lia|].
      by rewrite !drop_ge by lia.
    + rewrite length_take, Hly. lia.
    + rewrite length_drop. cbn [length] in *. lia.
    + intros r n2 (-> & xs2 & He). split; [done|]. exists xs2.
      unfold set_members_of in *. cbn [chunks fmap list_fmap].
      rewrite fmap_drop in He. cbn [fmap list_fmap] in He.
      eapply EnqueuedCons; [|exact He]. by rewrite fmap_take in Hm.
Qed.

Lemma wp_enqueue_member_list to len n xs cells :
  node_ok n xs cells -> recipient_ok (to, len) ->
  wp (gossip_enqueue_member_list to len) n
    (fun r n' => r = PITTACUS_ERR_NONE /\ exists xs', messages_enqueued
       (member_lists (Z.to_nat (Z.min MEMBER_LIST_SYNC_SIZE (zlen cells)))
          (set_members_of cells) to len) n xs n' xs').
Proof.
  intros Hn Hto. pose proof (no_members _ _ _ Hn) as [Hset _]. pose proof Hset as (_ & Hsz & _).
  unfold gossip_enqueue_member_list. apply wp_bind, wp_self. cbv zeta. rewrite <- Hsz.
  assert ((if MEMBER_LIST_SYNC_SIZE <? zlen cells then MEMBER_LIST_SYNC_SIZE else zlen cells)
          = Z.min MEMBER_LIST_SYNC_SIZE (zlen cells)) as ->
    by (destruct (Z.ltb_spec MEMBER_LIST_SYNC_SIZE (zlen cells)); lia).
  pose proof (zlen_nonneg cells) as Hnn. change MEMBER_LIST_SYNC_SIZE with 3 in *.
  destruct (Z.eqb_spec (Z.min 3 (zlen cells)) 0) as [E|Hne].
  - apply wp_ret. split; [done|]. exists xs. assert (cells = []) as -> by (apply zlen_zero; lia).
    constructor.
  - apply wp_bind, wp_liftW, wp_malloc_ok; [apply Hn|]. intros w' Hle Ha Hs Hi.
    set (n1 := Node (n_self n) w' (n_context n)).
    assert (enq_frame n n1) as Hf by by split.
    pose proof (node_ok_alloc n n1 xs cells Hn eq_refl Hf) as Hn1.
    replace (Z.to_nat (zlen cells)) with (length cells) by (unfold zlen; lia).
    eapply wp_mono; [apply (wp_member_list_loop _ to len cells cells (length cells) 0 n1 xs Hn1 Hto);
                       (done || lia)|].
    intros r n2 (-> & xs2 & He). split; [done|]. exists xs2.
    apply (EnqueuedAlloc _ n xs n1); [done|exact Hf|]. unfold member_lists, set_members_of in *.
    by rewrite length_fmap.
Qed.

(** * Removing an envelope, adding members *)

(** The queue without the first envelope numbered [s]. *)
Definition remove_seq (s : Z) (xs : list entry) : list entry :=
  match list_find (fun e => en_sequence_num (snd e) = s) xs with
  | Some (i, _) => delete i xs
  | None => xs
  end.

Lemma remove_seq_incl s xs e : e ∈ remove_seq s xs -> e ∈ xs.
Proof.
  unfold remove_seq. destruct (list_find _ xs) as [[i x]|]; [|done].
  apply list_elem_of_delete_inv.
Qed.

Lemma remove_seq_length s xs : zlen (remove_seq s xs) <= zlen xs.
Proof.
  unfold remove_seq. destruct (list_find _ xs) as [[i x]|] eqn:E; [|done].
  apply list_find_Some in E as [E _]. unfold zlen. rewrite length_delete; [lia|by eexists].
Qed.

(** Only the queue changed. *)
Definition queue_only n n' : Prop :=
  exists q, n' = Node (set_outbound_messages q (n_self n)) (n_world n) (n_context n).

Lemma queue_only_frame n n' : queue_only n n' -> enq_frame n n'.
Proof. intros [q ->]. by split. Qed.

Lemma wp_remove_by_sequence_num s n xs cells :
  node_ok n xs cells ->
  wp (remove_by_sequence_num s) n
    (fun _ n' => queue_only n n' /\ node_ok n' (remove_seq s xs) cells).
Proof.
  intros Hn. pose proof (no_outbox _ _ _ Hn) as Hob. pose proof (ob_queue _ _ Hob) as Hq.
  unfold remove_by_sequence_num. apply wp_bind, wp_self, wp_bind.
  eapply wp_lift; [by apply find_repr|]. unfold find_seq, remove_seq.
  destruct (list_find _ xs) as [[i [l x]]|] eqn:E; cbn.
  - apply list_find_Some in E as (Hi & _).
    destruct (remove_repr _ xs Hq i l x Hi) as (q' & Er & Hq').
    eapply wp_queue_op; [exact Er|]. split; [by exists q'|].
    apply (node_ok_frame n _ xs); [done|by split| |apply Hn].
    apply (outbox_update n _ xs); [done|done| | |done|done]; apply Forall_delete; apply Hob.
  - apply wp_ret. split; [|done]. exists (g_outbound_messages (n_self n)). by destruct n as [[] ? ?].
Qed.

Lemma put_all_length l news (P : Z -> Prop) :
  Forall (fun m => P (cm_address_len m)) l -> Forall (fun m => P (cm_address_len m)) news ->
  Forall (fun m => P (cm_address_len m)) (put_all l news).
Proof.
  intros Hl Hn. revert l Hl. induction Hn as [|m news Hm _ IH]; intros l Hl; [done|].
  apply IH. unfold put_one. case_bool_decide; [done|]. apply Forall_app. split; [done|].
  by apply Forall_singleton.
Qed.

(** Room for [k] more members: the size stays far from overflow. *)
Definition room_for (cells : list member_cell) (k : Z) : Prop :=
  4 * (zlen cells + k) < 3 * 2 ^ 31.

Lemma wp_put_members news n xs cells :
  node_ok n xs cells -> Forall listed_wf news -> room_for cells (zlen news) ->
  wp (put_members news) n (fun _ n' => exists s' cells' w',
    n' = Node (set_members s' (n_self n)) w' (n_context n) /\ node_ok n' xs cells' /\
    set_members_of cells' = put_all (set_members_of cells) news /\
    world_le (n_world n) w' /\ sent w' = sent (n_world n) /\ inbox w' = inbox (n_world n)).
Proof.
  intros Hn Hf Hroom. pose proof Hn as [Hob [Hset Hlen] Hc Hl Ha Hs Hi].
  pose proof Hset as (_ & Hsz & _). unfold room_for in Hroom; rewrite Hsz in Hroom.
  unfold put_members. apply wp_bind, wp_self, wp_bind, wp_liftW.
  eapply wp_set_put; [apply Hob|exact Hset| |exact Hroom|].
  { apply (Forall_impl _ _ _ Hf). by intros m [? _]. }
  intros s' cells' w' Hs' Em Hle Hsent Hin. apply wp_modify_self. cbn.
  exists s', cells', w'. split; [done|]. split; [|done]. split; try done.
  - apply (outbox_update n _ xs); try apply Hob; try done.
    eapply (fresh_le n); [done|apply Hob].
  - split; [done|]. rewrite Em. apply (put_all_length _ _ (fun z => z <= _)); [done|].
    apply (Forall_impl _ _ _ Hf). by intros m [_ ?].
Qed.

(** Only the members changed; memory may have been allocated. *)
Definition members_only n n' : Prop :=
  exists s w, n' = Node (set_members s (n_self n)) w (n_context n) /\
    world_le (n_world n) w /\ sent w = sent (n_world n) /\ inbox w = inbox (n_world n).

(** Only the clock, the log and the context changed. *)
Definition took_over n n' (c : Ctx) : Prop :=
  exists v l, n' = Node (set_data_log l (set_data_version v (n_self n))) (n_world n) c.

(** * Handlers *)

Variable data_receiver : option (list Z -> Z -> M (node Ctx) unit).

(** A message received: the bytes of [t], then the rest of the buffer. *)
Definition carries_in {T} `{Codec T} (e : message_envelope_in) (t : T) : Prop :=
  codec_wf t /\ zlen (wire t) <= MESSAGE_MAX_SIZE /\
  (exists rest, ei_buffer e = wire t ++ rest) /\ ei_buffer_size e = zlen (wire t) /\
  recipient_ok (ei_sender e, ei_sender_len e).

Definition connected n : Prop := g_state (n_self n) = STATE_CONNECTED.

Lemma wp_connected (k : M (node Ctx) Z) n Q :
  connected n -> wp k n Q -> wp (return_if_not_connected k) n Q.
Proof.
  intros Hc Hk. unfold return_if_not_connected. apply wp_bind, wp_self.
  by rewrite bool_decide_true.
Qed.

Lemma wp_not_connected (k : M (node Ctx) Z) n (Q : Z -> node Ctx -> Prop) :
  ~ connected n -> Q PITTACUS_ERR_BAD_STATE n -> wp (return_if_not_connected k) n Q.
Proof.
  intros Hc HQ. unfold return_if_not_connected. apply wp_bind, wp_self.
  by rewrite bool_decide_false.
Qed.

(** A result code that is a length. *)
Lemma wire_nonneg {T} `{Codec T} (t : T) : (zlen (wire t) <? 0) = false.
Proof. apply Z.ltb_ge, zlen_nonneg. Qed.

Lemma wp_handle_ack e (t : message_ack) n xs cells :
  node_ok n xs cells -> connected n -> carries_in e t ->
  wp (gossip_handle_ack e) n
    (fun r n' => r = PITTACUS_ERR_NONE /\ queue_only n n' /\
       node_ok n' (remove_seq (ack_ack_sequence_num t) xs) cells).
Proof.
  intros Hn Hc (Hwf & _ & [rest Hb] & Hsz & _). apply wp_connected; [done|].
  apply wp_bind. eapply wp_lift; [rewrite Hb, Hsz; by apply ack_decode_ok|].
  cbn beta iota. change (16 <? 0) with false. cbn iota. apply wp_bind.
  eapply wp_mono; [by apply wp_remove_by_sequence_num|]. intros ? n' H. by apply wp_ret.
Qed.

Lemma wp_handle_welcome e (t : message_welcome) n xs cells :
  node_ok n xs cells -> carries_in e t -> room_for cells 1 ->
  cm_address_len (welcome_this_member t) <= sizeof_sockaddr_storage ->
  wp (gossip_handle_welcome e) n
    (fun r n' => r = PITTACUS_ERR_NONE /\ connected n' /\ exists cells',
       node_ok n' (remove_seq (welcome_hello_sequence_num t) xs) cells' /\
       (exists m, member_eqv m (welcome_this_member t) /\
          set_members_of cells' = put_all (set_members_of cells) [m]) /\
       sent (n_world n') = sent (n_world n) /\ n_context n' = n_context n /\
       exists n1, members_only
         (Node (set_state STATE_CONNECTED (n_self n)) (n_world n) (n_context n)) n1 /\
         queue_only n1 n').
Proof.
  intros Hn (Hwf & Hl & [rest Hb] & Hsz & _) Hroom Ha.
  unfold gossip_handle_welcome. apply wp_bind, wp_liftW. rewrite Hb, Hsz.
  eapply wp_mono; [apply wp_welcome_decode; [apply Hn|done|config_lia]|].
  intros r w' (t' & -> & (Eh & Es & Em) & Hwf' & Hle & Hsent & Hin). cbn beta iota.
  rewrite wire_nonneg. set (n1 := Node (n_self n) w' (n_context n)).
  assert (node_ok n1 xs cells) as Hn1 by (apply (node_ok_alloc n); try done; by split).
  apply wp_bind, wp_modify_self. set (n2 := Node _ _ _).
  assert (node_ok n2 xs cells) as Hn2 by (destruct Hn1 as [[] ? ? ? ? ? ?]; split; done).
  assert (listed_wf (welcome_this_member t')) as Hlw.
  { destruct Hwf' as (_ & _ & _ & Hm & _). split; [done|]. destruct Em as (_ & _ & -> & _). done. }
  apply wp_bind. eapply wp_mono; [apply (wp_put_members [welcome_this_member t'] n2 xs cells Hn2);
                                    [by apply Forall_singleton|done]|].
  intros ? n3 (s' & cells' & w3 & -> & Hn3 & Hcells & Hle3 & Hs3 & Hi3). apply wp_bind.
  rewrite Es. eapply wp_mono; [by apply wp_remove_by_sequence_num|].
  intros ? n4 ([q ->] & Hn4). apply wp_ret. split; [done|]. split; [done|].
  exists cells'. split; [done|]. split; [by exists (welcome_this_member t')|].
  split; [cbn; by rewrite Hs3|]. split; [done|]. eexists. split; [|by exists q].
  exists s', w3. split; [done|]. cbn in *. split; [by etrans|]. by rewrite Hs3, Hi3.
Qed.

Lemma wp_handle_member_list e (t : message_member_list) n xs cells :
  node_ok n xs cells -> connected n -> carries_in e t -> room_for cells (zlen (ml_members t)) ->
  wp (gossip_handle_member_list e) n
    (fun r n' => r = PITTACUS_ERR_NONE /\ connected n' /\ exists cells' n1 xs' ms,
       Forall2 member_eqv ms (ml_members t) /\
       set_members_of cells' = put_all (set_members_of cells) ms /\
       message_enqueued (ack_of (mh_sequence_num (ml_header t)))
         [(ei_sender e, ei_sender_len e)] n1 xs n' xs' /\ node_ok n' xs' cells' /\
       sent (n_world n') = sent (n_world n) /\ n_context n' = n_context n /\
       members_only n n1).
Proof.
  intros Hn Hc (Hwf & Hl & [rest Hb] & Hsz & Hrec) Hroom. apply wp_connected; [done|].
  apply wp_bind, wp_liftW. rewrite Hb, Hsz.
  eapply wp_mono; [apply wp_list_decode; [apply Hn|done|config_lia]|].
  intros r w' (t' & -> & (Eh & En & Em) & Hwf' & Hle & Hsent & Hin). cbn beta iota.
  rewrite wire_nonneg. set (n1 := Node (n_self n) w' (n_context n)).
  assert (node_ok n1 xs cells) as Hn1 by (apply (node_ok_alloc n); try done; by split).
  destruct Hwf' as (Hh & _ & _ & _ & Hf). apply wp_bind.
  eapply wp_mono; [apply (wp_put_members (ml_members t') n1 xs cells Hn1 Hf)|].
  { unfold room_for, zlen in *. by rewrite (Forall2_length _ _ _ Em). }
  intros ? n2 (s' & cells' & w2 & -> & Hn2 & Hcells & Hle2 & Hs2 & Hi2).
  rewrite Eh. apply wp_bind. eapply wp_mono.
  { eapply (wp_enqueue_ack (mh_sequence_num (ml_header t))); [exact Hn2| |exact Hrec].
    destruct Hwf as ((_ & _ & _ & ?) & _). done. }
  intros r n3 (-> & xs' & Hm). apply wp_ret. split; [done|].
  destruct (message_enqueued_ok _ _ _ _ _ _ _ Hn2 Hm) as [Hn3 Hf3].
  split; [by unfold connected; rewrite (ef_state _ _ Hf3)|].
  exists cells', (Node (set_members s' (n_self n1)) w2 (n_context n1)), xs', (ml_members t').
  split_and!; try done.
  - rewrite (ef_sent _ _ Hf3). cbn. by rewrite Hs2.
  - by rewrite (ef_context _ _ Hf3).
  - exists s', w2. split; [done|]. cbn in *. split; [by etrans|]. by rewrite Hs2, Hi2.
Qed.

(** A receiver that keeps to its own context: what it does to the context
    is a function of the payload. *)
Definition receiver_ok (deliver : list Z -> Ctx -> Ctx) : Prop :=
  match data_receiver with
  | Some receive => forall data size n, wp (receive data size) n (fun _ n' =>
      n' = Node (n_self n) (n_world n) (deliver (ztake size data) (n_context n)))
  | None => forall p c, deliver p c = c
  end.

(** The same for one payload. *)
Definition receives (deliver : list Z -> Ctx -> Ctx) (p : list Z) : Prop :=
  match data_receiver with
  | Some receive => forall data size n, ztake size data = p -> wp (receive data size) n (fun _ n' =>
      n' = Node (n_self n) (n_world n) (deliver p (n_context n)))
  | None => forall c, deliver p c = c
  end.

Lemma receiver_ok_receives deliver p : receiver_ok deliver -> receives deliver p.
Proof.
  unfold receiver_ok, receives. destruct data_receiver as [receive|]; [|done].
  intros H data size n <-. apply H.
Qed.

(** The message is newer than what the clock knows of its originator. *)
Definition newer_msg (c : vector_clock) (t : message_data) : Prop :=
  default (-1) (clock_map c !! vr_member_id (data_data_version t))
    < vr_sequence_number (data_data_version t).

#[export] Instance newer_msg_dec c t : Decision (newer_msg c t).
Proof. unfold newer_msg. apply _. Defined.

Lemma record_comp_before known s :
  bool_decide (record_comp known s = VC_BEFORE) = bool_decide (default (-1) known < s).
Proof.
  apply bool_decide_ext. unfold record_comp.
  destruct (Z.ltb_spec s (default (-1) known)), (Z.ltb_spec (default (-1) known) s);
    cbn; split; intros; done || lia.
Qed.

(** The clock and the log after a new message. *)
Definition noted (n n' : node Ctx) (t : message_data) : Prop :=
  clock_map (g_data_version (n_self n')) =
    <[vr_member_id (data_data_version t) := vr_sequence_number (data_data_version t)]>
      (evicted (g_data_version (n_self n)) (vr_member_id (data_data_version t))) /\
  log_view (g_data_log (n_self n')) =
    log_put (Z.to_nat (dl_current_idx (g_data_log (n_self n)))) (log_view (g_data_log (n_self n)))
      (data_entry t).

Lemma node_ok_version n xs cells c :
  node_ok n xs cells -> clock_wf c ->
  node_ok (Node (set_data_version c (n_self n)) (n_world n) (n_context n)) xs cells.
Proof. intros [[] ? ? ? ? ? ?] Hc. by split; [split|..]. Qed.

Lemma node_ok_log n xs cells l :
  node_ok n xs cells -> log_wf l ->
  node_ok (Node (set_data_log l (n_self n)) (n_world n) (n_context n)) xs cells.
Proof. intros [[] ? ? ? ? ? ?] Hc. by split; [split|..]. Qed.

Lemma node_ok_context n xs cells (c : Ctx) :
  node_ok n xs cells -> node_ok (Node (n_self n) (n_world n) c) xs cells.
Proof. intros [[] ? ? ? ? ? ?]. by split; [split|..]. Qed.

(** A data message: it is acknowledged; when it is new, the clock and the
    log take it over, the receiver gets the payload, and it is passed on
    to random members; otherwise nothing else happens. *)
Lemma wp_handle_data e (t : message_data) deliver n xs cells :
  node_ok n xs cells -> connected n -> carries_in e t -> receives deliver (payload t) ->
  wp (gossip_handle_data data_receiver e) n
    (fun r n' => r = PITTACUS_ERR_NONE /\ connected n' /\
       sent (n_world n') = sent (n_world n) /\
       exists n1 xs1, message_enqueued (ack_of (mh_sequence_num (data_header t)))
         [(ei_sender e, ei_sender_len e)] n xs n1 xs1 /\
       if bool_decide (newer_msg (g_data_version (n_self n)) t)
       then noted n n' t /\ n_context n' = deliver (payload t) (n_context n) /\
         exists t' n2 rs xs2, codec_eqv t' t /\ spread_to cells None 0 GOSSIP_RANDOM rs /\
           took_over n1 n2 (n_context n') /\
           message_enqueued (MsgData t') rs n2 xs1 n' xs2 /\ node_ok n' xs2 cells
       else node_ok n' xs1 cells /\ n' = n1).
Proof.
  intros Hn Hc (Hwf & Hl & [rest Hb] & Hsz & Hrec) Hdel. apply wp_connected; [done|].
  destruct (data_decode_ok t rest Hwf) as (t' & Ed & He & Hwf'); [config_lia|].
  pose proof He as (Eh & Ev & Es & Ep). pose proof Hwf' as (Hh & _ & Hv & Hn16 & Hd).
  assert (data_data_size t' <= MAX_PAYLOAD) as Hmax.
  { rewrite Es. rewrite zlen_wire_data in Hl by done. unfold MAX_PAYLOAD. config_lia. }
  apply wp_bind. eapply wp_lift; [rewrite Hb, Hsz; exact Ed|]. cbn beta iota.
  rewrite wire_nonneg. apply wp_bind. rewrite Eh in Hh |- *. eapply wp_mono.
  { eapply (wp_enqueue_ack (mh_sequence_num (data_header t))); [exact Hn| |exact Hrec].
    by destruct Hh as (_ & _ & _ & ?). }
  intros r n1 (-> & xs1 & Hm1). destruct (message_enqueued_ok _ _ _ _ _ _ _ Hn Hm1) as [Hn1 Hf1].
  apply wp_bind, wp_self, wp_bind.
  destruct (compare_with_record_spec _ (data_data_version t') true (no_clock _ _ _ Hn1) Hv)
    as (c' & Ec & Hc' & Hcase).
  eapply wp_lift; [exact Ec|]. cbn beta iota. apply wp_bind, wp_modify_self.
  rewrite record_comp_before. rewrite (ef_version _ _ Hf1) in *. rewrite Ev in *.
  unfold newer_msg. cbn [andb] in Hcase. case_bool_decide as Hnew.
  - apply wp_bind, wp_self, wp_bind.
    set (n2 := Node (set_data_version c' (n_self n1)) (n_world n1) (n_context n1)).
    assert (node_ok n2 xs1 cells) as Hn2 by by apply node_ok_version.
    destruct (gossip_data_log_repr _ (no_log _ _ _ Hn2) t') as (log' & El & Hlog' & Hview).
    { split; [by rewrite Ev|]. unfold MAX_PAYLOAD in Hmax. split; [config_lia|done]. }
    eapply wp_lift; [exact El|]. apply wp_bind, wp_modify_self.
    set (n3 := Node _ _ _). assert (node_ok n3 xs1 cells) as Hn3 by by apply node_ok_log.
    apply wp_bind.
    set (n4 := Node (n_self n3) (n_world n3) (deliver (payload t) (n_context n3))).
    assert (node_ok n4 xs1 cells) as Hn4 by by apply (node_ok_context n3).
    apply (wp_mono _ _ (fun _ n' => n' = n4)).
    { unfold receives in Hdel. destruct data_receiver as [receive|].
      - by apply Hdel.
      - apply wp_ret. subst n4. by rewrite Hdel. }
    intros ? n' ->. eapply wp_mono; [apply (wp_enqueue_random (MsgData t') n4 xs1 cells Hn4 Hwf')|].
    { cbn. unfold MAX_PAYLOAD in Hmax. config_lia. }
    intros r n5 (-> & rs & xs2 & Hrs & Hm5).
    destruct (message_enqueued_ok _ _ _ _ _ _ _ Hn4 Hm5) as [Hn5 Hf5]. split; [done|].
    split; [unfold connected; rewrite (ef_state _ _ Hf5); cbn; by rewrite (ef_state _ _ Hf1)|].
    split; [rewrite (ef_sent _ _ Hf5); cbn; by rewrite (ef_sent _ _ Hf1)|].
    exists n1, xs1. split; [done|]. rewrite bool_decide_true by done. split; [split|split].
    + rewrite (ef_version _ _ Hf5). exact Hcase.
    + rewrite (ef_log _ _ Hf5). change (g_data_log (n_self n4)) with log'. rewrite Hview.
      change (g_data_log (n_self n2)) with (g_data_log (n_self n1)). rewrite (ef_log _ _ Hf1).
      f_equal. unfold data_entry. by rewrite Ev, Ep.
    + rewrite (ef_context _ _ Hf5). cbn. by rewrite (ef_context _ _ Hf1).
    + exists t', n4, rs, xs2. split; [done|]. split; [done|]. split; [|done].
      rewrite (ef_context _ _ Hf5). by exists c', log'.
  - apply wp_ret. split; [done|]. rewrite Hcase. 
    assert (Node (set_data_version (g_data_version (n_self n)) (n_self n1)) (n_world n1)
              (n_context n1) = n1) as ->.
    { rewrite <- (ef_version _ _ Hf1). by destruct n1 as [[] ? ?]. }
    split; [by unfold connected; rewrite (ef_state _ _ Hf1)|].
    split; [by rewrite (ef_sent _ _ Hf1)|]. exists n1, xs1.
    by rewrite bool_decide_false by done.
Qed.

(** The reply to a status message of a node that knows [known], whose own
    clock is [c']: the missing data, a status, both or nothing. *)
Definition status_replies n (known : gmap Z Z) (c' : vector_clock) (to : list Z) (len : Z)
    : list (message * list recipient) :=
  let data := log_replies known (live_log (g_data_log (n_self n))) to len in
  let status := [(status_of c', [(to, len)])] in
  match compare_maps (clock_map (g_data_version (n_self n))) known with
  | VC_AFTER => data
  | VC_BEFORE => status
  | VC_CONFLICT => data ++ status
  | VC_EQUAL => []
  end.

Lemma wp_status_direct to len n xs cells :
  node_ok n xs cells -> recipient_ok (to, len) ->
  wp (gossip_enqueue_status (Some to) len) n
    (fun r n' => r = PITTACUS_ERR_NONE /\ exists c xs',
       clock_eqv c (g_data_version (n_self n)) /\
       messages_enqueued [(status_of c, [(to, len)])] n xs n' xs').
Proof.
  intros Hn Hto. eapply wp_mono; [by apply (wp_enqueue_status (Some to) len n xs cells)|].
  intros r n' (-> & c & rs & xs' & He & _ & -> & Hm). split; [done|]. exists c, xs'.
  split; [done|]. by apply messages_enqueued_one.
Qed.

Lemma wp_handle_status e (t : message_status) n xs cells :
  node_ok n xs cells -> connected n -> carries_in e t -> log_sendable (g_data_log (n_self n)) ->
  wp (gossip_handle_status e) n
    (fun r n' => r = PITTACUS_ERR_NONE /\ exists xs' c',
       clock_eqv c' (g_data_version (n_self n)) /\
       messages_enqueued
         ((ack_of (mh_sequence_num (status_header t)), [(ei_sender e, ei_sender_len e)])
          :: status_replies n (clock_map (status_data_version t)) c'
               (ei_sender e) (ei_sender_len e)) n xs n' xs' /\
       node_ok n' xs' cells /\ enq_frame n n').
Proof.
  intros Hn Hc (Hwf & Hl & [rest Hb] & Hsz & Hrec) Hlog. apply wp_connected; [done|].
  destruct (status_decode_ok t rest Hwf) as (t' & Ed & (Eh & Ev) & Hwf').
  apply wp_bind. eapply wp_lift; [rewrite Hb, Hsz; exact Ed|]. cbn beta iota.
  rewrite wire_nonneg. destruct Hwf' as (Hh & _ & Hck). rewrite Eh in Hh |- *. apply wp_bind.
  eapply wp_mono.
  { eapply (wp_enqueue_ack (mh_sequence_num (status_header t))); [exact Hn| |exact Hrec].
    by destruct Hh as (_ & _ & _ & ?). }
  intros r n1 (-> & xs1 & Hm1). destruct (message_enqueued_ok _ _ _ _ _ _ _ Hn Hm1) as [Hn1 Hf1].
  assert (forall n2 xs2 ms c', clock_eqv c' (g_data_version (n_self n)) ->
            messages_enqueued ms n1 xs1 n2 xs2 ->
            ms = status_replies n (clock_map (status_data_version t)) c' (ei_sender e) (ei_sender_len e) ->
            exists xs' c', clock_eqv c' (g_data_version (n_self n)) /\ messages_enqueued
              ((ack_of (mh_sequence_num (status_header t)), [(ei_sender e, ei_sender_len e)])
               :: status_replies n (clock_map (status_data_version t)) c' (ei_sender e)
                    (ei_sender_len e)) n xs n2 xs' /\
              node_ok n2 xs' cells /\ enq_frame n n2) as Hend.
  { intros n2 xs2 ms c' He Hms ->. exists xs2, c'. split; [done|].
    destruct (messages_enqueued_ok _ _ _ _ _ _ Hn1 Hms) as [Hn2 Hf2].
    split; [by eapply EnqueuedCons|]. split; [done|by etrans]. }
  apply wp_bind, wp_self, wp_bind. eapply wp_lift.
  { apply vector_clock_compare_read; [apply (no_clock _ _ _ Hn1)|done]. }
  assert (clock_map (status_data_version t') = clock_map (status_data_version t)) as Em
    by by rewrite Ev.
  cbn beta iota. rewrite (ef_version _ _ Hf1), Em. unfold status_replies in *.
  destruct (compare_maps _ _).
  - eapply wp_mono; [by apply (wp_status_direct _ _ n1 xs1 cells)|]. rewrite (ef_version _ _ Hf1).
    intros r n2 (-> & c' & xs2 & He & Hms). split; [done|]. by apply (Hend n2 xs2 _ c' He Hms).
  - eapply wp_mono; [apply (wp_enqueue_data_log _ _ _ n1 xs1 cells); try done; by rewrite (ef_log _ _ Hf1)|].
    rewrite Em, (ef_log _ _ Hf1). intros r n2 (-> & xs2 & Hms). split; [done|].
    by apply (Hend n2 xs2 _ (g_data_version (n_self n)) (reflexivity _) Hms).
  - apply wp_ret. split; [done|].
    apply (Hend n1 xs1 [] (g_data_version (n_self n)) (reflexivity _)); [constructor|done].
  - apply wp_bind. eapply wp_mono; [apply (wp_enqueue_data_log _ _ _ n1 xs1 cells); try done; by rewrite (ef_log _ _ Hf1)|].
    rewrite Em, (ef_log _ _ Hf1). intros r n2 (-> & xs2 & Hms2).
    change (PITTACUS_ERR_NONE <? 0) with false. cbn iota.
    destruct (messages_enqueued_ok _ _ _ _ _ _ Hn1 Hms2) as [Hn2 Hf2].
    eapply wp_mono; [by apply (wp_status_direct _ _ n2 xs2 cells)|].
    rewrite (ef_version _ _ Hf2), (ef_version _ _ Hf1).
    intros r n3 (-> & c' & xs3 & He & Hms3). split; [done|].
    eapply (Hend n3 xs3 _ c' He); [by eapply messages_enqueued_app|done].
Qed.

(** A newcomer: it is welcomed, it gets the members, the members get it,
    and it becomes a member. *)
Lemma wp_handle_hello e (t : message_hello) n xs cells :
  node_ok n xs cells -> connected n -> carries_in e t -> room_for cells 1 ->
  cm_address_len (hello_this_member t) <= sizeof_sockaddr_storage ->
  wp (gossip_handle_hello e) n
    (fun r n' => r = PITTACUS_ERR_NONE /\ connected n' /\
       exists m n2 xs' cells', member_eqv m (hello_this_member t) /\
         messages_enqueued
           ((welcome_of n (mh_sequence_num (hello_header t)), [(ei_sender e, ei_sender_len e)])
            :: member_lists (Z.to_nat (Z.min MEMBER_LIST_SYNC_SIZE (zlen cells)))
                 (set_members_of cells) (ei_sender e) (ei_sender_len e)
            ++ [(list_of [m], recipient_of <$> set_members_of cells)]) n xs n2 xs' /\
         set_members_of cells' = put_all (set_members_of cells) [m] /\
         node_ok n' xs' cells' /\ sent (n_world n') = sent (n_world n) /\
         n_context n' = n_context n /\ members_only n2 n').
Proof.
  intros Hn Hc (Hwf & Hl & [rest Hb] & Hsz & Hrec) Hroom Ha. apply wp_connected; [done|].
  apply wp_bind, wp_liftW. rewrite Hb, Hsz.
  eapply wp_mono; [apply wp_hello_decode; [apply Hn|done|config_lia]|].
  intros r w' (t' & -> & (Eh & Em) & Hwf' & Hle & Hsent & Hin). cbn beta iota.
  rewrite wire_nonneg. set (n0 := Node (n_self n) w' (n_context n)).
  assert (enq_frame n n0) as Hf0 by by split.
  assert (node_ok n0 xs cells) as Hn0 by by apply (node_ok_alloc n).
  destruct Hwf' as (Hh & _ & Hm & H6). set (m := hello_this_member t') in *.
  assert (listed_wf m) as Hlw by (split; [done|]; destruct Em as (_ & _ & -> & _); done).
  rewrite Eh in *. apply wp_bind. eapply wp_mono.
  { eapply (wp_enqueue_welcome (mh_sequence_num (hello_header t))); [exact Hn0| |exact Hrec].
    by destruct Hh as (_ & _ & _ & ?). }
  intros r n1 (-> & xs1 & Hm1). destruct (message_enqueued_ok _ _ _ _ _ _ _ Hn0 Hm1) as [Hn1 Hf1].
  apply wp_bind, wp_self, wp_bind. apply (wp_mono _ _ (fun _ n2 => exists xs2, messages_enqueued
    (member_lists (Z.to_nat (Z.min MEMBER_LIST_SYNC_SIZE (zlen cells)))
       (set_members_of cells) (ei_sender e) (ei_sender_len e)) n1 xs1 n2 xs2)).
  { pose proof (no_members _ _ _ Hn1) as [(_ & Hz & _) _]. rewrite <- Hz.
    destruct (Z.ltb_spec 0 (zlen cells)) as [Hpos|Hzero].
    - apply wp_bind. eapply wp_mono; [by apply (wp_enqueue_member_list _ _ n1 xs1 cells)|].
      intros r n2 (-> & xs2 & Hms). apply wp_ret. by exists xs2.
    - assert (cells = []) as -> by (apply zlen_zero; pose proof (zlen_nonneg cells); lia).
      apply wp_ret. exists xs1. constructor. }
  intros ? n2 (xs2 & Hms2). destruct (messages_enqueued_ok _ _ _ _ _ _ Hn1 Hms2) as [Hn2 Hf2].
  destruct (list_of_ok1 m Hlw) as [Hlwf Hlneed].
  apply wp_bind. eapply wp_mono.
  { apply (wp_enqueue_message (list_of [m]) None 0 GOSSIP_BROADCAST n2 xs2 cells); try done; apply Hn2. }
  intros r n3 (-> & rs & xs3 & -> & Hm3).
  destruct (message_enqueued_ok _ _ _ _ _ _ _ Hn2 Hm3) as [Hn3 Hf3].
  apply wp_bind. eapply wp_mono; [apply (wp_put_members [m] n3 xs3 cells Hn3);
                                    [by apply Forall_singleton|done]|].
  intros ? n4 (s' & cells' & w4 & -> & Hn4 & Hcells & Hle4 & Hs4 & Hi4). apply wp_ret.
  assert (enq_frame n n3) as Hf by (etrans; [exact Hf0|]; etrans; [exact Hf1|]; by etrans).
  split; [done|]. split; [unfold connected; cbn; by rewrite (ef_state _ _ Hf)|].
  exists m, n3, xs3, cells'. split; [done|]. split.
  { apply (EnqueuedAlloc _ n xs n0); [done|done|]. eapply EnqueuedCons; [exact Hm1|].
    eapply messages_enqueued_app; [exact Hms2|]. by apply messages_enqueued_one. }
  split_and!; try done; cbn.
  - rewrite Hs4. apply (ef_sent _ _ Hf).
  - apply (ef_context _ _ Hf).
  - by exists s', w4.
Qed.
End Handlers.
