(* ===== verification/PublicFacts.v ===== *)
(** What the public functions of [gossip.c] do to a node in good order:
    creation, joining, sending data, ticking, receiving, destruction. *)
From S2P Require Import Prelude.
From S2P Require Import Config.
From S2P Require Import Utils.
From S2P Require Import World.
From S2P Require Import Member.
From S2P Require Import VectorClock.
From S2P Require Import Messages.
From S2P Require Import Queue.
From S2P Require Import DataLog.
From S2P Require Import Gossip.
From S2P Require Import Node.
From S2P Require Import MemberFacts.
From S2P Require Import MemberSetFacts.
From S2P Require Import VectorClockFacts.
From S2P Require Import CompareFacts.
From S2P Require Import WireFacts.
From S2P Require Import MessageFacts.
From S2P Require Import DataLogFacts.
From S2P Require Import QueueFacts.
From S2P Require Import OutboxFacts.
From S2P Require Import EnqueueFacts.
From S2P Require Import NodeFacts.
From S2P Require Import HandlerFacts.

(** * Member identifiers *)

Lemma rd_bytes m off n :
  0 <= off -> 0 <= n -> off + n <= zlen m -> Forall is_byte m ->
  exists bs, rd m off n = Ok bs /\ zlen bs = n /\ Forall is_byte bs.
Proof.
  intros Ho Hn Hb Hf. exists (ztake n (zdrop off m)). split.
  - unfold rd. destruct (Z.eqb_spec n 0) as [->|_]; [done|].
    by replace (_ && _ && _) with true by (symmetry; rewrite !andb_true_iff, !Z.leb_le; lia).
  - split; [rewrite zlen_ztake; [done|rewrite zlen_zdrop; lia]|].
    by apply Forall_take, Forall_drop.
Qed.

(** The identifier of a member with a readable address is a 64-bit word. *)
Lemma vector_clock_create_member_id_ok m :
  16 <= zlen (cm_address m) -> Forall is_byte (cm_address m) ->
  exists id, vector_clock_create_member_id m = Ok id /\ is_u64 id.
Proof.
  intros Hl Hf. unfold vector_clock_create_member_id, ss_family.
  destruct (rd_bytes (cm_address m) 0 2) as (fam & -> & _); [lia|lia|lia|done|]. out_step.
  assert (forall ip port, zlen ip = 4 -> zlen port = 2 -> Forall is_byte ip -> Forall is_byte port ->
    is_u64 (fetch host ((ip ++ port) ++ ztake 2 (store host 4 (hton host 4 (u32 (cm_uid m))))))) as Hid.
  { intros ip port Hi Hp Hfi Hfp. rewrite store_hton.
    assert (Forall is_byte ((ip ++ port) ++ ztake 2 (bytes_be 4 (u32 (cm_uid m))))) as Hb.
    { apply Forall_app. split; [apply Forall_app; done|]. apply Forall_take, bytes_be_byte. }
    apply word_le_range in Hb. rewrite !zlen_app, Hi, Hp, zlen_ztake in Hb
      by (rewrite zlen_bytes_be; lia). exact Hb. }
  destruct (fetch host fam =? AF_INET).
  - destruct (rd_bytes (cm_address m) SIN_ADDR 4) as (ip & -> & ? & ?); [done|done|unfold SIN_ADDR; lia|done|].
    destruct (rd_bytes (cm_address m) SIN_PORT 2) as (port & -> & ? & ?); [done|done|unfold SIN_PORT; lia|done|].
    out_step. eexists. split; [done|]. by apply Hid.
  - destruct (rd_bytes (cm_address m) SIN6_ADDR 4) as (ip & -> & ? & ?); [done|done|unfold SIN6_ADDR; lia|done|].
    destruct (rd_bytes (cm_address m) SIN6_PORT 2) as (port & -> & ? & ?); [done|done|unfold SIN6_PORT; lia|done|].
    out_step. eexists. split; [done|]. by apply Hid.
Qed.

Section Public.
Context {Ctx : Type}.
Implicit Types n : node Ctx.

(** * Sending data *)

(** The message [gossip_enqueue_data] builds. *)
Definition own_data n (id : Z) (data : list Z) (size : Z) : message_data :=
  MessageData (message_header_init MESSAGE_DATA_TYPE 0)
    (VectorRecord (u32 (g_data_counter (n_self n) + 1)) id) size data.

(** The node with the next value of the counter. *)
Definition counted n : node Ctx :=
  Node (set_data_counter (u32 (g_data_counter (n_self n) + 1)) (n_self n)) (n_world n) (n_context n).

Lemma wp_enqueue_data data size n xs cells :
  node_ok n xs cells -> 0 <= size <= MAX_PAYLOAD -> size <= zlen data ->
  wp (gossip_enqueue_data data size) n
    (fun r n' => r = PITTACUS_ERR_NONE /\
       g_data_counter (n_self n') = u32 (g_data_counter (n_self n) + 1) /\
       exists id, vector_clock_create_member_id (g_self_address (n_self n)) = Ok id /\
         noted n n' (own_data n id data size) /\
         exists rs n1 xs', spread_to cells None 0 GOSSIP_RANDOM rs /\
           took_over (counted n) n1 (n_context n) /\
           message_enqueued (MsgData (own_data n id data size)) rs n1 xs n' xs' /\
           node_ok n' xs' cells).
Proof.
  intros Hn Hsz Hd. pose proof (no_address _ _ _ Hn) as ([Hmw Hz] & Ha & Hbytes).
  destruct (vector_clock_create_member_id_ok (g_self_address (n_self n))) as (id & Eid & Hid);
    [lia|done|].
  pose proof (u32_range (g_data_counter (n_self n) + 1)) as Hctr.
  unfold gossip_enqueue_data. apply wp_bind, wp_self, wp_bind, wp_modify_self, wp_bind.
  destruct (vector_clock_set_by_id_spec (g_data_version (n_self n)) id
              (u32 (g_data_counter (n_self n) + 1)) (no_clock _ _ _ Hn) Hid Hctr)
    as (k & c' & Ec & Hc' & Hmap & Hrec).
  eapply wp_lift; [unfold vector_clock_set; rewrite Eid; exact Ec|]. cbn beta iota.
  apply wp_bind, wp_modify_self, wp_bind. eapply wp_lift; [by apply aread_Ok|].
  cbn [n_self n_world n_context]. unfold vector_clock_record_copy. rewrite vector_record_eta.
  fold (own_data n id data size). set (t := own_data n id data size).
  assert (data_msg_wf t) as Hdm.
  { split; [by split|]. unfold MAX_PAYLOAD in Hsz. cbn. split; [config_lia|done]. }
  destruct (gossip_data_log_repr _ (no_log _ _ _ Hn) t Hdm) as (log' & El & Hlog' & Hview).
  apply wp_bind. eapply wp_lift; [exact El|]. apply wp_bind, wp_modify_self. set (n1 := Node _ _ _).
  assert (node_ok n1 xs cells) as Hn1.
  { destruct Hn as [[Hq Hs Hf Ho Hoom] Hm Hc Hl Had Hseq Hin].
    split; [split|..]; done. }
  assert (msg_wf (MsgData t)) as Hwf.
  { cbn. unfold MAX_PAYLOAD in Hsz. split_and!; try done. cbn. config_lia. }
  eapply wp_mono; [apply (wp_enqueue_random (MsgData t) n1 xs cells Hn1 Hwf)|].
  { cbn. unfold MAX_PAYLOAD in Hsz. config_lia. }
  intros r n2 (-> & rs & xs2 & Hrs & Hm2).
  destruct (message_enqueued_ok _ _ _ _ _ _ _ Hn1 Hm2) as [Hn2 Hf2].
  split; [done|]. split; [by rewrite (ef_counter _ _ Hf2)|]. exists id. split; [done|].
  split; [split|].
  - by rewrite (ef_version _ _ Hf2).
  - by rewrite (ef_log _ _ Hf2).
  - exists rs, n1, xs2. split; [done|]. split; [by exists c', log'|done].
Qed.

(** * Ticking *)

Lemma node_ok_ts n xs cells ts :
  node_ok n xs cells ->
  node_ok (Node (set_last_gossip_ts ts (n_self n)) (n_world n) (n_context n)) xs cells.
Proof. intros [[] ? ? ? ? ? ?]. by split; [split|..]. Qed.

Lemma node_ok_state n xs cells st :
  node_ok n xs cells ->
  node_ok (Node (set_state st (n_self n)) (n_world n) (n_context n)) xs cells.
Proof. intros [[] ? ? ? ? ? ?]. by split; [split|..]. Qed.

(** The time [pt_time] returns at this point. *)
Definition now n : Z :=
  let '(s, us) := timeofday (answers (n_world n)) (time_calls (n_world n)) in
  u64 (s * 1000 + us / 1000).

Lemma wp_now n (Q : Z -> node Ctx -> Prop) :
  (forall w', world_le (n_world n) w' -> allocs w' = allocs (n_world n) ->
     sent w' = sent (n_world n) -> inbox w' = inbox (n_world n) ->
     Q (now n) (Node (n_self n) w' (n_context n))) ->
  wp (liftW pt_time) n Q.
Proof.
  intros H. apply wp_liftW. unfold wp, pt_time, now in *.
  destruct (timeofday _ _) as [s us]. apply H; try done; split; cbn; auto with arith.
Qed.

(** Once per interval a status goes to random members; before that the
    time left is returned. *)
(** A distance is returned as it is when it fits an [int]; from [2^31] to
    [2^32] it is negative. *)
Lemma near_ahead d : 0 <= d < 2 ^ 31 -> i32 (u64 d) = d.
Proof.
  intros Hd. unfold i32. rewrite u64_id by (unfold is_u64; lia). rewrite Z.mod_small by lia. lia.
Qed.

Lemma far_ahead d : 2 ^ 31 <= d < 2 ^ 32 -> i32 (u64 d) = d - 2 ^ 32.
Proof.
  intros Hd. unfold i32. rewrite u64_id by (unfold is_u64; lia).
  rewrite <- (Z.mod_unique (d + 2 ^ 31) (2 ^ 32) 1 (d - 2 ^ 31)) by lia. lia.
Qed.

Lemma far_ahead_negative d : 2 ^ 31 <= d < 2 ^ 32 -> i32 (u64 d) < 0.
Proof. intros Hd. rewrite far_ahead by done. lia. Qed.

Lemma wp_tick n xs cells :
  node_ok n xs cells -> connected n ->
  wp pittacus_gossip_tick n (fun r n' =>
    let next := u64 (g_last_gossip_ts (n_self n) + GOSSIP_TICK_INTERVAL) in
    if bool_decide (now n < next)
    then r = i32 (u64 (next - now n)) /\ n_self n' = n_self n /\ enq_frame n n' /\ node_ok n' xs cells
    else r = GOSSIP_TICK_INTERVAL /\
      exists c rs n1 n2 xs', clock_eqv c (g_data_version (n_self n)) /\
        spread_to cells None 0 GOSSIP_RANDOM rs /\
        message_enqueued (status_of c) rs n1 xs n2 xs' /\ n_self n1 = n_self n /\ enq_frame n n1 /\
        n' = Node (set_last_gossip_ts (now n) (n_self n2)) (n_world n2) (n_context n2) /\
        node_ok n' xs' cells).
Proof.
  intros Hn Hc. unfold pittacus_gossip_tick. apply wp_bind, wp_self.
  rewrite bool_decide_true by done. cbn [negb]. apply wp_bind, wp_now.
  intros w' Hle Ha Hs Hi. set (n1 := Node (n_self n) w' (n_context n)). cbv zeta.
  assert (node_ok n1 xs cells) as Hn1 by (apply (node_ok_alloc n); try done; by split).
  assert (enq_frame n n1) as Hf1 by by split.
  destruct (Z.ltb_spec (now n) (u64 (g_last_gossip_ts (n_self n) + GOSSIP_TICK_INTERVAL))).
  - rewrite bool_decide_true by done. by apply wp_ret.
  - rewrite bool_decide_false by lia. apply wp_bind.
    eapply wp_mono; [by apply (wp_enqueue_status None 0 n1 xs cells)|].
    intros r n2 (-> & c & rs & xs' & He & _ & Hrs & Hm).
    destruct (message_enqueued_ok _ _ _ _ _ _ _ Hn1 Hm) as [Hn2 Hf2].
    cbn beta. change (PITTACUS_ERR_NONE <? 0) with false. apply wp_bind, wp_modify_self, wp_ret.
    split; [done|]. exists c, rs, n1, n2, xs'. split_and!; try done. by apply node_ok_ts.
Qed.

(** * Joining *)

Definition hello_to n (addr : list Z) : message * list recipient :=
  (hello_of n, [(addr, zlen addr)]).

Lemma wp_join_loop seeds : forall n xs cells,
  node_ok n xs cells -> Forall (fun a => recipient_ok (a, zlen a)) seeds ->
  wp (join_loop seeds) n (fun r n' => r = PITTACUS_ERR_NONE /\
    exists n1 xs', messages_enqueued (hello_to n <$> seeds) n xs n1 xs' /\
      n' = Node (set_state STATE_JOINING (n_self n1)) (n_world n1) (n_context n1) /\
      node_ok n' xs' cells).
Proof.
  induction seeds as [|a seeds IH]; intros n xs cells Hn Hf; cbn [join_loop].
  - apply wp_bind, wp_modify_self, wp_ret. split; [done|]. exists n, xs.
    split; [constructor|]. split; [done|by apply node_ok_state].
  - apply Forall_cons in Hf as [Ha Hf]. apply wp_bind.
    eapply wp_mono; [by apply (wp_enqueue_hello a (zlen a) n xs cells)|].
    intros r n1 (-> & xs1 & Hm). cbn beta. change (PITTACUS_ERR_NONE <? 0) with false.
    destruct (message_enqueued_ok _ _ _ _ _ _ _ Hn Hm) as [Hn1 Hf1].
    eapply wp_mono; [by apply (IH n1 xs1 cells)|].
    intros r n2 (-> & n3 & xs3 & Hms & -> & Hn3). split; [done|]. exists n3, xs3.
    split; [|done]. cbn. eapply EnqueuedCons; [exact Hm|].
    unfold hello_to, hello_of in *. by rewrite (ef_address _ _ Hf1) in Hms.
Qed.

(** * Destruction *)

Lemma cluster_member_set_destroy_ok s cells :
  set_repr s cells -> cluster_member_set_destroy s = Ok (cell_ptr <$> cells).
Proof.
  intros Hs. unfold cluster_member_set_destroy. rewrite (set_repr_fuel _ _ Hs).
  destruct (ofor_inv (fun i freed => freed = cell_ptr <$> take (Z.to_nat i) cells)
              (length cells) 0
              (fun i freed => e ← aread (ms_set s) i;
                 mret (match e with Some c => freed ++ [cell_ptr c] | None => freed end)) [])
    as (r & -> & ->).
  - done.
  - intros j b Hj ->. destruct (lookup_lt_is_Some_2 cells (Z.to_nat j)) as [c Hc]; [lia|].
    pose proof Hs as ([rest Hr] & _). replace (aread (ms_set s) j) with (aread (ms_set s) (Z.of_nat (Z.to_nat j)))
      by (f_equal; lia).
    rewrite (aread_Ok _ _ (Some c)).
    2:{ rewrite Hr, lookup_app_l, list_lookup_fmap, Hc; [done|].
        rewrite length_fmap. by eapply lookup_lt_Some. }
    out_step. eexists. split; [done|].
    replace (Z.to_nat (j + 1)) with (S (Z.to_nat j)) by lia.
    by rewrite (take_S_r _ _ c Hc), fmap_app.
  - rewrite Z.add_0_l, Nat2Z.id, firstn_all. done.
Qed.

Lemma wp_destroy n xs cells :
  node_ok n xs cells ->
  wp pittacus_gossip_destroy n (fun r n' => r = PITTACUS_ERR_NONE /\
    closed (n_world n') = closed (n_world n) ++ [g_socket (n_self n)] /\
    g_outbound_messages (n_self n') = MessageQueue ∅ None None /\
    g_state (n_self n') = STATE_DESTROYED /\
    sent (n_world n') = sent (n_world n) /\ n_context n' = n_context n).
Proof.
  intros Hn. unfold pittacus_gossip_destroy. apply wp_bind, wp_self, wp_bind, wp_liftW.
  unfold pt_close, wp at 1. apply wp_bind. eapply wp_queue_op.
  { apply (clear_repr _ xs). apply (ob_queue _ _ (no_outbox _ _ _ Hn)). }
  apply wp_bind, wp_modify_self, wp_bind.
  eapply wp_lift; [apply (cluster_member_set_destroy_ok _ cells), (no_members _ _ _ Hn)|].
  by apply wp_ret.
Qed.

(** * Joining and creation *)

Lemma wp_join seeds n xs cells :
  node_ok n xs cells -> g_state (n_self n) = STATE_INITIALIZED ->
  Forall (fun a => recipient_ok (a, zlen a)) seeds ->
  wp (pittacus_gossip_join seeds) n (fun r n' => r = PITTACUS_ERR_NONE /\
    exists n1 xs', messages_enqueued (hello_to n <$> seeds) n xs n1 xs' /\
      n' = Node (set_state match seeds with [] => STATE_CONNECTED | _ => STATE_JOINING end
                   (n_self n1)) (n_world n1) (n_context n1) /\
      node_ok n' xs' cells).
Proof.
  intros Hn Hst Hf. unfold pittacus_gossip_join. apply wp_bind, wp_self.
  rewrite bool_decide_true by done. cbn [negb]. destruct seeds as [|a seeds].
  - apply wp_bind, wp_modify_self, wp_ret. split; [done|]. exists n, xs.
    split; [constructor|]. split; [done|by apply node_ok_state].
  - by apply wp_join_loop.
Qed.

(** What the socket calls of [pittacus_gossip_init] are assumed to return
    when they succeed. *)
Record socket_ok (w : world) (addr : list Z) : Prop := SocketOk {
  so_family : 2 <= zlen addr;
  so_socket : 0 <= socket (answers w) (fetch host (ztake 2 addr));
  so_fcntl : 0 <= fcntl (answers w) (socket (answers w) (fetch host (ztake 2 addr)));
  so_bind : 0 <= bind (answers w) (socket (answers w) (fetch host (ztake 2 addr))) addr;
  so_name : 0 <= fst (getsockname (answers w) (socket (answers w) (fetch host (ztake 2 addr))));
  so_addr : let a := snd (getsockname (answers w) (socket (answers w) (fetch host (ztake 2 addr)))) in
    16 <= zlen a <= sizeof_sockaddr_storage /\ Forall is_byte a
}.

(** Memory of the sizes of the descriptor's arrays. *)
Record garbage_ok (g : pittacus_gossip) : Prop := GarbageOk {
  ga_input : zlen (g_input_buffer g) = MESSAGE_MAX_SIZE;
  ga_output : zlen (g_output_buffer g) = OUTPUT_BUFFER_SIZE;
  ga_log : zlen (dl_messages (g_data_log g)) = DATA_LOG_SIZE;
  ga_room : Forall (fun r => zlen (dr_data r) = MESSAGE_MAX_SIZE) (dl_messages (g_data_log g))
}.

Lemma wp_socket_datagram w addr (Q : Z -> world -> Prop) :
  socket_ok w addr -> Q (socket (answers w) (fetch host (ztake 2 addr))) w ->
  wp (pt_socket_datagram addr) w Q.
Proof.
  intros [Hf Hs Hc Hb _ _] HQ. unfold pt_socket_datagram. apply wp_bind.
  eapply wp_lift; [unfold ss_family; rewrite rd_prefix by lia; done|].
  apply wp_bind, wp_get. cbv zeta.
  destruct (Z.ltb_spec (socket (answers w) (fetch host (ztake 2 addr))) 0); [lia|].
  destruct (Z.ltb_spec (fcntl (answers w) (socket (answers w) (fetch host (ztake 2 addr)))) 0); [lia|].
  destruct (Z.ltb_spec (bind (answers w) (socket (answers w) (fetch host (ztake 2 addr))) addr) 0);
    [lia|]. by apply wp_ret.
Qed.

Lemma init_clock_wf : clock_wf vector_clock_init.
Proof. apply (bool_decide_unpack _). vm_compute. exact I. Qed.

Lemma init_set_repr :
  set_repr (MemberSet (replicate (Z.to_nat MEMBERS_INITIAL_CAPACITY) None) 0
              MEMBERS_INITIAL_CAPACITY) [].
Proof. split_and!; try done. by eexists. Qed.

(** A node that was initialised is in good order: no envelope, no member,
    an empty clock and log. *)
Lemma wp_init garbage addr w (c : Ctx) :
  no_oom w -> socket_ok w addr -> garbage_ok garbage ->
  wp (pittacus_gossip_init garbage addr) w (fun r w' =>
    fst r = PITTACUS_ERR_NONE /\ node_ok (Node (snd r) w' c) [] [] /\
    cm_address_len (g_self_address (snd r)) = zlen (snd (getsockname (answers w) (g_socket (snd r)))) /\
    cm_address (g_self_address (snd r)) = snd (getsockname (answers w) (g_socket (snd r))) /\
    g_data_counter (snd r) = 0 /\
    g_state (snd r) = STATE_INITIALIZED /\ clock_map (g_data_version (snd r)) = ∅ /\
    log_view (g_data_log (snd r)) = []).
Proof.
  intros Hw Hs [Hgi Hgo Hgl Hgr]. pose proof Hs as [_ Hfd _ _ Hname [Hal Hab]].
  unfold pittacus_gossip_init. apply wp_bind, (wp_socket_datagram _ _ _ Hs).
  set (fd := socket _ _) in *. destruct (Z.ltb_spec fd 0); [lia|].
  apply wp_bind. unfold pt_get_sock_name. apply wp_bind, wp_get, wp_ret.
  destruct (getsockname (answers w) fd) as [res a] eqn:Eg. cbn [fst snd] in *.
  destruct (Z.ltb_spec res 0); [lia|]. apply wp_bind. unfold cluster_member_init.
  apply wp_bind, wp_pt_time. intros t w1 Hle1 Ht _ _ _. cbv zeta.
  apply wp_bind, wp_malloc_ok; [by eapply no_oom_le|]. intros w2 Hle2 _ _ _.
  apply wp_bind. eapply wp_lift; [apply rd_prefix; lia|]. apply wp_ret.
  apply wp_bind. unfold cluster_member_set_init.
  apply wp_bind, wp_malloc_ok; [eapply no_oom_le; [exact Hle2|by eapply no_oom_le]|].
  intros w3 Hle3 _ _ _. apply wp_ret. apply wp_ret. cbn [fst snd default].
  assert (no_oom w3) as Hw3.
  { eapply no_oom_le; [exact Hle3|]. eapply no_oom_le; [exact Hle2|]. by eapply no_oom_le. }
  split; [done|]. split; [|by cbn; rewrite Eg, ztake_all by lia]. split; cbn.
  - split; try done; [apply empty_repr|apply Forall_nil_2..].
  - split; [apply init_set_repr|]. by apply Forall_nil_2.
  - apply init_clock_wf.
  - by apply empty_log_wf.
  - split.
    + rewrite ztake_all by lia. split; [split_and!; cbn; try done; try lia|done].
      * apply u32_range.
      * config_lia.
    + cbn. rewrite ztake_all by lia. done.
  - done.
  - done.
Qed.

(** * Receiving *)

Variable data_receiver : option (list Z -> Z -> M (node Ctx) unit).

(** The envelope made from a datagram. *)
Definition received n (payload addr : list Z) : message_envelope_in :=
  EnvelopeIn addr (zlen addr) (payload ++ zdrop (zlen payload) (g_input_buffer (n_self n)))
    (zlen payload).

Definition after_recv n (payload : list Z) (rest : list (list Z * list Z)) : node Ctx :=
  let w := n_world n in
  Node (set_input_buffer (payload ++ zdrop (zlen payload) (g_input_buffer (n_self n))) (n_self n))
    (World (answers w) (allocs w) (time_calls w) (random_calls w) (sent w) rest (closed w))
    (n_context n).

(** Receiving takes the next datagram and handles it. *)
Lemma process_receive_run n payload addr rest :
  is_active (g_state (n_self n)) = true -> inbox (n_world n) = (payload, addr) :: rest ->
  0 < zlen payload <= MESSAGE_MAX_SIZE -> zlen (g_input_buffer (n_self n)) = MESSAGE_MAX_SIZE ->
  pittacus_gossip_process_receive data_receiver n
    = gossip_handle_new_message data_receiver (received n payload addr)
        (after_recv n payload rest).
Proof.
  intros Ha Hi Hl Hin. unfold pittacus_gossip_process_receive.
  unfold mbind at 1, M_bind at 1, self at 1. rewrite Ha. cbn [negb].
  unfold mbind at 1, M_bind at 1, liftW at 1, pt_recv_from. rewrite Hi.
  rewrite ztake_all by config_lia.
  destruct (Z.leb_spec (zlen payload) 0) as [?|_]; [lia|].
  unfold mbind at 1, M_bind at 1. cbn [n_self n_world n_context].
  rewrite (wr_at _ 0 [] (g_input_buffer (n_self n))) by (done || config_lia). done.
Qed.

Lemma node_ok_recv n xs cells payload rest :
  node_ok n xs cells -> zlen payload <= MESSAGE_MAX_SIZE ->
  node_ok (after_recv n payload rest) xs cells.
Proof.
  intros [[Hq Hs Hf Ho Hoom] Hm Hc Hl Had Hseq Hin] Hp. split; [split|..]; try done.
  cbn. rewrite zlen_app, zlen_zdrop_max by apply zlen_nonneg. config_lia.
Qed.

Lemma received_carries {T} `{CodecLaws T} n (t : T) addr :
  codec_wf t -> zlen (wire t) <= MESSAGE_MAX_SIZE -> zlen addr <= sizeof_sockaddr_storage ->
  carries_in (received n (wire t) addr) t.
Proof.
  intros Ht Hl Ha. split; [done|]. split; [done|]. split; [by eexists|]. split; [done|].
  split; cbn; [pose proof (zlen_nonneg addr); lia|done].
Qed.

(** The handler is chosen by the type of the message. *)
Lemma dispatch {T} `{CodecLaws T} e (t : T) :
  carries_in e t ->
  message_type_decode (ei_buffer e) (ei_buffer_size e) = Ok codec_type.
Proof. intros (Ht & _ & [rest ->] & -> & _). by apply codec_type_decode. Qed.

Ltac dispatch_tac :=
  intros He; unfold gossip_handle_new_message; unfold mbind at 1, M_bind at 1, liftO at 1;
  rewrite (dispatch _ _ He); reflexivity.

Lemma dispatch_hello e (t : message_hello) n : carries_in e t ->
  gossip_handle_new_message data_receiver e n = gossip_handle_hello e n.
Proof. dispatch_tac. Qed.
Lemma dispatch_welcome e (t : message_welcome) n : carries_in e t ->
  gossip_handle_new_message data_receiver e n = gossip_handle_welcome e n.
Proof. dispatch_tac. Qed.
Lemma dispatch_member_list e (t : message_member_list) n : carries_in e t ->
  gossip_handle_new_message data_receiver e n = gossip_handle_member_list e n.
Proof. dispatch_tac. Qed.
Lemma dispatch_data e (t : message_data) n : carries_in e t ->
  gossip_handle_new_message data_receiver e n = gossip_handle_data data_receiver e n.
Proof. dispatch_tac. Qed.
Lemma dispatch_ack e (t : message_ack) n : carries_in e t ->
  gossip_handle_new_message data_receiver e n = gossip_handle_ack e n.
Proof. dispatch_tac. Qed.
Lemma dispatch_status e (t : message_status) n : carries_in e t ->
  gossip_handle_new_message data_receiver e n = gossip_handle_status e n.
Proof. dispatch_tac. Qed.
End Public.
