(* ===== verification/FrameFacts.v ===== *)
(** Code that leaves a part of a node alone. A view of the nodes is framed
    when it does not depend on the queue, the buffers, the members and the
    environment; then most of the library keeps it, whenever it returns. *)
From S2P Require Import Prelude.
From S2P Require Import Config.
From S2P Require Import Utils.
From S2P Require Import World.
From S2P Require Import Member.
From S2P Require Import VectorClock.
From S2P Require Import Messages.
From S2P Require Import Queue.
From S2P Require Import DataLog.
From S2P Require Import Gossip.
From S2P Require Import Node.

(** * Framed views *)

Create HintDb keeps.

Section Stable.
Context {Ctx V : Type} (view : node Ctx -> V).

(** An update of the descriptor that does not show in the view. *)
Definition stable (f : pittacus_gossip -> pittacus_gossip) : Prop :=
  forall g w c, view (Node (f g) w c) = view (Node g w c).

Class Framed : Prop := {
  framed_world g w w' c : view (Node g w' c) = view (Node g w c);
  framed_output v : stable (set_output_buffer v);
  framed_offset v : stable (set_output_buffer_offset v);
  framed_queue v : stable (set_outbound_messages v);
  framed_seq v : stable (set_sequence_num v);
  framed_members v : stable (set_members v);
  framed_ts v : stable (set_last_gossip_ts v);
  framed_input v : stable (set_input_buffer v)
}.
End Stable.

Section Frame.
Context {Ctx V : Type} (view : node Ctx -> V) `{!Framed view}.
Implicit Types n : node Ctx.
Local Abbreviation stable := (stable view).

(** Code that, whenever it returns, has left the view alone. *)
Definition keeps {A} (m : M (node Ctx) A) : Prop :=
  forall n a n', m n = Ok (a, n') -> view n' = view n.

Lemma keeps_ret {A} (a : A) : keeps (mret a).
Proof. by intros n b n' [= <- <-]. Qed.

Lemma keeps_bind {A B} (m : M (node Ctx) A) (f : A -> M (node Ctx) B) :
  keeps m -> (forall a, keeps (f a)) -> keeps (m ≫= f).
Proof.
  intros Hm Hf n b n' E. unfold mbind, M_bind in E.
  destruct (m n) as [[a n1]| |] eqn:Em; try done.
  by rewrite (Hf a n1 b n' E), (Hm n a n1 Em).
Qed.

Lemma keeps_self : keeps self.
Proof. by intros n b n' [= <- <-]. Qed.

Lemma keeps_modify f : stable f -> keeps (modify_self f).
Proof. intros Hf [g w c] b n' [= <- <-]. apply Hf. Qed.

Lemma keeps_liftO {A} (m : out A) : keeps (liftO m).
Proof. intros n b n' E. unfold liftO in E. destruct m; try done. by injection E as <- <-. Qed.

Lemma keeps_liftW {A} (m : M world A) : keeps (liftW m).
Proof.
  intros [g w c] b n' E. unfold liftW in E. destruct (m _) as [[a w']| |]; try done.
  injection E as <- <-. by apply framed_world.
Qed.

Lemma keeps_nofuel {A} : keeps (@nofuelS (node Ctx) A).
Proof. by intros n b n' E. Qed.

End Frame.

#[export] Hint Resolve framed_output framed_offset framed_queue framed_seq framed_members
  framed_ts framed_input : keeps.
#[export] Hint Resolve keeps_ret keeps_self keeps_liftO keeps_liftW keeps_nofuel : keeps.

#[export] Hint Extern 1 (Framed _) => typeclasses eauto : keeps.

(** Goes through the code one construct at a time. *)
Ltac keeps_step :=
  match goal with
  | |- keeps _ (mbind _ _) => apply keeps_bind; [|intros ?]
  | |- keeps _ (modify_self _) => apply keeps_modify; solve [auto with keeps | by intros ? ? ?]
  | |- keeps _ (match ?x with _ => _ end) => destruct x
  | |- keeps _ (let '(_, _) := ?x in _) => destruct x
  | |- _ => solve [eauto with keeps]
  end.
Ltac keeps_tac := cbv zeta; repeat keeps_step.

(** A bind that returns ran its first part. *)
Lemma bind_Ok {Ctx A B} (m : M (node Ctx) A) (f : A -> M (node Ctx) B) n b n' :
  (m ≫= f) n = Ok (b, n') -> exists a n1, m n = Ok (a, n1) /\ f a n1 = Ok (b, n').
Proof.
  unfold mbind, M_bind. destruct (m n) as [[a n1]| |] eqn:E; try done. by exists a, n1.
Qed.

(** * Enqueueing *)

Section Enqueue.
Context {Ctx V : Type} (view : node Ctx -> V) `{!Framed view}.
Local Abbreviation keeps := (keeps view).

Lemma keeps_queue_op f : keeps (queue_op f).
Proof. unfold queue_op. keeps_tac. Qed.
Hint Resolve keeps_queue_op : keeps.

Lemma keeps_offset : keeps gossip_update_output_buffer_offset.
Proof. unfold gossip_update_output_buffer_offset. keeps_tac. Qed.
Hint Resolve keeps_offset : keeps.

Lemma keeps_to_outbound b s m r l : keeps (gossip_enqueue_to_outbound b s m r l).
Proof. unfold gossip_enqueue_to_outbound. keeps_tac. Qed.
Hint Resolve keeps_to_outbound : keeps.

Lemma keeps_enqueue_all b s m rs res : keeps (enqueue_all b s m rs res).
Proof. revert res. induction rs as [|r rs IH]; intros res; cbn [enqueue_all]; keeps_tac. Qed.
Hint Resolve keeps_enqueue_all : keeps.

Lemma keeps_broadcast k i b s m res : keeps (broadcast_loop k i b s m res).
Proof. revert i res. induction k as [|k IH]; intros i res; cbn [broadcast_loop]; keeps_tac. Qed.
Hint Resolve keeps_broadcast : keeps.

Lemma keeps_message t m r l st : keeps (gossip_enqueue_message t m r l st).
Proof. unfold gossip_enqueue_message. keeps_tac. Qed.
Hint Resolve keeps_message : keeps.

Lemma keeps_ack s r l : keeps (gossip_enqueue_ack s r l).
Proof. unfold gossip_enqueue_ack. keeps_tac. Qed.
Lemma keeps_welcome s r l : keeps (gossip_enqueue_welcome s r l).
Proof. unfold gossip_enqueue_welcome. keeps_tac. Qed.
Lemma keeps_hello r l : keeps (gossip_enqueue_hello r l).
Proof. unfold gossip_enqueue_hello. keeps_tac. Qed.
Lemma keeps_status r l : keeps (gossip_enqueue_status r l).
Proof. unfold gossip_enqueue_status. keeps_tac. Qed.
Hint Resolve keeps_ack keeps_welcome keeps_hello keeps_status : keeps.

Lemma keeps_list_loop k num i r l res : keeps (member_list_loop k num i r l res).
Proof. revert i res. induction k as [|k IH]; intros i res; cbn [member_list_loop]; keeps_tac. Qed.
Hint Resolve keeps_list_loop : keeps.
Lemma keeps_member_list r l : keeps (gossip_enqueue_member_list r l).
Proof. unfold gossip_enqueue_member_list. keeps_tac. Qed.

Lemma keeps_log_loop k i v r l res : keeps (data_log_loop k i v r l res).
Proof. revert i res. induction k as [|k IH]; intros i res; cbn [data_log_loop]; keeps_tac. Qed.
Hint Resolve keeps_log_loop : keeps.
Lemma keeps_data_log v r l : keeps (gossip_enqueue_data_log v r l).
Proof. unfold gossip_enqueue_data_log. keeps_tac. Qed.
Hint Resolve keeps_member_list keeps_data_log : keeps.

Lemma keeps_put ms : keeps (put_members (Ctx := Ctx) ms).
Proof. unfold put_members. keeps_tac. Qed.
Lemma keeps_remove_seq s : keeps (remove_by_sequence_num (Ctx := Ctx) s).
Proof. unfold remove_by_sequence_num. keeps_tac. Qed.
Hint Resolve keeps_put keeps_remove_seq : keeps.

(** * Handlers and public functions *)

Lemma keeps_connected k : keeps k -> keeps (return_if_not_connected (Ctx := Ctx) k).
Proof. intros Hk. unfold return_if_not_connected. keeps_tac. Qed.
Hint Resolve keeps_connected : keeps.

Lemma keeps_handle_hello e : keeps (gossip_handle_hello (Ctx := Ctx) e).
Proof. apply keeps_connected. keeps_tac. Qed.
Lemma keeps_handle_member_list e : keeps (gossip_handle_member_list (Ctx := Ctx) e).
Proof. apply keeps_connected. keeps_tac. Qed.
Lemma keeps_handle_ack e : keeps (gossip_handle_ack (Ctx := Ctx) e).
Proof. apply keeps_connected. keeps_tac. Qed.
Lemma keeps_handle_status e : keeps (gossip_handle_status (Ctx := Ctx) e).
Proof. apply keeps_connected. keeps_tac. Qed.
Lemma keeps_expire c h : keeps (expire_envelope (Ctx := Ctx) c h).
Proof. unfold expire_envelope. keeps_tac. Qed.
Lemma keeps_transmit c : keeps (transmit (Ctx := Ctx) c).
Proof. unfold transmit. keeps_tac. Qed.
Hint Resolve keeps_expire keeps_transmit : keeps.
Lemma keeps_send_loop k h s : keeps (send_loop (Ctx := Ctx) k h s).
Proof. revert h s. induction k as [|k IH]; intros h s; cbn [send_loop]; keeps_tac. Qed.
Hint Resolve keeps_send_loop : keeps.

Lemma keeps_process_send : keeps (pittacus_gossip_process_send (Ctx := Ctx)).
Proof. unfold pittacus_gossip_process_send. keeps_tac. Qed.
Lemma keeps_tick : keeps (pittacus_gossip_tick (Ctx := Ctx)).
Proof. unfold pittacus_gossip_tick. keeps_tac. Qed.

(** * Code that sets the state *)

Section State.
Hypothesis Hstate : forall v, stable view (set_state v).

Lemma keeps_set_state v : keeps (modify_self (set_state v)).
Proof. by apply keeps_modify. Qed.
Hint Resolve keeps_set_state : keeps.

Lemma keeps_handle_welcome e : keeps (gossip_handle_welcome (Ctx := Ctx) e).
Proof. unfold gossip_handle_welcome. keeps_tac. Qed.

Lemma keeps_join_loop seeds : keeps (join_loop (Ctx := Ctx) seeds).
Proof. induction seeds as [|a seeds IH]; cbn [join_loop]; keeps_tac. Qed.
Hint Resolve keeps_join_loop : keeps.

Lemma keeps_join seeds : keeps (pittacus_gossip_join (Ctx := Ctx) seeds).
Proof. unfold pittacus_gossip_join. keeps_tac. Qed.

Lemma keeps_destroy : keeps (pittacus_gossip_destroy (Ctx := Ctx)).
Proof. unfold pittacus_gossip_destroy. keeps_tac. Qed.
End State.
End Enqueue.

#[export] Hint Resolve keeps_queue_op keeps_offset keeps_to_outbound keeps_enqueue_all keeps_broadcast keeps_message keeps_ack keeps_welcome keeps_hello keeps_status keeps_list_loop keeps_member_list keeps_log_loop keeps_data_log keeps_put keeps_remove_seq keeps_connected keeps_handle_hello keeps_handle_member_list keeps_handle_ack keeps_handle_status keeps_expire keeps_transmit keeps_send_loop keeps_process_send keeps_tick : keeps.
