(* ===== verification/StateFacts.v ===== *)
(** The life cycle of a node: which calls change its state, for any message
    received and any answer of the environment. *)
From S2P Require Import Prelude.
From S2P Require Import Config.
From S2P Require Import Utils.
From S2P Require Import World.
From S2P Require Import Member.
From S2P Require Import VectorClock.
From S2P Require Import Messages.
From S2P Require Import Queue.
From S2P Require Import DataLog.
From S2P Require Import Gossip.
From S2P Require Import Node.
From S2P Require Import FrameFacts.

Section State.
Context {Ctx : Type}.
Implicit Types n : node Ctx.

Definition state_of n : pittacus_gossip_state := g_state (n_self n).

#[export] Instance state_framed : Framed state_of.
Proof. by split. Qed.

Local Abbreviation keeps := (keeps state_of).

(** The code that touches the clock, the log and the counter. *)
Lemma keeps_enqueue_data (data : list Z) s : keeps (gossip_enqueue_data data s).
Proof. unfold gossip_enqueue_data. keeps_tac.
Qed.
Hint Resolve keeps_enqueue_data : keeps.

(** A receiver that does not call back into the library's life cycle. *)
Variable data_receiver : option (list Z -> Z -> M (node Ctx) unit).
Hypothesis Hreceiver : match data_receiver with
                       | Some receive => forall d s, keeps (receive d s)
                       | None => True
                       end.

Lemma keeps_handle_data e : keeps (gossip_handle_data data_receiver e).
Proof. apply keeps_connected. keeps_tac. Qed.
Lemma keeps_send_data d s : keeps (pittacus_gossip_send_data (Ctx := Ctx) d s).
Proof. apply keeps_connected. keeps_tac. Qed.
Hint Resolve keeps_handle_data keeps_send_data : keeps.

(** * Calls and transitions *)

(** The calls of the public interface on an existing node. *)
Inductive api_call :=
| ApiJoin (seed_nodes : list (list Z))
| ApiReceive
| ApiSend
| ApiTick
| ApiSendData (data : list Z) (data_size : Z)
| ApiDestroy.

Definition run_api (c : api_call) : M (node Ctx) Z :=
  match c with
  | ApiJoin seeds => pittacus_gossip_join seeds
  | ApiReceive => pittacus_gossip_process_receive data_receiver
  | ApiSend => pittacus_gossip_process_send
  | ApiTick => pittacus_gossip_tick
  | ApiSendData data size => pittacus_gossip_send_data data size
  | ApiDestroy => pittacus_gossip_destroy
  end.

(** The transitions of the life cycle that the calls can make. *)
Inductive transition : api_call -> pittacus_gossip_state -> pittacus_gossip_state -> Prop :=
| TransStay c s : c <> ApiDestroy -> transition c s s
| TransFirst : transition (ApiJoin []) STATE_INITIALIZED STATE_CONNECTED
| TransJoin seeds : seeds <> [] -> transition (ApiJoin seeds) STATE_INITIALIZED STATE_JOINING
| TransWelcome : transition ApiReceive STATE_JOINING STATE_CONNECTED
| TransDestroy s : transition ApiDestroy s STATE_DESTROYED.

(** Code after which the state is one of two. *)
Definition keeps_or {A} (s : pittacus_gossip_state) (m : M (node Ctx) A) : Prop :=
  forall n a n', m n = Ok (a, n') -> state_of n' = state_of n \/ state_of n' = s.

Lemma keeps_keeps_or {A} s (m : M (node Ctx) A) : keeps m -> keeps_or s m.
Proof. intros Hm n a n' E. left. by eapply Hm. Qed.

Lemma keeps_or_bind {A B} s (m : M (node Ctx) A) (f : A -> M (node Ctx) B) :
  keeps_or s m -> (forall a, keeps_or s (f a)) -> keeps_or s (m ≫= f).
Proof.
  intros Hm Hf n b n' E. unfold mbind, M_bind in E.
  destruct (m n) as [[a n1]| |] eqn:Em; try done.
  destruct (Hf a n1 b n' E) as [->|]; [by eapply Hm|by right].
Qed.

Lemma keeps_or_set_state s : keeps_or s (modify_self (Ctx := Ctx) (set_state s)).
Proof. intros n a n' [= <- <-]. by right. Qed.

Lemma handle_welcome_state e : keeps_or STATE_CONNECTED (gossip_handle_welcome (Ctx := Ctx) e).
Proof.
  unfold gossip_handle_welcome. apply keeps_or_bind; [by apply keeps_keeps_or, keeps_liftW|].
  intros [r [msg|]]; [|apply keeps_keeps_or, keeps_ret].
  destruct (r <? 0); [apply keeps_keeps_or, keeps_ret|].
  apply keeps_or_bind; [apply keeps_or_set_state|]. intros ?. apply keeps_keeps_or. keeps_tac.
Qed.

Lemma handle_new_message_state e :
  keeps_or STATE_CONNECTED (gossip_handle_new_message data_receiver e).
Proof.
  unfold gossip_handle_new_message. apply keeps_or_bind; [apply keeps_keeps_or, keeps_liftO|].
  intros t. repeat destruct (t =? _); try apply handle_welcome_state; apply keeps_keeps_or;
    eauto with keeps.
Qed.

Lemma receive_transition n r n' :
  pittacus_gossip_process_receive data_receiver n = Ok (r, n') ->
  transition ApiReceive (state_of n) (state_of n').
Proof.
  unfold pittacus_gossip_process_receive. intros (g & n1 & [= <- <-] & E)%bind_Ok.
  destruct (is_active (g_state (n_self n))) eqn:Ea; cbn [negb] in E.
  2:{ injection E as <- <-. by constructor. }
  apply bind_Ok in E as ([[x bytes] addr] & n1 & E1 & E).
  apply (keeps_liftW state_of) in E1. destruct (x <=? 0).
  { injection E as <- <-. rewrite E1. by constructor. }
  apply bind_Ok in E as (inp & n2 & E2 & E). apply (keeps_liftO state_of) in E2.
  apply bind_Ok in E as (u & n3 & E3 & E).
  apply (keeps_modify state_of (set_input_buffer inp)) in E3; [|done].
  apply handle_new_message_state in E. rewrite E3, E2, E1 in E.
  destruct E as [->| ->]; [by constructor|].
  unfold is_active in Ea. unfold state_of. destruct (g_state (n_self n)); try done; by constructor.
Qed.

Lemma join_loop_state seeds : keeps_or STATE_JOINING (join_loop (Ctx := Ctx) seeds).
Proof.
  induction seeds as [|a seeds IH]; cbn [join_loop].
  - apply keeps_or_bind; [apply keeps_or_set_state|]. intros ?. apply keeps_keeps_or, keeps_ret.
  - apply keeps_or_bind; [by apply keeps_keeps_or, keeps_hello, _|]. intros r.
    destruct (r <? 0); [apply keeps_keeps_or, keeps_ret|done].
Qed.

Lemma join_transition seeds n r n' :
  pittacus_gossip_join seeds n = Ok (r, n') ->
  transition (ApiJoin seeds) (state_of n) (state_of n').
Proof.
  unfold pittacus_gossip_join. intros (g & n1 & [= <- <-] & E)%bind_Ok.
  case_bool_decide as Hs; cbn [negb] in E; [|injection E as <- <-; by constructor].
  unfold state_of at 1. rewrite Hs. destruct seeds as [|a seeds].
  - apply bind_Ok in E as (u & n2 & [= <- <-] & [= <- <-]). apply TransFirst.
  - apply join_loop_state in E. unfold state_of in E at 2. rewrite Hs in E.
    destruct E as [->| ->]; [by constructor|by apply TransJoin].
Qed.

(** Destroying closes the socket. *)
Lemma destroy_closes n r n' :
  pittacus_gossip_destroy n = Ok (r, n') ->
  closed (n_world n') = closed (n_world n) ++ [g_socket (n_self n')].
Proof.
  unfold pittacus_gossip_destroy. intros (g & n1 & [= <- <-] & E)%bind_Ok.
  apply bind_Ok in E as (u & n2 & [= <- <-] & E). apply bind_Ok in E as (v & n3 & E3 & E).
  apply bind_Ok in E as (x & n4 & [= <- <-] & E). apply bind_Ok in E as (y & n5 & E5 & E).
  set (view := fun n : node Ctx => (n_world n, g_socket (n_self n))).
  apply (keeps_liftO view) in E5. injection E as <- <-. injection E5 as -> ->.
  assert (FrameFacts.keeps view (queue_op (Ctx := Ctx) gossip_envelope_clear)) as Hk.
  { apply keeps_bind; [apply keeps_self|]. intros g. apply keeps_bind; [apply keeps_liftO|].
    intros q. by apply keeps_modify. }
  apply Hk in E3. injection E3 as Ew Es. cbn in *. by rewrite Ew, Es.
Qed.

Lemma destroy_transition n r n' :
  pittacus_gossip_destroy n = Ok (r, n') -> state_of n' = STATE_DESTROYED.
Proof.
  unfold pittacus_gossip_destroy. intros (g & n1 & [= <- <-] & E)%bind_Ok.
  apply bind_Ok in E as (u & n2 & _ & E). apply bind_Ok in E as (v & n3 & _ & E).
  apply bind_Ok in E as (x & n4 & [= <- <-] & E). apply bind_Ok in E as (y & n5 & E5 & E).
  apply (keeps_liftO state_of) in E5. injection E as <- <-. by rewrite E5.
Qed.

Lemma api_transition c n r n' :
  run_api c n = Ok (r, n') -> transition c (state_of n) (state_of n').
Proof.
  destruct c; cbn [run_api]; intros E.
  - by eapply join_transition.
  - by eapply receive_transition.
  - apply (keeps_process_send state_of) in E as ->. by constructor.
  - apply (keeps_tick state_of) in E as ->. by constructor.
  - apply keeps_send_data in E as ->. by constructor.
  - rewrite (destroy_transition _ _ _ E). constructor.
Qed.

(** One call, on a node that was not destroyed, and what the network
    delivers between the calls. *)
Inductive api_step : node Ctx -> node Ctx -> Prop :=
| StepCall c n r n' :
    state_of n <> STATE_DESTROYED -> run_api c n = Ok (r, n') -> api_step n n'
| StepDeliver n inbox' :
    api_step n (Node (n_self n)
      (World (answers (n_world n)) (allocs (n_world n)) (time_calls (n_world n))
         (random_calls (n_world n)) (sent (n_world n)) inbox' (closed (n_world n)))
      (n_context n)).

(** The life cycle goes forward only. *)
Definition stage (s : pittacus_gossip_state) : Z :=
  match s with
  | STATE_INITIALIZED => 0
  | STATE_JOINING => 1
  | STATE_CONNECTED => 2
  | STATE_LEAVING => 3
  | STATE_DISCONNECTED => 4
  | STATE_DESTROYED => 5
  end.

Lemma api_step_stage n n' : api_step n n' -> stage (state_of n) <= stage (state_of n').
Proof.
  destruct 1 as [c n r n' _ E|n inbox']; [|done].
  apply api_transition in E. destruct E; cbn; try lia. destruct s; cbn; lia.
Qed.

Lemma api_steps_stage n n' : rtc api_step n n' -> stage (state_of n) <= stage (state_of n').
Proof.
  induction 1 as [|n1 n2 n3 H _ IH]; [done|]. apply api_step_stage in H. lia.
Qed.

(** A destroyed node stays destroyed, a connected one connected or destroyed. *)
Definition settled (s : pittacus_gossip_state) : Prop :=
  s = STATE_CONNECTED \/ s = STATE_DESTROYED.

Lemma api_step_settled n n' :
  api_step n n' -> settled (state_of n) -> settled (state_of n').
Proof.
  destruct 1 as [c n r n' Hd E|n inbox']; [|done]. intros [Hc|Hc]; [|done].
  apply api_transition in E. rewrite Hc in E. unfold settled.
  inversion E; subst; auto.
Qed.

Lemma api_steps_settled n n' :
  rtc api_step n n' -> settled (state_of n) -> settled (state_of n').
Proof. induction 1 as [|n1 n2 n3 H _ IH]; [done|]. intros Hs. by eapply IH, api_step_settled. Qed.
End State.
