(* ===== verification/DeliveryFacts.v ===== *)
(** What a reception delivers, for any datagram: the message that is given
    to the data receiver, read off the datagram and the clock, and the clock
    after it. *)
From S2P Require Import Prelude.
From S2P Require Import Config.
From S2P Require Import Utils.
From S2P Require Import World.
From S2P Require Import Member.
From S2P Require Import VectorClock.
From S2P Require Import Messages.
From S2P Require Import Queue.
From S2P Require Import DataLog.
From S2P Require Import Gossip.
From S2P Require Import Node.
From S2P Require Import VectorClockFacts.
From S2P Require Import WireFacts.
From S2P Require Import MessageFacts.
From S2P Require Import NodeFacts.
From S2P Require Import HandlerFacts.
From S2P Require Import PublicFacts.
From S2P Require Import FrameFacts.
From S2P Require Import StateFacts.

(** * Records read from bytes *)

Lemma rd_byte m off n bs :
  rd m off n = Ok bs -> Forall is_byte (ztake (off + n) m) -> Forall is_byte bs.
Proof.
  unfold rd. destruct (n =? 0); [intros [= <-] _; constructor|].
  destruct (_ && _ && _) eqn:E; [|done]. intros [= <-] Hf.
  apply andb_true_iff in E as [[?%Z.leb_le ?%Z.leb_le]%andb_true_iff _].
  unfold ztake, zdrop in *. rewrite Z2Nat.inj_add in Hf by lia.
  rewrite take_drop_commute. by apply Forall_drop.
Qed.

Lemma rd_length m off n bs : rd m off n = Ok bs -> 0 <= n -> zlen bs = n.
Proof.
  unfold rd. destruct (Z.eqb_spec n 0) as [->|]; [by intros [= <-]|].
  destruct (_ && _ && _) eqn:E; [|done]. intros [= <-] Hn.
  apply andb_true_iff in E as [[?%Z.leb_le ?%Z.leb_le]%andb_true_iff ?%Z.leb_le].
  rewrite zlen_ztake; [done|]. rewrite zlen_zdrop by lia. lia.
Qed.

Lemma uint32_decode_range m off w : uint32_decode m off = Ok w -> is_u32 w.
Proof.
  unfold uint32_decode, uint32_decode_on. intros (bs & _ & [= <-])%out_bind_Ok.
  assert (Forall is_byte (rev (bytes_le 4 (word_le bs)))) as Hb by apply Forall_rev, bytes_le_byte.
  apply word_le_range in Hb. unfold zlen in Hb. by rewrite length_rev, length_bytes_le in Hb.
Qed.

Lemma record_decode_wf m at_ size r rec :
  vector_clock_record_decode m at_ size = Ok (r, Some rec) ->
  Forall is_byte (ztake (at_ + VECTOR_RECORD_SIZE) m) -> 0 <= at_ ->
  record_wf rec /\ VECTOR_RECORD_SIZE <= size.
Proof.
  unfold vector_clock_record_decode. intros E Hf Ha.
  destruct (Z.ltb_spec size VECTOR_RECORD_SIZE) as [?|Hs]; [done|]. split; [|done].
  apply out_bind_Ok in E as (w & Ew & E). apply out_bind_Ok in E as (bs & Eb & E).
  injection E as _ <-. change VECTOR_RECORD_SIZE with 12 in Hf. split; cbn.
  - by eapply uint32_decode_range.
  - pose proof (rd_length _ _ _ _ Eb ltac:(done)) as Hl.
    change sizeof_u32 with 4 in Eb. change MEMBER_ID_SIZE with 8 in Eb, Hl.
    replace (at_ + 12) with (at_ + 4 + 8) in Hf by lia.
    pose proof (rd_byte _ _ _ _ Eb Hf) as Hb. apply word_le_range in Hb. by rewrite Hl in Hb.
Qed.

(** A data message read from bytes has a record in range. *)
Lemma data_decode_record m size r msg :
  message_data_decode m size = Ok (r, Some msg) -> Forall is_byte (ztake size m) ->
  record_wf (data_data_version msg).
Proof.
  unfold message_data_decode. intros (v & _ & E)%out_bind_Ok Hf. destruct v; cbn [negb] in E; [|done].
  apply out_bind_Ok in E as ([n [h|]] & Eh & E); [|done].
  apply out_bind_Ok in E as ([n2 [rec|]] & Er & E); [|done].
  apply out_bind_Ok in E as (w & _ & E). destruct (negb _); [done|]. injection E as _ <-. cbn.
  unfold message_header_decode in Eh.
  destruct (Z.ltb_spec size sizeof_message_header) as [?|Hs]; [done|].
  apply out_bind_Ok in Eh as (? & _ & Eh). apply out_bind_Ok in Eh as (? & _ & Eh).
  apply out_bind_Ok in Eh as (? & _ & Eh). apply out_bind_Ok in Eh as (? & _ & Eh).
  injection Eh as <- _.
  assert (VECTOR_RECORD_SIZE <= u64 (size - sizeof_message_header)) as Hroom.
  { unfold vector_clock_record_decode in Er. destruct (Z.ltb_spec (u64 (size - sizeof_message_header))
      VECTOR_RECORD_SIZE); [done|lia]. }
  assert (u64 (size - sizeof_message_header) <= size - sizeof_message_header) as Hmod
    by (apply Z.mod_le; config_lia).
  eapply (record_decode_wf _ _ _ _ _ Er); [|done].
  apply (Forall_take _ (Z.to_nat (sizeof_message_header + VECTOR_RECORD_SIZE))) in Hf.
  unfold ztake in *. by rewrite take_take, Nat.min_l in Hf by config_lia.
Qed.

(** * Deliveries *)

(** The bytes of a list of datagrams are bytes. *)
Definition bytes_ok (inbox : list (list Z * list Z)) : Prop :=
  Forall (fun d => Forall is_byte (fst d)) inbox.

#[export] Instance bytes_ok_dec inbox : Decision (bytes_ok inbox).
Proof. unfold bytes_ok. apply _. Defined.

Section Delivery.
Context {Ctx : Type}.
Implicit Types n : node Ctx.

(** The data message that the datagram at the head of the inbox holds. *)
Definition incoming n : option message_data :=
  match inbox (n_world n) with
  | [] => None
  | (bytes, _) :: _ =>
      let bytes := ztake INPUT_BUFFER_SIZE bytes in
      match wr (g_input_buffer (n_self n)) 0 bytes with
      | Ok input =>
          match message_type_decode input (zlen bytes), message_data_decode input (zlen bytes) with
          | Ok type, Ok (r, Some msg) =>
              if (type =? MESSAGE_DATA_TYPE) && (0 <=? r) then Some msg else None
          | _, _ => None
          end
      | _ => None
      end
  end.

#[export] Instance connected_dec n : Decision (connected n).
Proof. unfold connected. apply _. Defined.

(** The message that the next reception gives to the data receiver. *)
Definition arrival n : option message_data :=
  match incoming n with
  | Some msg =>
      if bool_decide (connected n) && bool_decide (newer_msg (g_data_version (n_self n)) msg)
      then Some msg else None
  | None => None
  end.

(** Clock, address and context: what the rest of the library leaves alone. *)
Definition seen n : vector_clock * cluster_member * Ctx :=
  (g_data_version (n_self n), g_self_address (n_self n), n_context n).

#[export] Instance seen_framed : Framed seen.
Proof. by split. Qed.

Lemma seen_state v : stable seen (set_state v).
Proof. done. Qed.

(** A receiver that, when it returns, has left the clock and the address
    alone and done [deliver] to its context; it may not return, and may
    change the rest of the node. *)
Context (data_receiver : option (list Z -> Z -> M (node Ctx) unit)).
Context (deliver : list Z -> Ctx -> Ctx).

Definition receiver_returns : Prop :=
  match data_receiver with
  | Some receive => forall data size n u n', receive data size n = Ok (u, n') ->
      g_data_version (n_self n') = g_data_version (n_self n) /\
      g_self_address (n_self n') = g_self_address (n_self n) /\
      n_context n' = deliver (ztake size data) (n_context n)
  | None => forall p c, deliver p c = c
  end.

Hypothesis Hreceiver : receiver_returns.

(** After the delivery of [t]: the clock knows it, the receiver has it. *)
Definition delivered n (t : option message_data) n' : Prop :=
  g_self_address (n_self n') = g_self_address (n_self n) /\
  match t with
  | Some t =>
      newer_msg (g_data_version (n_self n)) t /\ record_wf (data_data_version t) /\
      clock_wf (g_data_version (n_self n')) /\
      clock_map (g_data_version (n_self n')) =
        <[vr_member_id (data_data_version t) := vr_sequence_number (data_data_version t)]>
          (evicted (g_data_version (n_self n)) (vr_member_id (data_data_version t))) /\
      n_context n' = deliver (payload t) (n_context n)
  | None => g_data_version (n_self n') = g_data_version (n_self n) /\ n_context n' = n_context n
  end.

Lemma delivered_none n n' : seen n' = seen n -> delivered n None n'.
Proof. by intros [= Hv Ha Hc]. Qed.

(** The data handler delivers the message it decodes when it is newer than
    the clock, and nothing otherwise. *)
Lemma handle_data_delivered e n r n' :
  gossip_handle_data data_receiver e n = Ok (r, n') -> clock_wf (g_data_version (n_self n)) ->
  Forall is_byte (ztake (ei_buffer_size e) (ei_buffer e)) ->
  delivered n (match message_data_decode (ei_buffer e) (ei_buffer_size e) with
    | Ok (r, Some msg) =>
        if (0 <=? r) && bool_decide (connected n)
           && bool_decide (newer_msg (g_data_version (n_self n)) msg) then Some msg else None
    | _ => None
    end) n'.
Proof.
  intros E Hwf Hb. unfold gossip_handle_data, return_if_not_connected in E.
  apply bind_Ok in E as (g & n0 & [= <- <-] & E).
  destruct (decide (connected n)) as [Hc|Hc].
  2:{ rewrite bool_decide_false in E by done. injection E as <- <-.
      destruct (message_data_decode _ _) as [[? [?|]]| |]; try done.
      rewrite (bool_decide_false (connected n)) by done. by rewrite andb_false_r. }
  rewrite bool_decide_true in E by done.
  apply bind_Ok in E as ([z [msg|]] & n1 & E1 & E).
  all: unfold liftO in E1; destruct (message_data_decode _ _) as [[d m]| |] eqn:Ed; try done;
    injection E1 as -> -> <-.
  2:{ by injection E as <- <-. }
  rewrite (bool_decide_true (connected n)), andb_true_r by done.
  destruct (Z.ltb_spec z 0) as [Hz|Hz].
  { rewrite (proj2 (Z.leb_gt 0 z)) by done. by injection E as <- <-. }
  rewrite (proj2 (Z.leb_le 0 z)) by done. cbn [andb].
  apply bind_Ok in E as (u & n1 & Ea & E).
  apply (keeps_ack seen) in Ea. injection Ea as Ev Ead Ec.
  apply bind_Ok in E as (g & n2 & [= <- <-] & E).
  pose proof (data_decode_record _ _ _ _ Ed Hb) as Hrec. rewrite <- Ev in Hwf.
  destruct (compare_with_record_spec _ _ true Hwf Hrec) as (c' & Ecmp & Hc' & Hcase).
  apply bind_Ok in E as ([res clock] & n2 & El & E). rewrite Ecmp in El. injection El as <- <- <-.
  apply bind_Ok in E as (v & n3 & [= <- <-] & E). rewrite record_comp_before in E.
  unfold newer_msg. rewrite <- Ev. cbn [andb] in Hcase. case_bool_decide as Hnew.
  - apply bind_Ok in E as (g & n4 & [= <- <-] & E).
    apply bind_Ok in E as (log & n4 & El & E). unfold liftO in El.
    destruct (gossip_data_log _ _) as [lg| |]; try done. injection El as <- <-.
    apply bind_Ok in E as (v & n5 & [= <- <-] & E).
    apply bind_Ok in E as (v & n6 & Er & E). apply (keeps_message seen) in E.
    injection E as Ev6 Ead6 Ec6.
    assert (g_data_version (n_self n6) = c' /\ g_self_address (n_self n6) = g_self_address (n_self n1) /\
            n_context n6 = deliver (payload msg) (n_context n1)) as (E1 & E2 & E3).
    { unfold receiver_returns in Hreceiver. destruct data_receiver as [receive|].
      - by destruct (Hreceiver _ _ _ _ _ Er) as (-> & -> & ->).
      - injection Er as _ <-. cbn. by rewrite Hreceiver. }
    split; [congruence|]. unfold newer_msg. rewrite Ev6, Ec6, E1, E3, Ec, <- Ev.
    rewrite bool_decide_true by done. split_and!; done.
  - injection E as <- <-. rewrite bool_decide_false by done. split; [done|]. cbn. by rewrite Hcase.
Qed.

(** The dispatch of any other message leaves clock and context alone. *)
Lemma dispatch_seen t e n r n' :
  (if t =? MESSAGE_HELLO_TYPE then gossip_handle_hello e
   else if t =? MESSAGE_WELCOME_TYPE then gossip_handle_welcome e
   else if t =? MESSAGE_MEMBER_LIST_TYPE then gossip_handle_member_list e
   else if t =? MESSAGE_DATA_TYPE then gossip_handle_data data_receiver e
   else if t =? MESSAGE_ACK_TYPE then gossip_handle_ack e
   else if t =? MESSAGE_STATUS_TYPE then gossip_handle_status e
   else mret PITTACUS_ERR_INVALID_MESSAGE) n = Ok (r, n') ->
  t <> MESSAGE_DATA_TYPE -> seen n' = seen n.
Proof.
  intros E Hne. destruct (t =? MESSAGE_HELLO_TYPE); [by apply (keeps_handle_hello seen) in E|].
  destruct (t =? MESSAGE_WELCOME_TYPE); [by apply (keeps_handle_welcome seen seen_state) in E|].
  destruct (t =? MESSAGE_MEMBER_LIST_TYPE); [by apply (keeps_handle_member_list seen) in E|].
  destruct (Z.eqb_spec t MESSAGE_DATA_TYPE) as [?|_]; [done|].
  destruct (t =? MESSAGE_ACK_TYPE); [by apply (keeps_handle_ack seen) in E|].
  destruct (t =? MESSAGE_STATUS_TYPE); [by apply (keeps_handle_status seen) in E|].
  by injection E as _ <-.
Qed.

Lemma wr_prefix m bs m' : wr m 0 bs = Ok m' -> ztake (zlen bs) m' = bs.
Proof.
  unfold wr. destruct (Z.eqb_spec (zlen bs) 0) as [Hz|_].
  - intros _. by rewrite Hz, (zlen_zero _ Hz).
  - destruct (_ && _); [|done]. intros [= <-]. 
    apply ztake_app.
Qed.

(** Every reception delivers exactly [arrival]. *)
Lemma receive_delivered n r n' :
  pittacus_gossip_process_receive data_receiver n = Ok (r, n') ->
  clock_wf (g_data_version (n_self n)) -> bytes_ok (inbox (n_world n)) ->
  delivered n (arrival n) n'.
Proof.
  intros E Hwf Hb. unfold pittacus_gossip_process_receive in E.
  apply bind_Ok in E as (g & n0 & [= <- <-] & E).
  destruct (is_active (g_state (n_self n))) eqn:Ea; cbn [negb] in E.
  2:{ injection E as <- <-. unfold arrival. destruct (incoming n); [|done].
      rewrite bool_decide_false; [done|]. unfold connected. intros Hc. by rewrite Hc in Ea. }
  apply bind_Ok in E as ([[x bytes] addr] & n1 & E1 & E).
  unfold liftW, pt_recv_from in E1. unfold arrival, incoming.
  destruct (inbox (n_world n)) as [|[pl from] rest] eqn:Ei.
  { injection E1 as <- <- <- <-. cbn in E. by injection E as <- <-. }
  apply Forall_cons in Hb as [Hpl _]. cbn in Hpl.
  injection E1 as <- <- <- <-. set (bs := ztake INPUT_BUFFER_SIZE pl) in *.
  assert (Forall is_byte bs) as Hbs by by apply Forall_take.
  destruct (Z.leb_spec (zlen bs) 0) as [Hz|Hz].
  { injection E as <- <-. pose proof (zlen_nonneg bs).
    assert (bs = []) as -> by (apply zlen_zero; lia). unfold wr. rewrite zlen_nil. cbn.
    done. }
  apply bind_Ok in E as (input & n2 & E2 & E). unfold liftO in E2.
  destruct (wr _ 0 bs) as [inp| |] eqn:Ew; try done. injection E2 as <- <-.
  apply bind_Ok in E as (u & n3 & [= <- <-] & E).
  unfold gossip_handle_new_message in E. apply bind_Ok in E as (t & n3 & E3 & E).
  unfold liftO in E3. cbn [ei_buffer ei_buffer_size] in E3.
  destruct (message_type_decode inp (zlen bs)) as [ty| |]; try done. injection E3 as -> <-.
  set (e := EnvelopeIn from (zlen from) inp (zlen bs)) in E. set (n3 := Node _ _ _) in E.
  assert (forall m, delivered n3 m n' -> delivered n m n') as Hmove by done.
  destruct (decide (t = MESSAGE_DATA_TYPE)) as [->|Hne].
  - rewrite Z.eqb_refl. assert (Forall is_byte (ztake (ei_buffer_size e) (ei_buffer e))) as Hpre
      by (cbn; by rewrite (wr_prefix _ _ _ Ew)).
    pose proof (handle_data_delivered e n3 r n' E Hwf Hpre) as Hd. apply Hmove in Hd.
    cbn [ei_buffer ei_buffer_size e] in Hd. cbn [andb].
    destruct (message_data_decode inp (zlen bs)) as [[d [m|]]| |]; try done.
    destruct (0 <=? d); done.
  - assert (seen n' = seen n) as Hs.
    { change (seen n) with (seen n3). 
      eapply dispatch_seen; [exact E|done]. }
    apply delivered_none in Hs. rewrite (proj2 (Z.eqb_neq _ _) Hne). cbn [andb].
    destruct (message_data_decode inp (zlen bs)) as [[d [m|]]| |]; done.
Qed.
End Delivery.
