(* ===== verification/Samples.v ===== *)
(** Concrete nodes, messages and queues, on which the theorems are tried. *)
From S2P Require Import Prelude.
From S2P Require Import Config.
From S2P Require Import Utils.
From S2P Require Import World.
From S2P Require Import Member.
From S2P Require Import VectorClock.
From S2P Require Import Messages.
From S2P Require Import Queue.
From S2P Require Import DataLog.
From S2P Require Import Gossip.
From S2P Require Import Node.
From S2P Require Import MemberFacts.
From S2P Require Import MemberSetFacts.
From S2P Require Import VectorClockFacts.
From S2P Require Import WireFacts.
From S2P Require Import MessageFacts.
From S2P Require Import DataLogFacts.
From S2P Require Import QueueFacts.
From S2P Require Import OutboxFacts.
From S2P Require Import EnqueueFacts.
From S2P Require Import BufferFacts.
From S2P Require Import CarryFacts.
From S2P Require Import SendFacts.
From S2P Require Import NodeFacts.
From S2P Require Import HandlerFacts.

(** * Environment *)

(** Socket addresses of two hosts: AF_INET, a port, an IPv4 address. *)
Definition sample_addr : list Z := [2; 0; 31; 144; 127; 0; 0; 1; 0; 0; 0; 0; 0; 0; 0; 0].
Definition peer_addr : list Z := [2; 0; 31; 145; 127; 0; 0; 1; 0; 0; 0; 0; 0; 0; 0; 0].

(** Everything succeeds; the clock shows [k] seconds after 1000 at the
    [k]-th call. *)
Definition sample_oracle : oracle :=
  Oracle (fun _ => true) (fun k => (1000 + Z.of_nat k, 0)) Z.of_nat (fun _ => 64)
    (fun _ => 3) (fun _ => 0) (fun _ _ => 0) (fun _ => (0, sample_addr)).

Definition sample_world : world := World sample_oracle 10 0 0 [] [] [].

Lemma sample_no_oom : no_oom sample_world.
Proof. done. Qed.

(** * A node with one member *)

Definition self_member : cluster_member := ClusterMember 1 1000 16 sample_addr.
Definition peer : cluster_member := ClusterMember 1 7 16 peer_addr.
Definition peer_cells : list member_cell := [MemberCell 0 peer].
Definition peer_set : cluster_member_set :=
  MemberSet (Some (MemberCell 0 peer) :: replicate 31 None) 1 32.

Definition zeros (k : nat) : list Z := replicate k 0.
Definition empty_log : data_log :=
  DataLog (replicate 25 (DataLogRecord (VectorRecord 0 0) 0 (zeros 512))) 0 0.

Definition sample_gossip (st : pittacus_gossip_state) : pittacus_gossip :=
  Gossip 3 (zeros 512) (zeros (Z.to_nat OUTPUT_BUFFER_SIZE)) 0 (MessageQueue ∅ None None) 0 0
    vector_clock_init st self_member peer_set empty_log 0.

(** The receiver's context collects the payloads. *)
Definition inbox_of : Type := list (list Z).
Definition deliver (p : list Z) (c : inbox_of) : inbox_of := c ++ [p].
Definition sample_receiver : option (list Z -> Z -> M (node inbox_of) unit) :=
  Some (fun data size n => Ok (tt, Node (n_self n) (n_world n)
                                     (deliver (ztake size data) (n_context n)))).

Definition sample_node (st : pittacus_gossip_state) : node inbox_of :=
  Node (sample_gossip st) sample_world [].

Lemma zlen_zeros k : zlen (zeros k) = Z.of_nat k.
Proof. unfold zlen, zeros. by rewrite length_replicate. Qed.

Lemma zlen_zeros_to z : 0 <= z -> zlen (zeros (Z.to_nat z)) = z.
Proof. intros Hz. rewrite zlen_zeros. by apply Z2Nat.id. Qed.

Lemma sample_buffers st :
  g_output_buffer (sample_gossip st) = zeros (Z.to_nat OUTPUT_BUFFER_SIZE) /\
  g_input_buffer (sample_gossip st) = zeros 512.
Proof. by split. Qed.

Lemma peer_wf : stored_wf peer.
Proof. apply (bool_decide_unpack _). vm_compute. exact I. Qed.

Lemma peer_listed : listed_wf peer.
Proof. split; [apply peer_wf|done]. Qed.

Lemma peer_set_repr : set_repr peer_set peer_cells.
Proof.
  split_and!; try done.
  - by exists (replicate 31 None).
  - apply Forall_singleton, peer_wf.
Qed.

Lemma self_member_ok : self_ok self_member.
Proof. apply (bool_decide_unpack _). vm_compute. exact I. Qed.

Lemma empty_log_ok : log_wf empty_log.
Proof.
  apply empty_log_wf; [done|]. unfold empty_log. cbn [dl_messages].
  apply Forall_replicate. change (zlen (zeros 512) = MESSAGE_MAX_SIZE). by rewrite zlen_zeros.
Qed.

Lemma sample_clock_wf : clock_wf vector_clock_init.
Proof. apply (bool_decide_unpack _). vm_compute. exact I. Qed.

Lemma sample_output st : zlen (g_output_buffer (n_self (sample_node st))) = OUTPUT_BUFFER_SIZE.
Proof.
  unfold sample_node. cbn [n_self]. rewrite (proj1 (sample_buffers st)). apply zlen_zeros_to.
  apply Z.leb_le. reflexivity.
Qed.

Lemma sample_input st : zlen (g_input_buffer (n_self (sample_node st))) = MESSAGE_MAX_SIZE.
Proof. unfold sample_node. cbn [n_self]. rewrite (proj2 (sample_buffers st)). apply zlen_zeros. Qed.

Lemma sample_ok st : node_ok (sample_node st) [] peer_cells.
Proof.
  split.
  - split; [apply empty_repr|apply Forall_nil_2|apply Forall_nil_2|apply sample_output|done].
  - split; [apply peer_set_repr|]. by apply Forall_singleton.
  - apply sample_clock_wf.
  - apply empty_log_ok.
  - apply self_member_ok.
  - done.
  - apply sample_input.
Qed.

Lemma sample_receiver_ok : receiver_ok sample_receiver deliver.
Proof. done. Qed.

Lemma sample_room k : 0 <= k < 1000 -> room_for peer_cells k.
Proof. intros Hk. unfold room_for. change (zlen peer_cells) with 1. lia. Qed.

(** * Messages *)

Definition sample_data : message_data :=
  MessageData (message_header_init MESSAGE_DATA_TYPE 5) (VectorRecord 1 77) 3 [104; 105; 33].
Definition sample_ack : message_ack :=
  MessageAck (message_header_init MESSAGE_ACK_TYPE 6) 1.
Definition sample_hello : message_hello :=
  MessageHello (message_header_init MESSAGE_HELLO_TYPE 7) peer.
Definition sample_welcome : message_welcome :=
  MessageWelcome (message_header_init MESSAGE_WELCOME_TYPE 8) 1 peer.
Definition sample_list : message_member_list :=
  MessageMemberList (message_header_init MESSAGE_MEMBER_LIST_TYPE 9) 1 [peer].
Definition sample_clock : vector_clock :=
  VectorClock 2 2 (VectorRecord 3 77 :: VectorRecord 1 78 :: replicate 18 (VectorRecord 0 0)).
Definition sample_status : message_status :=
  MessageStatus (message_header_init MESSAGE_STATUS_TYPE 10) sample_clock.

Lemma sample_clock_ok : clock_wf sample_clock.
Proof. apply (bool_decide_unpack _). vm_compute. exact I. Qed.

Lemma sample_data_wf : codec_wf sample_data.
Proof. split_and!; done. Qed.
Lemma sample_ack_wf : codec_wf sample_ack.
Proof. split_and!; done. Qed.
Lemma sample_hello_wf : codec_wf sample_hello.
Proof. split_and!; try done; apply peer_wf. Qed.
Lemma sample_welcome_wf : codec_wf sample_welcome.
Proof. split_and!; try done; apply peer_wf. Qed.
Lemma sample_list_wf : codec_wf sample_list.
Proof. split_and!; try done. apply Forall_singleton, peer_listed. Qed.
Lemma sample_status_wf : codec_wf sample_status.
Proof. split_and!; try done. apply sample_clock_ok. Qed.

(** The datagram of a message, as it lies in the input buffer. *)
Definition arrived {T} `{Codec T} (t : T) : message_envelope_in :=
  EnvelopeIn peer_addr (zlen peer_addr) (wire t ++ zeros 400) (zlen (wire t)).

Lemma arrived_carries {T} `{Codec T} (t : T) :
  codec_wf t -> zlen (wire t) <= MESSAGE_MAX_SIZE -> carries_in (arrived t) t.
Proof. intros Ht Hl. split_and!; try done. by exists (zeros 400). Qed.

(** * A node with a queued message *)

(** The state a call leaves. *)
Definition final {A} (m : M (node inbox_of) A) (n : node inbox_of) : node inbox_of :=
  match m n with Ok (_, n') => n' | _ => n end.

Lemma wp_final {A} (m : M (node inbox_of) A) n (Q : A -> node inbox_of -> Prop) :
  wp m n Q -> exists a, Q a (final m n).
Proof. unfold wp, final. destruct (m n) as [[a n']| |]; [by exists a|done|done]. Qed.

(** A run known to succeed ends in that state. *)
Lemma final_run {A} (m : M (node inbox_of) A) n :
  wp m n (fun _ _ => True) -> exists a, m n = Ok (a, final m n).
Proof. unfold wp, final. destruct (m n) as [[a n']| |]; [by exists a|done|done]. Qed.

(** The node after it queued the data message for its member. *)
Definition sample_sender : node inbox_of :=
  final (gossip_enqueue_message MESSAGE_DATA_TYPE (MsgData sample_data) None 0 GOSSIP_BROADCAST)
    (sample_node STATE_CONNECTED).

(** What every envelope of that node carries. *)
Definition sample_msgs : loc -> message := fun _ => MsgData sample_data.

Lemma sample_sender_queue :
  exists xs, message_enqueued (MsgData sample_data) [(peer_addr, 16)]
               (sample_node STATE_CONNECTED) [] sample_sender xs.
Proof.
  destruct (wp_final _ _ _ (wp_enqueue_message (MsgData sample_data) None 0 GOSSIP_BROADCAST
    (sample_node STATE_CONNECTED) [] peer_cells (no_outbox _ _ _ (sample_ok _))
    (no_members _ _ _ (sample_ok _)) sample_data_wf ltac:(done) ltac:(done)))
    as (a & _ & rs & xs & -> & Hm).
  by exists xs.
Qed.

Lemma sample_sender_inv :
  exists xs, send_inv 16 sample_msgs sample_sender xs peer_cells /\ xs <> [] /\
    is_active (g_state (n_self sample_sender)) = true /\ outbox sample_sender xs /\
    Forall (fun e => en_attempt_num (snd e) = 0 /\ en_max_attempts (snd e) = 3) xs.
Proof.
  destruct sample_sender_queue as [xs Hm]. exists xs.
  pose proof (sample_ok STATE_CONNECTED) as Hok.
  destruct (message_enqueued_ok _ _ _ _ _ _ _ Hok Hm) as [Hn Hf].
  destruct (message_enqueued_carries (MsgData sample_data) _ _ _ _ _ (no_outbox _ _ _ Hok)
              (or_introl grouped_nil) sample_data_wf ltac:(done) Hm) as [_ Hc].
  destruct Hm as (slot & xs1 & news & Hav & Exs & Hob & En & _).
  assert (xs1 = []) as -> by (destruct Hav as [|i l x _ [Hi _]]; done).
  rewrite app_nil_l in Exs. subst news.
  assert (forall e, e ∈ xs -> snd e = new_envelope slot 29 3 1 (peer_addr, 16)) as Hx.
  { intros e He. apply (list_elem_of_fmap_2 snd) in He. rewrite En in He.
    apply elem_of_cons in He as [He|He]; [exact He|by apply not_elem_of_nil in He]. }
  split; [split|].
  - apply Hob.
  - apply (no_members _ _ _ Hn).
  - by apply Forall_singleton.
  - apply Forall_forall. intros e He. rewrite (Hx e He). by split_and!.
  - intros l x Hin. destruct (Hc l x Hin) as [Hcar|[He _]]; [|by apply not_elem_of_nil in He].
    by exists (MsgData sample_data).
  - split; [intros ->; done|]. split; [by rewrite (ef_state _ _ Hf)|]. split; [done|].
    apply Forall_forall. intros e He. by rewrite (Hx e He).
Qed.

Lemma sample_sender_ok :
  exists xs, xs <> [] /\ node_ok sample_sender xs peer_cells /\ connected sample_sender.
Proof.
  destruct sample_sender_queue as [xs Hm]. exists xs.
  destruct (message_enqueued_ok _ _ _ _ _ _ _ (sample_ok STATE_CONNECTED) Hm) as [Hn Hf].
  split; [|split; [done|by unfold connected; rewrite (ef_state _ _ Hf)]].
  destruct Hm as (slot & xs1 & news & _ & E & _ & En & _). intros ->.
  symmetry in E. apply app_eq_nil in E as [_ ->]. done.
Qed.
