(* ===== verification/ClockText.v ===== *)
(** [vector_clock_to_string] ([vector_clock.c]): a clock as text. *)
From S2P Require Import Prelude.
From S2P Require Import Config.
From S2P Require Import Utils.
From S2P Require Import World.
From S2P Require Import Member.
From S2P Require Import VectorClock.
From S2P Require Import VectorClockFacts.
From S2P Require Import Text.
From Stdlib Require Import String.
Local Abbreviation length := Datatypes.length.

(** * The function *)

(** What the format (%llx:%u) followed by two spaces gives for a record. *)
Definition record_text (r : vector_record) : list Z :=
  bytes_of "(" ++ fmt_llx (vr_member_id r) ++ bytes_of ":" ++ fmt_u (vr_sequence_number r)
  ++ bytes_of ")  ".

(** [result] is the object the pointer gives access to. *)
Definition vector_clock_to_string (clock : vector_clock) (result : list Z) : out (list Z) :=
  r ← ofor (Z.to_nat (vc_size clock)) 0
    (fun i st =>
       let '(cursor, m) := st in
       rec ← aread (vc_records clock) i;
       r ← sprintf m cursor (record_text rec);
       let '(str_size, m) := r in
       mret (cursor + str_size, m))
    (0, result);
  mret (snd r).

(** * Reading it back *)

(** The text of a list of records. *)
Definition records_text (rs : list vector_record) : list Z := mjoin (record_text <$> rs).

(** The byte [c], then the rest. *)
Definition expect (c : Z) (s : list Z) : option (list Z) :=
  match s with c' :: s' => if c' =? c then Some s' else None | [] => None end.

(** One record at the start of a text. *)
Definition parse_record (s : list Z) : option (vector_record * list Z) :=
  s ← expect 40 s;
  let '(id, s) := scan_digits 16 0 s in
  s ← expect 58 s;
  let '(seq, s) := scan_digits 10 0 s in
  s ← expect 41 s; s ← expect 32 s; s ← expect 32 s;
  Some (VectorRecord seq id, s).

(** Records up to the end of the text. *)
Fixpoint parse_records (fuel : nat) (s : list Z) : option (list vector_record) :=
  match s, fuel with
  | [], _ => Some []
  | _, O => None
  | _, S fuel' =>
      r ← parse_record s;
      let '(rec, s) := r in
      rs ← parse_records fuel' s;
      Some (rec :: rs)
  end.

(** * Facts *)

Lemma parse_record_text r rest :
  record_wf r -> parse_record (record_text r ++ rest) = Some (r, rest).
Proof.
  intros [Hs Hi]. unfold parse_record, record_text. rewrite <- !app_assoc.
  change (bytes_of "(") with [40]. change (bytes_of ":") with [58].
  change (bytes_of ")  ") with [41; 32; 32]. cbn [app expect].
  rewrite Z.eqb_refl. cbn [mbind option_bind].
  rewrite fmt_llx_scan by done. cbn [expect app]. rewrite Z.eqb_refl. cbn [mbind option_bind].
  rewrite fmt_u_scan by (done || word_lia). cbn [expect app mbind option_bind]. rewrite !Z.eqb_refl.
  cbn [mbind option_bind expect]. by rewrite vector_record_eta.
Qed.

Lemma record_text_length r : record_wf r -> 7 <= zlen (record_text r) <= 31.
Proof.
  intros [Hs Hi]. unfold record_text. pose proof (fmt_llx_length _ Hi). pose proof (fmt_u32_length _ Hs).
  rewrite !zlen_app. change (zlen (bytes_of "(")) with 1. change (zlen (bytes_of ":")) with 1.
  change (zlen (bytes_of ")  ")) with 3. lia.
Qed.

Lemma record_text_no_nul r : record_wf r -> no_nul (record_text r).
Proof.
  intros [Hs Hi]. unfold record_text, no_nul. rewrite !Forall_app. split_and!.
  - by apply (bool_decide_unpack _).
  - apply fmt_llx_no_nul. word_lia.
  - by apply (bool_decide_unpack _).
  - apply fmt_u_no_nul. word_lia.
  - by apply (bool_decide_unpack _).
Qed.

Lemma records_text_snoc rs r : records_text (rs ++ [r]) = records_text rs ++ record_text r.
Proof.
  unfold records_text. rewrite fmap_app, join_app. cbn. by rewrite app_nil_r.
Qed.

Lemma parse_records_text rs fuel :
  Forall record_wf rs -> (length rs <= fuel)%nat -> parse_records fuel (records_text rs) = Some rs.
Proof.
  intros Hf. revert fuel. induction Hf as [|r rs Hr Hf IH]; intros fuel Hl; [by destruct fuel|].
  cbn in Hl. destruct fuel as [|fuel]; [lia|].
  change (records_text (r :: rs)) with (record_text r ++ records_text rs).
  destruct (record_text r ++ records_text rs) as [|c s] eqn:E.
  { pose proof (record_text_length r Hr). apply (f_equal zlen) in E. rewrite zlen_app, zlen_nil in E.
    pose proof (zlen_nonneg (records_text rs)). lia. }
  cbn [parse_records]. rewrite <- E, parse_record_text by done. cbn [mbind option_bind].
  rewrite IH by lia. done.
Qed.

Lemma records_text_length rs :
  Forall record_wf rs -> 7 * zlen rs <= zlen (records_text rs) <= 31 * zlen rs.
Proof.
  induction 1 as [|r rs Hr _ IH]; [done|]. pose proof (record_text_length r Hr).
  change (records_text (r :: rs)) with (record_text r ++ records_text rs).
  rewrite zlen_app, zlen_cons. lia.
Qed.

Lemma records_text_no_nul rs : Forall record_wf rs -> no_nul (records_text rs).
Proof.
  induction 1 as [|r rs Hr _ IH]; [constructor|]. apply Forall_app. by split; [apply record_text_no_nul|].
Qed.

Lemma zdrop_S {A} k (x : A) l : 0 <= k -> zdrop (k + 1) (x :: l) = zdrop k l.
Proof. intros Hk. unfold zdrop. by replace (Z.to_nat (k + 1)) with (S (Z.to_nat k)) by lia. Qed.

(** The loop: after [k] records the text of these records and a NUL lie at
    the start of the object, the rest is as it was. *)
Definition written (rs : list vector_record) (m0 m : list Z) : Prop :=
  m = records_text rs ++ match rs with [] => m0 | _ => 0 :: zdrop (zlen (records_text rs) + 1) m0 end.

Lemma to_string_run clock m0 :
  clock_ok clock -> zlen (records_text (live clock)) < zlen m0 ->
  exists m, vector_clock_to_string clock m0 = Ok m /\ written (live clock) m0 m.
Proof.
  intros Hc Hroom. unfold vector_clock_to_string. rewrite <- (length_live clock Hc).
  assert (Forall record_wf (live clock)) as Hwf by apply Hc.
  set (body := fun i st => _).
  destruct (ofor_inv (fun i (st : Z * list Z) =>
              let rs := take (Z.to_nat i) (live clock) in
              fst st = zlen (records_text rs) /\ written rs m0 (snd st))
            (length (live clock)) 0 body (0, m0)) as ([c m] & -> & _ & Hm).
  - split; [done|]. unfold written. done.
  - intros i [c m] Hi [Ec Em]. cbn [fst snd] in *. set (k := Z.to_nat i) in *.
    destruct (lookup_lt_is_Some_2 (live clock) k) as [r Hr]; [lia|].
    replace (Z.to_nat (i + 1)) with (S k) by lia. rewrite (take_S_r _ _ r Hr).
    set (rs := take k (live clock)) in *. unfold body.
    replace i with (Z.of_nat k) by lia. rewrite (aread_Ok _ _ r) by by apply live_lookup. out_step.
    assert (zlen (records_text rs) + zlen (record_text r) < zlen m0) as Hfit.
    { rewrite <- zlen_app, <- records_text_snoc. unfold rs. rewrite <- (take_S_r _ _ r Hr).
      eapply Z.le_lt_trans; [|exact Hroom]. unfold records_text.
      rewrite <- (take_drop (S k) (live clock)) at 2. rewrite fmap_app, join_app, zlen_app.
      pose proof (zlen_nonneg (mjoin (record_text <$> drop (S k) (live clock)))). lia. }
    pose proof (zlen_nonneg (records_text rs)). pose proof (zlen_nonneg (record_text r)).
    unfold written in Em. set (old := match rs with [] => _ | _ => _ end) in Em.
    assert (zlen old = zlen m0 - zlen (records_text rs)) as Hold.
    { subst old. destruct rs as [|r0 rs0]; [change (records_text []) with (@nil Z); rewrite zlen_nil; lia|].
      rewrite zlen_cons, zlen_zdrop by lia. lia. }
    rewrite (sprintf_at m c (records_text rs) old) by (done || lia). out_step.
    eexists. split; [done|]. cbn [fst snd]. rewrite records_text_snoc, zlen_app. split; [lia|].
    unfold written. destruct (rs ++ [r]) as [|] eqn:E; [by apply app_nil in E as [_ ?]|].
    rewrite <- E, records_text_snoc, <- !app_assoc. do 2 f_equal. cbn [app]. f_equal.
    rewrite zlen_app. subst old. destruct rs as [|r0 rs0]; [done|].
    rewrite zdrop_S by lia.
    rewrite zdrop_zdrop by lia. f_equal. lia.
  - out_step. exists m. split; [done|]. rewrite Z.add_0_l, Nat2Z.id, firstn_all in Hm. exact Hm.
Qed.

(** * Property *)

(** C29: [vector_clock_to_string] prints every record in use, hexadecimal
    originator and decimal number, followed by a NUL, and the text reads back
    as the same records; 31 bytes for each record and one more are enough
    (621 for a full clock), and nothing is written beyond the text. An empty
    clock leaves the buffer as it was, without a NUL. *)
Theorem clock_text_roundtrip clock result :
  clock_ok clock -> 31 * vc_size clock < zlen result ->
  exists m, vector_clock_to_string clock result = Ok m /\ zlen m = zlen result /\
    if bool_decide (vc_size clock = 0) then m = result
    else exists s rest, m = s ++ 0 :: rest /\ rest = zdrop (zlen s + 1) result /\
      c_string m = Ok s /\ parse_records 20 s = Some (live clock).
Proof.
  intros Hc Hroom. pose proof Hc as (_ & Hs & Hwf & _). pose proof (length_live clock Hc) as Hl.
  pose proof (records_text_length _ Hwf) as Htl. unfold zlen at 1 4 in Htl.
  destruct (to_string_run clock result Hc) as (m & Em & Hm); [lia|].
  exists m. split; [exact Em|]. unfold written in Hm. case_bool_decide as E0.
  - destruct (live clock) as [|]; [by subst m|cbn in Hl; lia].
  - pose proof (parse_records_text (live clock) 20 Hwf ltac:(config_lia)) as Hp.
    pose proof (records_text_no_nul _ Hwf) as Hn.
    destruct (live clock) as [|r rs] eqn:El; [cbn in Hl; lia|]. rewrite <- El in *.
    split.
    + rewrite Hm, zlen_app, zlen_cons, zlen_zdrop by lia. lia.
    + eexists _, _. split; [exact Hm|]. split; [done|]. rewrite Hm. split; [by apply c_string_ok|done].
Qed.

(** The text of two records: (4d:3)  (4e:1) and two spaces. *)
Lemma clock_text_roundtrip_witness :
  let clock := VectorClock 2 2 (VectorRecord 3 77 :: VectorRecord 1 78 :: replicate 18 (VectorRecord 0 0)) in
  let result := replicate 70 255 in
  (exists m, vector_clock_to_string clock result = Ok m /\ zlen m = zlen result /\
     if bool_decide (vc_size clock = 0) then m = result
     else exists s rest, m = s ++ 0 :: rest /\ rest = zdrop (zlen s + 1) result /\
       c_string m = Ok s /\ parse_records 20 s = Some (live clock)) /\
  vector_clock_to_string clock result
    = Ok (bytes_of "(4d:3)  (4e:1)  " ++ 0 :: replicate 53 255).
Proof.
  cbv zeta. split; [|vm_compute; reflexivity].
  exact (clock_text_roundtrip (VectorClock 2 2 (VectorRecord 3 77 :: VectorRecord 1 78 :: replicate 18 (VectorRecord 0 0)))
    (replicate 70 255) ltac:(apply (bool_decide_unpack _); vm_compute; exact I) ltac:(vm_compute; reflexivity)).
Defined.
