(* ===== verification/SendProps.v ===== *)
(** Properties of sending: the pass over the outbound queue, the datagrams,
    and their delivery at another node. *)
From S2P Require Import Prelude.
From S2P Require Import Config.
From S2P Require Import Utils.
From S2P Require Import World.
From S2P Require Import Member.
From S2P Require Import VectorClock.
From S2P Require Import Messages.
From S2P Require Import Queue.
From S2P Require Import DataLog.
From S2P Require Import Gossip.
From S2P Require Import Node.
From S2P Require Import MemberFacts.
From S2P Require Import MemberSetFacts.
From S2P Require Import VectorClockFacts.
From S2P Require Import WireFacts.
From S2P Require Import MessageFacts.
From S2P Require Import DataLogFacts.
From S2P Require Import QueueFacts.
From S2P Require Import OutboxFacts.
From S2P Require Import EnqueueFacts.
From S2P Require Import BufferFacts.
From S2P Require Import CarryFacts.
From S2P Require Import SendFacts.
From S2P Require Import NodeFacts.
From S2P Require Import HandlerFacts.
From S2P Require Import PublicFacts.
From S2P Require Import Samples.

(** * Helpers *)

Lemma wp_process_send {Ctx} len msgs (n : node Ctx) xs cells :
  send_inv len msgs n xs cells -> is_active (g_state (n_self n)) = true ->
  wp pittacus_gossip_process_send n (passed len msgs n [] xs cells 0).
Proof.
  intros Hinv Ha. pose proof (ob_queue _ _ (si_outbox _ _ _ _ _ Hinv)) as Hq.
  unfold pittacus_gossip_process_send. apply wp_bind, wp_self. rewrite Ha. cbn [negb].
  rewrite (qr_head _ _ Hq). apply wp_send_loop; [done|].
  unfold queue_fuel. rewrite (repr_size _ _ Hq). lia.
Qed.

(** The envelopes attempted are envelopes of the queue. *)
Lemma send_pass_attempted C todo cells kept cells' att f e :
  send_pass C todo cells kept cells' att f -> e ∈ att -> e ∈ todo.
Proof.
  induction 1; intros He; try (apply elem_of_cons in He as [->|He]); auto;
    try (by left); try (by apply not_elem_of_nil in He);
    right; eauto using drop_same_incl.
Qed.

(** No envelope is attempted more often than it may be. *)
Lemma send_pass_attempts C todo cells kept cells' att f :
  send_pass C todo cells kept cells' att f ->
  Forall (fun e => en_attempt_num (snd e) < en_max_attempts (snd e)) att.
Proof. induction 1; try constructor; cbn; auto. Qed.

#[export] Instance cluster_member_eq_dec : EqDecision cluster_member.
Proof. solve_decision. Defined.
#[export] Instance member_cell_eq_dec : EqDecision member_cell.
Proof. solve_decision. Defined.

(** Members leave only through an expired envelope to their address. *)
Lemma send_pass_members C todo cells kept cells' att f c :
  send_pass C todo cells kept cells' att f -> c ∈ cells -> c ∉ cells' ->
  exists e, e ∈ todo /\ en_max_attempts (snd e) <= en_attempt_num (snd e) /\
    1 < en_max_attempts (snd e) /\ cm_address (cell_member c) = en_recipient (snd e).
Proof.
  induction 1 as [|l x todo cells kept cells' att f H1 H2 H IH|l x todo cells kept cells' att f H1 H2 H IH
    |l x now todo cells kept cells' att f HC H1 H2 H IH|
    |l x now todo cells kept cells' att f HC H1 H2 H3 H IH|l x now todo cells kept cells' att f HC H1 H2 H3 H IH];
    intros Hc Hn; try done.
  - destruct (IH Hc Hn) as (e & He & ?). exists e. split; [by right|done].
  - destruct (decide (c ∈ remove_addr (en_recipient x) cells)) as [Hin|Hout].
    + destruct (IH Hin Hn) as (e & He & ?). exists e. split; [|done]. right.
      by eapply drop_same_incl.
    + exists (l, x). split; [by left|]. split; [done|]. split; [done|]. cbn.
      unfold remove_addr in Hout. destruct (list_find _ cells) as [[i c']|] eqn:E; [|done].
      apply list_find_Some in E as (Hi & Hc' & _). apply list_elem_of_lookup in Hc as [j Hj].
      destruct (decide (j = i)) as [->|Hne]; [by rewrite Hi in Hj; injection Hj as <-|].
      exfalso. apply Hout. apply list_elem_of_lookup. exists (if bool_decide (j < i)%nat then j else pred j).
      rewrite <- Hj. case_bool_decide; [by apply list_lookup_delete_lt|].
      rewrite list_lookup_delete_ge by lia. f_equal. lia.
  - destruct (IH Hc Hn) as (e & He & ?). exists e. split; [by right|done].
  - destruct (IH Hc Hn) as (e & He & ?). exists e. split; [by right|done].
  - destruct (IH Hc Hn) as (e & He & ?). exists e. split; [by right|done].
Qed.

(** * Properties *)

(** C14: [pittacus_gossip_process_send] always returns and performs the
    abstract pass [send_pass] over the outbound queue: envelopes that were
    attempted as often as allowed are dropped (with the member they were for
    and the envelopes to it that follow, when they were to be acknowledged),
    envelopes whose retry time has not come are kept, the others are handed
    to [sendto], each as the bytes of its message under its own sequence
    number; the times are readings of the clock during the call. The result is the number of datagrams, or the write error. *)
Theorem process_send_refines {Ctx} len msgs (n : node Ctx) xs cells :
  send_inv len msgs n xs cells -> is_active (g_state (n_self n)) = true ->
  wp pittacus_gossip_process_send n (fun r n' =>
    exists kept cells' att f ds,
      send_pass (readings (n_world n)) xs cells kept cells' att f /\
      send_inv len msgs n' kept cells' /\ send_frame n n' /\
      sent (n_world n') = sent (n_world n) ++ ds /\ Forall2 (sent_as msgs) att ds /\
      (r = if f then PITTACUS_ERR_WRITE_FAILED else zlen att) /\
      (f = true -> write_fails (n_world n))).
Proof.
  intros Hinv Ha. eapply wp_mono; [by apply wp_process_send|].
  intros r n' (kept & cells' & att & f & ds & H). by exists kept, cells', att, f, ds.
Qed.

Lemma process_send_refines_witness :
  exists xs, xs <> [] /\ wp pittacus_gossip_process_send sample_sender (fun r n' =>
    exists kept cells' att f ds,
      send_pass (readings (n_world sample_sender)) xs peer_cells kept cells' att f /\
      send_inv 16 sample_msgs n' kept cells' /\ send_frame sample_sender n' /\
      sent (n_world n') = sent (n_world sample_sender) ++ ds /\ Forall2 (sent_as sample_msgs) att ds /\
      (r = if f then PITTACUS_ERR_WRITE_FAILED else zlen att) /\
      (f = true -> write_fails (n_world sample_sender))).
Proof.
  destruct sample_sender_inv as (xs & Hinv & Hne & Ha & _). exists xs. split; [exact Hne|].
  exact (process_send_refines 16 sample_msgs sample_sender xs peer_cells Hinv Ha).
Defined.

(** C16: Sending respects the limits of the protocol: every datagram sent is
    for a queued envelope with attempts left, and a member is dropped only
    when an envelope to its address was sent as often as allowed without
    being acknowledged. *)
Theorem process_send_limits {Ctx} len msgs (n : node Ctx) xs cells :
  send_inv len msgs n xs cells -> is_active (g_state (n_self n)) = true ->
  wp pittacus_gossip_process_send n (fun _ n' =>
    exists ds cells', sent (n_world n') = sent (n_world n) ++ ds /\
      set_repr (g_members (n_self n')) cells' /\
      Forall (fun d => exists e, e ∈ xs /\ sent_as msgs e d /\
                en_attempt_num (snd e) < en_max_attempts (snd e)) ds /\
      forall c, c ∈ cells -> c ∉ cells' ->
        exists e, e ∈ xs /\ en_max_attempts (snd e) <= en_attempt_num (snd e) /\
          1 < en_max_attempts (snd e) /\ cm_address (cell_member c) = en_recipient (snd e)).
Proof.
  intros Hinv Ha. eapply wp_mono; [by apply wp_process_send|].
  intros r n' (kept & cells' & att & f & ds & Hp & Hinv' & _ & Hs & Hd & _ & _).
  exists ds, cells'. split; [done|]. split; [apply (si_members _ _ _ _ _ Hinv')|]. split.
  - apply Forall_forall. intros d [i Hi]%list_elem_of_lookup.
    destruct (Forall2_lookup_r _ _ _ _ _ Hd Hi) as (e & He & Hed).
    pose proof (list_elem_of_lookup_2 _ _ _ He) as Hin. exists e.
    split; [by eapply send_pass_attempted|]. split; [done|].
    apply (proj1 (Forall_forall _ _) (send_pass_attempts _ _ _ _ _ _ _ Hp) e Hin).
  - intros c. by eapply send_pass_members.
Qed.

Lemma process_send_limits_witness :
  exists xs, xs <> [] /\ wp pittacus_gossip_process_send sample_sender (fun _ n' =>
    exists ds cells', sent (n_world n') = sent (n_world sample_sender) ++ ds /\
      set_repr (g_members (n_self n')) cells' /\
      Forall (fun d => exists e, e ∈ xs /\ sent_as sample_msgs e d /\
                en_attempt_num (snd e) < en_max_attempts (snd e)) ds /\
      forall c, c ∈ peer_cells -> c ∉ cells' ->
        exists e, e ∈ xs /\ en_max_attempts (snd e) <= en_attempt_num (snd e) /\
          1 < en_max_attempts (snd e) /\ cm_address (cell_member c) = en_recipient (snd e)).
Proof.
  destruct sample_sender_inv as (xs & Hinv & Hne & Ha & _). exists xs. split; [exact Hne|].
  exact (process_send_limits 16 sample_msgs sample_sender xs peer_cells Hinv Ha).
Defined.

(** What [b], with the queue [ys], does from [b0] to [b'] with a data message
    [t] that is new to it: an acknowledgement of its number is queued for its
    sender and nobody else, before anything else; the message is noted and
    given to the receiver; and it is queued again, as it came, for sampled
    members. Nothing else is queued, and nothing is sent. *)
Definition data_taken {Ctx} deliver (t : message_data) from (ys : list entry) cells (b0 b' : node Ctx) : Prop :=
  noted b0 b' t /\ n_context b' = deliver (payload t) (n_context b0) /\
  sent (n_world b') = sent (n_world b0) /\
  exists b1 ys1 t' b2 rs ys2,
    message_enqueued (ack_of (mh_sequence_num (data_header t))) [(from, zlen from)] b0 ys b1 ys1 /\
    codec_eqv t' t /\ spread_to cells None 0 GOSSIP_RANDOM rs /\ took_over b1 b2 (n_context b') /\
    message_enqueued (MsgData t') rs b2 ys1 b' ys2 /\ node_ok b' ys2 cells.

(** A data message that arrives is handled as such. *)
Lemma wp_receive_data {Ctx} recv deliver (t : message_data) (b : node Ctx) ys cells from rest :
  node_ok b ys cells -> connected b -> receives recv deliver (payload t) ->
  codec_wf t -> zlen (wire t) <= MESSAGE_MAX_SIZE -> zlen from <= sizeof_sockaddr_storage ->
  inbox (n_world b) = (wire t, from) :: rest ->
  newer_msg (g_data_version (n_self b)) t ->
  wp (pittacus_gossip_process_receive recv) b (fun r b' =>
    r = PITTACUS_ERR_NONE /\ connected b' /\
    data_taken deliver t from ys cells (after_recv b (wire t) rest) b').
Proof.
  intros Hb Hc Hr Ht Hl Hfrom Hin Hnew. pose proof (codec_wire_min t Ht) as Hmin.
  unfold wp. rewrite (process_receive_run recv b (wire t) from rest); [|by rewrite Hc|done|config_lia|apply Hb].
  pose proof (received_carries b t from Ht Hl Hfrom) as Hcar.
  rewrite (dispatch_data recv _ t _ Hcar).
  pose proof (node_ok_recv b ys cells (wire t) rest Hb Hl) as Hb'.
  assert (connected (after_recv b (wire t) rest)) as Hc' by exact Hc.
  change (wp (gossip_handle_data recv (received b (wire t) from)) (after_recv b (wire t) rest)
            (fun r b' => r = PITTACUS_ERR_NONE /\ connected b' /\
               data_taken deliver t from ys cells (after_recv b (wire t) rest) b')).
  eapply wp_mono; [exact (wp_handle_data recv _ t deliver _ ys cells Hb' Hc' Hcar Hr)|].
  intros r b' (-> & Hcb & Hs & b1 & ys1 & Hm & Hcase). split; [done|]. split; [done|].
  rewrite bool_decide_true in Hcase by done.
  destruct Hcase as (Hn & Hctx & t' & b2 & rs & ys2 & He & Hrs & Ht' & Hm2 & Hok).
  split; [done|]. split; [done|]. split; [done|]. by exists b1, ys1, t', b2, rs, ys2.
Qed.

(** C4: From sender to receiver: every datagram that
    [pittacus_gossip_process_send] hands to the network for a queued data
    message goes to the address of the envelope, and a connected node that
    receives it, and has not seen the message, notes it, gives exactly the
    payload of the message to its data receiver, queues an acknowledgement of
    the sequence number of the envelope for the sender of the datagram, and
    after it the message itself for members of its own that it samples:
    nothing else is in its queue than what was there before and these, and
    it is still connected. *)
Theorem data_reaches_receiver {CtxA Ctx} len msgs (a : node CtxA) xs cells recv deliver :
  send_inv len msgs a xs cells -> is_active (g_state (n_self a)) = true ->
  receiver_ok recv deliver ->
  wp pittacus_gossip_process_send a (fun _ a' => exists ds,
    sent (n_world a') = sent (n_world a) ++ ds /\
    forall d, d ∈ ds -> exists l x, (l, x) ∈ xs /\ dg_addr d = en_recipient x /\
      forall t (b : node Ctx) ys cellsb from rest,
        msgs l = MsgData t -> codec_wf t -> zlen (wire t) <= MESSAGE_MAX_SIZE ->
        node_ok b ys cellsb -> connected b -> zlen from <= sizeof_sockaddr_storage ->
        inbox (n_world b) = (dg_payload d, from) :: rest ->
        newer_msg (g_data_version (n_self b)) t ->
        wp (pittacus_gossip_process_receive recv) b (fun r b' =>
          r = PITTACUS_ERR_NONE /\ connected b' /\
          data_taken deliver (codec_with_seq (en_sequence_num x) t) from ys cellsb
            (after_recv b (dg_payload d) rest) b')).
Proof.
  intros Hinv Ha Hr. eapply wp_mono; [by apply wp_process_send|].
  intros r a' (kept & cells' & att & f & ds & Hp & _ & _ & Hs & Hd & _).
  exists ds. split; [done|]. intros d [i Hi]%list_elem_of_lookup.
  destruct (Forall2_lookup_r _ _ _ _ _ Hd Hi) as ([l x] & He & Hsa).
  unfold sent_as in Hsa. subst d.
  pose proof (send_pass_attempted _ _ _ _ _ _ _ _ Hp (list_elem_of_lookup_2 _ _ _ He)) as Hin.
  pose proof (proj1 (Forall_forall _ _) (si_entries _ _ _ _ _ Hinv) _ Hin) as (_ & _ & _ & _ & Hseq).
  exists l, x. split; [done|]. split; [done|].
  intros t b ys cellsb from rest Em Ht Hl Hb Hc Hfrom Hinb Hnew. cbn [fst snd] in *.
  rewrite Em in Hinb |- *. set (t' := codec_with_seq (en_sequence_num x) t).
  assert (codec_wf t') as Ht' by by apply codec_seq_wf.
  assert (zlen (wire t') = zlen (wire t)) as Hl'
    by apply (zlen_msg_seq_wire (en_sequence_num x) (MsgData t) Ht).
  apply (wp_receive_data recv deliver t' b ys cellsb from rest); try done; [by apply receiver_ok_receives|by rewrite Hl'].
Qed.

(** A connected node with a datagram waiting. *)
Definition waiting (d : datagram) : node inbox_of :=
  Node (sample_gossip STATE_CONNECTED)
    (World sample_oracle 10 0 0 [] [(dg_payload d, sample_addr)] []) [].

Lemma waiting_ok d : node_ok (waiting d) [] peer_cells.
Proof.
  destruct (sample_ok STATE_CONNECTED) as [[Hq Hs Hf Ho Hw] Hm Hc Hl Ha Hn Hi].
  exact (NodeOk (waiting d) [] peer_cells (Outbox (waiting d) [] Hq Hs Hf Ho Hw) Hm Hc Hl Ha Hn Hi).
Qed.

Lemma one_datagram :
  exists d, sent (n_world (final pittacus_gossip_process_send sample_sender))
    = sent (n_world sample_sender) ++ [d].
Proof. eexists. vm_compute. reflexivity. Qed.

Lemma data_reaches_receiver_witness : exists d a,
  sent (n_world (final pittacus_gossip_process_send sample_sender))
    = sent (n_world sample_sender) ++ [d] /\ dg_addr d = a /\
  exists s, wp (pittacus_gossip_process_receive sample_receiver) (waiting d) (fun r b' =>
    r = PITTACUS_ERR_NONE /\ connected b' /\ n_context b' = deliver [104; 105; 33] [] /\
    data_taken deliver (codec_with_seq s sample_data) sample_addr [] peer_cells
      (after_recv (waiting d) (dg_payload d) []) b').
Proof.
  destruct sample_sender_inv as (xs & Hinv & _ & Ha & _).
  destruct (wp_final _ _ _ (data_reaches_receiver (Ctx := inbox_of) 16 sample_msgs sample_sender xs
    peer_cells sample_receiver deliver Hinv Ha sample_receiver_ok)) as (r & ds & Hs & Hd).
  destruct one_datagram as [d Hone]. rewrite Hone in Hs. apply app_inv_head in Hs. subst ds.
  destruct (Hd d ltac:(by left)) as (l & x & _ & Ea & Hb).
  exists d, (en_recipient x). split; [exact Hone|]. split; [exact Ea|]. exists (en_sequence_num x).
  assert (zlen (wire sample_data) <= MESSAGE_MAX_SIZE) as Hl by (vm_compute; discriminate).
  assert (zlen sample_addr <= sizeof_sockaddr_storage) as Hf by (vm_compute; discriminate).
  assert (newer_msg vector_clock_init sample_data) as Hn by (vm_compute; reflexivity).
  pose proof (Hb sample_data (waiting d) [] peer_cells sample_addr [] eq_refl sample_data_wf Hl
    (waiting_ok d) eq_refl Hf eq_refl Hn) as Hr.
  refine (wp_mono _ _ _ _ Hr _). intros r' b' (-> & Hcb & Ht).
  exact (conj eq_refl (conj Hcb (conj (proj1 (proj2 Ht)) Ht))).
Defined.
