(* ===== verification/LiveProps.v ===== *)
(** Progress of sending: what is queued goes out in the next pass, and
    passes that are a retry interval apart empty the queue. *)
From S2P Require Import Prelude.
From S2P Require Import Config.
From S2P Require Import Utils.
From S2P Require Import World.
From S2P Require Import Member.
From S2P Require Import VectorClock.
From S2P Require Import Messages.
From S2P Require Import Queue.
From S2P Require Import DataLog.
From S2P Require Import Gossip.
From S2P Require Import Node.
From S2P Require Import MemberSetFacts.
From S2P Require Import QueueFacts.
From S2P Require Import OutboxFacts.
From S2P Require Import EnqueueFacts.
From S2P Require Import BufferFacts.
From S2P Require Import SendFacts.
From S2P Require Import NodeFacts.
From S2P Require Import HandlerFacts.
From S2P Require Import PublicFacts.
From S2P Require Import Samples.
From S2P Require Import SendProps.

(** * One pass *)

(** An envelope that is given up because it was sent as often as allowed. *)
Definition given_up (x : message_envelope_out) : Prop :=
  en_max_attempts x <= en_attempt_num x /\ 1 < en_max_attempts x.

Lemma drop_same_kept addr l x ys :
  (l, x) ∈ ys -> en_recipient x <> addr -> (l, x) ∈ drop_same addr ys.
Proof.
  induction ys as [|[l' y] ys IH]; intros H Hne; [by apply not_elem_of_nil in H|].
  cbn. case_bool_decide as E; [|done].
  apply elem_of_cons in H as [[= -> ->]|H]; [done|by apply IH].
Qed.

(** An envelope with attempts left that is due at every time of the pass is
    attempted, unless an envelope to the same address is given up. *)
Lemma send_pass_due C todo cells kept cells' att f l x :
  send_pass C todo cells kept cells' att f -> f = false -> (l, x) ∈ todo ->
  en_attempt_num x < en_max_attempts x -> (forall t, C t -> due x t) ->
  (l, x) ∈ att \/
  exists l0 y, (l0, y) ∈ todo /\ given_up y /\ en_recipient y = en_recipient x.
Proof.
  induction 1 as [|l1 y todo cells kept cells' att f H1 H2 H IH|l1 y todo cells kept cells' att f H1 H2 H IH
    |l1 y now todo cells kept cells' att f HC H1 H2 H IH|
    |l1 y now todo cells kept cells' att f HC H1 H2 H3 H IH|l1 y now todo cells kept cells' att f HC H1 H2 H3 H IH];
    intros Hf Hin Hlt Hdue; try done; [by apply not_elem_of_nil in Hin|..].
  all: apply elem_of_cons in Hin as [[= -> ->]|Hin].
  all: try lia.
  all: try (left; by left).
  - destruct (IH Hf Hin Hlt Hdue) as [?|(l0 & z & ? & ?)]; [by left|right]. exists l0, z.
    split; [by right|done].
  - destruct (decide (en_recipient x = en_recipient y)) as [E|Hne].
    { right. exists l1, y. split; [by left|]. by split; [split|]. }
    destruct (IH Hf (drop_same_kept _ _ _ _ Hin Hne) Hlt Hdue) as [?|(l0 & z & Hz & ?)];
      [by left|right]. exists l0, z. split; [right; by eapply drop_same_incl|done].
  - exfalso. by apply H2, Hdue.
  - destruct (IH Hf Hin Hlt Hdue) as [?|(l0 & z & ? & ?)]; [by left|right]. exists l0, z.
    split; [by right|done].
  - destruct (IH Hf Hin Hlt Hdue) as [?|(l0 & z & ? & ?)]; [left; by right|right]. exists l0, z.
    split; [by right|done].
  - destruct (IH Hf Hin Hlt Hdue) as [?|(l0 & z & ? & ?)]; [left; by right|right]. exists l0, z.
    split; [by right|done].
Qed.

(** * Passes with pauses *)

(** Every reading of the pass lies in a window, and every envelope of the
    queue was sent an interval before the window or never. *)
Definition rested (lo : Z) (x : message_envelope_out) : Prop :=
  en_attempt_num x = 0 \/ 0 <= en_attempt_ts x /\ en_attempt_ts x + MESSAGE_RETRY_INTERVAL <= lo.

Lemma rested_due lo x now : rested lo x -> lo <= now -> is_u64 now -> due x now.
Proof.
  intros [?|[H0 Hts]] Hlo Hnow; [by left|right]. rewrite u64_id; [lia|].
  unfold MESSAGE_RETRY_INTERVAL in *. word_lia.
Qed.

Lemma rested_le lo lo' x : lo <= lo' -> rested lo x -> rested lo' x.
Proof. intros ? [?|[? ?]]; [by left|right; lia]. Qed.

(** What is kept has one attempt less, made in the window. *)
Lemma send_pass_kept (C : Z -> Prop) lo hi todo cells kept cells' att f :
  send_pass C todo cells kept cells' att f -> f = false ->
  (forall t, C t -> lo <= t <= hi /\ is_u64 t) ->
  Forall (fun e => rested lo (snd e)) todo ->
  Forall (fun e => exists x now, (fst e, x) ∈ todo /\ lo <= now <= hi /\ is_u64 now /\
    en_attempt_num x < en_max_attempts x /\
    snd e = set_attempt now (en_attempt_num x + 1) x) kept.
Proof.
  intros H Hf HC. revert Hf.
  assert (forall e0 todo kept, Forall (fun e : entry => exists x now, (fst e, x) ∈ todo /\ lo <= now <= hi /\
    is_u64 now /\ en_attempt_num x < en_max_attempts x /\
    snd e = set_attempt now (en_attempt_num x + 1) x) kept ->
    Forall (fun e : entry => exists x now, (fst e, x) ∈ e0 :: todo /\ lo <= now <= hi /\ is_u64 now /\
    en_attempt_num x < en_max_attempts x /\ snd e = set_attempt now (en_attempt_num x + 1) x) kept) as Hskip.
  { intros e0 td ks Hk. apply (Forall_impl _ _ _ Hk). intros e (x & now & Hin & ?).
    exists x, now. split; [by right|done]. }
  induction H as [|l1 y todo cells kept cells' att f H1 H2 H IH|l1 y todo cells kept cells' att f H1 H2 H IH
    |l1 y now todo cells kept cells' att f Hnow H1 H2 H IH|
    |l1 y now todo cells kept cells' att f Hnow H1 H2 H3 H IH|l1 y now todo cells kept cells' att f Hnow H1 H2 H3 H IH];
    intros Hf Hr; try done; try constructor; try apply Forall_cons in Hr as [Hy Hr].
  - by apply Hskip, IH.
  - apply (Forall_impl (fun e : entry => exists x now, (fst e, x) ∈ drop_same (en_recipient y) todo /\
      lo <= now <= hi /\ is_u64 now /\ en_attempt_num x < en_max_attempts x /\
      snd e = set_attempt now (en_attempt_num x + 1) x)).
    + apply IH; [done|]. rewrite Forall_forall in Hr |- *. intros e He. apply Hr.
      by eapply drop_same_incl.
    + intros e (x & now & Hin & ?). exists x, now. split; [right; by eapply drop_same_incl|done].
  - exfalso. destruct (HC _ Hnow). apply H2. eapply rested_due; [exact Hy|lia|done].
  - exfalso. destruct (HC _ Hnow). apply H2. eapply rested_due; [exact Hy|lia|done].
  - by apply Hskip, IH.
  - destruct (HC _ Hnow). exists y, now. split; [by left|done].
  - by apply Hskip, IH.
Qed.

Section Rounds.
Context {Ctx : Type}.
Implicit Types n : node Ctx.

(** The environment changes between two calls. *)
Definition with_answers (o : oracle) n : node Ctx :=
  Node (n_self n) (World o (allocs (n_world n)) (time_calls (n_world n)) (random_calls (n_world n))
    (sent (n_world n)) (inbox (n_world n)) (closed (n_world n))) (n_context n).

(** Passes one after the other, each in its own environment. *)
Fixpoint send_rounds (os : list oracle) : M (node Ctx) unit :=
  match os with
  | [] => mret tt
  | o :: os => modifyS (with_answers o);; _ ← pittacus_gossip_process_send; send_rounds os
  end.

(** A host on which nothing fails, with the clock between [lo] and [hi]. *)
Record calm (lo hi : Z) (o : oracle) : Prop := Calm {
  calm_alloc : forall k, alloc_ok o k = true;
  calm_write : forall k, 0 <= sendto o k;
  calm_time : forall k, lo <= time_at o k <= hi
}.

(** From [t] on, rounds that are at least a retry interval apart. *)
Inductive spaced : Z -> list oracle -> Prop :=
| SpacedNil t : spaced t []
| SpacedCons t lo hi o os :
    t <= lo -> calm lo hi o -> spaced (hi + MESSAGE_RETRY_INTERVAL) os -> spaced t (o :: os).

Lemma time_at_u64 o k : is_u64 (time_at o k).
Proof. unfold time_at. destruct (timeofday o k). apply u64_range. Qed.

Lemma send_inv_answers len msgs n xs cells o :
  send_inv len msgs n xs cells -> (forall k, alloc_ok o k = true) ->
  send_inv len msgs (with_answers o n) xs cells.
Proof. intros [[Hq Hs Hf Ho Hoom] Hset Hfam He Hc] Hok. by split; [split|..]. Qed.

Definition attempts_left (x : message_envelope_out) : Z := en_max_attempts x - en_attempt_num x.

Lemma send_round_kept len msgs n xs cells lo hi o :
  send_inv len msgs n xs cells -> is_active (g_state (n_self n)) = true -> calm lo hi o ->
  Forall (fun e => rested lo (snd e)) xs ->
  wp pittacus_gossip_process_send (with_answers o n) (fun r n' =>
    0 <= r /\ is_active (g_state (n_self n')) = true /\
    exists kept cells', send_inv len msgs n' kept cells' /\
      Forall (fun e => rested (hi + MESSAGE_RETRY_INTERVAL) (snd e)) kept /\
      Forall (fun e => exists x, (fst e, x) ∈ xs /\ 0 < attempts_left x /\
                attempts_left (snd e) = attempts_left x - 1) kept).
Proof.
  intros Hinv Ha [Hal Hw Ht] Hr.
  eapply wp_mono; [by apply wp_process_send; [apply send_inv_answers|]|].
  intros r n' (kept & cells' & att & f & ds & Hp & Hinv' & Hfr & _ & _ & Er & Hf).
  assert (f = false) as ->.
  { destruct f; [|done]. destruct (Hf eq_refl) as [k Hk]. specialize (Hw k). cbn in Hk. lia. }
  subst r. split; [pose proof (zlen_nonneg att); lia|]. split; [by rewrite (sf_state _ _ Hfr)|].
  exists kept, cells'. split; [done|].
  assert (forall t, readings (n_world (with_answers o n)) t -> lo <= t <= hi /\ is_u64 t) as HC.
  { intros t (k & _ & ->). split; [apply Ht|apply time_at_u64]. }
  pose proof (send_pass_kept _ lo hi _ _ _ _ _ _ Hp eq_refl HC Hr) as Hk.
  split; apply (Forall_impl _ _ _ Hk); intros e (x & now & Hin & Hnow & Hu & Hlt & E); rewrite E.
  - right. cbn. unfold MESSAGE_RETRY_INTERVAL. word_lia.
  - exists x. split; [done|]. unfold attempts_left. cbn. lia.
Qed.

Lemma send_rounds_drain len msgs os : forall n xs cells t,
  send_inv len msgs n xs cells -> is_active (g_state (n_self n)) = true ->
  spaced t os -> Forall (fun e => rested t (snd e)) xs ->
  Forall (fun e => attempts_left (snd e) < Z.of_nat (length os)) xs -> os <> [] ->
  wp (send_rounds os) n (fun _ n' => exists cells', send_inv len msgs n' [] cells').
Proof.
  induction os as [|o os IH]; intros n xs cells t Hinv Ha Hsp Hr Hl Hne; [done|].
  inversion Hsp as [|t' lo hi o' os' Hlo Hcalm Hsp']; subst. cbn [send_rounds].
  apply wp_bind, wp_modify, wp_bind. eapply wp_mono.
  { eapply (send_round_kept len msgs n xs cells lo hi); try done.
    apply (Forall_impl _ _ _ Hr). intros e. by apply rested_le. }
  intros r n1 (_ & Ha1 & kept & cells1 & Hinv1 & Hr1 & Hk).
  assert (Forall (fun e => attempts_left (snd e) < Z.of_nat (length os)) kept) as Hl1.
  { apply (Forall_impl _ _ _ Hk). intros e (x & Hin & Hp & ->).
    pose proof (proj1 (Forall_forall _ _) Hl _ Hin) as Hx. cbn [length snd] in Hx. lia. }
  destruct os as [|o2 os].
  - apply wp_ret. exists cells1. assert (kept = []) as ->; [|done].
    destruct kept as [|e kept]; [done|]. exfalso. apply Forall_cons in Hk as [(x & Hin & Hp & E) _].
    pose proof (proj1 (Forall_forall _ _) Hl _ Hin) as Hx. cbn in Hx. lia.
  - by eapply (IH n1 kept cells1).
Qed.
End Rounds.

(** * Properties *)

(** C15: Liveness of sending. From any queue in good order, when no allocation
    and no [sendto] fails and nothing is queued meanwhile,
    [MESSAGE_RETRY_ATTEMPTS + 1] calls of [pittacus_gossip_process_send] that
    are at least [MESSAGE_RETRY_INTERVAL] apart leave the queue empty: no
    envelope waits forever, whether it is acknowledged or not. *)
Theorem queue_drains {Ctx} len msgs (n : node Ctx) xs cells t os :
  send_inv len msgs n xs cells -> is_active (g_state (n_self n)) = true ->
  Forall (fun e => en_max_attempts (snd e) <= MESSAGE_RETRY_ATTEMPTS) xs ->
  Forall (fun e => rested t (snd e)) xs ->
  spaced t os -> Z.of_nat (length os) = MESSAGE_RETRY_ATTEMPTS + 1 ->
  wp (send_rounds os) n (fun _ n' => outbox n' [] /\ exists cells', send_inv len msgs n' [] cells').
Proof.
  intros Hinv Ha Hmax Hr Hsp Hos. eapply wp_mono.
  - eapply (send_rounds_drain len msgs os n xs cells t); try done; [|by intros ->].
    pose proof (si_entries _ _ _ _ _ Hinv) as He. rewrite Forall_forall in Hmax, He |- *.
    intros e Hin. specialize (Hmax e Hin). destruct (He e Hin) as (_ & _ & Hn & _).
    unfold attempts_left. lia.
  - intros ? n' [cells' Hinv']. split; [apply Hinv'|by exists cells'].
Qed.

(** A host whose clock stands at [1000 * s] ms. *)
Definition still_oracle (s : Z) : oracle :=
  Oracle (fun _ => true) (fun _ => (s, 0)) Z.of_nat (fun _ => 64)
    (fun _ => 3) (fun _ => 0) (fun _ _ => 0) (fun _ => (0, sample_addr)).

Lemma still_calm s : 0 <= s < 1000000 -> calm (s * 1000) (s * 1000) (still_oracle s).
Proof.
  intros Hs. split; try done. intros k. unfold time_at. cbn. rewrite Z.add_0_r, u64_id by word_lia.
  done.
Qed.

Definition four_rounds : list oracle := still_oracle <$> [2000; 2010; 2020; 2030].

Lemma four_rounds_spaced : spaced 2000000 four_rounds.
Proof.
  unfold four_rounds. cbn [fmap list_fmap].
  repeat (eapply SpacedCons; [|by apply still_calm|]; [done|]). constructor.
Qed.

Lemma queue_drains_witness :
  wp (send_rounds four_rounds) sample_sender (fun _ n' =>
    outbox n' [] /\ exists cells', send_inv 16 sample_msgs n' [] cells').
Proof.
  destruct sample_sender_inv as (xs & Hinv & _ & Ha & _ & Hf).
  assert (Forall (fun e : entry => en_max_attempts (snd e) <= MESSAGE_RETRY_ATTEMPTS) xs) as Hm.
  { apply (Forall_impl _ _ _ Hf). intros e [_ ->]. discriminate. }
  assert (Forall (fun e : entry => rested 2000000 (snd e)) xs) as Hr.
  { apply (Forall_impl _ _ _ Hf). intros e [? _]. by left. }
  exact (queue_drains 16 sample_msgs sample_sender xs peer_cells 2000000 four_rounds Hinv Ha Hm Hr
    four_rounds_spaced eq_refl).
Defined.

(** C17: The next pass sends every message that was not sent yet, and every
    one whose retry time has come: when no [sendto] fails, a datagram with
    the bytes of its message under its number goes to its recipient, unless
    an envelope to the same recipient is given up in this pass. *)
Theorem queued_is_sent {Ctx} len msgs (n : node Ctx) xs cells l x :
  send_inv len msgs n xs cells -> is_active (g_state (n_self n)) = true ->
  ~ write_fails (n_world n) -> (l, x) ∈ xs -> en_attempt_num x < en_max_attempts x ->
  (forall t, readings (n_world n) t -> due x t) ->
  wp pittacus_gossip_process_send n (fun r n' => 0 <= r /\ exists ds,
    sent (n_world n') = sent (n_world n) ++ ds /\
    ((exists d, d ∈ ds /\ sent_as msgs (l, x) d) \/
     exists l0 y, (l0, y) ∈ xs /\ given_up y /\ en_recipient y = en_recipient x)).
Proof.
  intros Hinv Ha Hw Hin Hlt Hdue. eapply wp_mono; [by apply wp_process_send|].
  intros r n' (kept & cells' & att & f & ds & Hp & _ & _ & Hs & Hd & -> & Hf).
  destruct f; [by destruct Hw; apply Hf|]. split; [pose proof (zlen_nonneg att); lia|].
  exists ds. split; [done|].
  destruct (send_pass_due _ _ _ _ _ _ _ l x Hp eq_refl Hin Hlt Hdue) as [Hatt|?]; [left|by right].
  apply list_elem_of_lookup in Hatt as [i Hi].
  destruct (Forall2_lookup_l _ _ _ _ _ Hd Hi) as (d & Hdi & Hsa).
  exists d. split; [by eapply list_elem_of_lookup_2|done].
Qed.

Lemma queued_is_sent_witness :
  exists l x, wp pittacus_gossip_process_send sample_sender (fun r n' => 0 <= r /\ exists ds,
    sent (n_world n') = sent (n_world sample_sender) ++ ds /\
    ((exists d, d ∈ ds /\ sent_as sample_msgs (l, x) d) \/
     exists (l0 : loc) y, given_up y /\ en_recipient y = en_recipient x)).
Proof.
  destruct sample_sender_inv as (xs & Hinv & Hne & Ha & _ & Hf).
  destruct xs as [|[l x] xs]; [exact (False_ind _ (Hne eq_refl))|]. exists l, x.
  apply Forall_cons in Hf as [[Hn Hm] _]. cbn in Hn, Hm.
  assert (~ write_fails (n_world sample_sender)) as Hw.
  { intros [k Hk]. destruct sample_sender_queue as [ys Hq].
    destruct (message_enqueued_ok _ _ _ _ _ _ _ (sample_ok STATE_CONNECTED) Hq) as [_ Hfr].
    rewrite (wle_answers _ _ (ef_world _ _ Hfr)) in Hk. discriminate. }
  assert (en_attempt_num x < en_max_attempts x) as Hlt by lia.
  refine (wp_mono _ _ _ _ (queued_is_sent 16 sample_msgs sample_sender ((l, x) :: xs) peer_cells l x
    Hinv Ha Hw ltac:(by left) Hlt (fun t _ => or_introl Hn)) _).
  intros r n' (Hr & ds & Hs & [Hd|(l0 & y & _ & Hy)]); (split; [exact Hr|]); exists ds; (split; [exact Hs|]).
  - by left.
  - right. by exists l0, y.
Defined.
