(* ===== verification/HealthFacts.v ===== *)
(** The invariant of a node in a cluster: besides the node's own good order,
    all addresses have one length, every queued envelope carries its message,
    and every data message queued or logged is one that somebody has sent.
    How queueing and sending keep it, while output slots are left. *)
From S2P Require Import Prelude.
From S2P Require Import Config.
From S2P Require Import Utils.
From S2P Require Import World.
From S2P Require Import Member.
From S2P Require Import VectorClock.
From S2P Require Import Messages.
From S2P Require Import Queue.
From S2P Require Import DataLog.
From S2P Require Import Gossip.
From S2P Require Import Node.
From S2P Require Import MemberFacts.
From S2P Require Import MemberSetFacts.
From S2P Require Import VectorClockFacts.
From S2P Require Import WireFacts.
From S2P Require Import MessageFacts.
From S2P Require Import DataLogFacts.
From S2P Require Import QueueFacts.
From S2P Require Import OutboxFacts.
From S2P Require Import EnqueueFacts.
From S2P Require Import BufferFacts.
From S2P Require Import CarryFacts.
From S2P Require Import SendFacts.
From S2P Require Import NodeFacts.
From S2P Require Import HandlerFacts.
From S2P Require Import PublicFacts.
From S2P Require Import SendProps.

(** * Lists *)

(** A choice for each location of a queue. *)
Lemma entry_choice {B} (b0 : B) (xs : list entry) (P : loc -> message_envelope_out -> B -> Prop) :
  NoDup xs.*1 -> (forall l x, (l, x) ∈ xs -> exists b, P l x b) ->
  exists f, forall l x, (l, x) ∈ xs -> P l x (f l).
Proof.
  induction xs as [|[l x] xs IH]; intros Hnd HP.
  { exists (fun _ => b0). intros l x Hin. by apply not_elem_of_nil in Hin. }
  apply NoDup_cons in Hnd as [Hl Hnd]. destruct IH as [f Hf]; [done|intros; apply HP; by right|].
  destruct (HP l x) as [b Hb]; [by left|].
  exists (fun k => if decide (k = l) then b else f k). intros k y [[= -> ->]|Hin]%elem_of_cons.
  - by rewrite decide_True.
  - rewrite decide_False; [by apply Hf|]. intros ->. apply Hl.
    exact (list_elem_of_fmap_2 fst _ (l, y) Hin).
Qed.

(** Below [MAX_OUTPUT_MESSAGES] envelopes a slot is free. *)
Lemma slots_left xs :
  zlen xs < MAX_OUTPUT_MESSAGES -> ~ forall j, 0 <= j < MAX_OUTPUT_MESSAGES -> slot_used j xs.
Proof.
  intros Hl Hall. assert (length (seqZ 0 MAX_OUTPUT_MESSAGES) <= length ((slot_of ∘ snd) <$> xs))%nat as H.
  { apply submseteq_length, NoDup_submseteq; [apply NoDup_seqZ|]. intros j Hj%elem_of_seqZ.
    specialize (Hall j ltac:(lia)). apply Exists_exists in Hall as (e & He & <-).
    change (slot_of (snd e)) with ((slot_of ∘ snd) e). by apply list_elem_of_fmap_2. }
  rewrite length_seqZ, length_fmap in H. unfold zlen in Hl. lia.
Qed.

Lemma available_left xs slot xs1 :
  zlen xs < MAX_OUTPUT_MESSAGES -> available xs slot xs1 -> xs1 = xs /\ ~ slot_used slot xs.
Proof. intros Hl [i _ Hf _|i l x Hall _]; [done|]. by destruct (slots_left xs Hl). Qed.

Lemma length_new_envelopes slot size attempts rs : forall seq,
  length (new_envelopes slot size attempts seq rs) = length rs.
Proof. induction rs as [|r rs IH]; intros seq; [done|]. cbn. by rewrite IH. Qed.

Section Health.
Context {Ctx : Type}.
Implicit Types n : node Ctx.

(** The length of the addresses of the cluster, and what was sent: the
    originator, the number and the payload. *)
Context (len : Z) (said : Z -> Z -> list Z -> Prop).

(** * Messages *)

Definition legit (m : message) : Prop :=
  match m with
  | MsgHello t => cm_address_len (hello_this_member t) = len
  | MsgWelcome t => cm_address_len (welcome_this_member t) = len
  | MsgMemberList t => Forall (fun m => cm_address_len m = len) (ml_members t)
  | MsgData t => said (vr_member_id (data_data_version t)) (vr_sequence_number (data_data_version t))
                   (payload t)
  | MsgAck _ | MsgStatus _ => True
  end.

Lemma legit_seq s m : legit m -> legit (msg_with_seq s m).
Proof. by destruct m. Qed.

(** A datagram of the cluster: the bytes of such a message. *)
Definition sound (bytes : list Z) (m : message) : Prop :=
  bytes = msg_wire m /\ msg_wf m /\ zlen (msg_wire m) <= MESSAGE_MAX_SIZE /\ legit m.

(** The envelope carries such a message. *)
Definition carried (out : list Z) (x : message_envelope_out) (m0 : message) : Prop :=
  msg_wf m0 /\ legit m0 /\ exists m, carries out x m /\ renumbering m m0.

(** A recipient of the cluster. *)
Definition recipient_in (r : recipient) : Prop := snd r = len /\ recipient_ok r.

(** The log holds only what was said. *)
Definition log_legit (log : data_log) : Prop :=
  Forall (fun e => zlen (le_payload e) <= MAX_PAYLOAD /\
    said (le_id e) (le_seq e) (le_payload e)) (log_view log).

(** * The invariant *)

Record healthy n (xs : list entry) (cells : list member_cell) : Prop := Healthy {
  he_ok : node_ok n xs cells;
  he_self : cm_address_len (g_self_address (n_self n)) = len;
  he_family : Forall (fun c => cm_address_len (cell_member c) = len) cells;
  he_entries : Forall (fun e => entry_ok len (snd e)) xs;
  he_carried : forall l x, (l, x) ∈ xs -> exists m0, carried (g_output_buffer (n_self n)) x m0;
  he_log : log_legit (g_data_log (n_self n))
}.

Lemma healthy_len n xs cells : healthy n xs cells -> 16 <= len <= sizeof_sockaddr_storage.
Proof. intros [Hok <- _ _ _ _]. by destruct (no_address _ _ _ Hok) as (_ & ? & _). Qed.

(** Changes that queue nothing. *)
Lemma healthy_move n n' xs xs' cells cells' :
  healthy n xs cells -> node_ok n' xs' cells' -> (forall e, e ∈ xs' -> e ∈ xs) ->
  g_output_buffer (n_self n') = g_output_buffer (n_self n) ->
  g_self_address (n_self n') = g_self_address (n_self n) ->
  Forall (fun c => cm_address_len (cell_member c) = len) cells' ->
  log_legit (g_data_log (n_self n')) -> healthy n' xs' cells'.
Proof.
  intros [_ Hs _ He Hc _] Hok Hin Eo Ea Hf Hl. split; try done; [by rewrite Ea| |].
  - rewrite Forall_forall in He |- *. auto.
  - rewrite Eo. eauto.
Qed.

(** * Queueing *)

Lemma new_envelopes_ok slot size attempts rs : forall seq x,
  Forall recipient_in rs -> is_u32 seq -> 0 <= attempts < 2 ^ 16 ->
  x ∈ new_envelopes slot size attempts seq rs -> entry_ok len x.
Proof.
  induction rs as [|r rs IH]; intros seq x Hr Hseq Ha Hx; cbn in Hx; [by apply not_elem_of_nil in Hx|].
  apply Forall_cons in Hr as [[Hlen [Hb _]] Hr]. apply elem_of_cons in Hx as [->|Hx].
  - unfold entry_ok. cbn. rewrite zlen_ztake by lia. split_and!; try done; try lia; apply u32_range.
  - by eapply IH; [| |done|exact Hx]; [|apply u32_range].
Qed.

Lemma healthy_message m rs n xs n' xs' cells :
  healthy n xs cells -> message_enqueued m rs n xs n' xs' -> legit m -> Forall recipient_in rs ->
  zlen xs < MAX_OUTPUT_MESSAGES ->
  healthy n' xs' cells /\ zlen xs' = zlen xs + zlen rs.
Proof.
  intros Hh Hm Hleg Hr Hl. pose proof Hh as [Hok Hself Hfam He Hc Hlog].
  destruct (message_enqueued_ok _ _ _ _ _ _ _ Hok Hm) as [Hok' Hf].
  destruct Hm as (slot & xs1 & news & Hav & -> & Hob' & En & _ & Hout & _ & Hwf & Hneed).
  destruct (available_left _ _ _ Hl Hav) as [-> Hfree].
  pose proof (no_outbox _ _ _ Hok) as Hob. pose proof (ob_out _ _ Hob) as Ho.
  pose proof (available_range _ _ _ (ob_slots _ _ Hob) Hav) as Hrange.
  pose proof (msg_need_wire m Hwf) as Hlw.
  assert (forall l x, (l, x) ∈ news -> x ∈ news.*2) as Hn2.
  { intros l x Hin. change x with (snd (l, x)). by apply list_elem_of_fmap_2. }
  split; [split|].
  - exact Hok'.
  - by rewrite (ef_address _ _ Hf).
  - done.
  - apply Forall_app. split; [done|]. apply Forall_forall. intros [l x] Hin.
    apply Hn2 in Hin. rewrite En in Hin. eapply new_envelopes_ok; [exact Hr| | |exact Hin].
    + apply (no_seq _ _ _ Hok).
    + by destruct m.
  - intros l x [Hin|Hin]%elem_of_app; rewrite Hout.
    + destruct (Hc l x Hin) as (m0 & Hw0 & Hl0 & m1 & Hc1 & Hr1). exists m0. split; [done|].
      split; [done|]. exists m1. split; [|done].
      apply carries_put_other; try done; [config_lia| |].
      * apply (proj1 (Forall_forall _ _) (ob_slots _ _ Hob) _ Hin).
      * intros E. apply Hfree, Exists_exists. by exists (l, x).
    + apply Hn2 in Hin. rewrite En in Hin. apply new_envelopes_elem in Hin as (Eb & _ & Es).
      exists m. split; [done|]. split; [done|]. exists m. split; [|done].
      apply carries_put; try done. lia.
  - by rewrite (ef_log _ _ Hf).
  - rewrite zlen_app. f_equal. unfold zlen.
    by rewrite <- (length_fmap snd news), En, length_new_envelopes.
Qed.

(** Envelopes that a list of messages needs. *)
Fixpoint demand (ms : list (message * list recipient)) : Z :=
  match ms with [] => 0 | (_, rs) :: ms => zlen rs + demand ms end.

Lemma demand_nonneg ms : 0 <= demand ms.
Proof. induction ms as [|[m rs] ms IH]; cbn; [done|]. pose proof (zlen_nonneg rs). lia. Qed.

Lemma demand_app ms ms' : demand (ms ++ ms') = demand ms + demand ms'.
Proof. induction ms as [|[m rs] ms IH]; cbn; [done|]. rewrite IH. lia. Qed.

Definition messages_legit (ms : list (message * list recipient)) : Prop :=
  Forall (fun m => legit (fst m) /\ Forall recipient_in (snd m)) ms.

Lemma healthy_messages ms n xs n' xs' cells :
  messages_enqueued ms n xs n' xs' -> healthy n xs cells -> messages_legit ms ->
  zlen xs + demand ms < MAX_OUTPUT_MESSAGES ->
  healthy n' xs' cells /\ zlen xs' = zlen xs + demand ms.
Proof.
  intros Hms. induction Hms as [n xs|m rs ms n xs n1 xs1 n2 xs2 Hm _ IH|ms n xs n1 n2 xs2 E Hf _ IH];
    intros Hh Hleg Hd.
  - split; [done|]. cbn. lia.
  - apply Forall_cons in Hleg as [[Hl Hr] Hleg]. cbn [demand] in Hd. pose proof (demand_nonneg ms). pose proof (zlen_nonneg rs).
    destruct (healthy_message m rs n xs n1 xs1 cells Hh Hm Hl Hr) as [Hh1 Hz]; [lia|].
    destruct (IH Hh1 Hleg) as [Hh2 Hz2]; [lia|]. split; [done|].
    cbn [demand]. lia.
  - apply IH; [|done|done]. destruct Hh as [Hok Hself Hfam He Hc Hlog].
    split; rewrite ?E; try done. by apply (node_ok_alloc n).
Qed.

(** * Sending *)

(** What is kept was queued. *)
Lemma send_pass_locs C todo cells kept cells' att f :
  send_pass C todo cells kept cells' att f ->
  forall l x, (l, x) ∈ kept -> exists y, (l, y) ∈ todo.
Proof.
  induction 1 as [|l1 y todo cells kept cells' att f H1 H2 H IH|l1 y todo cells kept cells' att f H1 H2 H IH
    |l1 y now todo cells kept cells' att f HC H1 H2 H IH|l1 y now todo cells HC H1 H2
    |l1 y now todo cells kept cells' att f HC H1 H2 H3 H IH|l1 y now todo cells kept cells' att f HC H1 H2 H3 H IH];
    intros l x Hin.
  - by apply not_elem_of_nil in Hin.
  - destruct (IH l x Hin) as [z ?]. exists z. by right.
  - destruct (IH l x Hin) as [z Hz]. exists z. right. by eapply drop_same_incl.
  - apply elem_of_cons in Hin as [[= -> ->]|Hin]; [exists y; by left|].
    destruct (IH l x Hin) as [z ?]. exists z. by right.
  - by exists x.
  - destruct (IH l x Hin) as [z ?]. exists z. by right.
  - apply elem_of_cons in Hin as [[= -> _]|Hin]; [exists y; by left|].
    destruct (IH l x Hin) as [z ?]. exists z. by right.
Qed.

Lemma send_pass_length C todo cells kept cells' att f :
  send_pass C todo cells kept cells' att f -> zlen kept <= zlen todo.
Proof.
  induction 1; rewrite ?zlen_cons; try lia.
  match goal with H : zlen _ <= zlen (drop_same ?a ?ys) |- _ =>
    pose proof (drop_same_length a ys); unfold zlen in *; lia end.
Qed.

(** A healthy node can send; it stays healthy and its datagrams are sound. *)
Lemma healthy_send n xs cells :
  healthy n xs cells -> is_active (g_state (n_self n)) = true ->
  wp pittacus_gossip_process_send n (fun r n' => exists kept cells' ds,
    healthy n' kept cells' /\ zlen kept <= zlen xs /\ send_frame n n' /\
    sent (n_world n') = sent (n_world n) ++ ds /\
    Forall (fun d => exists m, sound (dg_payload d) m) ds).
Proof.
  intros Hh Ha. pose proof Hh as [Hok Hself Hfam He Hc Hlog].
  pose proof (healthy_len _ _ _ Hh) as Hlen. pose proof (no_outbox _ _ _ Hok) as Hob.
  destruct (entry_choice (MsgAck (MessageAck (message_header_init 4 0) 0)) xs
    (fun _ x m0 => carried (g_output_buffer (n_self n)) x m0) (qr_nodup _ _ (ob_queue _ _ Hob)) Hc)
    as [msgs Hmsgs].
  assert (send_inv len msgs n xs cells) as Hinv.
  { split; try done; [by destruct (no_members _ _ _ Hok)|].
    intros l x Hin. by destruct (Hmsgs l x Hin) as (_ & _ & ?). }
  eapply wp_mono; [by apply wp_process_send|].
  intros r n' (kept & cells' & att & f & ds & Hp & Hinv' & Hfr & Hs & Hd & _ & _).
  rewrite app_nil_l in Hinv'. destruct Hinv' as [Hob' Hset' Hfam' He' Hc'].
  exists kept, cells', ds. split; [|split; [by eapply send_pass_length|split; [done|split; [done|]]]].
  - split; try done.
    + destruct Hok as [_ _ Hck Hlg Had Hsq Hin].
      split; rewrite ?(sf_version _ _ Hfr), ?(sf_log _ _ Hfr), ?(sf_address _ _ Hfr),
        ?(sf_seq _ _ Hfr), ?(sf_input _ _ Hfr); try done.
      split; [done|]. unfold set_members_of. apply Forall_fmap, (Forall_impl _ _ _ Hfam').
      cbn. intros c ->. lia.
    + by rewrite (sf_address _ _ Hfr).
    + intros l x Hin. destruct (send_pass_locs _ _ _ _ _ _ _ Hp l x Hin) as [y Hy].
      destruct (Hmsgs l y Hy) as (Hw & Hl & _). exists (msgs l). split; [done|]. split; [done|].
      by apply Hc'.
    + by rewrite (sf_log _ _ Hfr).
  - apply Forall_forall. intros d [i Hi]%list_elem_of_lookup.
    destruct (Forall2_lookup_r _ _ _ _ _ Hd Hi) as ([l x] & Hatt & Hsa).
    unfold sent_as in Hsa. subst d.
    pose proof (send_pass_attempted _ _ _ _ _ _ _ _ Hp (list_elem_of_lookup_2 _ _ _ Hatt)) as Hin.
    destruct (Hmsgs l x Hin) as (Hw & Hl & m & (Hmw & _ & Hml & _) & Hren).
    pose proof (proj1 (Forall_forall _ _) He _ Hin) as (_ & _ & _ & _ & Hseq). cbn in Hseq.
    exists (msg_with_seq (en_sequence_num x) (msgs l)).
    split; [done|].
    split; [by apply msg_seq_wf|]. split; [|by apply legit_seq].
    rewrite <- (Hren (en_sequence_num x)). by rewrite zlen_msg_seq_wire.
Qed.
End Health.
