(* ===== verification/ClusterFacts.v ===== *)
(** What the calls of the library do to a healthy node of a cluster, and what
    a healthy node makes of the datagrams of the cluster. *)
From S2P Require Import Prelude.
From S2P Require Import Config.
From S2P Require Import Utils.
From S2P Require Import World.
From S2P Require Import Member.
From S2P Require Import VectorClock.
From S2P Require Import Messages.
From S2P Require Import Queue.
From S2P Require Import DataLog.
From S2P Require Import Gossip.
From S2P Require Import Node.
From S2P Require Import MemberFacts.
From S2P Require Import MemberSetFacts.
From S2P Require Import VectorClockFacts.
From S2P Require Import WireFacts.
From S2P Require Import MessageFacts.
From S2P Require Import DataLogFacts.
From S2P Require Import QueueFacts.
From S2P Require Import OutboxFacts.
From S2P Require Import EnqueueFacts.
From S2P Require Import SendFacts.
From S2P Require Import NodeFacts.
From S2P Require Import HandlerFacts.
From S2P Require Import PublicFacts.
From S2P Require Import HealthFacts.

(** * Recipients and replies *)

Lemma chunks_elem {A} fuel k : forall (l : list A) c x, c ∈ chunks fuel k l -> x ∈ c -> x ∈ l.
Proof.
  induction fuel as [|fuel IH]; intros [|y l] c x Hc Hx; cbn in Hc; try by apply not_elem_of_nil in Hc.
  apply elem_of_cons in Hc as [->|Hc]; [by eapply subseteq_take|].
  apply (IH _ c x Hc) in Hx. by eapply subseteq_drop.
Qed.

Lemma chunks_length {A} fuel k : forall l : list A, (length (chunks fuel k l) <= fuel)%nat.
Proof.
  induction fuel as [|fuel IH]; intros [|y l]; cbn; try lia. specialize (IH (drop k (y :: l))). lia.
Qed.

Lemma demand_fmap {A} (f : A -> message) (l : list A) (r : recipient) :
  demand ((fun a => (f a, [r])) <$> l) = zlen l.
Proof.
  induction l as [|a l IH]; [done|]. rewrite fmap_cons. cbn [demand].
  rewrite IH, !zlen_cons, zlen_nil. lia.
Qed.

Lemma message_enqueued_frame {Ctx} m rs (n : node Ctx) xs n' xs' :
  message_enqueued m rs n xs n' xs' -> enq_frame n n'.
Proof. by intros (? & ? & ? & _ & _ & _ & _ & _ & _ & ? & _). Qed.

Lemma zlen_recipients cells : zlen (recipient_of <$> set_members_of cells) = zlen cells.
Proof. unfold zlen, set_members_of. by rewrite !length_fmap. Qed.

Lemma log_put_legit said log log' cur e :
  log_legit said log -> log_view log' = log_put cur (log_view log) e ->
  zlen (le_payload e) <= MAX_PAYLOAD /\ said (le_id e) (le_seq e) (le_payload e) ->
  log_legit said log'.
Proof.
  intros Hl E He. unfold log_legit in *. rewrite E. unfold log_put.
  destruct (list_find _ _) as [[i x]|]; [by apply Forall_insert|].
  case_bool_decide; [|by apply Forall_insert]. apply Forall_app. split; [done|by apply Forall_singleton].
Qed.

Section Cluster.
Context {Ctx : Type} (len : Z) (said : Z -> Z -> list Z -> Prop).
Implicit Types n : node Ctx.
Local Abbreviation healthy := (healthy (Ctx := Ctx) len said).
Local Abbreviation legit := (legit len said).
Local Abbreviation recipient_in := (recipient_in len).
Local Abbreviation messages_legit := (messages_legit len said).

Lemma member_recipient n xs cells m :
  healthy n xs cells -> m ∈ set_members_of cells -> recipient_in (recipient_of m).
Proof.
  intros Hh Hm. apply list_elem_of_fmap in Hm as (c & -> & Hc). split.
  - apply (proj1 (Forall_forall _ _) (he_family _ _ _ _ _ Hh) c Hc).
  - apply (proj1 (Forall_forall _ _) (members_recipients n cells (no_members _ _ _ (he_ok _ _ _ _ _ Hh))) c Hc).
Qed.

Lemma broadcast_in n xs cells :
  healthy n xs cells -> Forall recipient_in (recipient_of <$> set_members_of cells).
Proof.
  intros Hh. apply Forall_fmap, Forall_forall. intros m Hm. by eapply member_recipient.
Qed.

Lemma random_in n xs cells rs :
  healthy n xs cells -> spread_to cells None 0 GOSSIP_RANDOM rs -> Forall recipient_in rs /\ zlen rs <= 3.
Proof.
  intros Hh (r & Hs & Hl & ->). split.
  - apply Forall_fmap, Forall_forall. intros m (c & -> & Hc)%list_elem_of_fmap.
    eapply member_recipient; [exact Hh|]. apply list_elem_of_fmap_2. by eapply sample_of_elem.
  - unfold zlen, set_members_of in *. rewrite !length_fmap. change MESSAGE_RUMOR_FACTOR with 3 in Hl. lia.
Qed.

Lemma from_in n xs cells from :
  healthy n xs cells -> zlen from = len -> recipient_in (from, zlen from).
Proof.
  intros Hh Hf. pose proof (healthy_len _ _ _ _ _ Hh). split; [done|]. split; cbn [fst snd]; lia.
Qed.

Lemma family_members n xs cells :
  healthy n xs cells -> Forall (fun m => cm_address_len m = len) (set_members_of cells).
Proof. intros Hh. apply Forall_fmap, (he_family _ _ _ _ _ Hh). Qed.

Lemma family_cells cells' (ms : list cluster_member) :
  set_members_of cells' = ms -> Forall (fun m => cm_address_len m = len) ms ->
  Forall (fun c => cm_address_len (cell_member c) = len) cells'.
Proof. intros <-. unfold set_members_of. by rewrite Forall_fmap. Qed.

Lemma member_lists_legit n xs cells k from :
  healthy n xs cells -> zlen from = len ->
  messages_legit (member_lists k (set_members_of cells) from (zlen from)) /\
  demand (member_lists k (set_members_of cells) from (zlen from)) <= zlen cells.
Proof.
  intros Hh Hf. unfold member_lists. split.
  - apply Forall_fmap, Forall_forall. intros c Hc. split.
    + cbn. apply Forall_forall. intros m Hm.
      apply (proj1 (Forall_forall _ _) (family_members _ _ _ Hh)). by eapply chunks_elem.
    + apply Forall_singleton. by eapply from_in.
  - rewrite (demand_fmap list_of). pose proof (chunks_length (length (set_members_of cells)) k (set_members_of cells)).
    unfold zlen, set_members_of in *. rewrite length_fmap in *. lia.
Qed.

Lemma log_sendable_legit log : log_wf log -> log_legit said log -> log_sendable log.
Proof.
  intros Hw Hl. unfold log_legit, log_view in Hl. rewrite Forall_fmap in Hl.
  apply Forall_forall. intros r Hr. pose proof (proj1 (Forall_forall _ _) Hl r Hr) as [Hz _].
  cbn in Hz. destruct (proj1 (Forall_forall _ _) (lw_live _ Hw) r Hr) as [_ Hn].
  apply list_elem_of_lookup in Hr as [k Hk].
  pose proof (Forall_lookup_1 _ _ _ _ (lw_room _ Hw) (live_log_lookup _ _ _ Hk)) as Hroom. cbn in Hroom.
  by rewrite zlen_ztake in Hz by lia.
Qed.

Lemma log_replies_legit n xs cells known from :
  healthy n xs cells -> zlen from = len ->
  let ms := log_replies known (live_log (g_data_log (n_self n))) from (zlen from) in
  messages_legit ms /\ demand ms <= 25.
Proof.
  intros Hh Hf. cbv zeta. unfold log_replies. pose proof (he_log _ _ _ _ _ Hh) as Hl.
  unfold log_legit, log_view in Hl. rewrite Forall_fmap, Forall_forall in Hl. split.
  - apply Forall_fmap, Forall_forall. intros r Hr%list_elem_of_filter. destruct Hr as [_ Hr].
    split; [|apply Forall_singleton; by eapply from_in]. apply (Hl r Hr).
  - rewrite (demand_fmap log_reply). pose proof (no_log _ _ _ (he_ok _ _ _ _ _ Hh)) as Hw.
    pose proof (length_live_log _ Hw) as Hll. pose proof (lw_size _ Hw) as Hsz.
    pose proof (length_filter (unseen known) (live_log (g_data_log (n_self n)))) as Hfl.
    unfold zlen. change DATA_LOG_SIZE with 25 in Hsz. lia.
Qed.

Lemma status_replies_legit n xs cells known c' from :
  healthy n xs cells -> zlen from = len ->
  messages_legit (status_replies n known c' from (zlen from)) /\
  0 <= demand (status_replies n known c' from (zlen from)) <= 26.
Proof.
  intros Hh Hf. destruct (log_replies_legit n xs cells known from Hh Hf) as [Hl Hd].
  pose proof (demand_nonneg (log_replies known (live_log (g_data_log (n_self n))) from (zlen from))) as Hnn.
  assert (messages_legit [(status_of c', [(from, zlen from)])]) as Hs.
  { apply Forall_singleton. split; [done|]. apply Forall_singleton. by eapply from_in. }
  assert (demand [(status_of c', [(from, zlen from)])] = 1) as H1 by done.
  unfold status_replies. destruct (compare_maps _ _).
  - split; [done|lia].
  - split; [done|lia].
  - split; [constructor|done].
  - split; [by apply Forall_app|]. rewrite demand_app. lia.
Qed.

Lemma list_len_eqv ms ms' :
  Forall2 member_eqv ms ms' -> Forall (fun m => cm_address_len m = len) ms' ->
  Forall (fun m => cm_address_len m = len) ms.
Proof.
  induction 1 as [|m m' ms ms' (_ & _ & E & _) _ IH]; intros Hf; [constructor|].
  apply Forall_cons in Hf as [Hm Hf]. constructor; [congruence|by apply IH].
Qed.

(** A node whose members were replaced by those of a node in good order. *)
Lemma put_members_ok n s w n' xs xs' cells cells' :
  node_ok n xs cells -> world_le (n_world n) w -> g_members (n_self n') = s ->
  node_ok n' xs' cells' -> node_ok (Node (set_members s (n_self n)) w (n_context n)) xs cells'.
Proof.
  intros [Hob _ Hc Hl Ha Hs Hi] Hle <- Hok'. split; try done; [|apply Hok'].
  apply (outbox_update n _ xs); try apply Hob; try done.
  eapply (fresh_le n); [done|apply Hob].
Qed.

(** * Receiving *)

Context (data_receiver : option (list Z -> Z -> M (node Ctx) unit)) (deliver : list Z -> Ctx -> Ctx).
Hypothesis Hreceiver : forall i c p, said i c p -> receives data_receiver deliver p.

(** A healthy node with at most [k] envelopes. *)
Definition healthy_within (k : Z) n : Prop :=
  exists xs cells, healthy n xs cells /\ zlen xs <= k.

(** What became of a healthy node that received [m]: a reply is at most a
    list of the members, the data log and a status, and every member may be
    told of a new one. *)
Definition received_well n (k : Z) (m : message) n' : Prop :=
  healthy_within k n' /\ sent (n_world n') = sent (n_world n) /\
  (n_context n' = n_context n \/
   exists t, m = MsgData t /\ n_context n' = deliver (payload t) (n_context n)).

(** Slots that a reception may need. *)
Definition spacious (xs : list entry) (cells : list member_cell) : Prop :=
  zlen xs + 2 * zlen cells + 30 < MAX_OUTPUT_MESSAGES.

Lemma spacious_room xs cells k : spacious xs cells -> k <= 65535 -> room_for cells k.
Proof. unfold spacious, room_for. pose proof (zlen_nonneg xs). config_lia. Qed.

Lemma when_connected (k : M (node Ctx) Z) n b m xs cells :
  healthy n xs cells -> zlen xs <= b ->
  (connected n -> wp (return_if_not_connected k) n (fun _ n' => received_well n b m n')) ->
  wp (return_if_not_connected k) n (fun _ n' => received_well n b m n').
Proof.
  intros Hh Hb Hk. destruct (decide (g_state (n_self n) = STATE_CONNECTED)) as [Hc|Hc]; [by apply Hk|].
  apply wp_not_connected; [done|]. split; [by exists xs, cells|]. split; [done|by left].
Qed.

Section Handler.
Context n (xs : list entry) (cells : list member_cell) (e : message_envelope_in).
Context (Hh : healthy n xs cells) (Hsp : spacious xs cells).
Context (Hlen : ei_sender_len e = zlen (ei_sender e)) (Hfrom : zlen (ei_sender e) = len).

Let Hok := he_ok _ _ _ _ _ Hh.
Local Abbreviation k := (zlen xs + 2 * zlen cells + 27).

Lemma spacious_bounds : 0 <= zlen xs /\ 0 <= zlen cells /\ zlen xs + 2 * zlen cells + 30 < MAX_OUTPUT_MESSAGES.
Proof. split; [apply zlen_nonneg|]. split; [apply zlen_nonneg|exact Hsp]. Qed.

Lemma reply_in : recipient_in (ei_sender e, ei_sender_len e).
Proof. rewrite Hlen. by eapply from_in. Qed.

Lemma well_ack (t : message_ack) :
  connected n -> carries_in e t ->
  wp (gossip_handle_ack e) n (fun _ n' => received_well n k (MsgAck t) n').
Proof.
  intros Hc Ht. eapply wp_mono; [by eapply wp_handle_ack|].
  intros r n' (_ & [q ->] & Hok'). split; [|split; [done|by left]].
  pose proof spacious_bounds as (Hx & Hcl & Hb). exists (remove_seq (ack_ack_sequence_num t) xs), cells.
  split; [|etrans; [apply remove_seq_length|lia]].
  eapply (healthy_move len said n); [exact Hh|exact Hok'|apply remove_seq_incl|done|done|..].
  - apply (he_family _ _ _ _ _ Hh).
  - apply (he_log _ _ _ _ _ Hh).
Qed.

Lemma well_status (t : message_status) :
  connected n -> carries_in e t ->
  wp (gossip_handle_status e) n (fun _ n' => received_well n k (MsgStatus t) n').
Proof.
  intros Hc Ht. pose proof spacious_bounds as (Hx & Hcl & Hb). eapply wp_mono.
  { eapply wp_handle_status; [exact Hok|done|exact Ht|].
    apply log_sendable_legit; [apply Hok|apply Hh]. }
  intros r n' (_ & xs' & c' & _ & Hms & _ & Hf). rewrite Hlen in Hms.
  destruct (status_replies_legit n xs cells (clock_map (status_data_version t)) c' (ei_sender e) Hh Hfrom)
    as [Hleg Hd].
  destruct (healthy_messages len said _ _ _ _ _ _ Hms Hh) as [Hh' Hz].
  - apply Forall_cons. split; [|done]. split; [done|]. apply Forall_singleton. rewrite <- Hlen. apply reply_in.
  - cbn [demand]. rewrite zlen_cons, zlen_nil. config_lia.
  - cbn [demand] in Hz. rewrite zlen_cons, zlen_nil in Hz.
    split; [eexists _, cells; split; [exact Hh'|lia]|]. split; [apply (ef_sent _ _ Hf)|left; apply (ef_context _ _ Hf)].
Qed.

Lemma well_data (t : message_data) :
  connected n -> carries_in e t -> legit (MsgData t) ->
  wp (gossip_handle_data data_receiver e) n (fun _ n' => received_well n k (MsgData t) n').
Proof.
  intros Hc Ht Hleg. pose proof spacious_bounds as (Hx & Hcl & Hb). eapply wp_mono.
  { eapply wp_handle_data; [exact Hok|done|exact Ht|by eapply Hreceiver]. }
  intros r n' (_ & _ & Hs & n1 & xs1 & Hm1 & Hcase).
  destruct (healthy_message len said _ _ _ _ _ _ _ Hh Hm1) as [Hh1 Hz1]; [done| |config_lia|].
  { apply Forall_singleton, reply_in. }
  rewrite zlen_cons, zlen_nil in Hz1.
  destruct (message_enqueued_ok _ _ _ _ _ _ _ Hok Hm1) as [_ Hf1].
  case_bool_decide as Hnew.
  2:{ destruct Hcase as [_ ->]. split; [eexists _, cells; split; [exact Hh1|lia]|]. split; [done|].
      left. apply (ef_context _ _ Hf1). }
  destruct Hcase as ([_ Hlog] & Hctx & t' & n2 & rs & xs2 & (_ & Ev & Es & Ep) & Hrs & (v & l & ->) & Hm2 & Hok').
  destruct (random_in _ _ _ _ Hh Hrs) as [Hin Hrl].
  destruct Ht as (Hwf & Hwl & _). pose proof (zlen_payload t Hwf) as Hpl.
  assert (data_data_size t <= MAX_PAYLOAD) as Hmax.
  { rewrite zlen_wire_data in Hwl by done. unfold MAX_PAYLOAD. config_lia. }
  pose proof (message_enqueued_frame _ _ _ _ _ _ Hm2) as Hf2.
  assert (log_legit said (g_data_log (n_self n'))) as Hlog'.
  { apply (log_put_legit said _ _ _ _ (he_log _ _ _ _ _ Hh) Hlog). split; [cbn; lia|exact Hleg]. }
  rewrite (ef_log _ _ Hf2) in Hlog'. cbn in Hlog'.
  pose proof (no_clock _ _ _ Hok') as Hv. pose proof (no_log _ _ _ Hok') as Hl.
  rewrite (ef_version _ _ Hf2) in Hv. rewrite (ef_log _ _ Hf2) in Hl. cbn in Hv, Hl.
  set (n2 := Node _ _ _) in *.
  assert (healthy n2 xs1 cells) as Hh2.
  { eapply (healthy_move len said n1); [exact Hh1| |done|done|done|apply Hh|done].
    apply (node_ok_context (Node (n_self n2) (n_world n1) (n_context n1))).
    apply (node_ok_log (Node (set_data_version v (n_self n1)) (n_world n1) (n_context n1))); [|done].
    apply node_ok_version; [apply Hh1|done]. }
  destruct (healthy_message len said _ _ _ _ _ _ _ Hh2 Hm2) as [Hh' Hz2]; [|done|config_lia|].
  { cbn. unfold legit, HealthFacts.legit in Hleg. by rewrite Ev, Ep. }
  split; [eexists _, cells; split; [exact Hh'|lia]|]. split; [done|]. right. by exists t.
Qed.

Lemma well_member_list (t : message_member_list) :
  connected n -> carries_in e t -> legit (MsgMemberList t) ->
  wp (gossip_handle_member_list e) n (fun _ n' => received_well n k (MsgMemberList t) n').
Proof.
  intros Hc Ht Hleg. pose proof spacious_bounds as (Hx & Hcl & Hb).
  assert (zlen (ml_members t) <= 65535) as Hmem.
  { destruct Ht as ((_ & _ & <- & Hn & _) & _). word_lia. }
  eapply wp_mono.
  { eapply wp_handle_member_list; [exact Hok|done|exact Ht|]. by eapply spacious_room. }
  intros r n' (_ & _ & cells' & n1 & xs' & ms & Hms & Hput & Hm & Hok' & Hs & Hctx &
    (s & w & -> & Hle & Hsent & _)).
  pose proof (message_enqueued_frame _ _ _ _ _ _ Hm) as Hf.
  assert (Forall (fun c => cm_address_len (cell_member c) = len) cells') as Hfam.
  { eapply family_cells; [exact Hput|]. apply (put_all_length _ _ (fun z => z = len));
      [by eapply family_members|]. eapply list_len_eqv; [exact Hms|exact Hleg]. }
  destruct (healthy_message len said (ack_of (mh_sequence_num (ml_header t)))
    [(ei_sender e, ei_sender_len e)] (Node (set_members s (n_self n)) w (n_context n)) xs n' xs' cells')
    as [Hh' Hz]; [|done|done|apply Forall_singleton, reply_in|config_lia|].
  { eapply (healthy_move len said n); [exact Hh| |done|done|done|exact Hfam|apply Hh].
    eapply put_members_ok; [exact Hok|done|apply (ef_members _ _ Hf)|exact Hok']. }
  rewrite zlen_cons, zlen_nil in Hz.
  split; [eexists _, cells'; split; [exact Hh'|lia]|]. split; [done|by left].
Qed.

Lemma well_hello (t : message_hello) :
  connected n -> carries_in e t -> legit (MsgHello t) ->
  wp (gossip_handle_hello e) n (fun _ n' => received_well n k (MsgHello t) n').
Proof.
  intros Hc Ht Hleg. pose proof spacious_bounds as (Hx & Hcl & Hb).
  pose proof (healthy_len _ _ _ _ _ Hh) as Hll. eapply wp_mono.
  { eapply wp_handle_hello; [exact Hok|done|exact Ht|by eapply spacious_room; [exact Hsp|]|].
    cbn in Hleg. lia. }
  intros r n' (_ & _ & m & n2 & xs' & cells' & Hm & Hms & Hput & Hok' & Hs & Hctx & (s & w & -> & _)).
  rewrite Hlen in Hms.
  assert (cm_address_len m = len) as Hml by (destruct Hm as (_ & _ & -> & _); exact Hleg).
  destruct (member_lists_legit n xs cells (Z.to_nat (Z.min MEMBER_LIST_SYNC_SIZE (zlen cells)))
    (ei_sender e) Hh Hfrom) as [Hll1 Hd].
  assert (demand ((welcome_of n (mh_sequence_num (hello_header t)), [(ei_sender e, zlen (ei_sender e))]) ::
    member_lists (Z.to_nat (Z.min MEMBER_LIST_SYNC_SIZE (zlen cells))) (set_members_of cells)
      (ei_sender e) (zlen (ei_sender e)) ++ [(list_of [m], recipient_of <$> set_members_of cells)])
    <= 1 + 2 * zlen cells) as Hdem.
  { cbn [demand]. rewrite demand_app. cbn [demand].
    rewrite (zlen_cons (ei_sender e, zlen (ei_sender e))), (@zlen_nil recipient).
    rewrite zlen_recipients. lia. }
  destruct (healthy_messages len said _ _ _ _ _ _ Hms Hh) as [Hh2 Hz].
  - apply Forall_cons. split.
    + split; [apply Hh|]. apply Forall_singleton. rewrite <- Hlen. apply reply_in.
    + apply Forall_app. split; [done|]. apply Forall_singleton.
      split; [by apply Forall_singleton|by eapply broadcast_in].
  - config_lia.
  - split; [|split; [done|by left]]. exists xs', cells'. split; [|lia].
    eapply (healthy_move len said n2); [exact Hh2|exact Hok'|done|done|done| |apply Hh2].
    eapply family_cells; [exact Hput|]. apply (put_all_length _ _ (fun z => z = len));
      [by eapply family_members|by apply Forall_singleton].
Qed.

Lemma well_welcome (t : message_welcome) :
  carries_in e t -> legit (MsgWelcome t) ->
  wp (gossip_handle_welcome e) n (fun _ n' => received_well n k (MsgWelcome t) n').
Proof.
  intros Ht Hleg. pose proof (healthy_len _ _ _ _ _ Hh) as Hll. eapply wp_mono.
  { eapply wp_handle_welcome; [exact Hok|exact Ht|by eapply spacious_room; [exact Hsp|]|].
    cbn in Hleg. lia. }
  intros r n' (_ & _ & cells' & Hok' & (m & Hm & Hput) & Hs & Hctx & n1 & (s & w & -> & _) & [q ->]).
  pose proof spacious_bounds as (Hx & Hcl & Hb).
  split; [|split; [done|by left]]. exists (remove_seq (welcome_hello_sequence_num t) xs), cells'.
  split; [|etrans; [apply remove_seq_length|lia]].
  eapply (healthy_move len said n); [exact Hh|exact Hok'|apply remove_seq_incl|done|done| |apply Hh].
  eapply family_cells; [exact Hput|]. apply (put_all_length _ _ (fun z => z = len));
    [by eapply family_members|]. apply Forall_singleton.
  destruct Hm as (_ & _ & -> & _). exact Hleg.
Qed.
End Handler.
(** Any datagram of the cluster that a healthy node reads. *)
Lemma healthy_receive n xs cells m bytes from rest :
  healthy n xs cells -> spacious xs cells -> sound len said bytes m -> zlen from = len ->
  inbox (n_world n) = (bytes, from) :: rest ->
  wp (pittacus_gossip_process_receive data_receiver) n
    (fun _ n' => received_well n (zlen xs + 2 * zlen cells + 27) m n').
Proof.
  set (k := zlen xs + 2 * zlen cells + 27). pose proof (zlen_nonneg cells) as Hnn.
  intros Hh Hsp (-> & Hwf & Hl & Hleg) Hfrom Hin.
  destruct (is_active (g_state (n_self n))) eqn:Ha.
  2:{ unfold pittacus_gossip_process_receive. apply wp_bind, wp_self. rewrite Ha. apply wp_ret.
      split; [exists xs, cells; split; [done|lia]|]. split; [done|by left]. }
  pose proof (msg_need_wire m Hwf) as [Hmin _].
  unfold wp. rewrite (process_receive_run data_receiver n (msg_wire m) from rest Ha Hin);
    [|config_lia|apply (he_ok _ _ _ _ _ Hh)].
  pose proof (healthy_len _ _ _ _ _ Hh) as Hll.
  assert (zlen from <= sizeof_sockaddr_storage) as Hfl by lia.
  set (n1 := after_recv n (msg_wire m) rest).
  assert (healthy n1 xs cells) as Hh1.
  { eapply (healthy_move len said n); [exact Hh|apply node_ok_recv; [apply Hh|done]|done|done|done|apply Hh|apply Hh]. }
  change (wp (gossip_handle_new_message data_receiver (received n (msg_wire m) from)) n1
            (fun _ n' => received_well n1 k m n')).
  assert (forall f f' : M (node Ctx) Z, f n1 = f' n1 -> wp f' n1 (fun _ n' => received_well n1 k m n') ->
            wp f n1 (fun _ n' => received_well n1 k m n')) as Hdisp by (unfold wp; by intros f f' ->).
  assert (forall f : M (node Ctx) Z,
    (connected n1 -> wp (return_if_not_connected f) n1 (fun _ n' => received_well n1 k m n')) ->
    wp (return_if_not_connected f) n1 (fun _ n' => received_well n1 k m n')) as Hcon
    by (intros f; apply (when_connected f n1 k m xs cells); [done|lia]).
  destruct m as [t|t|t|t|t|t]; cbn [msg_wf msg_wire] in *;
    pose proof (received_carries n t from Hwf Hl Hfl) as Hc.
  - eapply Hdisp; [by apply (dispatch_hello _ _ t)|]. apply Hcon. intros. by eapply well_hello.
  - eapply Hdisp; [by apply (dispatch_welcome _ _ t)|]. by eapply well_welcome.
  - eapply Hdisp; [by apply (dispatch_member_list _ _ t)|]. apply Hcon. intros. by eapply well_member_list.
  - eapply Hdisp; [by apply (dispatch_data _ _ t)|]. apply Hcon. intros. by eapply well_data.
  - eapply Hdisp; [by apply (dispatch_ack _ _ t)|]. apply Hcon. intros. by eapply well_ack.
  - eapply Hdisp; [by apply (dispatch_status _ _ t)|]. apply Hcon. intros. by eapply well_status.
Qed.

(** * The other calls *)

(** A call that moved nothing but the queue. *)
Definition kept n (k : Z) n' : Prop :=
  healthy_within k n' /\ sent (n_world n') = sent (n_world n) /\
  n_context n' = n_context n.

Lemma kept_self n xs cells k : healthy n xs cells -> zlen xs <= k -> kept n k n.
Proof. intros Hh Hk. split; [by exists xs, cells|done]. Qed.

Lemma healthy_send_data n xs cells data size me :
  healthy n xs cells -> zlen xs + 3 < MAX_OUTPUT_MESSAGES ->
  0 <= size <= MAX_PAYLOAD -> size <= zlen data ->
  vector_clock_create_member_id (g_self_address (n_self n)) = Ok me ->
  (connected n -> said me (u32 (g_data_counter (n_self n) + 1)) (ztake size data)) ->
  wp (pittacus_gossip_send_data data size) n (fun _ n' => kept n (zlen xs + 3) n').
Proof.
  intros Hh Hsp Hsz Hd Hme Hsaid. unfold pittacus_gossip_send_data.
  rewrite u16_id by (unfold MAX_PAYLOAD in Hsz; config_lia).
  destruct (decide (g_state (n_self n) = STATE_CONNECTED)) as [Hc|Hc].
  2:{ apply wp_not_connected; [done|]. apply (kept_self n xs cells); [done|lia]. }
  apply wp_connected; [done|]. pose proof (he_ok _ _ _ _ _ Hh) as Hok.
  eapply wp_mono; [by apply (wp_enqueue_data data size n xs cells)|].
  intros r n' (_ & _ & id & Eid & [_ Hlog] & rs & n1 & xs' & Hrs & (v & l & ->) & Hm & Hok').
  rewrite Hme in Eid. injection Eid as <-.
  pose proof (message_enqueued_frame _ _ _ _ _ _ Hm) as Hf.
  destruct (random_in _ _ _ _ Hh Hrs) as [Hin Hrl].
  pose proof (no_clock _ _ _ Hok') as Hv. pose proof (no_log _ _ _ Hok') as Hl.
  rewrite (ef_version _ _ Hf) in Hv. rewrite (ef_log _ _ Hf) in Hl, Hlog. cbn [n_self] in Hv, Hl, Hlog.
  assert (log_legit said l) as Hl'.
  { apply (log_put_legit said _ _ _ _ (he_log _ _ _ _ _ Hh) Hlog). split; [|by apply Hsaid].
    cbn. unfold payload. cbn. rewrite zlen_ztake by lia. lia. }
  set (n1 := Node _ _ _) in *.
  assert (healthy n1 xs cells) as Hh1.
  { eapply (healthy_move len said n); [exact Hh| |done|done|done|apply Hh|done].
    destruct Hok as [[] ? ? ? ? ? ?]. by split; [split|..]. }
  destruct (healthy_message len said _ _ _ _ _ _ _ Hh1 Hm) as [Hh' Hz]; [by apply Hsaid|done|lia|].
  split; [exists xs', cells; split; [done|lia]|]. split; [apply (ef_sent _ _ Hf)|apply (ef_context _ _ Hf)].
Qed.

Lemma healthy_tick n xs cells :
  healthy n xs cells -> zlen xs + 3 < MAX_OUTPUT_MESSAGES ->
  wp pittacus_gossip_tick n (fun _ n' => kept n (zlen xs + 3) n').
Proof.
  intros Hh Hsp. pose proof (he_ok _ _ _ _ _ Hh) as Hok.
  destruct (decide (g_state (n_self n) = STATE_CONNECTED)) as [Hc|Hc].
  2:{ unfold pittacus_gossip_tick. apply wp_bind, wp_self. rewrite bool_decide_false by done.
      apply wp_ret. apply (kept_self n xs cells); [done|lia]. }
  eapply wp_mono; [by apply wp_tick|]. intros r n' H. cbv zeta in H.
  case_bool_decide.
  - destruct H as (_ & Es & Hf & Hok'). split; [|split; [apply (ef_sent _ _ Hf)|apply (ef_context _ _ Hf)]].
    exists xs, cells. split; [|lia]. eapply (healthy_move len said n); rewrite ?Es; try done; [apply Hh..].
  - destruct H as (_ & c & rs & n1 & n2 & xs' & _ & Hrs & Hm & Es & Hf1 & -> & Hok').
    pose proof (message_enqueued_frame _ _ _ _ _ _ Hm) as Hf.
    destruct (random_in _ _ _ _ Hh Hrs) as [Hin Hrl].
    assert (healthy n1 xs cells) as Hh1.
    { pose proof (node_ok_alloc _ _ _ _ Hok Es Hf1).
      eapply (healthy_move len said n); rewrite ?Es; try done; apply Hh. }
    destruct (healthy_message len said _ _ _ _ _ _ _ Hh1 Hm) as [Hh' Hz]; [done|done|lia|].
    split; [|split; cbn; [rewrite (ef_sent _ _ Hf); apply (ef_sent _ _ Hf1)
                         |rewrite (ef_context _ _ Hf); apply (ef_context _ _ Hf1)]].
    exists xs', cells. split; [|lia]. eapply (healthy_move len said n2); try done; [apply Hh'..].
Qed.

Lemma healthy_join seeds n xs cells :
  healthy n xs cells -> zlen xs + zlen seeds < MAX_OUTPUT_MESSAGES ->
  Forall (fun a => zlen a = len) seeds ->
  wp (pittacus_gossip_join seeds) n (fun _ n' => kept n (zlen xs + zlen seeds) n').
Proof.
  intros Hh Hsp Hseeds. pose proof (he_ok _ _ _ _ _ Hh) as Hok.
  destruct (decide (g_state (n_self n) = STATE_INITIALIZED)) as [Hi|Hi].
  2:{ unfold pittacus_gossip_join. apply wp_bind, wp_self. rewrite bool_decide_false by done.
      apply wp_ret. pose proof (zlen_nonneg seeds). apply (kept_self n xs cells); [done|lia]. }
  eapply wp_mono; [apply (wp_join seeds n xs cells Hok Hi)|].
  { apply (Forall_impl _ _ _ Hseeds). intros a Ha. by apply (from_in n xs cells). }
  intros r n' (_ & n1 & xs' & Hms & -> & Hok').
  assert (demand (hello_to n <$> seeds) = zlen seeds) as Hdem.
  { clear. induction seeds as [|a l IH]; [done|]. rewrite fmap_cons, zlen_cons. cbn [demand hello_to].
    rewrite zlen_cons, zlen_nil. lia. }
  destruct (healthy_messages len said _ _ _ _ _ _ Hms Hh) as [Hh1 Hz].
  - apply Forall_fmap, (Forall_impl _ _ _ Hseeds). intros a Ha. split; [apply Hh|].
    apply Forall_singleton. by eapply from_in.
  - by rewrite Hdem.
  - split; [|].
    + exists xs', cells. split; [|lia]. eapply (healthy_move len said n1); try done; [apply Hh1..].
    + destruct (messages_enqueued_ok _ _ _ _ _ _ Hok Hms) as [_ Hf].
      split; [apply (ef_sent _ _ Hf)|apply (ef_context _ _ Hf)].
Qed.
End Cluster.

(** What was said stays said. *)
Lemma healthy_said {Ctx} len said said' (n : node Ctx) xs cells :
  (forall i c p, said i c p -> said' i c p) -> healthy len said n xs cells -> healthy len said' n xs cells.
Proof.
  intros Hs [? ? ? ? Hc Hl]. split; try done.
  - intros l x Hin. destruct (Hc l x Hin) as (m0 & Hw & Hleg & m & Hm). exists m0. split; [done|].
    split; [|by exists m]. destruct m0; try done. by apply Hs.
  - apply (Forall_impl _ _ _ Hl). intros e [? ?]. split; [done|by apply Hs].
Qed.
