(* ===== verification/KnowledgeFacts.v ===== *)
(** What a node knows: the numbers in its vector clock and the messages in its
    data log, as finite maps; how knowledge is joined, and what a received
    message adds to it. *)
From S2P Require Import Prelude.
From S2P Require Import Config.
From S2P Require Import Utils.
From S2P Require Import World.
From S2P Require Import Member.
From S2P Require Import VectorClock.
From S2P Require Import Messages.
From S2P Require Import Queue.
From S2P Require Import DataLog.
From S2P Require Import Gossip.
From S2P Require Import Node.
From S2P Require Import VectorClockFacts.
From S2P Require Import CompareFacts.
From S2P Require Import WireFacts.
From S2P Require Import MessageFacts.
From S2P Require Import DataLogFacts.
From S2P Require Import OutboxFacts.
From S2P Require Import EnqueueFacts.
From S2P Require Import NodeFacts.
From S2P Require Import HandlerFacts.
From S2P Require Import PublicFacts.
From S2P Require Import FrameFacts.
From S2P Require Import HealthFacts.
From S2P Require Import ClusterFacts.

(** * Maps of the log *)

Definition entry_pair (e : log_entry) : Z * (Z * list Z) := (le_id e, (le_seq e, le_payload e)).

Definition entries_map (l : list log_entry) : gmap Z (Z * list Z) := list_to_map (entry_pair <$> l).

Lemma entry_pair_ids l : (entry_pair <$> l).*1 = le_id <$> l.
Proof. by rewrite <- list_fmap_compose. Qed.

Lemma entries_map_lookup l id s p :
  NoDup (le_id <$> l) -> entries_map l !! id = Some (s, p) <-> LogEntry id s p ∈ l.
Proof.
  intros Hnd. unfold entries_map. rewrite <- elem_of_list_to_map by by rewrite entry_pair_ids.
  rewrite list_elem_of_fmap. split.
  - intros ([id' s' p'] & [= -> -> ->] & Hin). done.
  - intros Hin. by exists (LogEntry id s p).
Qed.

Lemma entries_map_none l id :
  entries_map l !! id = None <-> id ∉ (le_id <$> l).
Proof. unfold entries_map. by rewrite <- not_elem_of_list_to_map, entry_pair_ids. Qed.

(** Below its capacity the log is a map: putting a message sets the entry of
    its originator. *)
Lemma log_put_map cur l e :
  NoDup (le_id <$> l) -> le_id e ∈ (le_id <$> l) \/ zlen l < DATA_LOG_SIZE ->
  entries_map (log_put cur l e) = <[le_id e := (le_seq e, le_payload e)]> (entries_map l).
Proof.
  intros Hnd Hroom. unfold log_put. destruct (list_find _ l) as [[i x]|] eqn:E.
  - apply list_find_Some in E as (Hi & Hx & _). revert i Hi Hnd. clear Hroom.
    induction l as [|y l IH]; intros [|i] Hi Hnd; cbn in Hi; try done.
    + injection Hi as ->. unfold entries_map. cbn. rewrite <- Hx. unfold entry_pair at 1. cbn.
      by rewrite Hx, insert_insert_eq.
    + apply NoDup_cons in Hnd as [Hy Hnd]. cbn [list_insert insert]. unfold entries_map in *. cbn.
      change (list_to_map (entry_pair <$> <[i:=e]> l)) with (entries_map (<[i:=e]> l)). unfold entries_map.
      rewrite (IH i Hi Hnd), insert_insert_ne; [done|].
      intros Eq. apply Hy. cbn in Eq. rewrite Eq, <- Hx. apply list_elem_of_fmap_2.
      by eapply list_elem_of_lookup_2.
  - apply list_find_None in E. rewrite Forall_forall in E.
    assert (le_id e ∉ (le_id <$> l)) as Hn.
    { intros (x & Ex & Hx)%list_elem_of_fmap. by apply (E x). }
    rewrite bool_decide_true by (destruct Hroom; [done|lia]).
    unfold entries_map. rewrite fmap_app. apply list_to_map_snoc. by rewrite entry_pair_ids.
Qed.

(** * Joining *)

(** The newer of two numbered payloads; the first when they are as new. *)
Definition newer_value (x y : Z * list Z) : Z * list Z := if fst x <? fst y then y else x.

Definition join_logs (a b : gmap Z (Z * list Z)) : gmap Z (Z * list Z) :=
  union_with (fun x y => Some (newer_value x y)) a b.

Lemma join_logs_lookup a b id :
  join_logs a b !! id = match a !! id, b !! id with
                        | Some x, Some y => Some (newer_value x y)
                        | Some x, None => Some x
                        | None, y => y
                        end.
Proof. unfold join_logs. rewrite lookup_union_with. by destruct (a !! id), (b !! id). Qed.

(** Joining logs joins clocks. *)
Lemma join_logs_clocks a b : fst <$> join_logs a b = join_maps (fst <$> a) (fst <$> b).
Proof.
  apply map_eq. intros id. unfold join_maps. rewrite lookup_union_with, !lookup_fmap, join_logs_lookup.
  destruct (a !! id) as [[s p]|], (b !! id) as [[s' p']|]; cbn; try done.
  unfold newer_value. cbn. destruct (Z.ltb_spec s s'); cbn; f_equal; lia.
Qed.

Lemma newer_value_absorb x v : newer_value (newer_value x v) v = newer_value x v.
Proof.
  unfold newer_value. destruct (fst x <? fst v) eqn:E; [by rewrite Z.ltb_irrefl|by rewrite E].
Qed.

(** Two logs in which the same number of an originator is the same payload. *)
Definition agree (a b : gmap Z (Z * list Z)) : Prop :=
  forall id s p p', a !! id = Some (s, p) -> b !! id = Some (s, p') -> p = p'.

Lemma join_logs_comm a b : agree a b -> join_logs a b = join_logs b a.
Proof.
  intros Hab. apply map_eq. intros id. rewrite !join_logs_lookup.
  destruct (a !! id) as [[s p]|] eqn:Ea, (b !! id) as [[s' p']|] eqn:Eb; try done.
  unfold newer_value. cbn. destruct (Z.ltb_spec s s'), (Z.ltb_spec s' s); try lia; try done.
  assert (s' = s) as -> by lia. by rewrite (Hab id s p p' Ea Eb).
Qed.

Lemma join_logs_twice a b : join_logs b (join_logs a b) = join_logs b a.
Proof.
  apply map_eq. intros id. rewrite !join_logs_lookup.
  destruct (a !! id) as [[s p]|], (b !! id) as [[s' p']|]; try done; unfold newer_value; cbn.
  - destruct (Z.ltb_spec s s'); cbn; [|done]. rewrite Z.ltb_irrefl. by destruct (Z.ltb_spec s' s); [lia|].
  - by rewrite Z.ltb_irrefl.
Qed.

(** Learning one message. *)
Definition learn (m : gmap Z (Z * list Z)) (e : log_entry) : gmap Z (Z * list Z) :=
  join_logs m {[le_id e := (le_seq e, le_payload e)]}.

Lemma learn_ne m e id : id <> le_id e -> learn m e !! id = m !! id.
Proof.
  intros Hne. unfold learn. rewrite join_logs_lookup, lookup_singleton_ne by done. by destruct (m !! id).
Qed.

Lemma learn_eq m e :
  learn m e !! le_id e = Some (match m !! le_id e with
                               | Some x => newer_value x (le_seq e, le_payload e)
                               | None => (le_seq e, le_payload e)
                               end).
Proof. unfold learn. rewrite join_logs_lookup, lookup_singleton_eq. by destruct (m !! le_id e). Qed.

(** Learning messages of one log, whatever the order and however often: the
    knowledge of that log, once all of it was learnt. *)
Lemma learn_all_lookup es : forall m src id,
  (forall e, e ∈ es -> src !! le_id e = Some (le_seq e, le_payload e)) ->
  foldl learn m es !! id =
    if bool_decide (id ∈ (le_id <$> es)) then join_logs m src !! id else m !! id.
Proof.
  induction es as [|e es IH]; intros m src id Hsrc; [done|]. cbn [foldl].
  rewrite (IH (learn m e) src id) by (intros e' He'; apply Hsrc; by right).
  pose proof (Hsrc e ltac:(by left)) as He. rewrite fmap_cons.
  destruct (decide (id = le_id e)) as [->|Hne].
  - rewrite (bool_decide_true (le_id e ∈ le_id e :: _)) by by left.
    rewrite !join_logs_lookup, He, learn_eq. case_bool_decide; [|by destruct (m !! le_id e)].
    destruct (m !! le_id e) as [x|]; [by rewrite newer_value_absorb|].
    unfold newer_value. by rewrite Z.ltb_irrefl.
  - rewrite !join_logs_lookup, learn_ne by done. repeat case_bool_decide; try done.
    + exfalso. set_solver.
    + exfalso. set_solver.
Qed.

(** * The messages that are new along a sequence *)

Definition newer_entry (c : gmap Z Z) (e : log_entry) : Prop := default (-1) (c !! le_id e) < le_seq e.

#[export] Instance newer_entry_dec c e : Decision (newer_entry c e).
Proof. unfold newer_entry. apply _. Defined.

Fixpoint wanted (c : gmap Z Z) (es : list log_entry) : list log_entry :=
  match es with
  | [] => []
  | e :: es => if bool_decide (newer_entry c e) then e :: wanted (<[le_id e := le_seq e]> c) es
               else wanted c es
  end.

(** The clock after a message. *)
Definition advance (c : gmap Z Z) (e : log_entry) : gmap Z Z :=
  if bool_decide (newer_entry c e) then <[le_id e := le_seq e]> c else c.

Lemma learn_clock m e : 0 <= le_seq e -> fst <$> learn m e = advance (fst <$> m) e.
Proof.
  intros He. unfold learn. rewrite join_logs_clocks, map_fmap_singleton. cbn [fst].
  apply map_eq. intros id. unfold join_maps, advance, newer_entry. rewrite lookup_union_with.
  destruct (decide (id = le_id e)) as [->|Hne].
  - rewrite lookup_singleton_eq. case_bool_decide as Hn; [rewrite lookup_insert_eq|];
      destruct ((fst <$> m) !! le_id e) as [s|]; cbn in *; f_equal; lia.
  - rewrite lookup_singleton_ne by done. transitivity ((fst <$> m) !! id); [by destruct ((fst <$> m) !! id)|].
    case_bool_decide; [by rewrite lookup_insert_ne|done].
Qed.

Lemma learn_all_clock es : forall m,
  Forall (fun e => 0 <= le_seq e) es -> fst <$> foldl learn m es = foldl advance (fst <$> m) es.
Proof.
  induction es as [|e es IH]; intros m Hes; [done|]. apply Forall_cons in Hes as [He Hes].
  cbn [foldl]. by rewrite IH, learn_clock.
Qed.

Lemma wanted_app es es' : forall c, wanted c (es ++ es') = wanted c es ++ wanted (foldl advance c es) es'.
Proof.
  induction es as [|e es IH]; intros c; [done|]. cbn [app wanted foldl]. unfold advance at 2.
  case_bool_decide; [|apply IH]. cbn [app]. f_equal. apply IH.
Qed.

(** From one log every message is wanted once. *)
Lemma wanted_spec es : forall c (src : gmap Z (Z * list Z)),
  (forall e, e ∈ es -> src !! le_id e = Some (le_seq e, le_payload e)) ->
  NoDup (wanted c es) /\ forall e, e ∈ wanted c es <-> e ∈ es /\ newer_entry c e.
Proof.
  induction es as [|e es IH]; intros c src Hsrc; cbn [wanted].
  { split; [constructor|]. intros e. split; [by intros H%not_elem_of_nil|].
    by intros [H%not_elem_of_nil _]. }
  assert (forall e', e' ∈ es -> src !! le_id e' = Some (le_seq e', le_payload e')) as Hsrc'
    by (intros; apply Hsrc; by right).
  pose proof (Hsrc e ltac:(by left)) as He. case_bool_decide as Hn.
  - destruct (IH (<[le_id e := le_seq e]> c) src Hsrc') as [Hnd Hel].
    assert (forall e', e' ∈ es -> newer_entry (<[le_id e := le_seq e]> c) e' <->
      e' <> e /\ newer_entry c e') as Hins.
    { intros e' Hin. pose proof (Hsrc' e' Hin) as He'. unfold newer_entry.
      destruct (decide (le_id e' = le_id e)) as [Eid|Hne].
      - rewrite Eid, He in He'. injection He' as E1 E2. rewrite Eid, lookup_insert_eq, <- E1.
        split; [intros Hlt; exfalso; cbn in Hlt; lia|]. intros [Hne _]. destruct Hne.
        destruct e, e'. cbn in *. by subst.
      - rewrite lookup_insert_ne by done. split; [|by intros [_ ?]]. intros ?. split; [|done].
        by intros ->. }
    split; [constructor; [|done]|].
    + intros [Hin Hnew]%Hel. by apply (Hins e Hin) in Hnew as [? _].
    + intros e'. rewrite !elem_of_cons, Hel. split.
      * intros [->|[Hin Hnew]]; [by auto|]. apply (Hins e' Hin) in Hnew as [_ ?]. by auto.
      * intros [[->|Hin] Hnew]; [by left|]. destruct (decide (e' = e)) as [->|Hne]; [by left|right].
        split; [done|]. by apply Hins.
  - destruct (IH c src Hsrc') as [Hnd Hel]. split; [done|]. intros e'. rewrite Hel, elem_of_cons.
    split; [naive_solver|]. intros [[->|?] ?]; done.
Qed.

(** * Nodes *)

Section Node.
Context {Ctx : Type}.
Implicit Types n : node Ctx.

Definition clock_of n : gmap Z Z := clock_map (g_data_version (n_self n)).
Definition log_map n : gmap Z (Z * list Z) := entries_map (log_view (g_data_log (n_self n))).

(** The clock knows the number of the logged message of each originator, and
    nothing else. *)
Definition mirrors n : Prop := fst <$> log_map n = clock_of n.

(** The part of a node that this file is about. *)
Definition knowledge n : vector_clock * data_log := (g_data_version (n_self n), g_data_log (n_self n)).

#[export] Instance knowledge_framed : Framed knowledge.
Proof. by split. Qed.

Lemma knowledge_eq n n' :
  knowledge n' = knowledge n -> clock_of n' = clock_of n /\ log_map n' = log_map n.
Proof. unfold clock_of, log_map. by intros [= -> ->]. Qed.

Lemma mirrors_eq n n' : knowledge n' = knowledge n -> mirrors n -> mirrors n'.
Proof. unfold mirrors. by intros [-> ->]%knowledge_eq. Qed.

Lemma mirrors_known n id s p : mirrors n -> log_map n !! id = Some (s, p) -> clock_of n !! id = Some s.
Proof. intros <- E. by rewrite lookup_fmap, E. Qed.

Lemma mirrors_logged n id s :
  mirrors n -> clock_of n !! id = Some s -> exists p, log_map n !! id = Some (s, p).
Proof.
  intros <-. rewrite lookup_fmap. destruct (log_map n !! id) as [[s' p]|]; [|done].
  intros [= ->]. by exists p.
Qed.

Lemma log_map_view n id s p :
  log_wf (g_data_log (n_self n)) ->
  log_map n !! id = Some (s, p) <-> LogEntry id s p ∈ log_view (g_data_log (n_self n)).
Proof. intros Hl. by apply entries_map_lookup, lw_ids. Qed.

Lemma mirrors_size n :
  log_wf (g_data_log (n_self n)) -> mirrors n ->
  zlen (log_view (g_data_log (n_self n))) = Z.of_nat (size (clock_of n)).
Proof.
  intros Hl <-. rewrite map_size_fmap. unfold log_map, entries_map, zlen. f_equal.
  rewrite map_size_list_to_map by (rewrite entry_pair_ids; apply Hl). by rewrite length_fmap.
Qed.

(** Where a new message is noted, clock and log map get it, and go on to
    mirror each other, while all originators fit. *)
Lemma noted_maps n n' (t : message_data) :
  clock_wf (g_data_version (n_self n)) -> log_wf (g_data_log (n_self n)) -> mirrors n ->
  Z.of_nat (size (dom (clock_of n) ∪ {[le_id (data_entry t)]} : gset Z)) <= MAX_VECTOR_SIZE ->
  noted n n' t ->
  clock_of n' = <[le_id (data_entry t) := le_seq (data_entry t)]> (clock_of n) /\
  log_map n' = <[le_id (data_entry t) := (le_seq (data_entry t), payload t)]> (log_map n) /\
  mirrors n'.
Proof.
  intros Hc Hl Hm Hsz [Ec El].
  rewrite (not_evicted _ _ (dom (clock_of n) ∪ {[le_id (data_entry t)]})) in Ec; [|done|set_solver|set_solver|done].
  assert (log_map n' = <[le_id (data_entry t) := (le_seq (data_entry t), payload t)]> (log_map n)) as Em.
  { unfold log_map at 1. rewrite El. rewrite log_put_map; [done|apply Hl|]. right.
    rewrite mirrors_size by done.
    assert (size (clock_of n) <= size (dom (clock_of n) ∪ {[le_id (data_entry t)]} : gset Z))%nat.
    { rewrite <- (size_dom (D := gset Z)). apply subseteq_size. set_solver. }
    config_lia. }
  split; [done|]. split; [done|]. unfold mirrors. rewrite Em, fmap_insert. cbn [fst]. rewrite Hm.
  by unfold clock_of at 2; rewrite Ec.
Qed.

Lemma learn_newer n (t : message_data) :
  mirrors n -> newer_msg (g_data_version (n_self n)) t ->
  learn (log_map n) (data_entry t) = <[le_id (data_entry t) := (le_seq (data_entry t), payload t)]> (log_map n).
Proof.
  intros Hm Hnew. apply map_eq. intros id. destruct (decide (id = le_id (data_entry t))) as [->|Hne].
  - rewrite learn_eq, lookup_insert_eq. f_equal.
    destruct (log_map n !! le_id (data_entry t)) as [[s p]|] eqn:E; [|done].
    apply (mirrors_known _ _ _ _ Hm) in E. unfold newer_msg in Hnew. unfold clock_of in E.
    change (le_id (data_entry t)) with (vr_member_id (data_data_version t)) in E. rewrite E in Hnew.
    unfold newer_value. cbn in *. by rewrite (proj2 (Z.ltb_lt _ _) Hnew).
  - by rewrite learn_ne, lookup_insert_ne.
Qed.

Lemma learn_known n (t : message_data) :
  mirrors n -> record_wf (data_data_version t) -> ~ newer_msg (g_data_version (n_self n)) t ->
  learn (log_map n) (data_entry t) = log_map n.
Proof.
  intros Hm [Hr _] Hnew. apply map_eq. intros id. destruct (decide (id = le_id (data_entry t))) as [->|Hne].
  - rewrite learn_eq. unfold newer_msg in Hnew.
    destruct (clock_map (g_data_version (n_self n)) !! vr_member_id (data_data_version t)) as [s|] eqn:E.
    + destruct (mirrors_logged n _ s Hm E) as [p Ep].
      change (le_id (data_entry t)) with (vr_member_id (data_data_version t)). rewrite Ep.
      unfold newer_value. cbn in *. by rewrite (proj2 (Z.ltb_ge _ _)) by lia.
    + cbn in Hnew. unfold is_u32 in Hr. lia.
  - by rewrite learn_ne.
Qed.
End Node.
