(* ===== verification/SyncFacts.v ===== *)
(** How nodes learn from each other: a node takes in the acknowledgements, data
    and statuses that reach it, in any order and number; a status is answered
    with what its sender lacks; the answers make the sender know it all. *)
From S2P Require Import Prelude.
From S2P Require Import Config.
From S2P Require Import Utils.
From S2P Require Import World.
From S2P Require Import Member.
From S2P Require Import VectorClock.
From S2P Require Import Messages.
From S2P Require Import Queue.
From S2P Require Import DataLog.
From S2P Require Import Gossip.
From S2P Require Import Node.
From S2P Require Import VectorClockFacts.
From S2P Require Import CompareFacts.
From S2P Require Import WireFacts.
From S2P Require Import MessageFacts.
From S2P Require Import DataLogFacts.
From S2P Require Import OutboxFacts.
From S2P Require Import EnqueueFacts.
From S2P Require Import NodeFacts.
From S2P Require Import HandlerFacts.
From S2P Require Import PublicFacts.
From S2P Require Import FrameFacts.
From S2P Require Import HealthFacts.
From S2P Require Import ClusterFacts.
From S2P Require Import KnowledgeFacts.

(** * Arrival *)

Section Arrival.
Context {Ctx : Type}.
Implicit Types n : node Ctx.
Context (data_receiver : option (list Z -> Z -> M (node Ctx) unit)).

(** The datagram that the next reception of the node takes. *)
Definition arrives (d : list Z * list Z) n : node Ctx :=
  let w := n_world n in
  Node (n_self n)
    (World (answers w) (allocs w) (time_calls w) (random_calls w) (sent w) [d] (closed w))
    (n_context n).

Lemma node_ok_arrives n xs cells d : node_ok n xs cells -> node_ok (arrives d n) xs cells.
Proof. intros [[] ? ? ? ? ? ?]. by split; [split|..]. Qed.

Lemma node_ok_received n xs cells d :
  node_ok n xs cells -> zlen (fst d) <= MESSAGE_MAX_SIZE ->
  node_ok (after_recv (arrives d n) (fst d) []) xs cells.
Proof. intros Hok Hl. by apply node_ok_recv; [apply node_ok_arrives|]. Qed.

(** The reception of a datagram is the handling of its message. *)
Lemma wp_arrives m from n xs cells Q :
  node_ok n xs cells -> is_active (g_state (n_self n)) = true ->
  msg_wf m -> zlen (msg_wire m) <= MESSAGE_MAX_SIZE ->
  wp (gossip_handle_new_message data_receiver (received (arrives (msg_wire m, from) n) (msg_wire m) from))
    (after_recv (arrives (msg_wire m, from) n) (msg_wire m) []) Q ->
  wp (pittacus_gossip_process_receive data_receiver) (arrives (msg_wire m, from) n) Q.
Proof.
  intros Hok Ha Hwf Hl HQ. pose proof (msg_need_wire m Hwf) as [Hmin _].
  unfold wp. rewrite (process_receive_run data_receiver (arrives (msg_wire m, from) n) (msg_wire m) from []);
    [exact HQ|exact Ha|done|config_lia|apply Hok].
Qed.

Lemma wp_dispatch (h : M (node Ctx) Z) e n Q :
  gossip_handle_new_message data_receiver e n = h n -> wp h n Q ->
  wp (gossip_handle_new_message data_receiver e) n Q.
Proof. unfold wp. by intros ->. Qed.
End Arrival.

Section Sync.
Context {Ctx : Type}.
Implicit Types n : node Ctx.
Context (data_receiver : option (list Z -> Z -> M (node Ctx) unit)) (deliver : list Z -> Ctx -> Ctx).
Hypothesis Hreceiver : forall p, receives data_receiver deliver p.

(** The originators of the cluster; a clock has room for all of them. *)
Context (ids : gset Z).
Hypothesis Hids : Z.of_nat (size ids) <= MAX_VECTOR_SIZE.

(** A connected node in good order whose clock and log mirror each other. *)
Record informed n : Prop := Informed {
  in_ok : exists xs cells, node_ok n xs cells;
  in_connected : connected n;
  in_log : log_legit (fun _ _ _ => True) (g_data_log (n_self n));
  in_mirrors : mirrors n;
  in_ids : dom (clock_of n) ⊆ ids
}.

(** The message that a message has for the log. *)
Definition entry_in (m : message) : option log_entry :=
  match m with MsgData t => Some (data_entry t) | _ => None end.

(** Messages of the exchange, of originators of the cluster. *)
Definition exchanged (m : message) : Prop :=
  msg_wf m /\ zlen (msg_wire m) <= MESSAGE_MAX_SIZE /\
  match m with
  | MsgAck _ | MsgStatus _ => True
  | MsgData t => vr_member_id (data_data_version t) ∈ ids
  | _ => False
  end.

(** What a node makes of a message of the exchange. *)
Definition taken_in (m : message) n n' : Prop :=
  informed n' /\
  log_map n' = foldl learn (log_map n) (option_list (entry_in m)) /\
  n_context n' = foldl (fun c e => deliver (le_payload e) c) (n_context n)
                   (wanted (clock_of n) (option_list (entry_in m))).

(** Where clock and log are left alone. *)
Lemma informed_keeps n n' xs cells :
  informed n -> node_ok n' xs cells -> connected n' -> knowledge n' = knowledge n -> informed n'.
Proof.
  intros [_ _ Hl Hm Hd] Hok Hc E. pose proof (knowledge_eq _ _ E) as [Ec _]. split; [by eauto|done|..].
  - by injection E as _ ->.
  - by eapply mirrors_eq.
  - by rewrite Ec.
Qed.

Lemma frame_taken_in m n d n' xs cells :
  informed n -> enq_frame (after_recv (arrives d n) (fst d) []) n' -> node_ok n' xs cells ->
  entry_in m = None -> taken_in m n n'.
Proof.
  intros Hn Hf Hok Hm. assert (knowledge n' = knowledge n) as E
    by (unfold knowledge; by rewrite (ef_version _ _ Hf), (ef_log _ _ Hf)).
  pose proof (knowledge_eq _ _ E) as [_ El]. unfold taken_in. rewrite Hm, El.
  split; [|split; [done|apply (ef_context _ _ Hf)]].
  eapply informed_keeps; [exact Hn|exact Hok| |exact E].
  unfold connected. rewrite (ef_state _ _ Hf). apply Hn.
Qed.

(** Data: clock and log take the message in when it is new. *)
Lemma data_taken_in (t : message_data) n n' xs cells :
  informed n -> codec_wf t -> zlen (wire t) <= MESSAGE_MAX_SIZE ->
  vr_member_id (data_data_version t) ∈ ids -> node_ok n' xs cells -> connected n' ->
  (if bool_decide (newer_msg (g_data_version (n_self n)) t)
   then noted n n' t /\ n_context n' = deliver (payload t) (n_context n)
   else knowledge n' = knowledge n /\ n_context n' = n_context n) ->
  taken_in (MsgData t) n n'.
Proof.
  intros Hn Hwf Hl Hid Hok Hc Hcase. pose proof Hn as [(xs0 & cells0 & Hok0) _ Hlog Hm Hd].
  pose proof Hwf as (_ & _ & Hv & _). unfold taken_in.
  change (option_list (entry_in (MsgData t))) with [data_entry t]. cbn [foldl wanted].
  change (newer_entry (clock_of n) (data_entry t)) with (newer_msg (g_data_version (n_self n)) t).
  case_bool_decide as Hnew; destruct Hcase as [Hk Hx];
    [rewrite bool_decide_true by done|rewrite bool_decide_false by done].
  - destruct (noted_maps n n' t) as (Ec & El & Hm'); try done; [apply Hok0|apply Hok0| |].
    { etrans; [|exact Hids]. apply inj_le, subseteq_size. cbn. set_solver. }
    split; [split|].
    + by eauto.
    + done.
    + destruct Hk as [_ Hview]. eapply log_put_legit; [exact Hlog|exact Hview|]. split; [|done].
      cbn. rewrite (zlen_payload t Hwf). rewrite zlen_wire_data in Hl by done. unfold MAX_PAYLOAD. config_lia.
    + done.
    + rewrite Ec, dom_insert. cbn. set_solver.
    + split; [by rewrite learn_newer|exact Hx].
  - split; [by eapply informed_keeps|]. pose proof (knowledge_eq _ _ Hk) as [_ ->].
    split; [by rewrite learn_known|exact Hx].
Qed.

(** A status is answered with what its sender does not know. *)
Lemma wp_status_arrives (t : message_status) from n :
  informed n -> exchanged (MsgStatus t) -> zlen from <= sizeof_sockaddr_storage ->
  wp (pittacus_gossip_process_receive data_receiver) (arrives (wire t, from) n)
    (fun r n' => r = PITTACUS_ERR_NONE /\ exists cells xs xs' c',
       messages_enqueued ((ack_of (mh_sequence_num (status_header t)), [(from, zlen from)])
           :: status_replies n (clock_map (status_data_version t)) c' from (zlen from))
         (after_recv (arrives (wire t, from) n) (wire t) []) xs n' xs' /\
       clock_eqv c' (g_data_version (n_self n)) /\ node_ok n xs cells /\
       node_ok n' xs' cells /\ enq_frame (after_recv (arrives (wire t, from) n) (wire t) []) n').
Proof.
  intros Hn Ht Hfrom. destruct Ht as (Hwf & Hl & _).
  pose proof Hn as [(xs & cells & Hok) Hc Hlog _ _].
  apply (wp_arrives _ (MsgStatus t) from n xs cells _ Hok); [by rewrite Hc|done|done|]. cbn [msg_wf msg_wire] in *.
  pose proof (received_carries (arrives (wire t, from) n) t from Hwf Hl Hfrom) as Hcar.
  pose proof (node_ok_received n xs cells (wire t, from) Hok Hl) as Hok1.
  eapply wp_dispatch; [by apply (dispatch_status _ _ t)|].
  eapply wp_mono; [apply (wp_handle_status _ t _ xs cells Hok1 Hc Hcar)|].
  { eapply log_sendable_legit; [apply Hok|exact Hlog]. }
  intros r n' (-> & xs' & c' & Hc' & Hms & Hok' & Hf). split; [done|]. by exists cells, xs, xs', c'.
Qed.

(** A message of the exchange is taken in, whatever else the node knows. *)
Lemma wp_take_in m from n :
  informed n -> exchanged m -> zlen from <= sizeof_sockaddr_storage ->
  wp (pittacus_gossip_process_receive data_receiver) (arrives (msg_wire m, from) n)
    (fun r n' => r = PITTACUS_ERR_NONE /\ taken_in m n n').
Proof.
  intros Hn Hm Hfrom. pose proof Hm as (Hwf & Hl & Hk). pose proof Hn as [(xs & cells & Hok) Hc _ _ _].
  pose proof (node_ok_received n xs cells (msg_wire m, from) Hok Hl) as Hok1.
  destruct m as [t|t|t|t|t|t]; try done; cbn [msg_wf msg_wire fst] in *;
    pose proof (received_carries (arrives (wire t, from) n) t from Hwf Hl Hfrom) as Hcar.
  - apply (wp_arrives _ (MsgData t) from n xs cells _ Hok); [by rewrite Hc|done|done|].
    eapply wp_dispatch; [by apply (dispatch_data _ _ t)|]. eapply wp_mono.
    { eapply wp_handle_data; [exact Hok1|exact Hc|exact Hcar|apply Hreceiver]. }
    intros r n' (-> & Hc' & _ & n2 & xs2 & Hm2 & Hcase). split; [done|].
    pose proof (message_enqueued_frame _ _ _ _ _ _ Hm2) as Hf.
    change (g_data_version (n_self (after_recv _ _ _))) with (g_data_version (n_self n)) in Hcase.
    destruct (decide (newer_msg (g_data_version (n_self n)) t)) as [Hnew|Hnew].
    + rewrite bool_decide_true in Hcase by done.
      destruct Hcase as (Hno & Hx & t' & n3 & rs & xs3 & _ & _ & _ & _ & Hok').
      eapply data_taken_in; try done. by rewrite bool_decide_true.
    + rewrite bool_decide_false in Hcase by done. destruct Hcase as [Hok' ->].
      eapply data_taken_in; try done. rewrite bool_decide_false by done.
      split; [by unfold knowledge; rewrite (ef_version _ _ Hf), (ef_log _ _ Hf)|apply (ef_context _ _ Hf)].
  - apply (wp_arrives _ (MsgAck t) from n xs cells _ Hok); [by rewrite Hc|done|done|].
    eapply wp_dispatch; [by apply (dispatch_ack _ _ t)|].
    eapply wp_mono; [by apply (wp_handle_ack _ t _ xs cells)|].
    intros r n' (-> & Hq%queue_only_frame & Hok'). split; [done|].
    eapply (frame_taken_in _ n (_, from)); [exact Hn|exact Hq|exact Hok'|done].
  - eapply wp_mono; [by apply wp_status_arrives|].
    intros r n' (-> & cells' & xs1 & xs' & c' & _ & _ & _ & Hok' & Hf). split; [done|].
    eapply (frame_taken_in _ n (_, from)); [exact Hn|exact Hf|exact Hok'|done].
Qed.

(** * Receiving one datagram after the other *)

Fixpoint receive_each (ds : list (list Z * list Z)) : M (node Ctx) unit :=
  match ds with
  | [] => mret tt
  | d :: ds =>
      _ ← (fun n => Ok (tt, arrives d n) : out (unit * node Ctx));
      _ ← pittacus_gossip_process_receive data_receiver;
      receive_each ds
  end.

(** A datagram that brings a message. *)
Definition brings (d : list Z * list Z) (m : message) : Prop :=
  fst d = msg_wire m /\ exchanged m /\ zlen (snd d) <= sizeof_sockaddr_storage.

Lemma exchanged_seq m e : exchanged m -> e ∈ option_list (entry_in m) -> 0 <= le_seq e.
Proof.
  intros (Hwf & _) He. destruct m as [t|t|t|t|t|t]; cbn in He; try by apply not_elem_of_nil in He.
  apply list_elem_of_singleton in He as ->. destruct Hwf as (_ & _ & [Hs _] & _). cbn. apply Hs.
Qed.

Lemma wp_receive_each ds : forall ms n,
  informed n -> Forall2 brings ds ms ->
  let es := ms ≫= (fun m => option_list (entry_in m)) in
  wp (receive_each ds) n (fun _ n' => informed n' /\ log_map n' = foldl learn (log_map n) es /\
    n_context n' = foldl (fun c e => deliver (le_payload e) c) (n_context n) (wanted (clock_of n) es)).
Proof.
  induction ds as [|[bytes from] ds IH]; intros ms n Hn Hms.
  { apply Forall2_nil_inv_l in Hms as ->. by apply wp_ret. }
  apply Forall2_cons_inv_l in Hms as (m & ms' & (Hb & Hm & Hf) & Hms & ->). cbn in Hb, Hf. subst bytes.
  cbn [receive_each]. apply wp_bind. unfold wp at 1. apply wp_bind.
  eapply wp_mono; [by apply (wp_take_in m from n)|]. intros r n1 (_ & Hn1 & Hlog & Hctx).
  eapply wp_mono; [by apply (IH ms' n1)|]. intros u n2 (Hn2 & Hlog2 & Hctx2). split; [done|].
  rewrite bind_cons. split; [by rewrite foldl_app, <- Hlog|].
  rewrite wanted_app, foldl_app, <- Hctx, Hctx2. do 2 f_equal.
  rewrite <- (in_mirrors _ Hn1), <- (in_mirrors _ Hn), Hlog. apply learn_all_clock.
  apply Forall_forall. intros e He. by eapply exchanged_seq.
Qed.

(** * Answers to a status *)

Lemma entry_in_reply r : entry_in (log_reply r) = Some (entry_of r).
Proof. done. Qed.

Lemma unseen_newer known r : unseen known r <-> newer_entry known (entry_of r).
Proof.
  unfold unseen, newer_entry. pose proof (record_comp_before (known !! vr_member_id (dr_version r))
    (vr_sequence_number (dr_version r))) as E. revert E.
  repeat case_bool_decide; done.
Qed.

(** The data of the answer: what the log has and the asker does not know. *)
Lemma status_replies_entries n known c to len e :
  informed n -> (exists m, m ∈ (status_replies n known c to len).*1 /\ entry_in m = Some e) <->
  e ∈ log_view (g_data_log (n_self n)) /\ newer_entry known e.
Proof.
  intros Hn. pose proof Hn as [(xs & cells & Hok) _ _ Hm _].
  assert (forall tail : list (message * list recipient), Forall (fun m => entry_in (fst m) = None) tail ->
    (exists m, m ∈ (log_replies known (live_log (g_data_log (n_self n))) to len ++ tail).*1 /\
       entry_in m = Some e) <->
    e ∈ log_view (g_data_log (n_self n)) /\ newer_entry known e) as Hdata.
  { intros tail Ht. split.
    - intros (m & (mr & -> & Hin)%list_elem_of_fmap & He). apply elem_of_app in Hin as [Hin|Hin].
      + apply list_elem_of_fmap in Hin as (r & -> & [Hu Hr]%list_elem_of_filter). cbn [fst] in He.
        rewrite entry_in_reply in He. injection He as <-. split; [by apply list_elem_of_fmap_2|]. by apply unseen_newer.
      + apply (proj1 (Forall_forall _ _) Ht) in Hin. congruence.
    - intros [(r & -> & Hr)%list_elem_of_fmap Hnew]. exists (log_reply r). split; [|done].
      rewrite fmap_app. apply elem_of_app. left. unfold log_replies. rewrite <- list_fmap_compose.
      apply list_elem_of_fmap. exists r. split; [done|]. apply list_elem_of_filter.
      split; [by apply unseen_newer|done]. }
  assert (forall tail : list (message * list recipient), Forall (fun m => entry_in (fst m) = None) tail ->
    ~ newer_in (clock_of n) known ->
    (exists m, m ∈ tail.*1 /\ entry_in m = Some e) <->
    e ∈ log_view (g_data_log (n_self n)) /\ newer_entry known e) as Hnone.
  { intros tail Ht Hnot. split.
    - intros (m & (mr & -> & Hin)%list_elem_of_fmap & He).
      apply (proj1 (Forall_forall _ _) Ht) in Hin. congruence.
    - intros [He Hnew]. destruct Hnot. destruct e as [id s p].
      apply log_map_view in He; [|apply Hok]. apply (mirrors_known _ _ _ _ Hm) in He.
      by exists id, s. }
  unfold status_replies, compare_maps.
  change (clock_map (g_data_version (n_self n))) with (clock_of n).
  destruct (bool_decide_reflect (newer_in (clock_of n) known)) as [Hb|Hb],
    (bool_decide (newer_in known (clock_of n))); cbn [comp_of].
  - apply Hdata. by apply Forall_singleton.
  - rewrite <- (app_nil_r (log_replies _ _ _ _)). by apply Hdata.
  - apply Hnone; [by apply Forall_singleton|done].
  - by apply Hnone.
Qed.

Lemma enqueued_wf ms n xs n' xs' :
  messages_enqueued ms n xs n' xs' ->
  Forall (fun m => msg_wf m /\ msg_need m <= MESSAGE_MAX_SIZE) ms.*1.
Proof.
  induction 1 as [|m rs ms n xs n1 xs1 n2 xs2 Hm _ IH|]; [constructor| |done].
  destruct Hm as (_ & _ & _ & _ & _ & _ & _ & _ & _ & _ & ?). by constructor.
Qed.

Lemma status_replies_to n known c to len m :
  m ∈ status_replies n known c to len -> snd m = [(to, len)].
Proof.
  assert (forall rs, m ∈ log_replies known rs to len -> snd m = [(to, len)]) as Hr
    by (by intros rs (r & -> & _)%list_elem_of_fmap).
  unfold status_replies. destruct (compare_maps _ _).
  - by intros ->%list_elem_of_singleton.
  - apply Hr.
  - by intros ?%not_elem_of_nil.
  - intros [Hin | ->%list_elem_of_singleton]%elem_of_app; [by eapply Hr|done].
Qed.

(** Acknowledgements, data and statuses only. *)
Lemma status_replies_kinds n known c to len m :
  m ∈ (status_replies n known c to len).*1 ->
  match m with MsgData _ | MsgAck _ | MsgStatus _ => True | _ => False end.
Proof.
  intros (mr & -> & Hin)%list_elem_of_fmap.
  assert (mr ∈ log_replies known (live_log (g_data_log (n_self n))) to len \/
          mr ∈ [(status_of c, [(to, len)])]) as [Hd|Hs].
  { unfold status_replies in Hin.
    destruct (compare_maps _ _); [by right|by left|by apply not_elem_of_nil in Hin|by apply elem_of_app]. }
  - by apply list_elem_of_fmap in Hd as (r & -> & _).
  - by apply list_elem_of_singleton in Hs as ->.
Qed.

Lemma seq_exchanged s m : exchanged m -> is_u32 s -> exchanged (msg_with_seq s m).
Proof.
  intros (Hwf & Hl & Hm) Hs. split; [by apply msg_seq_wf|]. split; [by rewrite zlen_msg_seq_wire|].
  by destruct m.
Qed.

Lemma entry_in_seq s m : entry_in (msg_with_seq s m) = entry_in m.
Proof. by destruct m. Qed.

(** Everything that is queued for an answer is a message of the exchange. *)
Lemma answer_exchanged n known c to len seq n0 xs n' xs' :
  informed n ->
  messages_enqueued ((ack_of seq, [(to, len)]) :: status_replies n known c to len) n0 xs n' xs' ->
  Forall exchanged (ack_of seq :: (status_replies n known c to len).*1).
Proof.
  intros Hn Hms%enqueued_wf. cbn [fmap list_fmap fst] in Hms.
  apply Forall_cons in Hms as [[Ha Hna] Hms].
  assert (forall m, msg_wf m -> msg_need m <= MESSAGE_MAX_SIZE -> zlen (msg_wire m) <= MESSAGE_MAX_SIZE) as Hfit
    by (intros m Hw Hneed; pose proof (msg_need_wire m Hw); lia).
  constructor; [by split; [|split; [apply Hfit|]]|]. apply Forall_forall. intros m Hin.
  pose proof (proj1 (Forall_forall _ _) Hms m Hin) as [Hw Hneed].
  pose proof (status_replies_kinds _ _ _ _ _ _ Hin) as Hk.
  split; [done|]. split; [by apply Hfit|]. destruct m as [t|t|t|t|t|t]; try done.
  destruct (proj1 (status_replies_entries n known c to len (data_entry t) Hn)) as [He _]; [by exists (MsgData t)|].
  destruct Hn as [(xs0 & cells & Hok) _ _ Hm Hd]. apply Hd. apply elem_of_dom.
  exists (le_seq (data_entry t)). eapply (mirrors_known _ _ _ (payload t) Hm). by apply log_map_view; [apply Hok|].
Qed.

(** * Rounds *)

(** The datagram of a message from an address. *)
Definition datagram_of (w : message * list Z) : list Z * list Z := (msg_wire (fst w), snd w).

(** A round of the messages [ms]: all of them and only them, with some
    sequence numbers and from some addresses, in any order, each as often as
    the network likes. *)
Definition round_of (ms : list message) (ws : list (message * list Z)) : Prop :=
  Forall (fun w => zlen (snd w) <= sizeof_sockaddr_storage /\
    exists m s, m ∈ ms /\ is_u32 s /\ fst w = msg_with_seq s m) ws /\
  forall m, m ∈ ms -> exists w s, w ∈ ws /\ is_u32 s /\ fst w = msg_with_seq s m.

(** What the clock knows, the other knows too, or something newer. *)
Definition below (c c' : gmap Z Z) : Prop :=
  forall id s, c !! id = Some s -> exists s', c' !! id = Some s' /\ s <= s'.

(** The messages [ms] bring exactly the logged messages of [b] that a clock
    which knows [known] lacks. *)
Definition brings_missing known (b : node Ctx) (ms : list message) : Prop :=
  forall e, (exists m, m ∈ ms /\ entry_in m = Some e) <->
    e ∈ log_view (g_data_log (n_self b)) /\ newer_entry known e.

(** The answers to a status [t] from [from]: the acknowledgement, and then
    what the comparison of the clocks asks for, in this order. *)
Definition status_answers (t : message_status) from (b : node Ctx) c : list (message * list recipient) :=
  (ack_of (mh_sequence_num (status_header t)), [(from, zlen from)])
    :: status_replies b (clock_map (status_data_version t)) c from (zlen from).

(** [a] asks [b] and receives the answers: [b] receives a status that tells
    no more than [a] knows and queues its answers for the sender, which bring
    exactly the logged messages that the status lacks; from every round of
    the answers, [a] and [b] get to states in [Q]. *)
Definition pulls (a b : node Ctx) (Q : node Ctx -> node Ctx -> Prop) : Prop :=
  forall (t : message_status) from, codec_wf t -> zlen (wire t) <= MESSAGE_MAX_SIZE ->
  below (clock_map (status_data_version t)) (clock_of a) -> zlen from <= sizeof_sockaddr_storage ->
  wp (pittacus_gossip_process_receive data_receiver) (arrives (wire t, from) b)
    (fun r b' => r = PITTACUS_ERR_NONE /\ exists ms xs xs' c cells,
       node_ok b xs cells /\ node_ok b' xs' cells /\
       messages_enqueued ms (after_recv (arrives (wire t, from) b) (wire t) []) xs b' xs' /\
       clock_eqv c (g_data_version (n_self b)) /\ ms = status_answers t from b c /\
       Forall (fun m => snd m = [(from, zlen from)]) ms /\
       brings_missing (clock_map (status_data_version t)) b ms.*1 /\
       forall ws, round_of ms.*1 ws ->
         wp (receive_each (datagram_of <$> ws)) a (fun _ a' => Q a' b')).

Lemma answers_to t from b c : Forall (fun m => snd m = [(from, zlen from)]) (status_answers t from b c).
Proof. constructor; [done|]. apply Forall_forall. intros m. apply status_replies_to. Qed.

Lemma answers_bring t from b c :
  informed b -> brings_missing (clock_map (status_data_version t)) b (status_answers t from b c).*1.
Proof.
  intros Hb e. rewrite <- (status_replies_entries b _ c from (zlen from)) by done.
  split; intros (m & Hin & He); exists m; (split; [|done]); [|by right].
  apply elem_of_cons in Hin as [-> |]; [done|done].
Qed.

Lemma pulls_mono a b (P Q : node Ctx -> node Ctx -> Prop) :
  pulls a b P -> (forall a' b', P a' b' -> Q a' b') -> pulls a b Q.
Proof.
  intros HP HPQ t from Ht Hl Hb Hf. eapply wp_mono; [by apply HP|].
  intros r b' (-> & ms & xs & xs' & c & cells & Hok & Hok' & Hms & Hc & Ems & Hto & Hbr & Hds).
  split; [done|]. exists ms, xs, xs', c, cells. do 7 (split; [done|]). intros ds Hr. eapply wp_mono; [by apply Hds|]. intros u a'. apply HPQ.
Qed.

(** The entries that a round brings are those of the messages. *)
Lemma round_brings ms ws :
  Forall exchanged ms -> round_of ms ws -> Forall2 brings (datagram_of <$> ws) ws.*1.
Proof.
  intros Hms [Hw _]. apply Forall2_fmap, Forall_Forall2_diag, (Forall_impl _ _ _ Hw).
  intros w (Hf & m & s & Hm & Hs & E). split; [done|]. split; [|done]. rewrite E.
  apply seq_exchanged; [|done]. by apply (proj1 (Forall_forall _ _) Hms).
Qed.

Lemma round_entries ms ws e :
  round_of ms ws ->
  e ∈ (ws.*1 ≫= (fun m => option_list (entry_in m))) <-> exists m, m ∈ ms /\ entry_in m = Some e.
Proof.
  intros [Hw Hall]. rewrite list_elem_of_bind. split.
  - intros (w & He & (x & -> & Hin)%list_elem_of_fmap).
    apply (proj1 (Forall_forall _ _) Hw) in Hin as (_ & m & s & Hm & _ & E).
    rewrite E, entry_in_seq in He. exists m. split; [done|].
    destruct (entry_in m); [by apply list_elem_of_singleton in He as ->|by apply not_elem_of_nil in He].
  - intros (m & Hm & He). destruct (Hall m Hm) as (w & s & Hin & _ & E). exists (fst w).
    split; [|by apply list_elem_of_fmap_2]. rewrite E, entry_in_seq, He. by left.
Qed.

(** * The exchange *)

(** Pulling joins the knowledge of the other to one's own; the receiver is
    given what was new, each message once. *)
Definition pulled (a b a' b' : node Ctx) : Prop :=
  informed a' /\ informed b' /\ log_map a' = join_logs (log_map a) (log_map b) /\
  log_map b' = log_map b /\ n_context b' = n_context b /\
  exists new, NoDup new /\
    (forall e, e ∈ new <-> e ∈ log_view (g_data_log (n_self b)) /\ newer_entry (clock_of a) e) /\
    n_context a' = foldl (fun c e => deliver (le_payload e) c) (n_context a) new.

Lemma informed_entry n e :
  informed n -> e ∈ log_view (g_data_log (n_self n)) ->
  log_map n !! le_id e = Some (le_seq e, le_payload e).
Proof. intros [(xs & cells & Hok) _ _ _ _] He. apply log_map_view; [apply Hok|]. by destruct e. Qed.

(** What is below the clock need not be learnt. *)
Lemma below_newer known a e :
  informed a -> below known (clock_of a) -> 0 <= le_seq e -> newer_entry (clock_of a) e -> newer_entry known e.
Proof.
  intros Ha Hb He. unfold newer_entry. destruct (known !! le_id e) as [s|] eqn:E; cbn; [|lia].
  apply Hb in E as (s' & -> & ?). cbn. lia.
Qed.

Lemma learn_round a b known es :
  informed a -> informed b -> below known (clock_of a) ->
  (forall e, e ∈ es <-> e ∈ log_view (g_data_log (n_self b)) /\ newer_entry known e) ->
  foldl learn (log_map a) es = join_logs (log_map a) (log_map b).
Proof.
  intros Ha Hb Hk Hes. apply map_eq. intros id. rewrite (learn_all_lookup es _ (log_map b)).
  2:{ intros e [He _]%Hes. by apply informed_entry. }
  case_bool_decide as Hin; [done|]. rewrite join_logs_lookup.
  destruct (log_map b !! id) as [[s p]|] eqn:Eb; [|by destruct (log_map a !! id)].
  assert (s <= default (-1) (known !! id)) as Hle.
  { apply Z.nlt_ge. intros Hlt. apply Hin. apply (list_elem_of_fmap_2 le_id es (LogEntry id s p)).
    apply Hes. split; [|done]. destruct Hb as [(xs & cells & Hok) _ _ _ _]. by apply log_map_view; [apply Hok|]. }
  assert (0 <= s) as Hs.
  { pose proof (mirrors_known _ _ _ _ (in_mirrors _ Hb) Eb) as Ec.
    destruct Hb as [(xs & cells & Hok) _ _ _ _]. destruct (no_clock _ _ _ Hok) as [Hcok _].
    apply (clock_map_range _ _ _ Hcok) in Ec as [[? _] _]. done. }
  destruct (known !! id) as [s0|] eqn:E0; [|cbn in Hle; lia]. cbn in Hle.
  apply Hk in E0 as (s' & E' & Hle'). destruct (mirrors_logged _ _ _ (in_mirrors _ Ha) E') as [p' ->].
  unfold newer_value. cbn. by rewrite (proj2 (Z.ltb_ge _ _)) by lia.
Qed.

Lemma pulls_pulled a b : informed a -> informed b -> pulls a b (pulled a b).
Proof.
  intros Ha Hb t from Ht Hl Hk Hfrom. eapply wp_mono; [by apply wp_status_arrives|].
  intros r b' (-> & cells & xs & xs' & c' & Hms & Hc' & Hok0 & Hok & Hf). split; [done|].
  exists (status_answers t from b c'), xs, xs', c', cells. do 5 (split; [done|]).
  pose proof (answers_bring t from b c' Hb) as Hmiss.
  split; [by apply answers_to|]. split; [exact Hmiss|].
  intros ws Hw. pose proof (answer_exchanged _ _ _ _ _ _ _ _ _ _ Hb Hms) as Hex.
  pose proof (round_brings _ _ Hex Hw) as Hbr.
  eapply wp_mono; [by apply wp_receive_each|]. intros u a' (Ha' & Hlog & Hctx).
  assert (knowledge b' = knowledge b) as Ek by (unfold knowledge; by rewrite (ef_version _ _ Hf), (ef_log _ _ Hf)).
  set (es := ws.*1 ≫= _) in *.
  assert (forall e, e ∈ es <-> e ∈ log_view (g_data_log (n_self b)) /\
    newer_entry (clock_map (status_data_version t)) e) as Hes.
  { intros e. subst es. rewrite (round_entries _ _ e Hw). apply Hmiss. }
  split; [done|]. split; [eapply informed_keeps; [exact Hb|exact Hok| |exact Ek]|].
  { unfold connected. rewrite (ef_state _ _ Hf). apply Hb. }
  split; [by rewrite Hlog, (learn_round a b _ es Ha Hb Hk Hes)|].
  split; [by apply knowledge_eq|]. split; [apply (ef_context _ _ Hf)|].
  destruct (wanted_spec es (clock_of a) (log_map b)) as [Hnd Hel].
  { intros e [He _]%Hes. by apply informed_entry. }
  exists (wanted (clock_of a) es). split; [done|]. split; [|exact Hctx]. intros e. rewrite Hel, Hes.
  split; [naive_solver|]. intros [He Hnew]. split; [split; [done|]|done].
  eapply below_newer; [exact Ha|exact Hk| |exact Hnew].
  pose proof (informed_entry b e Hb He) as Ec. apply (mirrors_known _ _ _ _ (in_mirrors _ Hb)) in Ec.
  destruct (no_clock _ _ _ Hok0) as [Hcok _].
  by apply (clock_map_range _ _ _ Hcok) in Ec as [[? _] _].
Qed.

(** After each has pulled from the other, both know the same. *)
Lemma pulled_back a b a' b' a2 b2 :
  agree (log_map a) (log_map b) -> pulled a b a' b' -> pulled b' a' b2 a2 ->
  informed a2 /\ informed b2 /\ log_map a2 = join_logs (log_map a) (log_map b) /\ log_map b2 = log_map a2 /\
  clock_of b2 = clock_of a2.
Proof.
  intros Hag (_ & _ & Ea & Eb & _) (Hb2 & Ha2 & Eb2 & Ea2 & _).
  assert (log_map b2 = log_map a2) as E by (rewrite Eb2, Ea2, Ea, Eb, join_logs_twice; symmetry; by apply join_logs_comm).
  split_and!; try done; [by rewrite Ea2|].
  by rewrite <- (in_mirrors _ Hb2), <- (in_mirrors _ Ha2), E.
Qed.
End Sync.
