(* ===== verification/AllocFacts.v ===== *)
(** What the library does when allocations fail: any of them, at any time. The
    invariant of a node does not depend on the memory that is left; a message
    is queued for as many recipients as there is memory for. *)
From S2P Require Import Prelude.
From S2P Require Import Config.
From S2P Require Import Utils.
From S2P Require Import World.
From S2P Require Import Member.
From S2P Require Import VectorClock.
From S2P Require Import Messages.
From S2P Require Import Queue.
From S2P Require Import DataLog.
From S2P Require Import Gossip.
From S2P Require Import Node.
From S2P Require Import MemberFacts.
From S2P Require Import MemberSetFacts.
From S2P Require Import VectorClockFacts.
From S2P Require Import CompareFacts.
From S2P Require Import WireFacts.
From S2P Require Import MessageFacts.
From S2P Require Import DataLogFacts.
From S2P Require Import QueueFacts.
From S2P Require Import OutboxFacts.
From S2P Require Import EnqueueFacts.
From S2P Require Import NodeFacts.
From S2P Require Import HandlerFacts.
From S2P Require Import PublicFacts.
From S2P Require Import FrameFacts.
From S2P Require Import StateFacts.

(** * Code that does not look at the environment *)

Definition reworld {Ctx A} (w : world) (r : out (A * node Ctx)) : out (A * node Ctx) :=
  match r with
  | Ok (a, n) => Ok (a, Node (n_self n) w (n_context n))
  | Ub => Ub
  | Nofuel => Nofuel
  end.

Section Worldless.
Context {Ctx : Type}.
Implicit Types n : node Ctx.

(** With another environment the code does the same. *)
Definition worldless {A} (m : M (node Ctx) A) : Prop :=
  forall g w w' c, m (Node g w' c) = reworld w' (m (Node g w c)).

Lemma worldless_ret {A} (a : A) : worldless (mret a).
Proof. done. Qed.

Lemma worldless_self : worldless self.
Proof. done. Qed.

Lemma worldless_modify f : worldless (modify_self f).
Proof. done. Qed.

Lemma worldless_liftO {A} (m : out A) : worldless (liftO m).
Proof. intros g w w' c. unfold liftO. by destruct m. Qed.

Lemma worldless_bind {A B} (m : M (node Ctx) A) (f : A -> M (node Ctx) B) :
  worldless m -> (forall a, worldless (f a)) -> worldless (m ≫= f).
Proof.
  intros Hm Hf g w w' c. unfold mbind, M_bind. rewrite (Hm g w w' c).
  destruct (m (Node g w c)) as [[a [g1 w1 c1]]| |]; cbn; [|done..]. apply (Hf a g1 w1 w' c1).
Qed.
End Worldless.

Ltac worldless_tac :=
  repeat match goal with
  | |- worldless (mbind _ _) => apply worldless_bind; [|intros ?]
  | |- worldless (match ?x with _ => _ end) => destruct x
  | |- _ => first [apply worldless_ret|apply worldless_self|apply worldless_modify|apply worldless_liftO]
  end.

(** * A node whatever the memory *)

(** The same host, with memory that never runs out. *)
Definition plenty (o : oracle) : oracle :=
  Oracle (fun _ => true) (timeofday o) (random o) (sendto o) (socket o) (fcntl o) (bind o)
    (getsockname o).
Definition fed_world (w : world) : world :=
  World (plenty (answers w)) (allocs w) (time_calls w) (random_calls w) (sent w) (inbox w) (closed w).

Section Starved.
Context {Ctx : Type}.
Implicit Types n : node Ctx.

Definition fed n : node Ctx := Node (n_self n) (fed_world (n_world n)) (n_context n).

(** In good order, but for the memory. *)
Definition stands n (xs : list entry) (cells : list member_cell) : Prop := node_ok (fed n) xs cells.

Lemma node_ok_stands n xs cells : node_ok n xs cells -> stands n xs cells.
Proof. intros [[] ? ? ? ? ? ?]. by split; [split|..]. Qed.

(** What code without environment does with memory it does without. *)
Lemma wp_worldless {A} (m : M (node Ctx) A) n Q :
  worldless m -> wp m (fed n) Q -> wp m n (fun a n' => n_world n' = n_world n /\ Q a (fed n')).
Proof.
  destruct n as [g w c]. intros Hm. unfold wp, fed. cbn [n_self n_world n_context].
  pose proof (Hm g w w c) as Ew. rewrite (Hm g w (fed_world w) c).
  destruct (m (Node g w c)) as [[a [g1 w1 c1]]| |]; cbn in *; [|done..].
  injection Ew as ->. done.
Qed.

Lemma enq_frame_fed n n' :
  enq_frame (fed n) (fed n') -> world_le (n_world n) (n_world n') -> enq_frame n n'.
Proof. intros [] Hw. by split. Qed.

Lemma stands_frame n n' xs xs' cells :
  stands n xs cells -> enq_frame n n' -> outbox (fed n') xs' -> is_u32 (g_sequence_num (n_self n')) ->
  stands n' xs' cells.
Proof.
  intros [_ [Hset Hf] Hc Hl Ha _ Hi] [] Hob Hseq. unfold fed in *. cbn in *.
  split; cbn; try congruence; try done. by split; cbn; congruence.
Qed.

(** * Queueing for as many recipients as possible *)

(** The envelopes for the first recipients were queued; all of them when the
    result is [PITTACUS_ERR_NONE]. *)
Definition queued_some (slot size attempts : Z) (rs : list recipient) n xs (res : Z) n' : Prop :=
  enq_frame n n' /\ g_output_buffer (n_self n') = g_output_buffer (n_self n) /\
  is_u32 (g_sequence_num (n_self n')) /\
  exists (k : nat) (news : list entry),
    news.*2 = take k (new_envelopes slot size attempts (g_sequence_num (n_self n)) rs) /\
    outbox (fed n') (xs ++ news) /\
    (res = PITTACUS_ERR_NONE /\ k = length rs \/
     res = PITTACUS_ERR_ALLOCATION_FAILED /\ (k < length rs)%nat).

Lemma queued_some_nil slot size attempts n xs :
  outbox (fed n) xs -> is_u32 (g_sequence_num (n_self n)) ->
  queued_some slot size attempts [] n xs PITTACUS_ERR_NONE n.
Proof.
  intros Hn Hs. split_and!; try done; try apply Hs. exists 0%nat, []. rewrite app_nil_r. auto.
Qed.

Lemma queued_some_cons slot size attempts r rs n xs n' l n2 res :
  enq_frame n n' -> g_output_buffer (n_self n') = g_output_buffer (n_self n) ->
  g_sequence_num (n_self n') = u32 (g_sequence_num (n_self n) + 1) ->
  queued_some slot size attempts rs n'
    (xs ++ [(l, new_envelope slot size attempts (u32 (g_sequence_num (n_self n) + 1)) r)]) res n2 ->
  queued_some slot size attempts (r :: rs) n xs res n2.
Proof.
  intros Hf Ho Hseq (Hf' & Ho' & Hs' & k & news & En & Hn' & Hres). split; [by etrans|].
  split; [congruence|]. split; [done|].
  rewrite <- app_assoc in Hn'. exists (S k). eexists. split; [|split; [exact Hn'|]].
  - rewrite fmap_app, En, Hseq. done.
  - cbn [length]. destruct Hres as [[-> ->]|[-> ?]]; [left; done|right; split; [done|lia]].
Qed.

(** No memory: nothing is queued, but a sequence number is used up. *)
Lemma wp_to_outbound_any n xs slot size attempts r :
  outbox (fed n) xs -> 0 <= slot < MAX_OUTPUT_MESSAGES -> recipient_ok r ->
  wp (gossip_enqueue_to_outbound (slot * MESSAGE_MAX_SIZE) size attempts (fst r) (snd r)) n
    (fun res n' => enq_frame n n' /\ g_output_buffer (n_self n') = g_output_buffer (n_self n) /\
       g_sequence_num (n_self n') = u32 (g_sequence_num (n_self n) + 1) /\
       (res = PITTACUS_ERR_NONE /\
          (exists l, outbox (fed n') (xs ++ [(l, new_envelope slot size attempts
                                       (u32 (g_sequence_num (n_self n) + 1)) r)])) \/
        res = PITTACUS_ERR_ALLOCATION_FAILED /\ outbox (fed n') xs)).
Proof.
  intros Hn Hslot [Hr Hr']. pose proof Hn as [Hq Hs Hf Ho _]. cbn [fed n_self n_world fed_world allocs] in *.
  unfold gossip_enqueue_to_outbound. apply wp_bind, wp_self.
  apply wp_bind, wp_modify_self, wp_bind, wp_liftW.
  unfold gossip_envelope_create. cbn [n_self n_world n_context].
  apply wp_bind, wp_malloc. intros w' Hle Ha Hsent Hin.
  destruct (alloc_ok (answers (n_world n)) (allocs (n_world n))).
  2:{ apply wp_ret, wp_ret. split_and!; try done. right. split; [done|]. split; try done. cbn. rewrite Ha.
      apply (Forall_impl _ _ _ Hf). intros e ?. lia. }
  apply wp_bind. eapply wp_lift; [by apply rd_prefix|].
  destruct (Z.ltb_spec sizeof_sockaddr_storage (snd r)) as [?|_]; [lia|].
  apply wp_ret. cbn beta iota.
  set (x := Envelope _ _ _ _ _ _ _ _ _ _). set (l := allocs (n_world n)) in *.
  apply wp_bind, wp_modify_self. cbn [n_self n_world n_context].
  destruct (enqueue_repr _ xs Hq l x) as (q' & Eq & Hq').
  { destruct (q_heap (g_outbound_messages (n_self n)) !! l) as [e|] eqn:E; [|done].
    apply (qr_only _ _ Hq) in E as ([l' y] & El & He)%list_elem_of_fmap. cbn in El. subst l'.
    pose proof (proj1 (Forall_forall _ _) Hf _ He) as Hlt. cbn in Hlt. lia. }
  { done. }
  apply wp_bind. eapply wp_queue_op; [exact Eq|]. apply wp_ret. cbn [n_self n_world n_context].
  split_and!; try done. left. split; [done|]. exists l. split; try done.
  - apply Forall_app. split; [done|]. apply Forall_singleton. by apply new_envelope_slot_ok.
  - cbn [fed n_world fed_world allocs]. rewrite Ha. apply Forall_app.
    split; [|apply Forall_singleton; cbn; lia]. apply (Forall_impl _ _ _ Hf). intros e ?. lia.
Qed.

Lemma wp_enqueue_all_any slot size attempts ms : forall n xs res,
  outbox (fed n) xs -> is_u32 (g_sequence_num (n_self n)) -> 0 <= slot < MAX_OUTPUT_MESSAGES ->
  Forall (fun m => recipient_ok (recipient_of m)) ms -> res = PITTACUS_ERR_NONE ->
  wp (enqueue_all (slot * MESSAGE_MAX_SIZE) size attempts ms res) n
    (queued_some slot size attempts (recipient_of <$> ms) n xs).
Proof.
  induction ms as [|m ms IH]; intros n xs res Hn Hu Hslot Hf ->.
  { apply wp_ret. by apply queued_some_nil. }
  apply Forall_cons in Hf as [Hm Hf]. cbn [enqueue_all]. apply wp_bind.
  eapply wp_mono; [exact (wp_to_outbound_any n xs slot size attempts (recipient_of m) Hn Hslot Hm)|].
  intros r n' (Hfr & Ho & Hseq & [[-> (l & Hn')]|[-> Hn']]); cbn beta.
  - change (PITTACUS_ERR_NONE <? 0) with false. eapply wp_mono; [eapply IH; [exact Hn'| |done..]|].
    + rewrite Hseq. apply u32_range.
    + intros r n2 He. by eapply queued_some_cons.
  - change (PITTACUS_ERR_ALLOCATION_FAILED <? 0) with true. apply wp_ret. split; [done|]. split; [done|].
    split; [rewrite Hseq; apply u32_range|]. exists 0%nat, []. rewrite app_nil_r. split; [done|].
    split; [done|]. right. split; [done|]. rewrite length_fmap. cbn. lia.
Qed.

(** A message written to a slot and queued for the first recipients. *)
Definition message_queued (m : message) (rs : list recipient) n xs (res : Z) n' xs' : Prop :=
  exists slot xs1 (k : nat) (news : list entry), available xs slot xs1 /\ xs' = xs1 ++ news /\
    outbox (fed n') xs' /\
    news.*2 = take k (new_envelopes slot (zlen (msg_wire m)) (msg_attempts m)
                        (g_sequence_num (n_self n)) rs) /\
    g_output_buffer (n_self n') = put_slot slot (msg_wire m) (g_output_buffer (n_self n)) /\
    is_u32 (g_sequence_num (n_self n')) /\ enq_frame n n' /\
    (res = PITTACUS_ERR_NONE /\ k = length rs \/
     res = PITTACUS_ERR_ALLOCATION_FAILED /\ (k < length rs)%nat).

Lemma message_queued_stands m rs n xs res n' xs' cells :
  stands n xs cells -> message_queued m rs n xs res n' xs' -> stands n' xs' cells /\ enq_frame n n'.
Proof.
  intros Hn (slot & xs1 & k & news & _ & _ & Hob & _ & _ & Hseq & Hfr & _).
  split; [by eapply stands_frame|done].
Qed.

Lemma message_queued_result m rs n xs res n' xs' :
  message_queued m rs n xs res n' xs' -> res = PITTACUS_ERR_NONE \/ res = PITTACUS_ERR_ALLOCATION_FAILED.
Proof. intros (? & ? & ? & ? & _ & _ & _ & _ & _ & _ & _ & [[-> _]|[-> _]]); auto. Qed.

Lemma worldless_offset : worldless (gossip_update_output_buffer_offset (Ctx := Ctx)).
Proof. unfold gossip_update_output_buffer_offset. worldless_tac. Qed.

Lemma wp_distribute_any slot size attempts to len st n xs cells :
  outbox (fed n) xs -> is_u32 (g_sequence_num (n_self n)) -> members_ok n cells ->
  0 <= slot < MAX_OUTPUT_MESSAGES -> st <> GOSSIP_BROADCAST ->
  (st = GOSSIP_DIRECT -> recipient_ok (default [] to, len)) ->
  wp (match st with
      | GOSSIP_DIRECT =>
          gossip_enqueue_to_outbound (slot * MESSAGE_MAX_SIZE) size attempts (default [] to) len
      | GOSSIP_RANDOM =>
          reservoir ← liftW (cluster_member_set_random_members (g_members (n_self n))
                               MESSAGE_RUMOR_FACTOR);
          enqueue_all (slot * MESSAGE_MAX_SIZE) size attempts (cell_member <$> reservoir)
            PITTACUS_ERR_NONE
      | GOSSIP_BROADCAST =>
          broadcast_loop (Z.to_nat (ms_size (g_members (n_self n)))) 0
            (slot * MESSAGE_MAX_SIZE) size attempts PITTACUS_ERR_NONE
      end) n
    (fun r n' => exists rs, spread_to cells to len st rs /\ queued_some slot size attempts rs n xs r n').
Proof.
  intros Hn Hu Hm Hslot Hst Hto. pose proof (members_recipients n cells Hm) as Hrec.
  pose proof Hm as [Hset _]. destruct st; [| |done].
  - eapply wp_mono; [exact (wp_to_outbound_any n xs slot size attempts (default [] to, len)
                              Hn Hslot (Hto eq_refl))|].
    intros r n' (Hfr & Ho & Hseq & Hcase). exists [(default [] to, len)]. split; [done|].
    assert (is_u32 (g_sequence_num (n_self n'))) as Hu' by (rewrite Hseq; apply u32_range).
    destruct Hcase as [[-> (l & Hn')]|[-> Hn']].
    + eapply queued_some_cons; try done. by apply queued_some_nil.
    + split; [done|]. split; [done|]. split; [done|]. exists 0%nat, []. rewrite app_nil_r. split; [done|].
      split; [done|]. right. split; [done|]. cbn. lia.
  - apply wp_bind, wp_liftW. eapply wp_random_members; [exact Hset|done|].
    intros r w' Hr Hlen _ Hw Ha Hsent Hin. set (n1 := Node (n_self n) w' (n_context n)).
    assert (outbox (fed n1) xs) as Hn1.
    { destruct Hn as [Hq Hs Hf Ho _]. split; try done. cbn in *. by rewrite Ha. }
    eapply wp_mono; [apply (wp_enqueue_all_any slot size attempts (cell_member <$> r) n1 xs); try done|].
    + apply Forall_fmap, Forall_forall. intros c Hc. apply (sample_of_elem _ _ _ _ Hr) in Hc.
      apply (proj1 (Forall_forall _ _) Hrec c Hc).
    + intros res n2 (Hfr & Hrest). exists (recipient_of <$> set_members_of r). split.
      { exists r. split; [done|]. split; [|done]. rewrite Hlen. f_equal.
        by destruct Hset as (_ & ? & _). }
      split; [|exact Hrest]. etrans; [|exact Hfr]. by split.
Qed.

(** Queueing a message, whatever allocations fail. *)
Lemma wp_enqueue_message_any m to len st n xs cells :
  stands n xs cells -> msg_wf m -> msg_need m <= MESSAGE_MAX_SIZE -> st <> GOSSIP_BROADCAST ->
  (st = GOSSIP_DIRECT -> recipient_ok (default [] to, len)) ->
  wp (gossip_enqueue_message (msg_type_of m) m to len st) n
    (fun r n' => exists rs xs', spread_to cells to len st rs /\ message_queued m rs n xs r n' xs').
Proof.
  intros Hok Hm Hneed Hst Hto. pose proof (msg_need_wire m Hm) as Hlw.
  pose proof (no_outbox _ _ _ Hok) as Hn. unfold gossip_enqueue_message. apply wp_bind.
  eapply wp_mono; [apply wp_worldless; [apply worldless_offset|by apply wp_update_output_buffer_offset]|].
  intros off n1 (Hw1 & slot & xs1 & -> & Hav & Hn1 & Hfr & Ho & Hseq). cbn beta.
  assert (enq_frame n n1) as Hfr1 by (apply enq_frame_fed; [done|by rewrite Hw1]).
  pose proof (available_range _ _ _ (ob_slots _ _ Hn) Hav) as Hr.
  apply wp_bind, wp_self, wp_bind.
  eapply wp_lift.
  { apply gossip_encode_message_ok; [done|done|]. pose proof (ob_out _ _ Hn1) as Ho1. cbn [fed n_self] in Ho1.
    rewrite zlen_zdrop_max by config_lia. config_lia. }
  cbn beta iota. apply wp_bind, wp_modify_self.
  destruct (Z.ltb_spec (zlen (msg_wire m)) 0) as [?|_]; [config_lia|].
  fold (put_slot slot (msg_wire m) (g_output_buffer (n_self n1))).
  set (out := put_slot _ _ _). set (n2 := Node _ _ _).
  assert (outbox (fed n2) xs1) as Hn2.
  { destruct Hn1 as [Hq Hs Hf Ho1 Hoom]. split; try done. cbn. apply zlen_put_slot; [done|done|lia]. }
  assert (members_ok n2 cells) as Hmem2.
  { destruct (no_members _ _ _ Hok) as [Hset Hf]. split; [|done]. cbn. by rewrite (ef_members _ _ Hfr1). }
  assert (is_u32 (g_sequence_num (n_self n2))) as Hu2.
  { cbn in *. rewrite Hseq. apply (no_seq _ _ _ Hok). }
  eapply wp_mono; [exact (wp_distribute_any slot _ _ to len st n2 xs1 cells Hn2 Hu2 Hmem2 Hr Hst Hto)|].
  intros r n3 (rs & Hrs & Hfr' & Ho' & Hu' & k & news & En & Hn3 & Hres).
  exists rs, (xs1 ++ news). split; [done|]. exists slot, xs1, k, news.
  change (g_sequence_num (n_self n2)) with (g_sequence_num (n_self n1)) in En.
  cbn [fed n_self] in Hseq, Ho. rewrite Hseq in En.
  split; [done|]. split; [done|]. split; [done|]. split; [done|]. split; [|split; [done|split; [|done]]].
  - rewrite Ho'. cbn. subst out. by rewrite Ho.
  - etrans; [exact Hfr1|]. etrans; [|exact Hfr']. by split.
Qed.

(** * Enqueueing functions *)

(** A call that may have run short of memory: the node stands, and only the
    queue and what belongs to it moved. *)
Definition short n (cells : list member_cell) (r : Z) n' : Prop :=
  (r = PITTACUS_ERR_NONE \/ r = PITTACUS_ERR_ALLOCATION_FAILED) /\
  (exists xs', stands n' xs' cells) /\ enq_frame n n'.

Lemma short_trans n cells r n1 r' n2 : short n cells r n1 -> short n1 cells r' n2 -> short n cells r' n2.
Proof. intros (_ & _ & Hf) (Hr & Hs & Hf'). split; [done|]. split; [done|]. by etrans. Qed.

Lemma short_none n xs cells : stands n xs cells -> short n cells PITTACUS_ERR_NONE n.
Proof. intros Hn. split; [by left|]. split; [by exists xs|done]. Qed.

Lemma wp_message_short m to len st n xs cells :
  stands n xs cells -> msg_wf m -> msg_need m <= MESSAGE_MAX_SIZE -> st <> GOSSIP_BROADCAST ->
  (st = GOSSIP_DIRECT -> recipient_ok (default [] to, len)) ->
  wp (gossip_enqueue_message (msg_type_of m) m to len st) n (short n cells).
Proof.
  intros Hn Hm Hneed Hst Hto. eapply wp_mono; [by apply (wp_enqueue_message_any m to len st n xs cells)|].
  intros r n' (rs & xs' & _ & Hq). destruct (message_queued_stands _ _ _ _ _ _ _ _ Hn Hq) as [Hn' Hf].
  split; [by eapply message_queued_result|split; [by exists xs'|done]].
Qed.

Lemma wp_ack_short seq to len n xs cells :
  stands n xs cells -> is_u32 seq -> recipient_ok (to, len) ->
  wp (gossip_enqueue_ack seq to len) n (short n cells).
Proof.
  intros Hn Hs Hto. unfold gossip_enqueue_ack. by apply (wp_message_short (ack_of seq) _ _ _ n xs).
Qed.

Lemma wp_status_short to len n xs cells :
  stands n xs cells -> match to with Some a => recipient_ok (a, len) | None => True end ->
  wp (gossip_enqueue_status to len) n (short n cells).
Proof.
  intros Hn Hto. pose proof (no_clock _ _ _ Hn) as [Hc _]. cbn [fed n_self] in Hc.
  unfold gossip_enqueue_status. apply wp_bind, wp_self, wp_bind.
  destruct (vector_clock_copy_ok vector_clock_init (g_data_version (n_self n)) Hc)
    as (c & Ec & _ & Hcok & _); [done|].
  eapply wp_lift; [exact Ec|]. destruct (status_of_ok c Hcok) as [Hwf Hneed].
  apply (wp_message_short (status_of c) to len _ n xs); try done; by destruct to.
Qed.

Lemma wp_log_loop_short rv to len cells ys : forall (i : nat) n xs res,
  stands n xs cells -> log_sendable (g_data_log (n_self n)) -> clock_ok rv ->
  recipient_ok (to, len) -> drop i (live_log (g_data_log (n_self n))) = ys -> res = PITTACUS_ERR_NONE ->
  wp (data_log_loop (length ys) (Z.of_nat i) rv to len res) n (short n cells).
Proof.
  induction ys as [|rec ys IH]; intros i n xs res Hn Hs Hrv Hto Ed ->.
  { apply wp_ret. by eapply short_none. }
  cbn [length data_log_loop]. apply wp_bind, wp_self.
  assert (live_log (g_data_log (n_self n)) !! i = Some rec) as Hi
    by (rewrite <- (Nat.add_0_r i), <- lookup_drop, Ed; done).
  assert (drop (S i) (live_log (g_data_log (n_self n))) = ys) as Ed'
    by (rewrite <- (Nat.add_1_r i), <- drop_drop, Ed; done).
  destruct (log_reply_ok _ _ _ (no_log _ _ _ Hn) Hs Hi) as (Hv & Hwf & Hneed).
  apply wp_bind. eapply wp_lift; [apply aread_Ok; by apply live_log_lookup|].
  apply wp_bind. eapply wp_lift; [by apply compare_with_record_read|]. cbn [fst].
  replace (Z.of_nat i + 1) with (Z.of_nat (S i)) by lia.
  case_bool_decide as Hb; [|by apply (IH (S i) n xs)].
  apply wp_bind. eapply wp_mono; [by apply (wp_message_short (log_reply rec) (Some to) len GOSSIP_DIRECT n xs cells)|].
  intros r n1 Hsh. cbn beta. pose proof Hsh as ([-> | ->] & (xs1 & Hn1) & Hf1).
  - change (PITTACUS_ERR_NONE <? 0) with false.
    eapply wp_mono; [apply (IH (S i) n1 xs1); try done; by rewrite (ef_log _ _ Hf1)|].
    intros r n2 Hsh2. by eapply short_trans.
  - change (PITTACUS_ERR_ALLOCATION_FAILED <? 0) with true. by apply wp_ret.
Qed.

Lemma wp_data_log_short rv to len n xs cells :
  stands n xs cells -> log_sendable (g_data_log (n_self n)) -> clock_ok rv -> recipient_ok (to, len) ->
  wp (gossip_enqueue_data_log rv to len) n (short n cells).
Proof.
  intros Hn Hs Hrv Hto. unfold gossip_enqueue_data_log. apply wp_bind, wp_self.
  rewrite <- (length_live_log (g_data_log (n_self n)) (no_log _ _ _ Hn)).
  by apply (wp_log_loop_short rv to len cells _ 0 n xs).
Qed.

(** * Handlers *)

Context (data_receiver : option (list Z -> Z -> M (node Ctx) unit)) (deliver : list Z -> Ctx -> Ctx).

(** Data: noted and delivered whether it can be acknowledged or not. *)
Lemma wp_handle_data_short e (t : message_data) n xs cells :
  stands n xs cells -> connected n -> carries_in e t -> receives data_receiver deliver (payload t) ->
  wp (gossip_handle_data data_receiver e) n
    (fun r n' => (r = PITTACUS_ERR_NONE \/ r = PITTACUS_ERR_ALLOCATION_FAILED) /\
       (exists xs', stands n' xs' cells) /\ connected n' /\
       if bool_decide (newer_msg (g_data_version (n_self n)) t)
       then noted n n' t /\ n_context n' = deliver (payload t) (n_context n)
       else g_data_version (n_self n') = g_data_version (n_self n) /\
            g_data_log (n_self n') = g_data_log (n_self n) /\ n_context n' = n_context n).
Proof.
  intros Hn Hc (Hwf & Hl & [rest Hb] & Hsz & Hrec) Hdel. apply wp_connected; [done|].
  destruct (data_decode_ok t rest Hwf) as (t' & Ed & He & Hwf'); [config_lia|].
  pose proof He as (Eh & Ev & Es & Ep). pose proof Hwf' as (Hh & _ & Hv & Hn16 & Hd).
  assert (data_data_size t' <= MAX_PAYLOAD) as Hmax.
  { rewrite Es. rewrite zlen_wire_data in Hl by done. unfold MAX_PAYLOAD. config_lia. }
  apply wp_bind. eapply wp_lift; [rewrite Hb, Hsz; exact Ed|]. cbn beta iota.
  rewrite wire_nonneg. apply wp_bind. rewrite Eh in Hh |- *. eapply wp_mono.
  { eapply (wp_ack_short (mh_sequence_num (data_header t))); [exact Hn| |exact Hrec].
    by destruct Hh as (_ & _ & _ & ?). }
  intros r n1 (_ & (xs1 & Hn1) & Hf1). apply wp_bind, wp_self, wp_bind.
  destruct (compare_with_record_spec _ (data_data_version t') true (no_clock _ _ _ Hn1) Hv)
    as (c' & Ec & Hc' & Hcase).
  eapply wp_lift; [exact Ec|]. cbn beta iota. apply wp_bind, wp_modify_self.
  cbn [fed n_self] in Hcase. rewrite record_comp_before. rewrite (ef_version _ _ Hf1) in *. rewrite Ev in *.
  unfold newer_msg. cbn [andb] in Hcase. cbn [fed n_self]. rewrite (ef_version _ _ Hf1).
  case_bool_decide as Hnew.
  - apply wp_bind, wp_self, wp_bind.
    set (n2 := Node (set_data_version c' (n_self n1)) (n_world n1) (n_context n1)).
    assert (stands n2 xs1 cells) as Hn2 by by apply (node_ok_version (fed n1)).
    destruct (gossip_data_log_repr _ (no_log _ _ _ Hn2) t') as (log' & El & Hlog' & Hview).
    { split; [by rewrite Ev|]. unfold MAX_PAYLOAD in Hmax. split; [config_lia|done]. }
    eapply wp_lift; [exact El|]. apply wp_bind, wp_modify_self.
    set (n3 := Node _ _ _). assert (stands n3 xs1 cells) as Hn3 by by apply (node_ok_log (fed n2)).
    apply wp_bind.
    set (n4 := Node (n_self n3) (n_world n3) (deliver (payload t) (n_context n3))).
    assert (stands n4 xs1 cells) as Hn4 by by apply (node_ok_context (fed n3)).
    apply (wp_mono _ _ (fun _ n' => n' = n4)).
    { unfold receives in Hdel. destruct data_receiver as [receive|].
      - by apply Hdel.
      - apply wp_ret. subst n4. by rewrite Hdel. }
    intros ? n' ->. eapply wp_mono; [apply (wp_message_short (MsgData t') None 0 GOSSIP_RANDOM n4 xs1 cells Hn4 Hwf')|].
    { cbn. unfold MAX_PAYLOAD in Hmax. config_lia. }
    { done. } { done. }
    intros r' n5 (Hr5 & Hs5 & Hf5). split; [done|]. split; [done|].
    split; [unfold connected; rewrite (ef_state _ _ Hf5); cbn; by rewrite (ef_state _ _ Hf1)|].
    rewrite bool_decide_true by done. split; [split|].
    + rewrite (ef_version _ _ Hf5). exact Hcase.
    + rewrite (ef_log _ _ Hf5). change (g_data_log (n_self n4)) with log'. rewrite Hview.
      change (g_data_log (n_self (fed n2))) with (g_data_log (n_self n1)). rewrite (ef_log _ _ Hf1).
      f_equal. unfold data_entry. by rewrite Ev, Ep.
    + rewrite (ef_context _ _ Hf5). cbn. by rewrite (ef_context _ _ Hf1).
  - apply wp_ret. split; [by left|]. rewrite Hcase.
    assert (Node (set_data_version (g_data_version (n_self n)) (n_self n1)) (n_world n1)
              (n_context n1) = n1) as ->.
    { rewrite <- (ef_version _ _ Hf1). by destruct n1 as [[] ? ?]. }
    split; [by exists xs1|]. split; [by unfold connected; rewrite (ef_state _ _ Hf1)|].
    rewrite bool_decide_false by done. split; [apply (ef_version _ _ Hf1)|]. split; [apply (ef_log _ _ Hf1)|apply (ef_context _ _ Hf1)].
Qed.

(** An acknowledgement needs no memory. *)
Lemma worldless_ack e : worldless (gossip_handle_ack (Ctx := Ctx) e).
Proof.
  unfold gossip_handle_ack, return_if_not_connected, remove_by_sequence_num, queue_op. worldless_tac.
Qed.

Lemma wp_handle_ack_short e (t : message_ack) n xs cells :
  stands n xs cells -> connected n -> carries_in e t ->
  wp (gossip_handle_ack e) n (short n cells).
Proof.
  intros Hn Hc Ht. eapply wp_mono; [apply wp_worldless; [apply worldless_ack|by apply (wp_handle_ack e t _ xs cells)]|].
  intros r n' (Hw & -> & Hq%queue_only_frame & Hn'). split; [by left|].
  split; [by eexists|]. apply enq_frame_fed; [done|by rewrite Hw].
Qed.

(** A status is answered as far as memory goes. *)
Lemma wp_handle_status_short e (t : message_status) n xs cells :
  stands n xs cells -> connected n -> carries_in e t -> log_sendable (g_data_log (n_self n)) ->
  wp (gossip_handle_status e) n (short n cells).
Proof.
  intros Hn Hc (Hwf & Hl & [rest Hb] & Hsz & Hrec) Hlog. apply wp_connected; [done|].
  destruct (status_decode_ok t rest Hwf) as (t' & Ed & (Eh & Ev) & Hwf').
  apply wp_bind. eapply wp_lift; [rewrite Hb, Hsz; exact Ed|]. cbn beta iota.
  rewrite wire_nonneg. destruct Hwf' as (Hh & _ & Hck). rewrite Eh in Hh |- *. apply wp_bind.
  eapply wp_mono.
  { eapply (wp_ack_short (mh_sequence_num (status_header t))); [exact Hn| |exact Hrec].
    by destruct Hh as (_ & _ & _ & ?). }
  intros r n1 Hsh. pose proof Hsh as (_ & (xs1 & Hn1) & Hf1).
  apply wp_bind, wp_self, wp_bind. eapply wp_lift.
  { apply vector_clock_compare_read; [apply (no_clock _ _ _ Hn1)|done]. }
  assert (log_sendable (g_data_log (n_self n1))) as Hlog1 by by rewrite (ef_log _ _ Hf1).
  cbn beta iota. destruct (compare_maps _ _).
  - eapply wp_mono; [by apply (wp_status_short (Some (ei_sender e)) _ n1 xs1 cells)|].
    intros r' n2. by apply short_trans with (r := r).
  - eapply wp_mono; [by apply (wp_data_log_short _ _ _ n1 xs1 cells)|].
    intros r' n2. by apply short_trans with (r := r).
  - apply wp_ret. eapply short_trans; [exact Hsh|by eapply short_none].
  - apply wp_bind. eapply wp_mono; [by apply (wp_data_log_short _ _ _ n1 xs1 cells)|].
    intros r' n2 Hsh2. pose proof Hsh2 as ([-> | ->] & (xs2 & Hn2) & Hf2).
    + change (PITTACUS_ERR_NONE <? 0) with false. cbn iota.
      eapply wp_mono; [by apply (wp_status_short (Some (ei_sender e)) _ n2 xs2 cells)|].
      intros r' n3 Hsh3. eapply short_trans; [exact Hsh|]. by eapply short_trans.
    + change (PITTACUS_ERR_ALLOCATION_FAILED <? 0) with true. cbn iota. apply wp_ret.
      by eapply short_trans.
Qed.

(** * Messages with members *)

(** The first allocation of the next call fails. *)
Definition no_memory n : Prop := alloc_ok (answers (n_world n)) (allocs (n_world n)) = false.

(** The message is refused, nothing but the memory account moved. *)
Definition turned_away n (r : Z) n' : Prop :=
  r = PITTACUS_ERR_ALLOCATION_FAILED /\ n_self n' = n_self n /\ n_context n' = n_context n /\
  world_le (n_world n) (n_world n').

Lemma wp_refused {T} `{Codec T} (t : T) (dec : decoder T) buf size (k : Z -> T -> M (node Ctx) Z) n :
  wp (dec buf size) (n_world n) (decoded_any t (n_world n)) -> no_memory n ->
  wp (r ← liftW (dec buf size);
      match r with (res, Some msg) => k res msg | (res, None) => mret res end) n (turned_away n).
Proof.
  intros Hd Hno. apply wp_bind, wp_liftW. eapply wp_mono; [exact Hd|].
  intros r w' Hdec. unfold decoded_any in Hdec. rewrite Hno in Hdec. destruct Hdec as (-> & Hle & _).
  by apply wp_ret.
Qed.

Lemma carries_decode {T} `{Codec T} e (t : T) :
  carries_in e t -> exists rest, ei_buffer e = wire t ++ rest /\ ei_buffer_size e = zlen (wire t) /\
  codec_wf t /\ zlen (wire t) < 2 ^ 31.
Proof. intros (Hwf & Hl & [rest Hb] & Hsz & _). exists rest. split_and!; try done. config_lia. Qed.

Lemma wp_hello_refused e (t : message_hello) n :
  connected n -> carries_in e t -> no_memory n -> wp (gossip_handle_hello e) n (turned_away n).
Proof.
  intros Hc Ht Hno. apply wp_connected; [done|]. destruct (carries_decode e t Ht) as (rest & -> & -> & Hwf & Hl).
  apply (wp_refused t message_hello_decode); [by apply wp_hello_decode_any|done].
Qed.

Lemma wp_welcome_refused e (t : message_welcome) n :
  carries_in e t -> no_memory n -> wp (gossip_handle_welcome e) n (turned_away n).
Proof.
  intros Ht Hno. destruct (carries_decode e t Ht) as (rest & Eb & Es & Hwf & Hl).
  unfold gossip_handle_welcome. rewrite Eb, Es.
  apply (wp_refused t message_welcome_decode); [by apply wp_welcome_decode_any|done].
Qed.

Lemma wp_list_refused e (t : message_member_list) n :
  connected n -> carries_in e t -> no_memory n -> wp (gossip_handle_member_list e) n (turned_away n).
Proof.
  intros Hc Ht Hno. apply wp_connected; [done|]. destruct (carries_decode e t Ht) as (rest & -> & -> & Hwf & Hl).
  apply (wp_refused t message_member_list_decode); [by apply wp_list_decode_any|done].
Qed.

(** * Sending data *)

(** The message [t] was queued as far as memory went: written to a slot and
    queued for members the code sampled, for all of them when the result is
    [PITTACUS_ERR_NONE], and for the first of them, but not for all, when it
    is [PITTACUS_ERR_ALLOCATION_FAILED]. *)
Definition spread_as_far (t : message_data) n xs cells (res : Z) n' : Prop :=
  exists rs n1 xs', spread_to cells None 0 GOSSIP_RANDOM rs /\
    took_over (counted n) n1 (n_context n) /\
    message_queued (MsgData t) rs n1 xs res n' xs' /\ stands n' xs' cells.

Lemma wp_enqueue_data_short data size n xs cells :
  stands n xs cells -> 0 <= size <= MAX_PAYLOAD -> size <= zlen data ->
  wp (gossip_enqueue_data data size) n
    (fun r n' => (r = PITTACUS_ERR_NONE \/ r = PITTACUS_ERR_ALLOCATION_FAILED) /\
       g_data_counter (n_self n') = u32 (g_data_counter (n_self n) + 1) /\
       exists id, vector_clock_create_member_id (g_self_address (n_self n)) = Ok id /\
         noted n n' (own_data n id data size) /\
         spread_as_far (own_data n id data size) n xs cells r n').
Proof.
  intros Hn Hsz Hd. pose proof (no_address _ _ _ Hn) as ([Hmw Hz] & Ha & Hbytes). cbn [fed n_self] in *.
  destruct (vector_clock_create_member_id_ok (g_self_address (n_self n))) as (id & Eid & Hid);
    [lia|done|].
  pose proof (u32_range (g_data_counter (n_self n) + 1)) as Hctr.
  unfold gossip_enqueue_data. apply wp_bind, wp_self, wp_bind, wp_modify_self, wp_bind.
  destruct (vector_clock_set_by_id_spec (g_data_version (n_self n)) id
              (u32 (g_data_counter (n_self n) + 1)) (no_clock _ _ _ Hn) Hid Hctr)
    as (k & c' & Ec & Hc' & Hmap & Hrec).
  eapply wp_lift; [unfold vector_clock_set; rewrite Eid; exact Ec|]. cbn beta iota.
  apply wp_bind, wp_modify_self, wp_bind. eapply wp_lift; [by apply aread_Ok|].
  cbn [n_self n_world n_context]. unfold vector_clock_record_copy. rewrite vector_record_eta.
  fold (own_data n id data size). set (t := own_data n id data size).
  assert (data_msg_wf t) as Hdm.
  { split; [by split|]. unfold MAX_PAYLOAD in Hsz. cbn. split; [config_lia|done]. }
  destruct (gossip_data_log_repr _ (no_log _ _ _ Hn) t Hdm) as (log' & El & Hlog' & Hview).
  apply wp_bind. eapply wp_lift; [exact El|]. apply wp_bind, wp_modify_self. set (n1 := Node _ _ _).
  assert (stands n1 xs cells) as Hn1.
  { destruct Hn as [[Hq Hs Hf Ho Hoom] Hm Hc Hl Had Hseq Hin].
    split; [split|..]; done. }
  assert (msg_wf (MsgData t)) as Hwf.
  { cbn. unfold MAX_PAYLOAD in Hsz. split_and!; try done. cbn. config_lia. }
  eapply wp_mono; [apply (wp_enqueue_message_any (MsgData t) None 0 GOSSIP_RANDOM n1 xs cells Hn1 Hwf)|].
  { cbn. unfold MAX_PAYLOAD in Hsz. config_lia. }
  { done. } { done. }
  intros r n2 (rs & xs' & Hrs & Hq). destruct (message_queued_stands _ _ _ _ _ _ _ _ Hn1 Hq) as [Hn2 Hf2].
  split; [by eapply message_queued_result|].
  split; [by rewrite (ef_counter _ _ Hf2)|]. exists id. split; [done|]. split; [split|].
  - by rewrite (ef_version _ _ Hf2).
  - by rewrite (ef_log _ _ Hf2).
  - exists rs, n1, xs'. split; [done|]. split; [by exists c', log'|done].
Qed.
End Starved.
