(* ===== verification/AllocProps.v ===== *)
(** Failed allocations: what a node makes of a datagram, and of data to send,
    when the host is short of memory. *)
From S2P Require Import Prelude.
From S2P Require Import Config.
From S2P Require Import Utils.
From S2P Require Import World.
From S2P Require Import Member.
From S2P Require Import VectorClock.
From S2P Require Import Messages.
From S2P Require Import Queue.
From S2P Require Import DataLog.
From S2P Require Import Gossip.
From S2P Require Import Node.
From S2P Require Import MemberFacts.
From S2P Require Import MemberSetFacts.
From S2P Require Import VectorClockFacts.
From S2P Require Import CompareFacts.
From S2P Require Import WireFacts.
From S2P Require Import MessageFacts.
From S2P Require Import DataLogFacts.
From S2P Require Import QueueFacts.
From S2P Require Import OutboxFacts.
From S2P Require Import EnqueueFacts.
From S2P Require Import NodeFacts.
From S2P Require Import HandlerFacts.
From S2P Require Import PublicFacts.
From S2P Require Import FrameFacts.
From S2P Require Import StateFacts.
From S2P Require Import Samples.
From S2P Require Import SyncFacts.
From S2P Require Import AllocFacts.
From S2P Require Import StateFacts.

Section Arrivals.
Context {Ctx : Type}.
Context (recv : option (list Z -> Z -> M (node Ctx) unit)) (deliver : list Z -> Ctx -> Ctx).
Implicit Types n : node Ctx.

(** Messages whose handling adds members. *)
Definition lists_members (m : message) : Prop :=
  match m with MsgHello _ | MsgWelcome _ | MsgMemberList _ => True | _ => False end.

(** Clock, log and context are as before. *)
Definition unmoved n n' : Prop :=
  g_data_version (n_self n') = g_data_version (n_self n) /\
  g_data_log (n_self n') = g_data_log (n_self n) /\ n_context n' = n_context n.

(** What a connected node makes of a message when allocations fail. *)
Definition received_short (m : message) n (r : Z) n' : Prop :=
  match m with
  | MsgData t =>
      (r = PITTACUS_ERR_NONE \/ r = PITTACUS_ERR_ALLOCATION_FAILED) /\
      if bool_decide (newer_msg (g_data_version (n_self n)) t)
      then noted n n' t /\ n_context n' = deliver (payload t) (n_context n)
      else unmoved n n'
  | MsgAck _ | MsgStatus _ =>
      (r = PITTACUS_ERR_NONE \/ r = PITTACUS_ERR_ALLOCATION_FAILED) /\ unmoved n n'
  | MsgHello _ | MsgWelcome _ | MsgMemberList _ =>
      r = PITTACUS_ERR_ALLOCATION_FAILED /\ unmoved n n' /\
      g_members (n_self n') = g_members (n_self n) /\
      g_outbound_messages (n_self n') = g_outbound_messages (n_self n)
  end.

Lemma stands_received n xs cells d :
  stands n xs cells -> zlen (fst d) <= MESSAGE_MAX_SIZE ->
  stands (after_recv (arrives d n) (fst d) []) xs cells.
Proof. intros Hok Hl. exact (node_ok_received (fed n) xs cells d Hok Hl). Qed.

(** The state of a node that was turned away. *)
Lemma turned_away_received m n d r n' xs cells :
  stands n xs cells -> zlen (fst d) <= MESSAGE_MAX_SIZE -> connected n -> lists_members m ->
  turned_away (after_recv (arrives d n) (fst d) []) r n' ->
  (exists xs', stands n' xs' cells) /\ connected n' /\ received_short m n r n'.
Proof.
  intros Hn Hl Hc Hm (-> & Es & Ec & Hle). pose proof (stands_received n xs cells d Hn Hl) as Hn1.
  split; [|split].
  - exists xs. pose proof Hn1 as [[Hq Hs Hf Ho _] Hmm Hck Hlg Ha Hseq Hi].
    split; [split|..]; unfold members_ok; cbn; rewrite ?Es; try done.
    by apply (fresh_le _ n' xs Hle) in Hf.
  - unfold connected. by rewrite Es.
  - unfold received_short, unmoved. rewrite Es, Ec. by destruct m.
Qed.

Lemma short_received n d cells r n' :
  connected n -> short (after_recv (arrives d n) (fst d) []) cells r n' ->
  (exists xs', stands n' xs' cells) /\ connected n' /\
  (r = PITTACUS_ERR_NONE \/ r = PITTACUS_ERR_ALLOCATION_FAILED) /\ unmoved n n'.
Proof.
  intros Hc (Hr & Hs & Hf). split; [done|]. split; [unfold connected; by rewrite (ef_state _ _ Hf)|].
  split; [done|]. split; [apply (ef_version _ _ Hf)|]. split; [apply (ef_log _ _ Hf)|apply (ef_context _ _ Hf)].
Qed.
End Arrivals.

(** C28: Short of memory: whatever allocations fail, a connected node in good
    order that receives data, an acknowledgement or a status returns
    [PITTACUS_ERR_NONE] or [PITTACUS_ERR_ALLOCATION_FAILED] and is in good
    order: new data is noted in clock and log and given to the receiver even
    when no acknowledgement can be queued. A hello, a welcome or a list of
    members that the next allocation fails is refused with
    [PITTACUS_ERR_ALLOCATION_FAILED], members, queue, clock and log
    untouched. *)
Theorem receive_short_of_memory {Ctx} recv deliver (n : node Ctx) xs cells m from :
  (forall p, receives recv deliver p) -> stands n xs cells -> connected n ->
  log_sendable (g_data_log (n_self n)) -> msg_wf m -> zlen (msg_wire m) <= MESSAGE_MAX_SIZE ->
  zlen from <= sizeof_sockaddr_storage -> (lists_members m -> no_memory n) ->
  wp (pittacus_gossip_process_receive recv) (arrives (msg_wire m, from) n) (fun r n' =>
    (exists xs', stands n' xs' cells) /\ connected n' /\ received_short deliver m n r n').
Proof.
  intros Hr Hn Hc Hlog Hwf Hl Hfrom Hno.
  pose proof (stands_received n xs cells (msg_wire m, from) Hn Hl) as Hn1. cbn [fst] in Hn1.
  pose proof (msg_need_wire m Hwf) as [Hmin _].
  unfold wp. rewrite (process_receive_run recv (arrives (msg_wire m, from) n) (msg_wire m) from []);
    [|by rewrite Hc|done|config_lia|apply Hn].
  set (n1 := after_recv _ _ _) in *. assert (connected n1) as Hc1 by exact Hc.
  change (wp (gossip_handle_new_message recv (received (arrives (msg_wire m, from) n) (msg_wire m) from)) n1
    (fun r n' => (exists xs', stands n' xs' cells) /\ connected n' /\ received_short deliver m n r n')).
  pose proof (turned_away_received deliver m n (msg_wire m, from)) as Haway. cbn [fst] in Haway. fold n1 in Haway.
  pose proof (short_received n (msg_wire m, from) cells) as Hshort. cbn [fst] in Hshort. fold n1 in Hshort.
  destruct m as [t|t|t|t|t|t]; cbn [msg_wf msg_wire] in *;
    pose proof (received_carries (arrives (wire t, from) n) t from Hwf Hl Hfrom) as Hcar.
  - eapply wp_dispatch; [by apply (dispatch_hello _ _ t)|].
    eapply wp_mono; [apply (wp_hello_refused _ t n1 Hc1 Hcar); by apply Hno|].
    intros r n' H. by eapply Haway.
  - eapply wp_dispatch; [by apply (dispatch_welcome _ _ t)|].
    eapply wp_mono; [apply (wp_welcome_refused _ t n1 Hcar); by apply Hno|].
    intros r n' H. by eapply Haway.
  - eapply wp_dispatch; [by apply (dispatch_member_list _ _ t)|].
    eapply wp_mono; [apply (wp_list_refused _ t n1 Hc1 Hcar); by apply Hno|].
    intros r n' H. by eapply Haway.
  - eapply wp_dispatch; [by apply (dispatch_data _ _ t)|].
    eapply wp_mono; [apply (wp_handle_data_short recv deliver _ t n1 xs cells Hn1 Hc1 Hcar (Hr _))|].
    intros r n' (Hres & Hs & Hc' & Hcase). split; [done|]. split; [done|]. split; [done|exact Hcase].
  - eapply wp_dispatch; [by apply (dispatch_ack _ _ t)|].
    eapply wp_mono; [apply (wp_handle_ack_short _ t n1 xs cells Hn1 Hc1 Hcar)|].
    intros r n' H. by apply (Hshort r n').
  - eapply wp_dispatch; [by apply (dispatch_status _ _ t)|].
    eapply wp_mono; [apply (wp_handle_status_short _ t n1 xs cells Hn1 Hc1 Hcar Hlog)|].
    intros r n' H. by apply (Hshort r n').
Qed.

(** C33: Sending data short of memory: whatever allocations fail, the call
    counts the message and notes it in clock and log, and encodes it into a
    slot; it returns [PITTACUS_ERR_NONE] when an envelope was queued for every
    member sampled, and [PITTACUS_ERR_ALLOCATION_FAILED] when envelopes were
    queued for the first of them only, or for none. So the error does not
    tell that the message is lost: it is in the log for those who ask. *)
Theorem send_data_short_of_memory {Ctx} data size (n : node Ctx) xs cells :
  stands n xs cells -> connected n -> 0 <= size <= MAX_PAYLOAD -> size <= zlen data ->
  wp (pittacus_gossip_send_data data size) n (fun r n' =>
    (r = PITTACUS_ERR_NONE \/ r = PITTACUS_ERR_ALLOCATION_FAILED) /\
    g_data_counter (n_self n') = u32 (g_data_counter (n_self n) + 1) /\
    exists id, vector_clock_create_member_id (g_self_address (n_self n)) = Ok id /\
      noted n n' (own_data n id data size) /\
      spread_as_far (own_data n id data size) n xs cells r n').
Proof.
  intros Hn Hc Hsz Hd. unfold pittacus_gossip_send_data.
  rewrite u16_id by (unfold MAX_PAYLOAD in Hsz; config_lia). apply wp_connected; [done|].
  by apply (wp_enqueue_data_short data size n xs cells).
Qed.

(** * Samples *)

(** A host that fails the allocations that [f] says. *)
Definition failing (f : nat -> bool) : world :=
  World (Oracle f (timeofday sample_oracle) (random sample_oracle) (sendto sample_oracle)
           (socket sample_oracle) (fcntl sample_oracle) (bind sample_oracle) (getsockname sample_oracle))
    10 0 0 [] [] [].

Definition starved_node : node inbox_of := Node (sample_gossip STATE_CONNECTED) (failing (fun _ => false)) [].

Lemma starved_stands : stands starved_node [] peer_cells.
Proof. exact (sample_ok STATE_CONNECTED). Qed.

Lemma receive_short_of_memory_witness :
  wp (pittacus_gossip_process_receive sample_receiver)
    (arrives (msg_wire (MsgData sample_data), peer_addr) starved_node) (fun r n' =>
    (exists xs', stands n' xs' peer_cells) /\ connected n' /\
    received_short deliver (MsgData sample_data) starved_node r n').
Proof.
  exact (receive_short_of_memory sample_receiver deliver starved_node [] peer_cells (MsgData sample_data) peer_addr
    (fun p => receiver_ok_receives _ _ p sample_receiver_ok) starved_stands eq_refl
    ltac:(constructor) sample_data_wf ltac:(vm_compute; discriminate) ltac:(vm_compute; discriminate)
    (fun H => match H with end)).
Defined.

Lemma send_data_short_of_memory_witness :
  wp (pittacus_gossip_send_data [1; 2; 3] 3) starved_node (fun r n' =>
    (r = PITTACUS_ERR_NONE \/ r = PITTACUS_ERR_ALLOCATION_FAILED) /\
    g_data_counter (n_self n') = u32 (g_data_counter (n_self starved_node) + 1) /\
    exists id, vector_clock_create_member_id (g_self_address (n_self starved_node)) = Ok id /\
      noted starved_node n' (own_data starved_node id [1; 2; 3] 3) /\
      spread_as_far (own_data starved_node id [1; 2; 3] 3) starved_node [] peer_cells r n').
Proof.
  exact (send_data_short_of_memory [1; 2; 3] 3 starved_node [] peer_cells starved_stands eq_refl
    ltac:(split; vm_compute; discriminate) ltac:(vm_compute; discriminate)).
Defined.

(** A newcomer that says hello where only the allocations of the decoder and of
    the cell in the set, and those of later calls, succeed. *)
Definition late_member : cluster_member :=
  ClusterMember 1 9 16 [2; 0; 31; 146; 127; 0; 0; 1; 0; 0; 0; 0; 0; 0; 0; 0].
Definition late_hello : message_hello :=
  MessageHello (message_header_init MESSAGE_HELLO_TYPE 3) late_member.
Definition tight_node : node inbox_of :=
  Node (sample_gossip STATE_CONNECTED) (failing (fun k => (k =? 10)%nat || (k =? 14)%nat || (20 <=? k)%nat)) [].
Definition after_hello : node inbox_of :=
  final (pittacus_gossip_process_receive sample_receiver) (arrives (wire late_hello, peer_addr) tight_node).
Definition later : node inbox_of :=
  Node (n_self after_hello)
    (World (answers (n_world after_hello)) 20 0 0 [] [] []) [].

(** The hello is accepted, the copy of its member fails, and sending data
    with memory at hand reads through the address that is NULL. *)
Lemma failed_copy_is_dereferenced :
  match pittacus_gossip_process_receive sample_receiver (arrives (wire late_hello, peer_addr) tight_node) with
  | Ok (r, _) => r = PITTACUS_ERR_NONE
  | _ => False
  end /\
  pittacus_gossip_send_data [1; 2; 3] 3 later = Ub.
Proof. split; vm_compute; reflexivity. Qed.
