(* ===== verification/CornerProps.v ===== *)
(** Corner cases of the code, each shown on an instance: what happens where the
    theorems have their hypotheses. *)
From S2P Require Import Prelude.
From S2P Require Import Config.
From S2P Require Import Utils.
From S2P Require Import World.
From S2P Require Import Member.
From S2P Require Import VectorClock.
From S2P Require Import Messages.
From S2P Require Import Queue.
From S2P Require Import DataLog.
From S2P Require Import Gossip.
From S2P Require Import Node.
From S2P Require Import MemberFacts.
From S2P Require Import MemberSetFacts.
From S2P Require Import VectorClockFacts.
From S2P Require Import CompareFacts.
From S2P Require Import WireFacts.
From S2P Require Import MessageFacts.
From S2P Require Import DataLogFacts.
From S2P Require Import QueueFacts.
From S2P Require Import OutboxFacts.
From S2P Require Import EnqueueFacts.
From S2P Require Import NodeFacts.
From S2P Require Import HandlerFacts.
From S2P Require Import PublicFacts.
From S2P Require Import StateFacts.
From S2P Require Import Samples.
From S2P Require Import SyncFacts.
From S2P Require Import StateFacts.

(** * Payloads *)

(** A payload of 500 bytes does not fit a message: the call fails, and the
    message is counted and logged all the same. *)
Definition blocked_node : node inbox_of :=
  final (pittacus_gossip_send_data (zeros 500) 500) (sample_node STATE_CONNECTED).

Lemma oversized_payload_is_logged :
  match pittacus_gossip_send_data (zeros 500) 500 (sample_node STATE_CONNECTED) with
  | Ok (r, n) => r = PITTACUS_ERR_BUFFER_NOT_ENOUGH /\ g_data_counter (n_self n) = 1 /\
                 (zlen ∘ le_payload <$> log_view (g_data_log (n_self n))) = [500]
  | _ => False
  end.
Proof. vm_compute. split_and!; reflexivity. Qed.

(** From then on a status that lacks it is answered with that error and an
    acknowledgement only. *)
Definition empty_status : message_status :=
  MessageStatus (message_header_init MESSAGE_STATUS_TYPE 4) vector_clock_init.
Lemma oversized_payload_blocks_answers :
  match pittacus_gossip_process_receive sample_receiver (arrives (wire empty_status, peer_addr) blocked_node) with
  | Ok (r, n) => r = PITTACUS_ERR_BUFFER_NOT_ENOUGH /\ size (q_heap (g_outbound_messages (n_self n))) = 1%nat
  | _ => False
  end.
Proof. vm_compute. split; reflexivity. Qed.

(** The size is narrowed to 16 bits: 65537 bytes are sent as one. *)
Lemma long_payload_is_narrowed :
  match pittacus_gossip_send_data [7; 8; 9] 65537 (sample_node STATE_CONNECTED) with
  | Ok (r, n) => r = PITTACUS_ERR_NONE /\ (le_payload <$> log_view (g_data_log (n_self n))) = [[7]]
  | _ => False
  end.
Proof. vm_compute. split; reflexivity. Qed.

(** * Members *)

(** The identity of a member has the high half of its uid only. *)
Lemma identities_collide :
  vector_clock_create_member_id (ClusterMember 1 1 16 peer_addr) =
  vector_clock_create_member_id (ClusterMember 1 2 16 peer_addr).
Proof. vm_compute. reflexivity. Qed.

(** A hello of a member whose address has fewer than six bytes is refused for
    its size; with six it is decoded. *)
Definition short_hello (addr : list Z) : message_hello :=
  MessageHello (message_header_init MESSAGE_HELLO_TYPE 3) (ClusterMember 1 9 (zlen addr) addr).
Definition hello_result (t : message_hello) : out Z :=
  match message_hello_decode (wire t) (zlen (wire t)) sample_world with
  | Ok ((r, _), _) => Ok r
  | Ub => Ub
  | Nofuel => Nofuel
  end.
Lemma short_address_is_refused :
  stored_wf (hello_this_member (short_hello [1; 2; 3; 4; 5])) /\
  hello_result (short_hello [1; 2; 3; 4; 5]) = Ok PITTACUS_ERR_BUFFER_NOT_ENOUGH /\
  hello_result (short_hello [1; 2; 3; 4; 5; 6]) = Ok 28.
Proof.
  split; [|split; vm_compute; reflexivity].
  apply (bool_decide_unpack _). vm_compute. exact I.
Qed.

(** The search by address reads as many bytes as are searched for: past the
    end of a shorter address that agrees with the one searched for. *)
Definition brief_set : cluster_member_set :=
  MemberSet (Some (MemberCell 0 (ClusterMember 1 9 4 [2; 0; 31; 145])) :: replicate 31 None) 1 32.
Lemma brief_address_is_overread :
  cluster_member_set_find_by_addr brief_set peer_addr (zlen peer_addr) = Ub.
Proof. vm_compute. reflexivity. Qed.
