(* ===== verification/Network.v ===== *)
(** A cluster: nodes that run the library over a network which loses,
    duplicates, reorders and redirects datagrams, but does not change them.
    A step is one call of the public interface on one node, with any answers
    of its host and any of the datagrams ever sent waiting at its socket. *)
From S2P Require Import Prelude.
From S2P Require Import Config.
From S2P Require Import Utils.
From S2P Require Import World.
From S2P Require Import Member.
From S2P Require Import VectorClock.
From S2P Require Import Messages.
From S2P Require Import Queue.
From S2P Require Import DataLog.
From S2P Require Import Gossip.
From S2P Require Import Node.
From S2P Require Import NodeFacts.
From S2P Require Import HandlerFacts.
From S2P Require Import PublicFacts.
From S2P Require Import StateFacts.

(** * Systems *)

(** What a node's receiver was given, in order. *)
Abbreviation payloads := (list (list Z)).
Definition record_payload (p : list Z) (c : payloads) : payloads := c ++ [p].
Definition recorder : option (list Z -> Z -> M (node payloads) unit) :=
  Some (fun data size n =>
    Ok (tt, Node (n_self n) (n_world n) (record_payload (ztake size data) (n_context n)))).

(** The nodes, the datagrams ever sent, and the messages the users of the
    nodes have sent: originator, number and payload. *)
Record system := System {
  sy_nodes : list (node payloads);
  sy_flight : list (list Z);
  sy_said : list (Z * Z * list Z)
}.

Definition said_in (s : system) (id c : Z) (p : list Z) : Prop := (id, c, p) ∈ sy_said s.

(** A call on a node: the answers of its host and what waits at its socket,
    payloads with sender addresses. *)
Record event := Event {
  ev_node : nat;
  ev_call : api_call;
  ev_answers : oracle;
  ev_inbox : list (list Z * list Z)
}.

Definition hosted {Ctx} (a : oracle) (waiting : list (list Z * list Z)) (n : node Ctx) : node Ctx :=
  let w := n_world n in
  Node (n_self n)
    (World a (allocs w) (time_calls w) (random_calls w) (sent w) waiting (closed w))
    (n_context n).

(** The identity of a node in the vector clocks. *)
Definition own_id {Ctx} (n : node Ctx) : option Z :=
  match vector_clock_create_member_id (g_self_address (n_self n)) with
  | Ok id => Some id
  | _ => None
  end.

(** The message that the call sends on behalf of the user. *)
Definition said_by {Ctx} (n : node Ctx) (c : api_call) : list (Z * Z * list Z) :=
  match c, own_id n with
  | ApiSendData data size, Some id =>
      if bool_decide (state_of n = STATE_CONNECTED)
      then [(id, u32 (g_data_counter (n_self n) + 1), ztake size data)] else []
  | _, _ => []
  end.

(** The step that an event makes. *)
Definition sys_step (s : system) (e : event) : option system :=
  match sy_nodes s !! ev_node e with
  | None => None
  | Some n =>
      match run_api recorder (ev_call e) (hosted (ev_answers e) (ev_inbox e) n) with
      | Ok (_, n') =>
          Some (System (<[ev_node e := n']> (sy_nodes s))
                  (sy_flight s ++ (dg_payload <$> drop (length (sent (n_world n))) (sent (n_world n'))))
                  (sy_said s ++ said_by n (ev_call e)))
      | _ => None
      end
  end.

(** * Events of a cluster *)

(** Room in the queue for what the call may add: a reception answers with a
    member list and the log, and tells every member. *)
Definition has_room {Ctx} (n : node Ctx) (c : api_call) : Prop :=
  Z.of_nat (size (q_heap (g_outbound_messages (n_self n)))) + 2 * ms_size (g_members (n_self n)) + 30
    + match c with ApiJoin seeds => zlen seeds | _ => 0 end < MAX_OUTPUT_MESSAGES.

(** The calls an application may make: none after the node was destroyed;
    seeds are addresses of the cluster, a payload is within its buffer and
    within what a message has room for. *)
Definition admissible {Ctx} (len : Z) (n : node Ctx) (c : api_call) : Prop :=
  state_of n <> STATE_DESTROYED /\
  match c with
  | ApiJoin seeds => Forall (fun a => zlen a = len) seeds
  | ApiSendData data size => 0 <= size <= MAX_PAYLOAD /\ size <= zlen data
  | _ => True
  end.

(** What waits at a socket was sent, and comes from an address of the
    cluster's length. *)
Definition waits (len : Z) (flight : list (list Z)) (d : list Z * list Z) : Prop :=
  fst d ∈ flight /\ zlen (snd d) = len.

Record event_ok (len : Z) (s : system) (e : event) : Prop := EventOk {
  eo_node : exists n, sy_nodes s !! ev_node e = Some n /\ admissible len n (ev_call e) /\
    has_room n (ev_call e);
  eo_memory : forall k, alloc_ok (ev_answers e) k = true;
  eo_inbox : Forall (waits len (sy_flight s)) (ev_inbox e)
}.

(** A node that was just created: nothing delivered or sent yet. *)
Definition started (len : Z) (n : node payloads) : Prop :=
  exists garbage addr w, no_oom w /\ socket_ok w addr /\ garbage_ok garbage /\
    (forall fd, zlen (snd (getsockname (answers w) fd)) = len) /\
    pittacus_gossip_init garbage addr w = Ok ((PITTACUS_ERR_NONE, n_self n), n_world n) /\
    n_context n = [].

(** The systems a cluster can get to. *)
Inductive reachable (len : Z) : system -> Prop :=
| ReachStart nodes : Forall (started len) nodes -> reachable len (System nodes [] [])
| ReachStep s e s' :
    reachable len s -> event_ok len s e -> sys_step s e = Some s' -> reachable len s'.

(** An event takes the system from one to the next. *)
Definition moves len (s s' : system) : Prop := exists e, event_ok len s e /\ sys_step s e = Some s'.

Lemma reachable_moves len s s' : reachable len s -> rtc (moves len) s s' -> reachable len s'.
Proof. intros Hs. induction 1 as [|s1 s2 s3 (e & He & E) _ IH]; [done|]. apply IH. by eapply ReachStep. Qed.
