(* ===== verification/NetworkSamples.v ===== *)
(** A cluster of two nodes, run by evaluation: one joins the other, and a
    message travels between them. *)
From S2P Require Import Prelude.
From S2P Require Import Config.
From S2P Require Import Utils.
From S2P Require Import World.
From S2P Require Import Member.
From S2P Require Import VectorClock.
From S2P Require Import Messages.
From S2P Require Import Queue.
From S2P Require Import DataLog.
From S2P Require Import Gossip.
From S2P Require Import Node.
From S2P Require Import DataLogFacts.
From S2P Require Import NodeFacts.
From S2P Require Import PublicFacts.
From S2P Require Import StateFacts.
From S2P Require Import OutboxFacts.
From S2P Require Import EnqueueFacts.
From S2P Require Import Samples.
From S2P Require Import Network.

(** * Runs *)

#[export] Instance admissible_dec {Ctx} len (n : node Ctx) c : Decision (admissible len n c).
Proof. unfold admissible. destruct c; apply _. Defined.
#[export] Instance has_room_dec {Ctx} (n : node Ctx) c : Decision (has_room n c).
Proof. unfold has_room. apply _. Defined.
#[export] Instance waits_dec len flight d : Decision (waits len flight d).
Proof. unfold waits. apply _. Defined.

(** A host that always has memory, from a fixed time on. *)
Definition quiet_from (start : Z) (addr : list Z) : oracle :=
  Oracle (fun _ => true) (fun k => (start + Z.of_nat k, 0)) (fun k => Z.of_nat k) (fun _ => 0)
    (fun _ => 3) (fun _ => 0) (fun _ _ => 0) (fun _ => (0, addr)).
Definition quiet : list Z -> oracle := quiet_from 1000.

(** The event is one of a cluster, its host being quiet. *)
Definition event_okb (len : Z) (s : system) (e : event) : bool :=
  match sy_nodes s !! ev_node e with
  | Some n => bool_decide (admissible len n (ev_call e)) && bool_decide (has_room n (ev_call e)) &&
              bool_decide (Forall (waits len (sy_flight s)) (ev_inbox e))
  | None => false
  end.

Lemma event_okb_ok len s e :
  event_okb len s e = true -> (forall k, alloc_ok (ev_answers e) k = true) -> event_ok len s e.
Proof.
  unfold event_okb. intros E Hm. destruct (sy_nodes s !! ev_node e) as [n|] eqn:En; [|done].
  apply andb_prop in E as [[Ha Hr]%andb_prop Hw]. split; [|done|].
  - exists n. split; [done|]. by split; eapply bool_decide_eq_true.
  - by eapply bool_decide_eq_true.
Qed.

(** The calls of a script: on which node, which call, and the datagrams in
    flight that wait at its socket, with their senders. *)
Fixpoint play (addr : list Z) (script : list (nat * api_call * list (nat * list Z))) (s : system)
    : option system :=
  match script with
  | [] => Some s
  | (i, c, ks) :: script =>
      let e := Event i c (quiet addr) ((fun '(k, from) => (default [] (sy_flight s !! k), from)) <$> ks) in
      if event_okb (zlen addr) s e then
        match sys_step s e with Some s' => play addr script s' | None => None end
      else None
  end.

Lemma play_moves addr script : forall s s',
  play addr script s = Some s' -> rtc (moves (zlen addr)) s s'.
Proof.
  induction script as [|[[i c] ks] script IH]; intros s s' E; cbn [play] in E.
  { by injection E as <-. }
  destruct (event_okb _ _ _) eqn:Eok; [|done]. destruct (sys_step _ _) as [s1|] eqn:E1; [|done].
  eapply rtc_l; [|by apply IH]. eexists. split; [|exact E1]. by apply event_okb_ok.
Qed.

Lemma played_moves addr script s :
  bool_decide (is_Some (play addr script s)) = true ->
  rtc (moves (zlen addr)) s (default s (play addr script s)).
Proof. intros [s' E]%bool_decide_eq_true. rewrite E. by apply (play_moves addr script). Qed.

Lemma played_reachable addr script s :
  reachable (zlen addr) s -> bool_decide (is_Some (play addr script s)) = true ->
  reachable (zlen addr) (default s (play addr script s)).
Proof. intros Hs E%played_moves. by eapply reachable_moves. Qed.

(** * What a run ends with *)

(** A node at a glance: identity, uid, state, log, and what its receiver was
    given. The buffers are left out, which makes it small: a run is evaluated
    once, down to the glances at its end, and the lemmas about that end follow
    from these. *)
Record glance := Glance {
  gl_id : option Z;
  gl_uid : Z;
  gl_state : pittacus_gossip_state;
  gl_log : list log_entry;
  gl_given : payloads
}.

Definition glance_at (n : node payloads) : glance :=
  Glance (own_id n) (cm_uid (g_self_address (n_self n))) (state_of n)
    (log_view (g_data_log (n_self n))) (n_context n).

(** The nodes at a glance, and what was said. *)
Definition view : Type := list glance * list (Z * Z * list Z).
Definition seen (s : system) : view := (glance_at <$> sy_nodes s, sy_said s).

Lemma ran_played (o : option system) v : seen <$> o = Some v -> bool_decide (is_Some o) = true.
Proof. intros E. apply bool_decide_eq_true. destruct o as [s|]; [by exists s|done]. Qed.

Lemma ran_seen (o : option system) s0 v : seen <$> o = Some v -> seen (default s0 o) = v.
Proof. destruct o as [s|]; intros E; [by injection E|done]. Qed.

Section Seen.
Context (s : system) (v : view).
Hypothesis Hv : seen s = v.

Lemma seen_nodes : glance_at <$> sy_nodes s = fst v.
Proof. by rewrite <- Hv. Qed.

Lemma seen_said : sy_said s = snd v.
Proof. by rewrite <- Hv. Qed.

Lemma seen_length : length (sy_nodes s) = length (fst v).
Proof. by rewrite <- seen_nodes, length_fmap. Qed.

Lemma seen_small : zlen (sy_nodes s) = zlen (fst v).
Proof. unfold zlen. by rewrite seen_length. Qed.

Lemma seen_ids : own_id <$> sy_nodes s = gl_id <$> fst v.
Proof. rewrite <- seen_nodes, <- list_fmap_compose. done. Qed.

Lemma seen_given : n_context <$> sy_nodes s = gl_given <$> fst v.
Proof. rewrite <- seen_nodes, <- list_fmap_compose. done. Qed.

Lemma seen_logs : (fun n => log_view (g_data_log (n_self n))) <$> sy_nodes s = gl_log <$> fst v.
Proof. rewrite <- seen_nodes, <- list_fmap_compose. done. Qed.

(** A property of glances that holds of all of them. *)
Lemma seen_all (P : glance -> Prop) : Forall P (fst v) -> Forall (fun n => P (glance_at n)) (sy_nodes s).
Proof. rewrite <- seen_nodes. by rewrite Forall_fmap. Qed.

Lemma seen_some (P : glance -> Prop) : Exists P (fst v) -> Exists (fun n => P (glance_at n)) (sy_nodes s).
Proof. rewrite <- seen_nodes. by rewrite Exists_fmap. Qed.

(** The node in a place. *)
Lemma seen_at d (i : nat) g :
  fst v !! i = Some g ->
  sy_nodes s !! i = Some (default d (sy_nodes s !! i)) /\ glance_at (default d (sy_nodes s !! i)) = g.
Proof.
  rewrite <- seen_nodes, list_lookup_fmap. destruct (sy_nodes s !! i) as [n|]; [|done].
  intros E. by injection E.
Qed.
End Seen.

(** * Two nodes *)

Definition node_from (start : Z) (addr : list Z) : node payloads :=
  match pittacus_gossip_init (sample_gossip STATE_DESTROYED) addr (World (quiet_from start addr) 10 0 0 [] [] []) with
  | Ok ((_, g), w) => Node g w []
  | _ => sample_node STATE_DESTROYED
  end.
Definition new_node : list Z -> node payloads := node_from 1000.

Lemma quiet_socket_ok start addr :
  16 <= zlen addr <= sizeof_sockaddr_storage -> Forall is_byte addr ->
  socket_ok (World (quiet_from start addr) 10 0 0 [] [] []) addr.
Proof. intros Hl Hb. split; cbn; try done. lia. Qed.

Lemma sample_garbage_ok : garbage_ok (sample_gossip STATE_DESTROYED).
Proof.
  split; [done| |done|apply empty_log_ok].
  apply (ob_out _ _ (no_outbox _ _ _ (sample_ok STATE_DESTROYED))).
Qed.

Lemma node_from_started start addr :
  zlen addr = 16 -> Forall is_byte addr -> started 16 (node_from start addr).
Proof.
  intros Hl Hb. set (w := World (quiet_from start addr) 10 0 0 [] [] []).
  assert (socket_ok w addr) as Hs by (apply quiet_socket_ok; [config_lia|done]).
  pose proof (wp_init (sample_gossip STATE_DESTROYED) addr w ([] : payloads)) as Hi.
  exists (sample_gossip STATE_DESTROYED), addr, w. split; [done|]. split; [done|].
  split; [apply sample_garbage_ok|]. split; [done|].
  unfold wp in Hi. unfold node_from. fold w. destruct (pittacus_gossip_init _ _ _) as [[[r g] w']| |].
  - destruct Hi as [E _]; [done..|apply sample_garbage_ok|]. cbn in E. by subst r.
  - destruct Hi; [done..|apply sample_garbage_ok].
  - destruct Hi; [done..|apply sample_garbage_ok].
Qed.

Lemma new_node_started addr : zlen addr = 16 -> Forall is_byte addr -> started 16 (new_node addr).
Proof. apply node_from_started. Qed.

Definition pair_start : system := System [new_node sample_addr; new_node peer_addr] [] [].

(** The second node joins the first, which then sends three bytes. *)
Definition pair_script : list (nat * api_call * list (nat * list Z)) :=
  [(0%nat, ApiJoin [], []); (1%nat, ApiJoin [sample_addr], []); (1%nat, ApiSend, []);
   (0%nat, ApiReceive, [(0%nat, peer_addr)]); (0%nat, ApiSend, []);
   (1%nat, ApiReceive, [(1%nat, sample_addr)]); (0%nat, ApiSendData [1; 2; 3] 3, []);
   (0%nat, ApiSend, []); (1%nat, ApiReceive, [(2%nat, sample_addr)])].
Definition pair_end : option system := play sample_addr pair_script pair_start.

(** The payload arrives, under the number it was sent with. *)
Definition pair_entry : log_entry := LogEntry 158462835163263 1 [1; 2; 3].
Definition pair_view : view :=
  ([Glance (Some 158462835163263) 1000 STATE_CONNECTED [pair_entry] [];
    Glance (Some 159562346791039) 1000 STATE_CONNECTED [pair_entry] [[1; 2; 3]]],
   [(158462835163263, 1, [1; 2; 3])]).

Lemma pair_run : seen <$> pair_end = Some pair_view.
Proof. vm_compute. reflexivity. Qed.

(** Where the script ends. *)
Definition pair_final : system := default pair_start pair_end.

Lemma pair_started : reachable (zlen sample_addr) pair_start.
Proof.
  apply ReachStart. repeat constructor; apply new_node_started; try done.
  all: apply (bool_decide_unpack _); vm_compute; exact I.
Qed.

Lemma pair_reachable : reachable 16 pair_final.
Proof. exact (played_reachable sample_addr pair_script pair_start pair_started (ran_played _ _ pair_run)). Qed.

Lemma pair_seen : seen pair_final = pair_view.
Proof. exact (ran_seen _ _ _ pair_run). Qed.
