(* ===== verification/NetworkProps.v ===== *)
(** What holds of every system a cluster can get to: no call goes wrong, the
    payloads that receivers see were sent, and data logs agree. *)
From S2P Require Import Prelude.
From S2P Require Import Config.
From S2P Require Import Utils.
From S2P Require Import World.
From S2P Require Import Member.
From S2P Require Import VectorClock.
From S2P Require Import Messages.
From S2P Require Import Queue.
From S2P Require Import DataLog.
From S2P Require Import Gossip.
From S2P Require Import Node.
From S2P Require Import MemberFacts.
From S2P Require Import VectorClockFacts.
From S2P Require Import DataLogFacts.
From S2P Require Import QueueFacts.
From S2P Require Import OutboxFacts.
From S2P Require Import EnqueueFacts.
From S2P Require Import SendFacts.
From S2P Require Import NodeFacts.
From S2P Require Import HandlerFacts.
From S2P Require Import PublicFacts.
From S2P Require Import FrameFacts.
From S2P Require Import StateFacts.
From S2P Require Import Samples.
From S2P Require Import HealthFacts.
From S2P Require Import ClusterFacts.
From S2P Require Import Network.
From S2P Require Import NetworkSamples.

(** * Room *)

Lemma heap_size q xs : queue_repr q xs -> Z.of_nat (size (q_heap q)) = zlen xs.
Proof.
  intros [_ _ Hnd Hc Ho]. unfold zlen. f_equal.
  rewrite <- (length_fmap fst xs), <- (size_list_to_set (C := gset loc) _ Hnd), <- (size_dom (D := gset loc)).
  f_equal. apply leibniz_equiv_iff. intros l. rewrite elem_of_dom, elem_of_list_to_set. split.
  - intros [e He]. by eapply Ho.
  - intros ([k x] & -> & Hin)%list_elem_of_fmap. apply list_elem_of_lookup in Hin as [i Hi].
    eexists. by apply (Hc i k x).
Qed.

Section Cluster.
Context (len : Z).

Lemma room_spacious {said} (n : node payloads) xs cells c :
  healthy len said n xs cells -> has_room n c ->
  spacious xs cells /\ zlen xs + match c with ApiJoin seeds => zlen seeds | _ => 0 end < MAX_OUTPUT_MESSAGES.
Proof.
  intros Hh Hr. pose proof (he_ok _ _ _ _ _ Hh) as Hok. unfold has_room in Hr.
  rewrite (heap_size _ _ (ob_queue _ _ (no_outbox _ _ _ Hok))) in Hr.
  destruct (no_members _ _ _ Hok) as [(_ & Hs & _) _]. rewrite <- Hs in Hr.
  pose proof (zlen_nonneg cells). unfold spacious.
  destruct c; try lia. pose proof (zlen_nonneg seed_nodes). lia.
Qed.

(** * Nodes *)

(** A node is healthy until it is destroyed, and its receiver was given only
    what was said. *)
Definition good (said : Z -> Z -> list Z -> Prop) (n : node payloads) : Prop :=
  (state_of n = STATE_DESTROYED \/ exists xs cells, healthy len said n xs cells) /\
  Forall (fun p => exists id c, said id c p) (n_context n).

Lemma good_said said said' n : (forall i c p, said i c p -> said' i c p) -> good said n -> good said' n.
Proof.
  intros Hs [Hn Hc]. split.
  - destruct Hn as [?|(xs & cells & Hh)]; [by left|right]. exists xs, cells. by eapply healthy_said.
  - apply (Forall_impl _ _ _ Hc). intros p (i & c & ?). exists i, c. auto.
Qed.

(** A node just created. *)
Lemma started_init n :
  started len n -> node_ok n [] [] /\ cm_address_len (g_self_address (n_self n)) = len /\
  g_data_counter (n_self n) = 0 /\ state_of n = STATE_INITIALIZED /\
  clock_map (g_data_version (n_self n)) = ∅ /\ log_view (g_data_log (n_self n)) = [] /\ n_context n = [].
Proof.
  intros (garbage & addr & w & Hw & Hs & Hg & Hl & E & Hc).
  pose proof (wp_init garbage addr w (n_context n) Hw Hs Hg) as Hi. unfold wp in Hi. rewrite E in Hi.
  destruct Hi as (_ & Hok & Hlen & _ & Hct & Hst & Hck & Hlog). cbn [snd] in *.
  split; [by destruct n|]. by rewrite Hlen.
Qed.

Lemma started_good n : started len n -> good (fun _ _ _ => False) n.
Proof.
  intros (Hok & Hlen & _ & _ & _ & Hlog & Hc)%started_init. split; [right|by rewrite Hc].
  exists [], []. split; try done.
  - intros l x Hin. by apply not_elem_of_nil in Hin.
  - unfold log_legit. by rewrite Hlog.
Qed.

Lemma healthy_hosted said (n : node payloads) xs cells a waiting :
  healthy len said n xs cells -> (forall k, alloc_ok a k = true) ->
  healthy len said (hosted a waiting n) xs cells.
Proof.
  intros [[[] ? ? ? ? ? ?] ? ? ? ? ?] Ha. split; try done.
Qed.

(** * One call *)

(** What a call leaves: a node in good order, and only sound datagrams in
    the network. *)
Definition call_good (said : Z -> Z -> list Z -> Prop) (n n' : node payloads) : Prop :=
  good said n' /\ exists ds, sent (n_world n') = sent (n_world n) ++ ds /\
    Forall (fun d => exists m, sound len said (dg_payload d) m) ds.

Lemma kept_good said n k n' :
  kept len said n k n' -> Forall (fun p => exists id c, said id c p) (n_context n) -> call_good said n n'.
Proof.
  intros ((xs & cells & Hh & _) & Hs & Hc) Hn. split; [split; [right; by exists xs, cells|by rewrite Hc]|].
  exists []. by rewrite Hs, app_nil_r.
Qed.

Lemma recorder_ok p : receives recorder record_payload p.
Proof. by intros data size n <-. Qed.

Lemma receive_good said n xs cells :
  healthy len said n xs cells -> spacious xs cells ->
  Forall (fun p => exists id c, said id c p) (n_context n) ->
  Forall (fun d => zlen (snd d) = len /\ exists m, sound len said (fst d) m) (inbox (n_world n)) ->
  wp (pittacus_gossip_process_receive recorder) n (fun _ n' => call_good said n n').
Proof.
  intros Hh Hsp Hctx Hin. destruct (inbox (n_world n)) as [|[bytes from] rest] eqn:Ei.
  - unfold pittacus_gossip_process_receive. apply wp_bind, wp_self.
    assert (kept len said n (zlen xs) n) as Hk by (by eapply kept_self).
    destruct (is_active _); [|apply wp_ret; by eapply kept_good].
    apply wp_bind, wp_liftW. unfold wp at 1, pt_recv_from. rewrite Ei. apply wp_ret.
    destruct n. by eapply kept_good.
  - apply Forall_cons in Hin as [[Hfrom (m & Hm)] _].
    eapply wp_mono; [by apply (healthy_receive len said recorder record_payload (fun _ _ p _ => recorder_ok p) n xs cells m bytes from rest)|].
    intros r n' ((xs' & cells' & Hh' & _) & Hs & Hc). split.
    + split; [right; by exists xs', cells'|]. destruct Hc as [->|(t & -> & ->)]; [done|].
      apply Forall_app. split; [done|]. apply Forall_singleton.
      destruct Hm as (_ & _ & _ & Hleg). by eexists _, _.
    + exists []. by rewrite Hs, app_nil_r.
Qed.

Lemma own_id_ok said (n : node payloads) xs cells :
  healthy len said n xs cells -> exists me,
  vector_clock_create_member_id (g_self_address (n_self n)) = Ok me /\ own_id n = Some me.
Proof.
  intros Hh. destruct (no_address _ _ _ (he_ok _ _ _ _ _ Hh)) as ((_ & Hz) & Hl & Hb).
  destruct (vector_clock_create_member_id_ok (g_self_address (n_self n))) as (me & E & _); [lia|done|].
  exists me. unfold own_id. by rewrite E.
Qed.

(** Calls on a node in good order return and leave it so. *)
Lemma call_runs said n a waiting c :
  good said n -> admissible len n c -> has_room n c ->
  (forall k, alloc_ok a k = true) ->
  (forall id k p, (id, k, p) ∈ said_by n c -> said id k p) ->
  Forall (fun d => zlen (snd d) = len /\ exists m, sound len said (fst d) m) waiting ->
  wp (run_api recorder c) (hosted a waiting n) (fun _ n' => call_good said (hosted a waiting n) n').
Proof.
  intros [[Hd|(xs & cells & Hh)] Hctx] [Hnd Hadm] Hroom Ha Hsay Hin; [done|].
  destruct (room_spacious _ _ _ _ Hh Hroom) as [Hsp Hseeds].
  assert (zlen xs + 3 < MAX_OUTPUT_MESSAGES) as H3.
  { unfold spacious in Hsp. pose proof (zlen_nonneg cells). lia. }
  pose proof (healthy_hosted _ _ _ _ a waiting Hh Ha) as Hh'.
  set (n1 := hosted a waiting n) in *.
  assert (Forall (fun p => exists id k, said id k p) (n_context n1)) as Hctx1 by done.
  destruct c as [seeds| | | |data size|]; cbn [run_api].
  - eapply wp_mono; [by apply (healthy_join len said seeds n1 xs cells)|].
    intros r n' Hk. eapply kept_good; [exact Hk|exact Hctx1].
  - by apply (receive_good said n1 xs cells).
  - destruct (is_active (g_state (n_self n1))) eqn:Hact.
    + eapply wp_mono; [by apply (healthy_send len said n1 xs cells)|].
      intros r n' (kept' & cells' & ds & Hk & _ & Hf & Hs & Hds). split; [|by exists ds].
      split; [right; by exists kept', cells'|]. by rewrite (sf_context _ _ Hf).
    + unfold pittacus_gossip_process_send. apply wp_bind, wp_self. rewrite Hact. apply wp_ret.
      eapply kept_good; [|done]. by eapply kept_self.
  - eapply wp_mono; [by apply (healthy_tick len said n1 xs cells)|].
    intros r n' Hk. eapply kept_good; [exact Hk|exact Hctx1].
  - destruct Hadm as [Hsz Hdl].
    destruct (own_id_ok said n xs cells Hh) as (me & Eme & Hme).
    eapply wp_mono; [apply (healthy_send_data len said n1 xs cells data size me); try done|].
    { intros Hc. apply Hsay. unfold said_by. rewrite Hme, bool_decide_true by exact Hc.
    by left. }
    intros r n' Hk. eapply kept_good; [exact Hk|exact Hctx1].
  - eapply wp_mono; [by apply (wp_destroy n1 xs cells), (he_ok _ _ _ _ _ Hh')|].
    intros r n' (_ & _ & _ & Hst & Hs & Hc). split; [split; [by left|by rewrite Hc]|].
    exists []. by rewrite Hs, app_nil_r.
Qed.

(** * Systems *)

Definition good_system (s : system) : Prop :=
  Forall (good (said_in s)) (sy_nodes s) /\
  Forall (fun b => exists m, sound len (said_in s) b m) (sy_flight s).

Lemma sound_said (said said' : Z -> Z -> list Z -> Prop) b m :
  (forall i c p, said i c p -> said' i c p) -> sound len said b m -> sound len said' b m.
Proof.
  intros Hs (Hb & Hw & Hl & Hleg). split; [done|]. split; [done|]. split; [done|].
  destruct m; try done. by apply Hs.
Qed.

(** An admissible call of a good system returns. *)
Lemma step_runs s e :
  good_system s -> event_ok len s e -> exists n r n', sy_nodes s !! ev_node e = Some n /\
  run_api recorder (ev_call e) (hosted (ev_answers e) (ev_inbox e) n) = Ok (r, n') /\
  call_good (fun i c p => (i, c, p) ∈ sy_said s ++ said_by n (ev_call e))
    (hosted (ev_answers e) (ev_inbox e) n) n'.
Proof.
  intros [Hn Hf] [(n & En & Hadm & Hroom) Hmem Hin]. exists n.
  pose proof (Forall_lookup_1 _ _ _ _ Hn En) as Hg.
  set (said' := fun i c p => (i, c, p) ∈ sy_said s ++ said_by n (ev_call e)).
  assert (forall i c p, said_in s i c p -> said' i c p) as Hs by (intros; apply elem_of_app; by left).
  assert (wp (run_api recorder (ev_call e)) (hosted (ev_answers e) (ev_inbox e) n)
            (fun _ => call_good said' (hosted (ev_answers e) (ev_inbox e) n))) as Hrun.
  { apply call_runs; try done; [by eapply good_said| |].
    - intros id k p Hsay. apply elem_of_app. by right.
    - apply (Forall_impl _ _ _ Hin). intros d [Hd Hl]. split; [done|].
      apply (proj1 (Forall_forall _ _) Hf) in Hd as [m Hm]. exists m. by eapply sound_said. }
  unfold wp in Hrun. destruct (run_api _ _ _) as [[r n']| |]; [|done..]. by exists r, n'.
Qed.

Lemma step_good s e s' :
  good_system s -> event_ok len s e -> sys_step s e = Some s' -> good_system s'.
Proof.
  intros Hg He E. destruct (step_runs s e Hg He) as (n & r & n' & En & Er & Hn' & ds & Hs & Hds).
  unfold sys_step in E. rewrite En, Er in E. injection E as <-. destruct Hg as [Hn Hf].
  assert (forall i c p, said_in s i c p -> (i, c, p) ∈ sy_said s ++ said_by n (ev_call e)) as Hmono
    by (intros; apply elem_of_app; by left).
  split; cbn.
  - apply Forall_insert; [|done]. apply (Forall_impl _ _ _ Hn). intros x. by apply good_said.
  - apply Forall_app. split.
    + apply (Forall_impl _ _ _ Hf). intros b [m Hm]. exists m. by eapply sound_said.
    + cbn in Hs. rewrite Hs, drop_app_length. by apply Forall_fmap.
Qed.

Lemma reachable_good s : reachable len s -> good_system s.
Proof.
  induction 1 as [nodes Hst|s e s' _ IH He E]; [|by eapply step_good].
  split; [|constructor]. apply (Forall_impl _ _ _ Hst). intros n Hn.
  eapply good_said; [|by apply started_good]. done.
Qed.

(** A live node is healthy; what it has logged was said. *)
Lemma live_healthy s n :
  reachable len s -> n ∈ sy_nodes s -> state_of n <> STATE_DESTROYED ->
  exists xs cells, healthy len (said_in s) n xs cells.
Proof.
  intros Hs Hn Hd. destruct (reachable_good s Hs) as [Hg _].
  apply (proj1 (Forall_forall _ _) Hg) in Hn as [[?|?] _]; done.
Qed.

Lemma logged_said s n e :
  reachable len s -> n ∈ sy_nodes s -> state_of n <> STATE_DESTROYED ->
  e ∈ log_view (g_data_log (n_self n)) -> said_in s (le_id e) (le_seq e) (le_payload e).
Proof.
  intros Hs Hn Hd He. destruct (live_healthy s n Hs Hn Hd) as (xs & cells & Hh).
  apply (proj1 (Forall_forall _ _) (he_log _ _ _ _ _ Hh) e He).
Qed.

(** * Who sent what *)

(** What makes the messages of a node its own. *)
Definition identity (n : node payloads) : cluster_member * Z :=
  (g_self_address (n_self n), g_data_counter (n_self n)).

#[export] Instance identity_framed : Framed identity.
Proof. by split. Qed.

Lemma identity_state v : stable identity (set_state v).
Proof. done. Qed.

Lemma keeps_receive_identity : keeps identity (pittacus_gossip_process_receive recorder).
Proof.
  assert (forall e, keeps identity (gossip_handle_welcome e)) as Hw
    by (intros e; apply (keeps_handle_welcome identity identity_state)).
  assert (forall e, keeps identity (gossip_handle_data recorder e)) as Hd.
  { intros e. apply (keeps_connected identity). unfold recorder. keeps_tac. intros n b n' [= <- <-]. done. }
  unfold pittacus_gossip_process_receive, gossip_handle_new_message. keeps_tac; auto.
Qed.

Lemma send_data_identity data size n r n' :
  pittacus_gossip_send_data data size n = Ok (r, n') ->
  identity n' = (g_self_address (n_self n),
    if bool_decide (state_of n = STATE_CONNECTED) then u32 (g_data_counter (n_self n) + 1)
    else g_data_counter (n_self n)).
Proof.
  unfold pittacus_gossip_send_data, return_if_not_connected, state_of.
  intros (g & n0 & [= <- <-] & E)%bind_Ok. case_bool_decide; [|by injection E as _ <-].
  unfold gossip_enqueue_data in E. apply bind_Ok in E as (g & n1 & [= <- <-] & E).
  apply bind_Ok in E as (u & n1 & [= <- <-] & E). apply bind_Ok in E as (v & n1 & Ev & E).
  apply (keeps_liftO identity) in Ev.
  assert (identity n' = identity n1) as ->; [|by rewrite Ev].
  revert E. clear Ev. generalize n1. intros n2 E. destruct v as [v1 v2].
  match type of E with ?m _ = _ => assert (keeps identity m) as Hk by keeps_tac end.
  by eapply Hk.
Qed.

Lemma call_identity c n r n' :
  run_api recorder c n = Ok (r, n') -> own_id n <> None ->
  g_self_address (n_self n') = g_self_address (n_self n) /\
  g_data_counter (n_self n') =
    match said_by n c with [] => g_data_counter (n_self n) | _ => u32 (g_data_counter (n_self n) + 1) end.
Proof.
  intros E Hid.
  assert (identity n' = (g_self_address (n_self n),
    match said_by n c with [] => g_data_counter (n_self n) | _ => u32 (g_data_counter (n_self n) + 1) end))
    as Hi; [|by injection Hi].
  unfold said_by. destruct c as [seeds| | | |data size|]; cbn [run_api] in E.
  - by apply (keeps_join identity identity_state) in E.
  - by apply keeps_receive_identity in E.
  - by apply (keeps_process_send identity) in E.
  - by apply (keeps_tick identity) in E.
  - apply send_data_identity in E. rewrite E. destruct (own_id n); [|done].
    by case_bool_decide.
  - by apply (keeps_destroy identity identity_state) in E.
Qed.

Lemma said_by_shape {Ctx} (n : node Ctx) c :
  said_by n c = [] \/ exists me p, own_id n = Some me /\
    said_by n c = [(me, u32 (g_data_counter (n_self n) + 1), p)].
Proof.
  unfold said_by. destruct c; auto. destruct (own_id n) as [me|]; [|by left].
  case_bool_decide; [right; by eexists _, _|by left].
Qed.

(** Every node has an identity. *)
Definition identified (s : system) : Prop := forall n, n ∈ sy_nodes s -> own_id n <> None.

(** No number was used twice by a node. *)
Record ledger (s : system) : Prop := Ledger {
  lg_counter : forall n, n ∈ sy_nodes s -> 0 <= g_data_counter (n_self n) <= zlen (sy_said s);
  lg_below : forall n id c p, n ∈ sy_nodes s -> own_id n = Some id -> said_in s id c p ->
    c <= g_data_counter (n_self n);
  lg_once : forall id c p p', said_in s id c p -> said_in s id c p' -> p = p'
}.

Lemma call_own_id (n n' : node payloads) :
  g_self_address (n_self n') = g_self_address (n_self n) -> own_id n' = own_id n.
Proof. unfold own_id. by intros ->. Qed.

(** The node that took the step, the others, and what was said. *)
Lemma step_split s e s' :
  identified s -> sys_step s e = Some s' -> exists n n' , sy_nodes s !! ev_node e = Some n /\
  sy_nodes s' = <[ev_node e := n']> (sy_nodes s) /\ sy_said s' = sy_said s ++ said_by n (ev_call e) /\
  own_id n' = own_id n /\ g_data_counter (n_self n') =
    match said_by n (ev_call e) with
    | [] => g_data_counter (n_self n)
    | _ => u32 (g_data_counter (n_self n) + 1)
    end.
Proof.
  intros Hl E. unfold sys_step in E. destruct (sy_nodes s !! ev_node e) as [n|] eqn:En; [|done].
  destruct (run_api _ _ _) as [[r n']| |] eqn:Er; try done. injection E as <-.
  apply call_identity in Er as [Ha Hc].
  - exists n, n'. cbn. split_and!; try done. by apply call_own_id.
  - change (own_id n <> None). apply Hl. by eapply list_elem_of_lookup_2.
Qed.

Lemma step_own_ids s e s' :
  identified s -> sys_step s e = Some s' -> own_id <$> sy_nodes s' = own_id <$> sy_nodes s.
Proof.
  intros Hl E. destruct (step_split s e s' Hl E) as (n & n' & En & -> & _ & Hid & _).
  rewrite list_fmap_insert, Hid. apply list_insert_id. by rewrite list_lookup_fmap, En.
Qed.

Lemma step_ledger s e s' :
  identified s -> ledger s -> NoDup (own_id <$> sy_nodes s) -> zlen (sy_said s') < 2 ^ 32 ->
  sys_step s e = Some s' -> ledger s'.
Proof.
  intros Hid0 Hl Hnd Hz E. destruct (step_split s e s' Hid0 E) as (n & n' & En & Es & Ed & Hid & Hc).
  pose proof (list_elem_of_lookup_2 _ _ _ En) as Hin.
  assert (forall m, m ∈ sy_nodes s' -> m = n' \/ exists j, j <> ev_node e /\ sy_nodes s !! j = Some m) as Hcase.
  { intros m Hm. rewrite Es in Hm. apply list_elem_of_lookup in Hm as [j Hj].
    destruct (decide (j = ev_node e)) as [->|Hne].
    - rewrite list_lookup_insert_eq in Hj by (by eapply lookup_lt_Some). injection Hj as <-. by left.
    - rewrite list_lookup_insert_ne in Hj by done. right. by exists j. }
  assert (zlen (sy_said s') = zlen (sy_said s) + zlen (said_by n (ev_call e))) as Hzs
    by (by rewrite Ed, zlen_app).
  destruct Hl as [Hct Hb Ho]. pose proof (Hct n Hin) as Hcn.
  assert (g_data_counter (n_self n') = g_data_counter (n_self n) + zlen (said_by n (ev_call e))) as Hcz.
  { rewrite Hc. destruct (said_by_shape n (ev_call e)) as [Hs|(me & p & _ & Hs)]; rewrite Hs in Hzs |- *.
    - rewrite zlen_nil. lia.
    - rewrite zlen_cons, zlen_nil in *. rewrite u32_id by (unfold is_u32; lia). lia. }
  pose proof (zlen_nonneg (said_by n (ev_call e))) as Hnn.
  assert (forall id c p, said_in s' id c p -> said_in s id c p \/
    own_id n = Some id /\ c = g_data_counter (n_self n) + 1 /\ said_by n (ev_call e) = [(id, c, p)]) as Hnew.
  { intros id c p H. unfold said_in in *. rewrite Ed in H. apply elem_of_app in H as [H|H]; [by left|right].
    destruct (said_by_shape n (ev_call e)) as [Hs|(me & q & Hme & Hs)]; rewrite Hs in H.
    - by apply not_elem_of_nil in H.
    - apply list_elem_of_singleton in H as [= -> -> ->]. assert (is_u32 (g_data_counter (n_self n) + 1)) as Hu.
      { rewrite Hs, zlen_cons, zlen_nil in Hzs. unfold is_u32. lia. }
      rewrite (u32_id _ Hu) in *. done. }
  split.
  - intros m [->|(j & _ & Hj)]%Hcase; [lia|].
    pose proof (Hct m (list_elem_of_lookup_2 _ _ _ Hj)). lia.
  - intros m id c p [->|(j & Hj & Em)]%Hcase Hm [Hsaid|(Hme & -> & Hs)]%Hnew.
    + rewrite Hid in Hm. pose proof (Hb n id c p Hin Hm Hsaid). lia.
    + rewrite Hcz, Hs. unfold zlen. cbn. lia.
    + by eapply Hb; [eapply list_elem_of_lookup_2| |].
    + destruct Hj. eapply (NoDup_lookup _ _ _ (Some id) Hnd); rewrite list_lookup_fmap.
      * by rewrite Em, <- Hm.
      * by rewrite En, <- Hme.
  - intros id c p p' [H1|(Hm1 & -> & H1)]%Hnew [H2|(Hm2 & Hc2 & H2)]%Hnew.
    + by eapply Ho.
    + pose proof (Hb n id c p Hin Hm2 H1). lia.
    + pose proof (Hb n id _ p' Hin Hm1 H2). lia.
    + rewrite H1 in H2. by injection H2.
Qed.

Lemma started_identity n : started len n -> own_id n <> None /\ g_data_counter (n_self n) = 0.
Proof.
  intros Hn. destruct (started_init n Hn) as (_ & _ & Hct & Hst & _). split; [|done].
  destruct (started_good n Hn) as [[Hd|(xs & cells & Hh)] _]; [congruence|].
  destruct (own_id_ok _ _ _ _ Hh) as (me & _ & Hme). by rewrite Hme.
Qed.

Lemma own_ids_identified s : identified s <-> None ∉ (own_id <$> sy_nodes s).
Proof.
  split.
  - intros H (n & E & Hn)%list_elem_of_fmap. by apply (H n).
  - intros H n Hn E. apply H. rewrite <- E. by apply list_elem_of_fmap_2.
Qed.

Lemma reachable_identified s : reachable len s -> identified s.
Proof.
  induction 1 as [nodes Hst|s e s' _ IH _ E].
  - rewrite Forall_forall in Hst. intros n Hn. by apply started_identity, Hst.
  - pose proof (step_own_ids s e s' IH E) as Hids. apply own_ids_identified. rewrite Hids.
    by apply own_ids_identified.
Qed.

Lemma step_said s e s' : identified s -> sys_step s e = Some s' -> zlen (sy_said s) <= zlen (sy_said s').
Proof.
  intros Hi E. destruct (step_split s e s' Hi E) as (n & n' & _ & _ & -> & _).
  rewrite zlen_app. pose proof (zlen_nonneg (said_by n (ev_call e))). lia.
Qed.

Lemma reachable_ledger s :
  reachable len s -> NoDup (own_id <$> sy_nodes s) -> zlen (sy_said s) < 2 ^ 32 -> ledger s.
Proof.
  induction 1 as [nodes Hst|s e s' Hr IH _ E]; intros Hnd Hz.
  - rewrite Forall_forall in Hst. split; cbn.
    + intros n Hn. destruct (started_identity n) as [_ ->]; [by apply Hst|done].
    + intros n id c p _ _ H. by apply not_elem_of_nil in H.
    + intros id c p p' H. by apply not_elem_of_nil in H.
  - pose proof (reachable_identified s Hr) as Hi. rewrite (step_own_ids s e s' Hi E) in Hnd.
    pose proof (step_said s e s' Hi E). apply (step_ledger s e s'); try done. apply IH; [done|lia].
Qed.
End Cluster.

(** * What holds of every reachable system *)

(** C8: In every system a cluster can get to, from nodes just created, by
    calls, loss, duplication, reordering and redirection of datagrams, every
    further call returns: no access out of bounds, no use of freed memory, no
    endless loop, on any node, whatever datagrams of the cluster wait at its
    socket, given memory and room in its queue ([event_ok]). *)
Theorem cluster_runs len s e :
  reachable len s -> event_ok len s e -> exists s', sys_step s e = Some s' /\ reachable len s'.
Proof.
  intros Hs He. destruct (step_runs len s e (reachable_good len s Hs) He) as (n & r & n' & En & Er & _).
  assert (exists s', sys_step s e = Some s') as [s' E] by (unfold sys_step; rewrite En, Er; by eexists).
  exists s'. split; [done|]. by eapply ReachStep.
Qed.

Definition pair_tick : event := Event 1 ApiTick (quiet peer_addr) [].

Lemma cluster_runs_witness :
  exists s', sys_step pair_final pair_tick = Some s' /\ reachable 16 s'.
Proof.
  apply (cluster_runs 16 pair_final pair_tick pair_reachable).
  apply event_okb_ok; [vm_compute; reflexivity|intros k; reflexivity].
Defined.

(** Integrity across the network: in every such system, each payload that
    the receiver of some node was given is one that the user of some node
    sent. *)
Theorem delivered_was_sent len s n p :
  reachable len s -> n ∈ sy_nodes s -> p ∈ n_context n -> exists id c, said_in s id c p.
Proof.
  intros Hs Hn Hp. destruct (reachable_good len s Hs) as [Hg _].
  apply (proj1 (Forall_forall _ _) Hg) in Hn as [_ Hc]. by apply (proj1 (Forall_forall _ _) Hc).
Qed.

Lemma pair_receiver : Exists (fun n => [1; 2; 3] ∈ n_context n) (sy_nodes pair_final).
Proof.
  apply (seen_some _ _ pair_seen (fun g => [1; 2; 3] ∈ gl_given g)). apply (bool_decide_unpack _). vm_compute. exact I.
Qed.

Lemma delivered_was_sent_witness : exists id c, said_in pair_final id c [1; 2; 3].
Proof.
  destruct (proj1 (Exists_exists _ _) pair_receiver) as (n & Hn & Hp).
  exact (delivered_was_sent 16 pair_final n [1; 2; 3] pair_reachable Hn Hp).
Defined.

(** C5: Agreement: in every such system, whose nodes have distinct identities
    and have not sent [2^32] messages, two live nodes whose data logs hold a
    message of the same originator and number hold the same payload, the one
    that was sent under that number. *)
Theorem logs_agree len s n1 n2 e1 e2 :
  reachable len s -> NoDup (own_id <$> sy_nodes s) -> zlen (sy_said s) < 2 ^ 32 ->
  n1 ∈ sy_nodes s -> n2 ∈ sy_nodes s ->
  state_of n1 <> STATE_DESTROYED -> state_of n2 <> STATE_DESTROYED ->
  e1 ∈ log_view (g_data_log (n_self n1)) -> e2 ∈ log_view (g_data_log (n_self n2)) ->
  le_id e1 = le_id e2 -> le_seq e1 = le_seq e2 ->
  le_payload e1 = le_payload e2 /\ said_in s (le_id e1) (le_seq e1) (le_payload e1).
Proof.
  intros Hs Hnd Hz Hn1 Hn2 Hd1 Hd2 He1 He2 Ei Eq.
  pose proof (logged_said len s n1 e1 Hs Hn1 Hd1 He1) as H1.
  pose proof (logged_said len s n2 e2 Hs Hn2 Hd2 He2) as H2. split; [|done].
  rewrite <- Ei, <- Eq in H2. by eapply (lg_once _ (reachable_ledger len s Hs Hnd Hz)).
Qed.

(** Two nodes that log the same message. *)
Definition has_message (id c : Z) (l : list log_entry) : Prop := Exists (fun e => le_id e = id /\ le_seq e = c) l.
Definition logs_message (id c : Z) (n : node payloads) : Prop :=
  has_message id c (log_view (g_data_log (n_self n))) /\ state_of n <> STATE_DESTROYED.

#[export] Instance has_message_dec id c l : Decision (has_message id c l).
Proof. unfold has_message. apply _. Defined.

Lemma two_loggers id c l :
  Forall (logs_message id c) l -> length l = 2%nat -> exists n1 n2 e1 e2, l = [n1; n2] /\
  n1 ∈ l /\ n2 ∈ l /\ state_of n1 <> STATE_DESTROYED /\ state_of n2 <> STATE_DESTROYED /\
  e1 ∈ log_view (g_data_log (n_self n1)) /\ e2 ∈ log_view (g_data_log (n_self n2)) /\
  le_id e1 = le_id e2 /\ le_seq e1 = le_seq e2.
Proof.
  intros Hl H2. destruct l as [|n1 [|n2 [|]]]; try done.
  apply Forall_cons in Hl as [[He1 Hd1] Hl]. apply Forall_cons in Hl as [[He2 Hd2] _].
  apply Exists_exists in He1 as (e1 & He1 & I1 & S1). apply Exists_exists in He2 as (e2 & He2 & I2 & S2).
  exists n1, n2, e1, e2. split_and!; try done; try congruence; [by left|right; by left].
Qed.

Lemma pair_loggers : Forall (logs_message 158462835163263 1) (sy_nodes pair_final).
Proof.
  apply (seen_all _ _ pair_seen (fun g => has_message 158462835163263 1 (gl_log g) /\ gl_state g <> STATE_DESTROYED)).
  apply (bool_decide_unpack _). vm_compute. exact I.
Qed.

Lemma pair_two : length (sy_nodes pair_final) = 2%nat.
Proof. by rewrite (seen_length _ _ pair_seen). Qed.

Lemma pair_ids : NoDup (own_id <$> sy_nodes pair_final).
Proof. rewrite (seen_ids _ _ pair_seen). apply (bool_decide_unpack _). vm_compute. exact I. Qed.

Lemma pair_said : zlen (sy_said pair_final) < 2 ^ 32.
Proof. by rewrite (seen_said _ _ pair_seen). Qed.

Lemma logs_agree_witness :
  exists n1 n2 e1 e2, sy_nodes pair_final = [n1; n2] /\
    e1 ∈ log_view (g_data_log (n_self n1)) /\ e2 ∈ log_view (g_data_log (n_self n2)) /\
    le_payload e1 = le_payload e2 /\ said_in pair_final (le_id e1) (le_seq e1) (le_payload e1).
Proof.
  destruct (two_loggers _ _ _ pair_loggers pair_two)
    as (n1 & n2 & e1 & e2 & En & Hn1 & Hn2 & Hd1 & Hd2 & He1 & He2 & Hi & Hs).
  exists n1, n2, e1, e2. split; [exact En|]. split; [exact He1|]. split; [exact He2|].
  exact (logs_agree 16 pair_final n1 n2 e1 e2 pair_reachable pair_ids pair_said Hn1 Hn2 Hd1 Hd2
           He1 He2 Hi Hs).
Defined.
