(* ===== verification/GrowthFacts.v ===== *)
(** What each call of a cluster does to what a node knows, and what holds of
    the knowledge of nodes over time. *)
From S2P Require Import Prelude.
From S2P Require Import Config.
From S2P Require Import Utils.
From S2P Require Import World.
From S2P Require Import Member.
From S2P Require Import VectorClock.
From S2P Require Import Messages.
From S2P Require Import Queue.
From S2P Require Import DataLog.
From S2P Require Import Gossip.
From S2P Require Import Node.
From S2P Require Import MemberFacts.
From S2P Require Import VectorClockFacts.
From S2P Require Import CompareFacts.
From S2P Require Import WireFacts.
From S2P Require Import MessageFacts.
From S2P Require Import DataLogFacts.
From S2P Require Import OutboxFacts.
From S2P Require Import EnqueueFacts.
From S2P Require Import NodeFacts.
From S2P Require Import HandlerFacts.
From S2P Require Import PublicFacts.
From S2P Require Import FrameFacts.
From S2P Require Import StateFacts.
From S2P Require Import Samples.
From S2P Require Import HealthFacts.
From S2P Require Import ClusterFacts.
From S2P Require Import KnowledgeFacts.
From S2P Require Import SyncFacts.
From S2P Require Import Network.
From S2P Require Import NetworkSamples.
From S2P Require Import NetworkProps.

(** * What a call does to the knowledge of a node *)

(** Clock, log, and what the receiver was given. *)
Definition remembered {Ctx} (n : node Ctx) : vector_clock * data_log * Ctx := (knowledge n, n_context n).

#[export] Instance remembered_framed {Ctx} : Framed (remembered (Ctx := Ctx)).
Proof. by split. Qed.

Lemma remembered_state {Ctx} v : stable (remembered (Ctx := Ctx)) (set_state v).
Proof. done. Qed.

(** A call that runs reaches what it is proved to reach. *)
Lemma wp_Ok {S A} (m : M S A) s Q a s' : wp m s Q -> m s = Ok (a, s') -> Q a s'.
Proof. unfold wp. by intros H E; rewrite E in H. Qed.

Section Calls.
Context (len : Z) (said : Z -> Z -> list Z -> Prop) (ids : gset Z).
Hypothesis Hsaid : forall id c p, said id c p -> id ∈ ids.
Hypothesis Hids : Z.of_nat (size ids) <= MAX_VECTOR_SIZE.
Implicit Types n : node payloads.

(** Clock and log mirror each other, and know originators of [ids] only. *)
Definition mirrored n : Prop := mirrors n /\ dom (clock_of n) ⊆ ids.

(** One entry more. *)
Definition entered n n' (id k : Z) (p : list Z) : Prop :=
  clock_of n' = <[id := k]> (clock_of n) /\ log_map n' = <[id := (k, p)]> (log_map n).

(** What a call may do: nothing, enter the message that it sends, or enter a
    message that was said and is newer, which the receiver is given. *)
Inductive effect n (c : api_call) n' : Prop :=
| EffectNone : said_by n c = [] -> remembered n' = remembered n -> effect n c n'
| EffectSay id k p :
    said_by n c = [(id, k, p)] -> entered n n' id k p -> n_context n' = n_context n -> effect n c n'
| EffectLearn id k p :
    c = ApiReceive -> said id k p -> default (-1) (clock_of n !! id) < k -> entered n n' id k p ->
    n_context n' = record_payload p (n_context n) -> effect n c n'.

(** A call goes on to mirror, and has such an effect. *)
Definition worked n c n' : Prop := mirrored n' /\ effect n c n'.

Lemma worked_keeps n c n' :
  mirrored n -> said_by n c = [] -> remembered n' = remembered n -> worked n c n'.
Proof.
  intros [Hm Hd] Hs E. split; [|by apply EffectNone]. injection E as E1 E2 _.
  assert (knowledge n' = knowledge n) as Ek by (unfold knowledge; by rewrite E1, E2).
  pose proof (knowledge_eq _ _ Ek) as [Ec _]. split; [by eapply mirrors_eq|by rewrite Ec].
Qed.

Lemma noted_entered n n' xs cells (t : message_data) :
  node_ok n xs cells -> mirrored n -> vr_member_id (data_data_version t) ∈ ids -> noted n n' t ->
  mirrored n' /\ entered n n' (vr_member_id (data_data_version t))
    (vr_sequence_number (data_data_version t)) (payload t).
Proof.
  intros Hok [Hm Hd] Hid Hn. destruct (noted_maps n n' t) as (Ec & El & Hm'); try done; try apply Hok.
  - etrans; [|exact Hids]. apply inj_le, subseteq_size. apply union_subseteq. split; [done|].
    by apply singleton_subseteq_l.
  - split; [split; [done|]|done].
    rewrite Ec, dom_insert. apply union_subseteq. split; [|done]. by apply singleton_subseteq_l.
Qed.

Lemma not_connected_Ok k n (r : Z) n' :
  ~ connected n -> return_if_not_connected k n = Ok (r, n') -> n' = n.
Proof.
  intros Hc E. pose proof (wp_not_connected k n (fun _ n' => n' = n) Hc eq_refl) as H.
  exact (wp_Ok _ _ _ _ _ H E).
Qed.

Lemma receive_worked n xs cells r n' :
  healthy len said n xs cells -> mirrored n ->
  Forall (fun d => zlen (snd d) = len /\ exists m, sound len said (fst d) m) (inbox (n_world n)) ->
  pittacus_gossip_process_receive recorder n = Ok (r, n') -> worked n ApiReceive n'.
Proof.
  intros Hh Hm Hin E. pose proof (he_ok _ _ _ _ _ Hh) as Hok.
  destruct (is_active (g_state (n_self n))) eqn:Ha.
  2:{ unfold pittacus_gossip_process_receive in E. unfold mbind at 1, M_bind at 1, self at 1 in E.
      rewrite Ha in E. injection E as _ <-. by apply worked_keeps. }
  destruct (inbox (n_world n)) as [|[bytes from] rest] eqn:Ei.
  { unfold pittacus_gossip_process_receive in E. unfold mbind at 1, M_bind at 1, self at 1 in E.
    rewrite Ha in E. cbn [negb] in E. unfold mbind at 1, M_bind at 1, liftW at 1, pt_recv_from in E.
    rewrite Ei in E. injection E as _ <-. by apply worked_keeps. }
  apply Forall_cons in Hin as [[Hfrom (m & Hb & Hwf & Hl & Hleg)] _]. cbn in Hfrom, Hb. subst bytes.
  pose proof (msg_need_wire m Hwf) as [Hmin _]. pose proof (healthy_len _ _ _ _ _ Hh) as Hlen.
  rewrite (process_receive_run recorder n (msg_wire m) from rest Ha Ei) in E; [|config_lia|apply Hok].
  set (n1 := after_recv n (msg_wire m) rest) in *.
  assert (node_ok n1 xs cells) as Hok1 by by apply node_ok_recv.
  assert (mirrored n1) as Hm1 by exact Hm.
  assert (forall f : M (node payloads) Z, keeps remembered f -> f n1 = Ok (r, n') -> worked n ApiReceive n') as Hk
    by (intros f Hf Ef; apply worked_keeps; [exact Hm|done|exact (Hf _ _ _ Ef)]).
  destruct m as [t|t|t|t|t|t]; cbn [msg_wf msg_wire] in *;
    pose proof (received_carries n t from Hwf Hl ltac:(lia)) as Hcar.
  - rewrite (dispatch_hello _ _ t _ Hcar) in E. eapply Hk; [apply keeps_handle_hello; apply _|exact E].
  - rewrite (dispatch_welcome _ _ t _ Hcar) in E.
    eapply Hk; [apply (keeps_handle_welcome remembered remembered_state)|exact E].
  - rewrite (dispatch_member_list _ _ t _ Hcar) in E. eapply Hk; [apply keeps_handle_member_list; apply _|exact E].
  - rewrite (dispatch_data _ _ t _ Hcar) in E. destruct (decide (g_state (n_self n1) = STATE_CONNECTED)) as [Hc|Hc].
    2:{ apply (not_connected_Ok _ _ _ _ Hc) in E as ->. by apply worked_keeps. }
    destruct (wp_Ok _ _ _ _ _ (wp_handle_data recorder _ t record_payload n1 xs cells Hok1 Hc Hcar (recorder_ok _)) E)
      as (_ & _ & _ & n2 & xs2 & Hm2 & Hcase).
    case_bool_decide as Hnew.
    + destruct Hcase as (Hno & Hctx & _).
      destruct (noted_entered n1 n' xs cells t Hok1 Hm1) as [Hm' He]; [by eapply Hsaid|exact Hno|].
      split; [exact Hm'|]. eapply EffectLearn; [done|exact Hleg|exact Hnew|exact He|exact Hctx].
    + destruct Hcase as [_ ->]. pose proof (message_enqueued_frame _ _ _ _ _ _ Hm2) as Hf.
      apply worked_keeps; [exact Hm|done|]. unfold remembered, knowledge.
      by rewrite (ef_version _ _ Hf), (ef_log _ _ Hf), (ef_context _ _ Hf).
  - rewrite (dispatch_ack _ _ t _ Hcar) in E. eapply Hk; [apply keeps_handle_ack; apply _|exact E].
  - rewrite (dispatch_status _ _ t _ Hcar) in E. eapply Hk; [apply keeps_handle_status; apply _|exact E].
Qed.

(** A message is sent by a connected node only. *)
Lemma said_by_idle n data size : ~ connected n -> said_by n (ApiSendData data size) = [].
Proof. intros Hc. unfold said_by. destruct (own_id n); [|done]. by rewrite bool_decide_false. Qed.

Lemma send_data_worked n xs cells data size r n' :
  healthy len said n xs cells -> mirrored n -> admissible len n (ApiSendData data size) ->
  (forall id k p, (id, k, p) ∈ said_by n (ApiSendData data size) -> said id k p) ->
  pittacus_gossip_send_data data size n = Ok (r, n') -> worked n (ApiSendData data size) n'.
Proof.
  intros Hh Hm [_ [Hsz Hdl]] Hsay E. unfold pittacus_gossip_send_data in E.
  destruct (decide (g_state (n_self n) = STATE_CONNECTED)) as [Hc|Hc].
  2:{ apply (not_connected_Ok _ _ _ _ Hc) in E as ->. apply worked_keeps; [done|by apply said_by_idle|done]. }
  rewrite u16_id in E by (unfold MAX_PAYLOAD in Hsz; config_lia).
  pose proof (wp_connected _ n _ Hc (wp_enqueue_data data size n xs cells (he_ok _ _ _ _ _ Hh) Hsz Hdl)) as Hwp.
  destruct (wp_Ok _ _ _ _ _ Hwp E) as (_ & _ & id & Eid & Hno & rs & n2 & xs2 & _ & (v & l & En2) & Hmsg & _).
  assert (said_by n (ApiSendData data size) = [(id, u32 (g_data_counter (n_self n) + 1), ztake size data)]) as Hby
    by (unfold said_by, own_id; by rewrite Eid, bool_decide_true by exact Hc).
  destruct (noted_entered n n' xs cells (own_data n id data size) (he_ok _ _ _ _ _ Hh) Hm) as [Hm' He];
    [eapply Hsaid, Hsay; rewrite Hby; by left|exact Hno|].
  split; [exact Hm'|]. eapply EffectSay; [exact Hby|exact He|].
  rewrite (ef_context _ _ (message_enqueued_frame _ _ _ _ _ _ Hmsg)). by rewrite En2.
Qed.

Lemma call_worked n xs cells a waiting c r n' :
  healthy len said n xs cells -> mirrored n -> admissible len n c ->
  (forall k, alloc_ok a k = true) ->
  (forall id k p, (id, k, p) ∈ said_by n c -> said id k p) ->
  Forall (fun d => zlen (snd d) = len /\ exists m, sound len said (fst d) m) waiting ->
  run_api recorder c (hosted a waiting n) = Ok (r, n') -> worked n c n'.
Proof.
  intros Hh Hm Hadm Ha Hsay Hin E.
  pose proof (healthy_hosted len said n xs cells a waiting Hh Ha) as Hh'.
  set (n1 := hosted a waiting n) in *. assert (mirrored n1) as Hm1 by exact Hm.
  assert (forall f : M (node payloads) Z, said_by n c = [] -> keeps remembered f -> f n1 = Ok (r, n') ->
    worked n c n') as Hk
    by (intros f Hs Hf Ef; apply worked_keeps; [exact Hm|exact Hs|exact (Hf _ _ _ Ef)]).
  assert (worked n1 c n' -> worked n c n') as Hsame.
  { intros [Hm' [Hs E'|id k p Hs He Ec|id k p Ec Hs Hl He Ect]]; (split; [exact Hm'|]).
    - by apply EffectNone. - by eapply EffectSay. - by eapply EffectLearn. }
  destruct c as [seeds| | | |data size|]; cbn [run_api] in E.
  - eapply Hk; [done|apply (keeps_join remembered remembered_state)|exact E].
  - apply Hsame. by eapply (receive_worked n1).
  - eapply Hk; [done|apply keeps_process_send; apply _|exact E].
  - eapply Hk; [done|apply keeps_tick; apply _|exact E].
  - apply Hsame. by eapply (send_data_worked n1).
  - eapply Hk; [done|apply (keeps_destroy remembered remembered_state)|exact E].
Qed.

(** The messages that the call sends are newer than the clock. *)
Definition says_newer n (c : api_call) : Prop := forall id k p s,
  (id, k, p) ∈ said_by n c -> clock_of n !! id = Some s -> s < k.

(** Then the clock forgets no number. *)
Lemma effect_below n c n' : says_newer n c -> effect n c n' -> below (clock_of n) (clock_of n').
Proof.
  clear Hsaid Hids. intros Hnew He.
  assert (forall id k p, entered n n' id k p -> (forall s, clock_of n !! id = Some s -> s < k) ->
    below (clock_of n) (clock_of n')) as Hin.
  { intros id k p [Ec _] Hlt id' s Es. rewrite Ec. destruct (decide (id' = id)) as [->|Hne].
    - rewrite lookup_insert_eq. exists k. split; [done|]. apply Hlt in Es. lia.
    - rewrite lookup_insert_ne by done. by exists s. }
  destruct He as [_ E|id k p Hs He _|id k p _ _ Hl He _].
  - injection E as E1 E2 _. intros id s Es. unfold clock_of in *. rewrite E1. by exists s.
  - eapply Hin; [exact He|]. intros s Es. eapply Hnew; [|exact Es]. rewrite Hs. by left.
  - eapply Hin; [exact He|]. intros s Es. rewrite Es in Hl. exact Hl.
Qed.
End Calls.

(** * Systems *)

(** The identities of the nodes. *)
Definition cluster_ids (s : system) : gset Z := list_to_set (omap own_id (sy_nodes s)).

Lemma omap_own_ids (nodes : list (node payloads)) : omap own_id nodes = omap id (own_id <$> nodes).
Proof. induction nodes as [|n nodes IH]; [done|]. cbn. destruct (own_id n); cbn; by rewrite IH. Qed.

Lemma cluster_ids_step s s' :
  own_id <$> sy_nodes s' = own_id <$> sy_nodes s -> cluster_ids s' = cluster_ids s.
Proof. unfold cluster_ids. rewrite !omap_own_ids. by intros ->. Qed.

Lemma omap_length {A B} (f : A -> option B) (l : list A) : (length (omap f l) <= length l)%nat.
Proof. induction l as [|x l IH]; [done|]. cbn. destruct (f x); cbn; lia. Qed.

Lemma list_to_set_size (l : list Z) : (size (list_to_set l : gset Z) <= length l)%nat.
Proof.
  induction l as [|x l IH]; [by apply Nat.eq_le_incl, size_empty|].
  change (size ({[x]} ∪ list_to_set l : gset Z) <= S (length l))%nat.
  rewrite size_union_alt, size_singleton.
  assert (size ((list_to_set l : gset Z) ∖ {[x]}) <= size (list_to_set l : gset Z))%nat; [|lia].
  apply subseteq_size. set_solver.
Qed.

Lemma cluster_ids_size s :
  zlen (sy_nodes s) <= MAX_VECTOR_SIZE -> Z.of_nat (size (cluster_ids s)) <= MAX_VECTOR_SIZE.
Proof.
  intros Hl. unfold cluster_ids. pose proof (list_to_set_size (omap own_id (sy_nodes s))).
  pose proof (omap_length own_id (sy_nodes s)). unfold zlen in Hl. lia.
Qed.

Lemma own_id_in s n id : n ∈ sy_nodes s -> own_id n = Some id -> id ∈ cluster_ids s.
Proof. intros Hn E. apply elem_of_list_to_set, list_elem_of_omap. by exists n. Qed.

(** What holds of the nodes, and of what was said. *)
Record all_mirrored (s : system) : Prop := AllMirrored {
  am_nodes : forall n, n ∈ sy_nodes s -> state_of n <> STATE_DESTROYED -> mirrored (cluster_ids s) n;
  am_said : forall id c p, said_in s id c p -> id ∈ cluster_ids s
}.

Lemma started_mirrored len n : started len n -> mirrors n /\ clock_of n = ∅.
Proof.
  intros (_ & _ & _ & _ & Hck & Hlog & _)%started_init. unfold mirrors, log_map, clock_of.
  by rewrite Hlog, Hck.
Qed.

(** What the node that is called sends is its own. *)
Lemma call_said_ids s n c id k p : n ∈ sy_nodes s -> (id, k, p) ∈ said_by n c -> id ∈ cluster_ids s.
Proof.
  intros Hin H. destruct (said_by_shape n c) as [Hs0|(me & q & Hme & Hs0)]; rewrite Hs0 in H.
  - by apply not_elem_of_nil in H.
  - apply list_elem_of_singleton in H as [= -> _ _]. by eapply own_id_in.
Qed.

(** The node that is called, before and after. *)
Lemma step_worked len s e s' n :
  reachable len s -> zlen (sy_nodes s) <= MAX_VECTOR_SIZE -> event_ok len s e -> all_mirrored s ->
  sys_step s e = Some s' -> sy_nodes s !! ev_node e = Some n ->
  exists n', sy_nodes s' = <[ev_node e := n']> (sy_nodes s) /\
    sy_said s' = sy_said s ++ said_by n (ev_call e) /\
    worked (said_in s') (cluster_ids s) n (ev_call e) n'.
Proof.
  intros Hs Hz He [Hn Hd] E En. destruct (eo_node _ _ _ He) as (n0 & En0 & Hadm & Hroom).
  rewrite En in En0. injection En0 as <-. pose proof (list_elem_of_lookup_2 _ _ _ En) as Hin.
  assert (forall id c p, (id, c, p) ∈ sy_said s ++ said_by n (ev_call e) -> id ∈ cluster_ids s) as Hall
    by (intros id c p [H|H]%elem_of_app; [by eapply Hd|by eapply call_said_ids]).
  unfold sys_step in E. rewrite En in E.
  destruct (run_api _ _ _) as [[r n']| |] eqn:Er; try done. injection E as <-.
  exists n'. split; [done|]. split; [done|].
  destruct (live_healthy len s n Hs Hin (proj1 Hadm)) as (xs & cells & Hh).
  assert (forall i c p, said_in s i c p -> (i, c, p) ∈ sy_said s ++ said_by n (ev_call e)) as Hmono
    by (intros; apply elem_of_app; by left).
  eapply (call_worked len (fun i c p => (i, c, p) ∈ sy_said s ++ said_by n (ev_call e))
            (cluster_ids s) Hall (cluster_ids_size s Hz) n xs cells); [..|exact Er].
  - by eapply healthy_said.
  - by apply Hn; [|apply Hadm].
  - exact Hadm.
  - apply (eo_memory _ _ _ He).
  - intros id k p H. apply elem_of_app. by right.
  - apply (Forall_impl _ _ _ (eo_inbox _ _ _ He)). intros d [Hf Hl]. split; [done|].
    destruct (reachable_good len s Hs) as [_ Hfl]. apply (proj1 (Forall_forall _ _) Hfl) in Hf as [x Hx].
    exists x. by eapply sound_said.
Qed.

Lemma step_mirrored len s e s' :
  reachable len s -> zlen (sy_nodes s) <= MAX_VECTOR_SIZE -> event_ok len s e -> all_mirrored s ->
  sys_step s e = Some s' -> all_mirrored s'.
Proof.
  intros Hs Hz He Ham E. pose proof (reachable_identified len s Hs) as Hid.
  pose proof (cluster_ids_step s s' (step_own_ids s e s' Hid E)) as Eids.
  destruct (eo_node _ _ _ He) as (n & En & _).
  destruct (step_worked len s e s' n Hs Hz He Ham E En) as (n' & Enodes & Esaid & Hg & _).
  split; rewrite Eids.
  - intros m Hm Hlive. rewrite Enodes in Hm.
    apply list_elem_of_lookup in Hm as [j [(_ & <- & _)|(_ & Hj)]%list_lookup_insert_Some]; [done|].
    apply (am_nodes _ Ham m); [by eapply list_elem_of_lookup_2|done].
  - intros id c p H. unfold said_in in H. rewrite Esaid in H.
    apply elem_of_app in H as [H|H]; [by eapply (am_said _ Ham)|].
    eapply call_said_ids; [by eapply list_elem_of_lookup_2|done].
Qed.

Lemma step_nodes s e s' : sys_step s e = Some s' -> zlen (sy_nodes s') = zlen (sy_nodes s).
Proof.
  unfold sys_step. destruct (sy_nodes s !! ev_node e); [|done].
  destruct (run_api _ _ _) as [[r n']| |]; try done. intros [= <-]. unfold zlen. cbn.
  by rewrite length_insert.
Qed.

Lemma reachable_mirrored len s :
  reachable len s -> zlen (sy_nodes s) <= MAX_VECTOR_SIZE -> all_mirrored s.
Proof.
  induction 1 as [nodes Hst|s e s' Hs IH He E]; intros Hz.
  - rewrite Forall_forall in Hst. split.
    + intros n Hn _. destruct (started_mirrored len n (Hst n Hn)) as [Hm Hc]. split; [done|].
      rewrite Hc, dom_empty. set_solver.
    + intros id c p H. by apply not_elem_of_nil in H.
  - rewrite (step_nodes s e s' E) in Hz. eapply step_mirrored; [exact Hs|exact Hz|exact He|by apply IH|exact E].
Qed.

(** A connected node of such a system. *)
Lemma reachable_informed len s n :
  reachable len s -> zlen (sy_nodes s) <= MAX_VECTOR_SIZE -> n ∈ sy_nodes s -> connected n ->
  informed (cluster_ids s) n.
Proof.
  intros Hs Hz Hn Hc. assert (state_of n <> STATE_DESTROYED) as Hd
    by (unfold state_of; rewrite Hc; discriminate).
  destruct (live_healthy len s n Hs Hn Hd) as (xs & cells & Hh).
  destruct (am_nodes _ (reachable_mirrored len s Hs Hz) n Hn Hd) as [Hm Hids]. split; try done.
  - exists xs, cells. apply Hh.
  - apply (Forall_impl _ _ _ (he_log _ _ _ _ _ Hh)). by intros e [? _].
Qed.

(** What a live node has logged was said. *)
Lemma logged_in len s n id q p :
  reachable len s -> n ∈ sy_nodes s -> state_of n <> STATE_DESTROYED -> log_map n !! id = Some (q, p) ->
  said_in s id q p.
Proof.
  intros Hs Hn Hd E. destruct (live_healthy len s n Hs Hn Hd) as (xs & cells & Hh).
  apply log_map_view in E; [|apply Hh]. by apply (logged_said len s n _ Hs Hn Hd) in E.
Qed.

Lemma reachable_agree len s a b :
  reachable len s -> NoDup (own_id <$> sy_nodes s) -> zlen (sy_said s) < 2 ^ 32 ->
  a ∈ sy_nodes s -> b ∈ sy_nodes s -> connected a -> connected b -> agree (log_map a) (log_map b).
Proof.
  intros Hs Hnd Hz Ha Hb Hca Hcb id q p p' Ea Eb.
  assert (forall n : node payloads, connected n -> state_of n <> STATE_DESTROYED) as Hd
    by (intros n Hc; unfold state_of; rewrite Hc; discriminate).
  eapply (lg_once _ (reachable_ledger len s Hs Hnd Hz)).
  - by apply (logged_in len s a); [| |apply Hd|].
  - by apply (logged_in len s b); [| |apply Hd|].
Qed.

(** * Knowledge over time *)

Lemma moves_same len s s' :
  reachable len s -> rtc (moves len) s s' -> own_id <$> sy_nodes s' = own_id <$> sy_nodes s /\
  zlen (sy_nodes s') = zlen (sy_nodes s) /\ zlen (sy_said s) <= zlen (sy_said s').
Proof.
  intros Hs H. revert Hs. induction H as [s|s1 s2 s3 (e & He & E) _ IH]; intros Hs; [done|].
  pose proof (reachable_identified len s1 Hs) as Hid.
  destruct IH as (I1 & I2 & I3); [by eapply ReachStep|].
  rewrite I1, I2, (step_own_ids s1 e s2 Hid E), (step_nodes s1 e s2 E).
  pose proof (step_said s1 e s2 Hid E). split_and!; [done|done|lia].
Qed.

Lemma moves_said len s s' id c p :
  rtc (moves len) s s' -> reachable len s -> said_in s id c p -> said_in s' id c p.
Proof.
  induction 1 as [|s1 s2 s3 (e & He & E) _ IH]; intros Hs H; [done|].
  apply IH; [by eapply ReachStep|].
  destruct (step_split s1 e s2 (reachable_identified len s1 Hs) E) as (n & n' & _ & _ & Esaid & _).
  unfold said_in. rewrite Esaid. apply elem_of_app. by left.
Qed.

(** The next message of a node is newer than what its clock knows of itself. *)
Lemma call_says_newer len s n c :
  reachable len s -> zlen (sy_nodes s) <= MAX_VECTOR_SIZE -> NoDup (own_id <$> sy_nodes s) ->
  zlen (sy_said s ++ said_by n c) < 2 ^ 32 -> n ∈ sy_nodes s -> state_of n <> STATE_DESTROYED ->
  says_newer n c.
Proof.
  intros Hs Hz Hnd Hlen Hn Hd id k p q Hsay Hq. rewrite zlen_app in Hlen.
  pose proof (zlen_nonneg (said_by n c)) as Hnn.
  destruct (reachable_ledger len s Hs Hnd ltac:(lia)) as [Hct Hbelow _].
  destruct (said_by_shape n c) as [Hs0|(me & x & Hme & Hs0)]; rewrite Hs0 in Hsay, Hlen.
  { by apply not_elem_of_nil in Hsay. }
  apply list_elem_of_singleton in Hsay as [= -> -> ->]. rewrite zlen_cons, zlen_nil in Hlen.
  pose proof (Hct n Hn). rewrite u32_id by (unfold is_u32; lia).
  destruct (am_nodes _ (reachable_mirrored len s Hs Hz) n Hn Hd) as [Hm _].
  destruct (mirrors_logged _ _ _ Hm Hq) as [y Hy].
  pose proof (Hbelow n me q y Hn Hme (logged_in len s n me q y Hs Hn Hd Hy)). lia.
Qed.

Lemma below_refl c : below c c.
Proof. intros id s E. by exists s. Qed.

Lemma below_trans c1 c2 c3 : below c1 c2 -> below c2 c3 -> below c1 c3.
Proof.
  intros H1 H2 id s E. destruct (H1 id s E) as (s2 & E2 & ?). destruct (H2 id s2 E2) as (s3 & E3 & ?).
  exists s3. split; [done|lia].
Qed.

Lemma step_below len s e s' i n n' :
  reachable len s -> zlen (sy_nodes s) <= MAX_VECTOR_SIZE -> NoDup (own_id <$> sy_nodes s) ->
  zlen (sy_said s') < 2 ^ 32 -> event_ok len s e -> sys_step s e = Some s' ->
  sy_nodes s !! i = Some n -> sy_nodes s' !! i = Some n' -> below (clock_of n) (clock_of n').
Proof.
  intros Hs Hz Hnd Hlen He E Ei Ei'. destruct (eo_node _ _ _ He) as (m & Em & Hadm & _).
  destruct (step_worked len s e s' m Hs Hz He (reachable_mirrored len s Hs Hz) E Em)
    as (m' & Enodes & Esaid & _ & Heff).
  rewrite Enodes in Ei'. apply list_lookup_insert_Some in Ei' as [(<- & <- & _)|(_ & Ei')].
  - rewrite Em in Ei. injection Ei as <-.
    refine (effect_below (said_in s') m (ev_call e) m' _ Heff). rewrite Esaid in Hlen.
    eapply call_says_newer; try done; [by eapply list_elem_of_lookup_2|apply Hadm].
  - rewrite Ei in Ei'. injection Ei' as <-. apply below_refl.
Qed.

Lemma moves_below len s s' : rtc (moves len) s s' -> forall i n n',
  reachable len s -> zlen (sy_nodes s) <= MAX_VECTOR_SIZE -> NoDup (own_id <$> sy_nodes s) ->
  zlen (sy_said s') < 2 ^ 32 -> sy_nodes s !! i = Some n -> sy_nodes s' !! i = Some n' ->
  below (clock_of n) (clock_of n').
Proof.
  induction 1 as [s|s1 s2 s3 (e & He & E) H IH]; intros i n n' Hs Hz Hnd Hlen Ei Ei'.
  { rewrite Ei in Ei'. injection Ei' as <-. apply below_refl. }
  assert (reachable len s2) as Hs2 by by eapply ReachStep.
  destruct (moves_same len s2 s3 Hs2 H) as (_ & _ & Hle).
  pose proof (step_own_ids s1 e s2 (reachable_identified len s1 Hs) E) as Eids.
  assert (i < length (sy_nodes s2))%nat as Hi.
  { pose proof (step_nodes s1 e s2 E) as El. unfold zlen in El. apply lookup_lt_Some in Ei. lia. }
  destruct (lookup_lt_is_Some_2 _ _ Hi) as [m Em].
  eapply below_trans; [apply (step_below len s1 e s2 i n m); try done; lia|]. apply (IH i m n'); try done.
  - by rewrite (step_nodes s1 e s2 E).
  - by rewrite Eids.
Qed.

(** A destroyed node is not called any more. *)
Lemma moves_live len s s' : rtc (moves len) s s' -> forall i n n',
  sy_nodes s !! i = Some n -> sy_nodes s' !! i = Some n' -> state_of n' <> STATE_DESTROYED ->
  state_of n <> STATE_DESTROYED.
Proof.
  induction 1 as [s|s1 s2 s3 (e & He & E) _ IH]; intros i n n' Ei Ei' Hl; [congruence|].
  intros Hd. refine (IH i n n' _ Ei' Hl Hd). destruct (eo_node _ _ _ He) as (m & Em & [Hm _] & _).
  unfold sys_step in E. rewrite Em in E. destruct (run_api _ _ _) as [[r m']| |]; try done. injection E as <-.
  cbn. rewrite list_lookup_insert_ne; [done|]. intros Heq. rewrite Heq, Ei in Em. congruence.
Qed.
