(* ===== verification/SyncProps.v ===== *)
(** The logs of a cluster follow the clocks, and nodes that ask each other
    get to know the same. *)
From S2P Require Import Prelude.
From S2P Require Import Config.
From S2P Require Import Utils.
From S2P Require Import World.
From S2P Require Import Member.
From S2P Require Import VectorClock.
From S2P Require Import Messages.
From S2P Require Import Queue.
From S2P Require Import DataLog.
From S2P Require Import Gossip.
From S2P Require Import Node.
From S2P Require Import MemberFacts.
From S2P Require Import VectorClockFacts.
From S2P Require Import CompareFacts.
From S2P Require Import WireFacts.
From S2P Require Import MessageFacts.
From S2P Require Import DataLogFacts.
From S2P Require Import OutboxFacts.
From S2P Require Import EnqueueFacts.
From S2P Require Import NodeFacts.
From S2P Require Import HandlerFacts.
From S2P Require Import PublicFacts.
From S2P Require Import FrameFacts.
From S2P Require Import StateFacts.
From S2P Require Import Samples.
From S2P Require Import HealthFacts.
From S2P Require Import ClusterFacts.
From S2P Require Import KnowledgeFacts.
From S2P Require Import SyncFacts.
From S2P Require Import Network.
From S2P Require Import NetworkSamples.
From S2P Require Import NetworkProps.
From S2P Require Import GrowthFacts.

(** * Properties *)

(** C10: The log follows the clock: in every system that a cluster of at most
    [MAX_VECTOR_SIZE] nodes can get to, the data log of a live node holds, for
    every originator that its vector clock knows, the message with the number
    that the clock knows, and nothing else; and the clock knows nodes of the
    cluster only. So what the clock claims to know the log can hand on. *)
Theorem log_mirrors_clock len s n :
  reachable len s -> zlen (sy_nodes s) <= MAX_VECTOR_SIZE -> n ∈ sy_nodes s ->
  state_of n <> STATE_DESTROYED ->
  fst <$> log_map n = clock_of n /\ dom (clock_of n) ⊆ cluster_ids s.
Proof. intros Hs Hz Hn Hd. exact (am_nodes _ (reachable_mirrored len s Hs Hz) n Hn Hd). Qed.

(** C11: Nothing is forgotten: in a cluster of at most [MAX_VECTOR_SIZE] nodes
    with distinct identities, whatever calls, loss, duplication, reordering
    and redirection of datagrams take the system from one state to another, a
    node that is live at the end has for every message that its data log held
    at the start the same message or a later one of that originator, and the
    log holds only messages that were sent. So a clock never goes back, and a
    node never asks again for what it has seen. *)
Theorem nothing_forgotten len s s' i n n' id q p :
  reachable len s -> zlen (sy_nodes s) <= MAX_VECTOR_SIZE -> NoDup (own_id <$> sy_nodes s) ->
  zlen (sy_said s') < 2 ^ 32 -> rtc (moves len) s s' -> sy_nodes s !! i = Some n ->
  sy_nodes s' !! i = Some n' -> state_of n' <> STATE_DESTROYED -> log_map n !! id = Some (q, p) ->
  exists q' p', log_map n' !! id = Some (q', p') /\ clock_of n' !! id = Some q' /\ q <= q' /\
    (q' = q -> p' = p) /\ said_in s' id q' p'.
Proof.
  intros Hs Hz Hnd Hlen Hmv Ei Ei' Hl' Elog.
  pose proof (reachable_moves len s s' Hs Hmv) as Hs'.
  destruct (moves_same len s s' Hs Hmv) as (Eids & Enodes & Hle).
  pose proof (moves_live len s s' Hmv i n n' Ei Ei' Hl') as Hl.
  apply list_elem_of_lookup_2 in Ei as Hin. apply list_elem_of_lookup_2 in Ei' as Hin'.
  destruct (am_nodes _ (reachable_mirrored len s Hs Hz) n Hin Hl) as [Hm _].
  destruct (am_nodes _ (reachable_mirrored len s' Hs' ltac:(lia)) n' Hin' Hl') as [Hm' _].
  destruct (moves_below len s s' Hmv i n n' Hs Hz Hnd Hlen Ei Ei' id q) as (q' & Eq' & Hq').
  { by eapply mirrors_known. }
  destruct (mirrors_logged _ _ _ Hm' Eq') as [p' Ep']. exists q', p'.
  pose proof (logged_in len s' n' id q' p' Hs' Hin' Hl' Ep') as Hsaid'.
  split_and!; try done. intros ->.
  eapply (lg_once _ (reachable_ledger len s' Hs' ltac:(by rewrite Eids) Hlen)); [exact Hsaid'|].
  eapply moves_said; [exact Hmv|exact Hs|]. by eapply (logged_in len s n).
Qed.

(** C7: Pulling joins: let [b] receive a status that tells no more than [a]
    knows. [b] queues answers for its sender, the acknowledgement first,
    which carry exactly the logged messages that are newer than what the
    status knows of their originators, and from every round of these answers,
    reordered, duplicated, under whatever sequence numbers, [a] gets to the
    join of both logs: for each originator the newer of the two messages. The
    receiver of [a] is given exactly the messages of [b] that
    were new to [a], each once; [b] learns nothing. *)
Theorem pull_joins {Ctx} recv deliver ids (a b : node Ctx) :
  (forall p, receives recv deliver p) -> Z.of_nat (size ids) <= MAX_VECTOR_SIZE ->
  informed ids a -> informed ids b -> pulls recv a b (pulled deliver ids a b).
Proof. intros Hr Hids. by apply pulls_pulled. Qed.

(** Anti-entropy converges: any two connected nodes of a cluster of at
    most [MAX_VECTOR_SIZE] nodes with distinct identities, whatever happened
    before, once each has pulled from the other, hold the same messages, the
    newest of each originator that either had, and the same clock. *)
Theorem exchange_converges len s a b :
  reachable len s -> zlen (sy_nodes s) <= MAX_VECTOR_SIZE -> NoDup (own_id <$> sy_nodes s) ->
  zlen (sy_said s) < 2 ^ 32 -> a ∈ sy_nodes s -> b ∈ sy_nodes s -> connected a -> connected b ->
  pulls recorder a b (fun a' b' => pulls recorder b' a' (fun b2 a2 =>
    log_map a2 = join_logs (log_map a) (log_map b) /\ log_map b2 = log_map a2 /\
    clock_of b2 = clock_of a2)).
Proof.
  intros Hs Hz Hnd Hsaid Ha Hb Hca Hcb. pose proof (cluster_ids_size s Hz) as Hids.
  pose proof (reachable_informed len s a Hs Hz Ha Hca) as Hia.
  pose proof (reachable_informed len s b Hs Hz Hb Hcb) as Hib.
  pose proof (reachable_agree len s a b Hs Hnd Hsaid Ha Hb Hca Hcb) as Hag.
  eapply pulls_mono; [apply (pulls_pulled recorder record_payload recorder_ok _ Hids a b Hia Hib)|].
  intros a' b' Hp. pose proof Hp as (Ha' & Hb' & _).
  eapply pulls_mono; [apply (pulls_pulled recorder record_payload recorder_ok _ Hids b' a' Hb' Ha')|].
  intros b2 a2 Hp2. by destruct (pulled_back _ _ _ _ _ _ _ _ Hag Hp Hp2) as (_ & _ & ? & ? & ?).
Qed.

(** * Two nodes that sent something while no datagram got through *)

Definition apart_script : list (nat * api_call * list (nat * list Z)) :=
  take 6 pair_script ++ [(0%nat, ApiSendData [1; 2; 3] 3, []); (1%nat, ApiSendData [9; 8] 2, [])].
Definition apart : system := default pair_start (play sample_addr apart_script pair_start).

(** Each knows its own message only. *)
Definition entry_1 : log_entry := LogEntry 158462835163263 1 [1; 2; 3].
Definition entry_2 : log_entry := LogEntry 159562346791039 1 [9; 8].
Definition apart_glance_1 : glance := Glance (Some 158462835163263) 1000 STATE_CONNECTED [entry_1] [].
Definition apart_glance_2 : glance := Glance (Some 159562346791039) 1000 STATE_CONNECTED [entry_2] [].
Definition both_said : list (Z * Z * list Z) := [(158462835163263, 1, [1; 2; 3]); (159562346791039, 1, [9; 8])].
Definition apart_view : view := ([apart_glance_1; apart_glance_2], both_said).

Lemma apart_run : seen <$> play sample_addr apart_script pair_start = Some apart_view.
Proof. vm_compute. reflexivity. Qed.

Lemma apart_seen : seen apart = apart_view.
Proof. exact (ran_seen _ _ _ apart_run). Qed.

Lemma apart_reachable : reachable 16 apart.
Proof. exact (played_reachable sample_addr apart_script pair_start pair_started (ran_played _ _ apart_run)). Qed.

Definition apart_first : node payloads := default (new_node sample_addr) (sy_nodes apart !! 0%nat).
Definition apart_second : node payloads := default (new_node sample_addr) (sy_nodes apart !! 1%nat).

Lemma apart_at_1 : sy_nodes apart !! 0%nat = Some apart_first /\ glance_at apart_first = apart_glance_1.
Proof. exact (seen_at _ _ apart_seen _ 0%nat _ eq_refl). Qed.

Lemma apart_at_2 : sy_nodes apart !! 1%nat = Some apart_second /\ glance_at apart_second = apart_glance_2.
Proof. exact (seen_at _ _ apart_seen _ 1%nat _ eq_refl). Qed.

Lemma apart_in : apart_first ∈ sy_nodes apart /\ apart_second ∈ sy_nodes apart.
Proof. split; eapply list_elem_of_lookup_2; [apply apart_at_1|apply apart_at_2]. Qed.

Lemma apart_small : zlen (sy_nodes apart) <= MAX_VECTOR_SIZE.
Proof. rewrite (seen_small _ _ apart_seen). vm_compute. discriminate. Qed.

Lemma apart_distinct : NoDup (own_id <$> sy_nodes apart).
Proof. rewrite (seen_ids _ _ apart_seen). apply (bool_decide_unpack _). vm_compute. exact I. Qed.

Lemma apart_said : zlen (sy_said apart) < 2 ^ 32.
Proof. by rewrite (seen_said _ _ apart_seen). Qed.

(** The state in a glance is that of the node. *)
Lemma glance_connected n g : glance_at n = g -> gl_state g = STATE_CONNECTED -> connected n.
Proof. by intros <-. Qed.

Lemma connected_lives {Ctx} (n : node Ctx) : connected n -> state_of n <> STATE_DESTROYED.
Proof. unfold connected, state_of. by intros ->. Qed.

Lemma glance_logged n g id q p :
  glance_at n = g -> entries_map (gl_log g) !! id = Some (q, p) -> log_map n !! id = Some (q, p).
Proof. by intros <-. Qed.

Lemma apart_connected : connected apart_first /\ connected apart_second.
Proof.
  split; [exact (glance_connected _ _ (proj2 apart_at_1) eq_refl)|exact (glance_connected _ _ (proj2 apart_at_2) eq_refl)].
Qed.

(** They meet: the first tells what it knows, the second answers with its
    message and its own status, of which the first gets the status, the data
    twice and then the acknowledgement, and answers with its message. The
    datagrams in which the messages first went out are lost. *)
Definition meeting : list (nat * api_call * list (nat * list Z)) :=
  [(0%nat, ApiSend, []); (1%nat, ApiSend, []); (0%nat, ApiTick, []); (0%nat, ApiSend, []);
   (1%nat, ApiReceive, [(4%nat, sample_addr)]); (1%nat, ApiSend, []);
   (0%nat, ApiReceive, [(7%nat, peer_addr)]); (0%nat, ApiReceive, [(6%nat, peer_addr)]);
   (0%nat, ApiReceive, [(6%nat, peer_addr)]); (0%nat, ApiReceive, [(5%nat, peer_addr)]);
   (0%nat, ApiSend, []); (1%nat, ApiReceive, [(10%nat, sample_addr)]);
   (1%nat, ApiReceive, [(9%nat, sample_addr)])].
Definition met : system := default apart (play sample_addr meeting apart).

(** Each was given the message of the other, and has logged both. *)
Definition met_glance_1 : glance := Glance (Some 158462835163263) 1000 STATE_CONNECTED [entry_1; entry_2] [[9; 8]].
Definition met_glance_2 : glance := Glance (Some 159562346791039) 1000 STATE_CONNECTED [entry_2; entry_1] [[1; 2; 3]].
Definition met_view : view := ([met_glance_1; met_glance_2], both_said).

Lemma met_run : seen <$> play sample_addr meeting apart = Some met_view.
Proof. vm_compute. reflexivity. Qed.

Lemma met_seen : seen met = met_view.
Proof. exact (ran_seen _ _ _ met_run). Qed.

Lemma apart_met : rtc (moves 16) apart met.
Proof. exact (played_moves sample_addr meeting apart (ran_played _ _ met_run)). Qed.

(** The first node after the meeting, and what it had logged before. *)
Definition met_first : node payloads := default apart_first (sy_nodes met !! 0%nat).
Definition first_id : Z := 158462835163263.

Lemma met_at : sy_nodes met !! 0%nat = Some met_first /\ glance_at met_first = met_glance_1.
Proof. exact (seen_at _ _ met_seen _ 0%nat _ eq_refl). Qed.

Lemma met_connected : connected met_first.
Proof. exact (glance_connected _ _ (proj2 met_at) eq_refl). Qed.

Lemma met_said : zlen (sy_said met) < 2 ^ 32.
Proof. by rewrite (seen_said _ _ met_seen). Qed.

Lemma first_logged : log_map apart_first !! first_id = Some (1, [1; 2; 3]).
Proof.
  apply (glance_logged _ _ _ _ _ (proj2 apart_at_1)). apply (bool_decide_unpack _). vm_compute. exact I.
Qed.

Lemma log_mirrors_clock_witness :
  fst <$> log_map apart_first = clock_of apart_first /\
  dom (clock_of apart_first) ⊆ cluster_ids apart.
Proof.
  exact (log_mirrors_clock 16 apart apart_first apart_reachable apart_small (proj1 apart_in)
    (connected_lives _ (proj1 apart_connected))).
Defined.

Lemma nothing_forgotten_witness :
  exists q' p', log_map met_first !! first_id = Some (q', p') /\ clock_of met_first !! first_id = Some q' /\
    1 <= q' /\ (q' = 1 -> p' = [1; 2; 3]) /\ said_in met first_id q' p'.
Proof.
  exact (nothing_forgotten 16 apart met 0%nat apart_first met_first first_id 1 [1; 2; 3] apart_reachable
    apart_small apart_distinct met_said apart_met
    (proj1 apart_at_1) (proj1 met_at) (connected_lives _ met_connected) first_logged).
Defined.

Lemma pull_joins_witness :
  pulls recorder apart_first apart_second
    (pulled record_payload (cluster_ids apart) apart_first apart_second).
Proof.
  exact (pull_joins recorder record_payload (cluster_ids apart) apart_first apart_second recorder_ok
    (cluster_ids_size apart apart_small)
    (reachable_informed 16 apart apart_first apart_reachable apart_small (proj1 apart_in) (proj1 apart_connected))
    (reachable_informed 16 apart apart_second apart_reachable apart_small (proj2 apart_in) (proj2 apart_connected))).
Defined.

Lemma exchange_converges_witness :
  pulls recorder apart_first apart_second (fun a' b' => pulls recorder b' a' (fun b2 a2 =>
    log_map a2 = join_logs (log_map apart_first) (log_map apart_second) /\ log_map b2 = log_map a2 /\
    clock_of b2 = clock_of a2)).
Proof.
  exact (exchange_converges 16 apart apart_first apart_second apart_reachable apart_small apart_distinct
    apart_said (proj1 apart_in) (proj2 apart_in) (proj1 apart_connected)
    (proj2 apart_connected)).
Defined.
