(* ===== verification/SpreadProps.v ===== *)
(** How messages spread through a cluster: any schedule in which nodes ask each
    other, and what each of them knows at its end. *)
From S2P Require Import Prelude.
From S2P Require Import Config.
From S2P Require Import Utils.
From S2P Require Import World.
From S2P Require Import Member.
From S2P Require Import VectorClock.
From S2P Require Import Messages.
From S2P Require Import Queue.
From S2P Require Import DataLog.
From S2P Require Import Gossip.
From S2P Require Import Node.
From S2P Require Import MemberFacts.
From S2P Require Import VectorClockFacts.
From S2P Require Import CompareFacts.
From S2P Require Import WireFacts.
From S2P Require Import MessageFacts.
From S2P Require Import DataLogFacts.
From S2P Require Import OutboxFacts.
From S2P Require Import EnqueueFacts.
From S2P Require Import NodeFacts.
From S2P Require Import HandlerFacts.
From S2P Require Import PublicFacts.
From S2P Require Import FrameFacts.
From S2P Require Import StateFacts.
From S2P Require Import Samples.
From S2P Require Import HealthFacts.
From S2P Require Import ClusterFacts.
From S2P Require Import KnowledgeFacts.
From S2P Require Import SyncFacts.
From S2P Require Import Network.
From S2P Require Import NetworkSamples.
From S2P Require Import NetworkProps.
From S2P Require Import GrowthFacts.
From S2P Require Import SyncProps.

(** * Schedules *)

(** [(i, j)]: node [i] asks node [j]. Each asks when the answers to the one
    before have arrived. *)
Abbreviation schedule := (list (nat * nat)).

(** Between nodes of the list, none asks itself. *)
Definition valid (k : nat) (sched : schedule) : Prop :=
  Forall (fun p => (fst p < k)%nat /\ (snd p < k)%nat /\ fst p <> snd p) sched.

#[export] Instance valid_dec k sched : Decision (valid k sched).
Proof. unfold valid. apply _. Defined.

(** From whom each node has heard: whom it asked passes on what it heard. *)
Fixpoint heard (sched : schedule) (from : list (gset nat)) : list (gset nat) :=
  match sched with
  | [] => from
  | (i, j) :: sched =>
      heard sched (<[i := default ∅ (from !! i) ∪ default ∅ (from !! j)]> from)
  end.

(** At first each has heard of itself. *)
Definition alone (k : nat) : list (gset nat) := (fun j => {[j]}) <$> seq 0 k.

Section Spread.
Context {Ctx : Type}.
Implicit Types ns : list (node Ctx).
Context (recv : option (list Z -> Z -> M (node Ctx) unit)).

(** The nodes run the schedule and get to lists of nodes in [Q]. *)
Fixpoint gossip (sched : schedule) ns (Q : list (node Ctx) -> Prop) : Prop :=
  match sched with
  | [] => Q ns
  | (i, j) :: sched =>
      exists a b, ns !! i = Some a /\ ns !! j = Some b /\
        pulls recv a b (fun a' b' => gossip sched (<[i := a']> (<[j := b']> ns)) Q)
  end.

Lemma gossip_mono sched (P Q : list (node Ctx) -> Prop) : forall ns,
  gossip sched ns P -> (forall ns', P ns' -> Q ns') -> gossip sched ns Q.
Proof.
  induction sched as [|[i j] sched IH]; intros ns HP HPQ; [by apply HPQ|].
  destruct HP as (a & b & Ea & Eb & Hp). exists a, b. split; [done|]. split; [done|].
  eapply pulls_mono; [exact Hp|]. intros a' b' H. by eapply IH.
Qed.

(** * The newest message of a group *)

(** [m] has, for each originator, the newest message that a log of the nodes
    [who] has, and nothing else. *)
Definition newest ns (who : gset nat) (m : gmap Z (Z * list Z)) : Prop := forall id,
  match m !! id with
  | Some (s, p) =>
      (exists k n, k ∈ who /\ ns !! k = Some n /\ log_map n !! id = Some (s, p)) /\
      forall k n s' p', k ∈ who -> ns !! k = Some n -> log_map n !! id = Some (s', p') -> s' <= s
  | None => forall k n, k ∈ who -> ns !! k = Some n -> log_map n !! id = None
  end.

Lemma newest_alone ns j n : ns !! j = Some n -> newest ns {[j]} (log_map n).
Proof.
  intros Hj id. destruct (log_map n !! id) as [[s p]|] eqn:E.
  - split; [exists j, n; set_solver|]. intros k n' s' p' ->%elem_of_singleton Hk E'. 
    rewrite Hj in Hk. injection Hk as <-. rewrite E in E'. injection E' as <- _. lia.
  - intros k n' ->%elem_of_singleton Hk. rewrite Hj in Hk. by injection Hk as <-.
Qed.

Lemma newest_join ns A B m m' :
  newest ns A m -> newest ns B m' -> newest ns (A ∪ B) (join_logs m m').
Proof.
  intros HA HB id. rewrite join_logs_lookup. specialize (HA id). specialize (HB id).
  destruct (m !! id) as [[s p]|], (m' !! id) as [[s' p']|].
  - destruct HA as [(k & n & Hk & Hn & E) HA], HB as [(k' & n' & Hk' & Hn' & E') HB].
    unfold newer_value. cbn [fst]. destruct (Z.ltb_spec s s'); split.
    + exists k', n'. set_solver.
    + intros k0 n0 s0 p0 [H0|H0]%elem_of_union Hn0 E0; [specialize (HA _ _ _ _ H0 Hn0 E0); lia|by eapply HB].
    + exists k, n. set_solver.
    + intros k0 n0 s0 p0 [H0|H0]%elem_of_union Hn0 E0; [by eapply HA|specialize (HB _ _ _ _ H0 Hn0 E0); lia].
  - destruct HA as [(k & n & Hk & Hn & E) HA]. split; [exists k, n; set_solver|].
    intros k0 n0 s0 p0 [H0|H0]%elem_of_union Hn0 E0; [by eapply HA|]. by rewrite (HB _ _ H0 Hn0) in E0.
  - destruct HB as [(k & n & Hk & Hn & E) HB]. split; [exists k, n; set_solver|].
    intros k0 n0 s0 p0 [H0|H0]%elem_of_union Hn0 E0; [|by eapply HB]. by rewrite (HA _ _ H0 Hn0) in E0.
  - intros k n [H0|H0]%elem_of_union Hn; [by eapply HA|by eapply HB].
Qed.

(** Where no two logs disagree there is one such map. *)
Lemma newest_unique ns who m m' :
  (forall k k' n n', ns !! k = Some n -> ns !! k' = Some n' -> agree (log_map n) (log_map n')) ->
  newest ns who m -> newest ns who m' -> m = m'.
Proof.
  intros Hag H H'. apply map_eq. intros id. specialize (H id). specialize (H' id).
  destruct (m !! id) as [[s p]|], (m' !! id) as [[s' p']|]; [| | |done].
  - destruct H as [(k & n & Hk & Hn & E) H], H' as [(k' & n' & Hk' & Hn' & E') H'].
    pose proof (H _ _ _ _ Hk' Hn' E'). pose proof (H' _ _ _ _ Hk Hn E).
    assert (s' = s) as -> by lia. do 2 f_equal. by eapply (Hag k k' n n').
  - destruct H as [(k & n & Hk & Hn & E) _]. by rewrite (H' _ _ Hk Hn) in E.
  - destruct H' as [(k & n & Hk & Hn & E) _]. by rewrite (H _ _ Hk Hn) in E.
Qed.
End Spread.

Lemma length_alone k : length (alone k) = k.
Proof. unfold alone. by rewrite length_fmap, length_seq. Qed.

Lemma alone_lookup k j : (j < k)%nat -> alone k !! j = Some {[j]}.
Proof. intros Hj. unfold alone. rewrite list_lookup_fmap, lookup_seq_lt by done. done. Qed.

(** What every schedule keeps. *)
Lemma gossip_newest {Ctx} recv deliver ids (orig : list (node Ctx)) sched : forall (ns : list (node Ctx)) from,
  (forall p, receives recv deliver p) -> Z.of_nat (size ids) <= MAX_VECTOR_SIZE ->
  length from = length ns -> valid (length ns) sched ->
  (forall j n, ns !! j = Some n -> informed ids n /\ newest orig (default ∅ (from !! j)) (log_map n)) ->
  gossip recv sched ns (fun ns' => length ns' = length ns /\ forall j n, ns' !! j = Some n ->
    informed ids n /\ newest orig (default ∅ (heard sched from !! j)) (log_map n)).
Proof.
  intros ns from Hr Hids. revert ns from.
  induction sched as [|[i j] sched IH]; intros ns from Hlen Hv Hns; [done|].
  apply Forall_cons in Hv as [(Hi & Hj & Hne) Hv]. cbn [fst snd] in *.
  destruct (lookup_lt_is_Some_2 _ _ Hi) as [a Ea]. destruct (lookup_lt_is_Some_2 _ _ Hj) as [b Eb].
  destruct (Hns i a Ea) as [Ha Ma], (Hns j b Eb) as [Hb Mb]. cbn [gossip heard].
  exists a, b. split; [done|]. split; [done|].
  eapply pulls_mono; [by apply (pulls_pulled recv deliver Hr ids Hids a b)|].
  intros a' b' (Ha' & Hb' & La & Lb & _).
  set (ns' := <[i:=a']> (<[j:=b']> ns)). assert (length ns' = length ns) as El
    by (unfold ns'; by rewrite !length_insert).
  rewrite <- El. apply IH; [by rewrite length_insert, El|by rewrite El|].
  intros k n Hk. apply list_lookup_insert_Some in Hk as [(-> & -> & _)|[Hik Hk]].
  - split; [done|]. rewrite list_lookup_insert_eq by (rewrite Hlen; done). cbn [default from_option id].
    rewrite La. by apply newest_join.
  - rewrite list_lookup_insert_ne by done.
    apply list_lookup_insert_Some in Hk as [(-> & -> & _)|[Hjk Hk]].
    + split; [done|]. by rewrite Lb.
    + by apply Hns.
Qed.

(** * Property *)

(** C6: Gossip converges: let connected nodes of a cluster of at most
    [MAX_VECTOR_SIZE] nodes with distinct identities ask each other, in any
    schedule. At its end each of them holds exactly the newest message of each
    originator among the nodes it has heard of, directly or through others,
    its clock says so, and two nodes that have heard of the same nodes hold
    the same messages and the same clock. *)
Theorem gossip_converges len s ns sched :
  reachable len s -> zlen (sy_nodes s) <= MAX_VECTOR_SIZE -> NoDup (own_id <$> sy_nodes s) ->
  zlen (sy_said s) < 2 ^ 32 -> Forall (fun n => n ∈ sy_nodes s /\ connected n) ns ->
  valid (length ns) sched ->
  let who := heard sched (alone (length ns)) in
  gossip recorder sched ns (fun ns' => length ns' = length ns /\
    (forall j n, ns' !! j = Some n ->
       newest ns (default ∅ (who !! j)) (log_map n) /\ clock_of n = fst <$> log_map n) /\
    (forall j j' n n', ns' !! j = Some n -> ns' !! j' = Some n' -> who !! j = who !! j' ->
       log_map n = log_map n' /\ clock_of n = clock_of n')).
Proof.
  intros Hs Hz Hnd Hsaid Hns Hv who. rewrite Forall_forall in Hns.
  assert (forall k n, ns !! k = Some n -> n ∈ sy_nodes s /\ connected n) as Hk
    by (intros k n E; apply Hns; by eapply list_elem_of_lookup_2).
  eapply gossip_mono.
  { apply (gossip_newest recorder record_payload (cluster_ids s) ns sched ns (alone (length ns)) recorder_ok
      (cluster_ids_size s Hz)); [apply length_alone|done|]. intros j n Ej. destruct (Hk j n Ej) as [Hn Hc].
    split; [by apply (reachable_informed len)|].
    rewrite alone_lookup by (by eapply lookup_lt_Some). by apply newest_alone. }
  fold who. intros ns' [Hl H]. split; [done|]. split.
  - intros j n Ej. destruct (H j n Ej) as [Hi Hm]. split; [done|]. symmetry. apply (in_mirrors _ _ Hi).
  - intros j j' n n' Ej Ej' Ew. destruct (H j n Ej) as [Hi Hm], (H j' n' Ej') as [Hi' Hm'].
    rewrite <- Ew in Hm'.
    assert (log_map n = log_map n') as E.
    { eapply newest_unique; [|exact Hm|exact Hm']. intros k k' m m' Em Em'.
      destruct (Hk k m Em), (Hk k' m' Em'). by apply (reachable_agree len s). }
    split; [done|]. by rewrite <- (in_mirrors _ _ Hi), <- (in_mirrors _ _ Hi'), E.
Qed.

(** Two nodes that ask each other have heard of each other. *)
Lemma both_heard : heard [(0, 1); (1, 0)]%nat (alone 2) = [{[0; 1]}; {[0; 1]}]%nat.
Proof. apply (bool_decide_unpack _). vm_compute. exact I. Qed.

Lemma gossip_converges_witness :
  let who := heard [(0, 1); (1, 0)]%nat (alone 2) in
  gossip recorder [(0, 1); (1, 0)]%nat [apart_first; apart_second] (fun ns' => length ns' = 2%nat /\
    (forall j n, ns' !! j = Some n ->
       newest [apart_first; apart_second] (default ∅ (who !! j)) (log_map n) /\
       clock_of n = fst <$> log_map n) /\
    (forall j j' n n', ns' !! j = Some n -> ns' !! j' = Some n' -> who !! j = who !! j' ->
       log_map n = log_map n' /\ clock_of n = clock_of n')).
Proof.
  exact (gossip_converges 16 apart [apart_first; apart_second] [(0, 1); (1, 0)]%nat apart_reachable apart_small
    apart_distinct apart_said
    (Forall_cons_2 _ _ _ (conj (proj1 apart_in) (proj1 apart_connected))
       (Forall_cons_2 _ _ _ (conj (proj2 apart_in) (proj2 apart_connected)) (Forall_nil_2 _)))
    ltac:(apply (bool_decide_unpack _); vm_compute; exact I)).
Defined.
