(* ===== verification/ReplicaProps.v ===== *)
(** A cluster is an implementation of the replicas of [ReplicaSpec]: every call
    on a node is one of their actions, or does not show. What receivers are
    given, and that every message can get to every node, follow. *)
From S2P Require Import Prelude.
From S2P Require Import ReplicaSpec.
From S2P Require Import Config.
From S2P Require Import Utils.
From S2P Require Import World.
From S2P Require Import Member.
From S2P Require Import VectorClock.
From S2P Require Import Messages.
From S2P Require Import Queue.
From S2P Require Import DataLog.
From S2P Require Import Gossip.
From S2P Require Import Node.
From S2P Require Import MemberFacts.
From S2P Require Import VectorClockFacts.
From S2P Require Import DataLogFacts.
From S2P Require Import NodeFacts.
From S2P Require Import HandlerFacts.
From S2P Require Import PublicFacts.
From S2P Require Import FrameFacts.
From S2P Require Import StateFacts.
From S2P Require Import Samples.
From S2P Require Import HealthFacts.
From S2P Require Import ClusterFacts.
From S2P Require Import KnowledgeFacts.
From S2P Require Import SyncFacts.
From S2P Require Import Network.
From S2P Require Import NetworkSamples.
From S2P Require Import NetworkProps.
From S2P Require Import GrowthFacts.
From S2P Require Import SyncProps.
From S2P Require Import SpreadProps.

(** * The relation *)

(** The node stands for the replica: its log is what the replica knows, and
    its receiver was given the payloads of what the replica was given. *)
Definition stands_for (n : node payloads) (rp : replica) : Prop :=
  log_map n = rp_known rp /\ n_context n = snd <$> rp_given rp.

Definition simulates (s : system) (sp : spec) : Prop :=
  sp_said sp = sy_said s /\ Forall2 stands_for (sy_nodes s) (sp_replicas sp).

(** What a call on node [i] may show: sending from a connected node publishes
    the payload, only receiving learns. *)
Definition shows (i : nat) (n : node payloads) (c : api_call) (l : option action) : Prop :=
  match l with
  | None => forall data size, c = ApiSendData data size -> ~ connected n
  | Some (Publish j p) => j = i /\ connected n /\ exists data size, c = ApiSendData data size /\ p = ztake size data
  | Some (Learn j _) => j = i /\ c = ApiReceive
  end.

(** The names of the replicas. *)
Definition names (s : system) : list (option Z) := own_id <$> sy_nodes s.

Lemma names_distinct s : NoDup (own_id <$> sy_nodes s) ->
  forall i j id, names s !! i = Some (Some id) -> names s !! j = Some (Some id) -> i = j.
Proof. intros Hnd i j id Hi Hj. by eapply NoDup_lookup. Qed.

(** * One call *)

(** The counter of a node counts what it has said. *)
Definition counted (s : system) : Prop := forall n id,
  n ∈ sy_nodes s -> own_id n = Some id -> g_data_counter (n_self n) = count id (sy_said s).

Lemma count_le id said : count id said <= zlen said.
Proof. unfold count, zlen. apply inj_le, length_filter. Qed.

Lemma said_by_counts s n c id k p :
  counted s -> n ∈ sy_nodes s -> zlen (sy_said s ++ said_by n c) < 2 ^ 32 ->
  said_by n c = [(id, k, p)] -> own_id n = Some id /\ k = 1 + count id (sy_said s).
Proof.
  intros Hct Hn Hz E. destruct (said_by_shape n c) as [Hs|(me & q & Hme & Hs)]; rewrite E in Hs; [done|].
  injection Hs as -> -> _. split; [done|]. rewrite (Hct n me Hn Hme).
  rewrite E, zlen_app, zlen_cons, zlen_nil in Hz. pose proof (count_le me (sy_said s)).
  pose proof (count_nonneg me (sy_said s)). rewrite u32_id by (unfold is_u32; lia). lia.
Qed.

Lemma step_counted s e s' :
  identified s -> NoDup (own_id <$> sy_nodes s) -> zlen (sy_said s') < 2 ^ 32 -> counted s ->
  sys_step s e = Some s' -> counted s'.
Proof.
  intros Hi Hnd Hz Hct E. destruct (step_split s e s' Hi E) as (n & n' & En & Es & Ed & Hid & Hc).
  pose proof (list_elem_of_lookup_2 _ _ _ En) as Hin. rewrite Ed in Hz.
  assert (forall id, own_id n <> Some id -> count id (said_by n (ev_call e)) = 0) as H0.
  { intros id Hne. destruct (said_by_shape n (ev_call e)) as [Hs|(me & q & Hme & Hs)]; rewrite Hs; [done|].
    rewrite count_one, bool_decide_false; [done|]. cbn. congruence. }
  intros m id Hm Em. rewrite Es in Hm. rewrite Ed, count_app.
  apply list_elem_of_lookup in Hm as [j [(_ & -> & _)|(Hne & Hj)]%list_lookup_insert_Some].
  - rewrite Hid in Em. rewrite Hc. destruct (said_by n (ev_call e)) as [|[[me k] q] l] eqn:Hs.
    { rewrite (Hct n id Hin Em). change (count id []) with 0. lia. }
    assert (l = []) as -> by (destruct (said_by_shape n (ev_call e)) as [Hs'|(? & ? & _ & Hs')]; congruence).
    rewrite <- Hs in Hz. destruct (said_by_counts s n (ev_call e) me k q Hct Hin Hz Hs) as [Hme ->].
    rewrite Hme in Em. injection Em as ->. rewrite count_one, bool_decide_true by done.
    rewrite (Hct n id Hin Hme). pose proof (count_le id (sy_said s)). pose proof (count_nonneg id (sy_said s)).
    rewrite zlen_app, Hs, zlen_cons, zlen_nil in Hz. rewrite u32_id by (unfold is_u32; lia). lia.
  - rewrite (H0 id), (Hct m id (list_elem_of_lookup_2 _ _ _ Hj) Em); [lia|]. intros Hn.
    destruct Hne. eapply (NoDup_lookup _ _ _ (Some id) Hnd); rewrite list_lookup_fmap; [by rewrite En, <- Hn|].
    by rewrite Hj, <- Em.
Qed.

Lemma reachable_counted len s :
  reachable len s -> NoDup (own_id <$> sy_nodes s) -> zlen (sy_said s) < 2 ^ 32 -> counted s.
Proof.
  induction 1 as [nodes Hst|s e s' Hr IH _ E]; intros Hnd Hz.
  - rewrite Forall_forall in Hst. intros n id Hn _. by destruct (started_identity len n) as [_ ->]; [apply Hst|].
  - pose proof (reachable_identified len s Hr) as Hi. rewrite (step_own_ids s e s' Hi E) in Hnd.
    pose proof (step_said s e s' Hi E). apply (step_counted s e s'); try done. apply IH; [done|lia].
Qed.

(** What a call does to the node its replica does by an action. *)
Lemma worked_acts said ids s sp (i : nat) n rp c n' :
  counted s -> zlen (sy_said s ++ said_by n c) < 2 ^ 32 ->
  (forall id k p, said id k p -> said_by n c = [] -> said_in s id k p) ->
  own_id n <> None -> sy_nodes s !! i = Some n -> sp_replicas sp !! i = Some rp ->
  sp_said sp = sy_said s -> mirrored ids n -> stands_for n rp -> worked said ids n c n' ->
  exists l sp' rp', shows i n c l /\ spec_step (names s) sp l sp' /\
    sp_said sp' = sy_said s ++ said_by n c /\ sp_replicas sp' = <[i := rp']> (sp_replicas sp) /\
    stands_for n' rp'.
Proof.
  intros Hct Hz Hsay Hid Hn Hrp Hsaid [Hm _] [Hlog Hctx] [_ [Hs Hrem|id k p Hs [_ El] Ec|id k p Hc Hin Hlt [_ El] Ec]].
  - exists None, sp, rp. split.
    { intros data size -> Hcon. unfold said_by in Hs. destruct (own_id n); [|done].
      by rewrite bool_decide_true in Hs. }
    rewrite Hs, app_nil_r, list_insert_id by done. split_and!; try done.
    injection Hrem as _ E2 E3. split; [|by rewrite E3]. rewrite <- Hlog. unfold log_map. by rewrite E2.
  - destruct (said_by_counts s n c id k p Hct (list_elem_of_lookup_2 _ _ _ Hn) Hz Hs) as [Hme ->].
    exists (Some (Publish i p)). eexists _, _. split.
    { split; [done|]. unfold said_by in Hs. rewrite Hme in Hs. destruct c; try done.
      case_bool_decide as Hcon; [|done]. split; [exact Hcon|]. injection Hs as _ <-. by eexists _, _. }
    cbn. unfold names. rewrite list_lookup_fmap, Hn, Hrp. cbn. rewrite Hme, Hsaid. split; [done|].
    cbn. rewrite Hs. split_and!; [done..|]. split; cbn; [|by rewrite Ec]. by rewrite El, Hlog.
  - subst c. exists (Some (Learn i (id, k, p))). eexists _, _. split; [done|]. cbn. rewrite Hrp.
    rewrite bool_decide_true; [split; [done|]|]; cbn.
    + rewrite app_nil_r. split_and!; [done..|]. split; cbn; [by rewrite El, Hlog|].
      by rewrite Ec, Hctx, fmap_app.
    + rewrite Hsaid. split; [by apply Hsay|]. unfold said_id, said_no. cbn.
      rewrite <- Hlog, <- lookup_fmap, Hm. exact Hlt.
Qed.

(** A step of the cluster is a step of the replicas. *)
Lemma step_simulated len s e s' sp :
  reachable len s -> zlen (sy_nodes s) <= MAX_VECTOR_SIZE -> NoDup (own_id <$> sy_nodes s) ->
  zlen (sy_said s') < 2 ^ 32 -> event_ok len s e -> sys_step s e = Some s' -> simulates s sp ->
  exists n l sp', sy_nodes s !! ev_node e = Some n /\ shows (ev_node e) n (ev_call e) l /\
    spec_step (names s) sp l sp' /\ simulates s' sp'.
Proof.
  intros Hs Hsz Hnd Hz He E [Hsaid Hnodes]. pose proof (reachable_identified len s Hs) as Hi.
  pose proof (step_said s e s' Hi E) as Hle. pose proof (reachable_mirrored len s Hs Hsz) as Ham.
  destruct (eo_node _ _ _ He) as (n & En & [Hlive _] & _).
  destruct (step_worked len s e s' n Hs Hsz He Ham E En) as (n' & En' & Es' & Hw).
  pose proof (list_elem_of_lookup_2 _ _ _ En) as Hin.
  destruct (Forall2_lookup_l _ _ _ _ _ Hnodes En) as (rp & Hrp & Hst).
  rewrite Es' in Hz. edestruct (worked_acts (said_in s') (cluster_ids s) s sp (ev_node e) n rp (ev_call e) n')
    as (l & sp' & rp' & Hl & Hstep & Esp & Erp & Hst'); try done.
  - apply (reachable_counted len s Hs Hnd). rewrite zlen_app in Hz.
    pose proof (zlen_nonneg (said_by n (ev_call e))). lia.
  - intros id k p H E0. unfold said_in in *. by rewrite Es', E0, app_nil_r in H.
  - by apply Hi.
  - by apply Ham.
  - exists n, l, sp'. split; [done|]. split; [done|]. split; [done|]. split; [by rewrite Esp|].
    rewrite En', Erp. by apply Forall2_insert.
Qed.

Lemma reachable_simulated len s :
  reachable len s -> zlen (sy_nodes s) <= MAX_VECTOR_SIZE -> NoDup (own_id <$> sy_nodes s) ->
  zlen (sy_said s) < 2 ^ 32 -> exists sp, spec_reachable (names s) sp /\ simulates s sp.
Proof.
  induction 1 as [nodes Hst|s e s' Hs IH He E]; intros Hsz Hnd Hz.
  - exists (spec_start (length nodes)). split.
    { unfold spec_reachable, names. cbn. rewrite length_fmap. done. }
    split; [done|]. cbn. rewrite Forall_forall in Hst. apply Forall2_same_length_lookup.
    split; [by rewrite length_replicate|]. intros i n rp Hn [-> _]%lookup_replicate.
    destruct (started_init len n) as (_ & _ & _ & _ & _ & Hlog & Hc); [by apply Hst; eapply list_elem_of_lookup_2|].
    split; cbn; [|done]. unfold log_map. by rewrite Hlog.
  - pose proof (reachable_identified len s Hs) as Hi. pose proof (step_said s e s' Hi E).
    pose proof (step_own_ids s e s' Hi E) as Eids. rewrite (step_nodes s e s' E) in Hsz. rewrite Eids in Hnd.
    destruct IH as (sp & Hsp & Hsim); [done|done|lia|].
    destruct (step_simulated len s e s' sp) as (n & l & sp' & _ & _ & Hstep & Hsim'); try done.
    exists sp'. split; [|done]. unfold names in *. rewrite Eids. eapply rtc_r; [exact Hsp|]. by exists l.
Qed.

(** * Properties *)

(** C1: A cluster of at most [MAX_VECTOR_SIZE] nodes with distinct identities
    implements the replicas of [ReplicaSpec]: every system it can get to
    stands for a state that the replicas can get to, in which each node has in
    its log what its replica knows, its receiver was given exactly the
    payloads its replica was given, in that order, and the same messages were
    published; and from a system that stands for a state of the replicas each
    further call, whatever was lost, duplicated, reordered or redirected, is
    one action of the replica of that node, or does not show. Sending from a
    connected node publishes the payload under the next number, and only a
    call that receives gets a replica to learn. *)
Theorem cluster_refines len s :
  reachable len s -> zlen (sy_nodes s) <= MAX_VECTOR_SIZE -> NoDup (own_id <$> sy_nodes s) ->
  zlen (sy_said s) < 2 ^ 32 ->
  (exists sp, spec_reachable (names s) sp /\ simulates s sp) /\
  (forall sp e s', simulates s sp -> event_ok len s e -> sys_step s e = Some s' ->
     zlen (sy_said s') < 2 ^ 32 -> exists n l sp', sy_nodes s !! ev_node e = Some n /\
     shows (ev_node e) n (ev_call e) l /\ spec_step (names s) sp l sp' /\ simulates s' sp').
Proof.
  intros Hs Hsz Hnd Hz. split; [by eapply reachable_simulated|].
  intros sp e s' Hsim He E Hz'. by eapply step_simulated.
Qed.

(** C3: Each message at most once, and in order: in every such system, what
    the receiver of a node was given are the payloads of messages that the
    users of other nodes have sent, each message once, and those of one
    originator in the order in which they were sent. *)
Theorem delivered_once len s n :
  reachable len s -> zlen (sy_nodes s) <= MAX_VECTOR_SIZE -> NoDup (own_id <$> sy_nodes s) ->
  zlen (sy_said s) < 2 ^ 32 -> n ∈ sy_nodes s ->
  exists ms, n_context n = snd <$> ms /\ NoDup ms /\
    (forall m, m ∈ ms -> m ∈ sy_said s /\ own_id n <> Some (said_id m)) /\
    (forall (a b : nat) m m', (a < b)%nat -> ms !! a = Some m -> ms !! b = Some m' ->
       said_id m = said_id m' -> exists (i j : nat), (i < j)%nat /\ sy_said s !! i = Some m /\
         sy_said s !! j = Some m').
Proof.
  intros Hs Hsz Hnd Hz Hn. destruct (reachable_simulated len s Hs Hsz Hnd Hz) as (sp & Hsp & Esaid & Hnodes).
  destruct (spec_reachable_ok (names s) sp (names_distinct s Hnd) Hsp) as [Hnum Hr].
  rewrite Esaid in Hnum, Hr. apply list_elem_of_lookup in Hn as [i En].
  destruct (Forall2_lookup_l _ _ _ _ _ Hnodes En) as (rp & Erp & _ & Ec).
  assert (names s !! i = Some (own_id n)) as Ei by (unfold names; by rewrite list_lookup_fmap, En).
  destruct (Forall2_lookup_lr _ _ _ _ _ _ Hr Ei Erp) as [_ Hg Hord _].
  exists (rp_given rp). split; [done|]. split; [by apply in_order_NoDup|]. split.
  - intros m Hm. destruct (Hg m Hm) as (? & ? & _). done.
  - intros a b m m' Hab Ha Hb E. pose proof (Hord a b m m' Hab Ha Hb E).
    destruct (Hg m) as [Hin _]; [by eapply list_elem_of_lookup_2|].
    destruct (Hg m') as [Hin' _]; [by eapply list_elem_of_lookup_2|]. by eapply numbered_order.
Qed.

(** * Everyone can get to know everything *)

(** Node 0 asks each other node, then each of them asks node 0. *)
Definition star (k : nat) : schedule :=
  ((fun j => (0%nat, j)) <$> seq 1 (k - 1)) ++ ((fun j => (j, 0%nat)) <$> seq 1 (k - 1)).

Lemma star_length k : length (star k) = (2 * (k - 1))%nat.
Proof. unfold star. rewrite length_app, !length_fmap, length_seq. lia. Qed.

Lemma star_valid k : valid k (star k).
Proof.
  unfold valid, star. apply Forall_app. split; apply Forall_fmap, Forall_seq; intros j Hj; cbn; lia.
Qed.

Lemma heard_app sched sched' from : heard (sched ++ sched') from = heard sched' (heard sched from).
Proof. revert from. induction sched as [|[i j] sched IH]; intros from; [done|]. cbn. by rewrite IH. Qed.

(** All nodes. *)
Definition everyone (k : nat) : gset nat := set_seq 0 k.

(** Node 0 asks nodes [1] to [m], and has then heard of them and itself. *)
Lemma heard_collect k m from :
  (0 < k)%nat -> (m < k)%nat -> length from = k ->
  (forall j, (j < k)%nat -> from !! j = Some ({[j]} : gset nat)) ->
  length (heard ((fun j => (0%nat, j)) <$> seq 1 m) from) = k /\
  heard ((fun j => (0%nat, j)) <$> seq 1 m) from !! 0%nat = Some (everyone (S m)) /\
  forall j, (0 < j < k)%nat -> heard ((fun j => (0%nat, j)) <$> seq 1 m) from !! j = Some {[j]}.
Proof.
  intros Hk Hm Hlen H. induction m as [|m IH].
  - split; [done|]. split; [|intros j Hj; apply H; lia]. cbn. rewrite H by lia. f_equal.
  - destruct IH as (Il & I0 & Ij); [lia|]. rewrite seq_S, fmap_app, heard_app. cbn [fmap list_fmap heard].
    rewrite I0, (Ij (1 + m)%nat) by lia. cbn [default from_option id]. split; [by rewrite length_insert|]. split.
    + rewrite list_lookup_insert_eq by lia. f_equal. unfold everyone. set_solver by lia.
    + intros j Hj. rewrite list_lookup_insert_ne by lia. apply Ij. lia.
Qed.

(** Then nodes [1] to [m] ask node 0. *)
Lemma heard_spread k m (from : list (gset nat)) all :
  (0 < k)%nat -> (m < k)%nat -> length from = k -> from !! 0%nat = Some all ->
  (forall j, (j < k)%nat -> exists w, from !! j = Some w /\ w ⊆ all) ->
  length (heard ((fun j => (j, 0%nat)) <$> seq 1 m) from) = k /\
  (forall j, (j <= m)%nat -> heard ((fun j => (j, 0%nat)) <$> seq 1 m) from !! j = Some all) /\
  forall j, (j < k)%nat -> exists w, heard ((fun j => (j, 0%nat)) <$> seq 1 m) from !! j = Some w /\ w ⊆ all.
Proof.
  intros Hk Hm Hlen H0 H. induction m as [|m IH].
  - split; [done|]. split; [|done]. intros j Hj. by replace j with 0%nat by lia.
  - destruct IH as (Il & I0 & Ij); [lia|]. rewrite seq_S, fmap_app, heard_app. cbn [fmap list_fmap heard].
    rewrite (I0 0%nat) by lia. destruct (Ij (1 + m)%nat) as (w & -> & Hw); [lia|]. cbn [default from_option id].
    assert (w ∪ all = all) as -> by set_solver. split; [by rewrite length_insert|]. split.
    + intros j Hj. destruct (decide (j = 1 + m)%nat) as [->|Hne]; [by rewrite list_lookup_insert_eq by lia|].
      rewrite list_lookup_insert_ne by lia. apply I0. lia.
    + intros j Hj. destruct (decide (j = 1 + m)%nat) as [->|Hne]; [rewrite list_lookup_insert_eq by lia; by exists all|].
      rewrite list_lookup_insert_ne by lia. by apply Ij.
Qed.

Lemma star_heard k j : (j < k)%nat -> heard (star k) (alone k) !! j = Some (everyone k).
Proof.
  intros Hj. unfold star. rewrite heard_app.
  destruct (heard_collect k (k - 1) (alone k)) as (Hl & H0 & H1); [lia|lia|apply length_alone|apply alone_lookup|].
  replace (S (k - 1)) with k in H0 by lia.
  destruct (heard_spread k (k - 1) (heard ((fun j => (0%nat, j)) <$> seq 1 (k - 1)) (alone k)) (everyone k)) as (_ & H2 & _); [| |exact Hl|exact H0| |apply H2; lia]; [lia|lia|].
  intros i Hi. destruct (decide (i = 0)%nat) as [->|Hne]; [by exists (everyone k)|].
  exists {[i]}. split; [apply H1; lia|]. unfold everyone. set_solver by lia.
Qed.

(** What the logs of all nodes have newest is the latest that each has said. *)
Lemma newest_latest len s :
  reachable len s -> zlen (sy_nodes s) <= MAX_VECTOR_SIZE -> NoDup (own_id <$> sy_nodes s) ->
  zlen (sy_said s) < 2 ^ 32 -> (forall n, n ∈ sy_nodes s -> state_of n <> STATE_DESTROYED) ->
  newest (sy_nodes s) (everyone (length (sy_nodes s))) (latest (sy_said s)).
Proof.
  intros Hs Hsz Hnd Hz Hlive id.
  destruct (reachable_simulated len s Hs Hsz Hnd Hz) as (sp & Hsp & Esaid & Hnodes).
  destruct (spec_reachable_ok (names s) sp (names_distinct s Hnd) Hsp) as [Hnum Hr]. rewrite Esaid in Hnum, Hr.
  assert (forall k n s' p', sy_nodes s !! k = Some n -> log_map n !! id = Some (s', p') ->
    1 <= s' <= count id (sy_said s)) as Hup.
  { intros k n s' p' Hk El. apply list_elem_of_lookup_2 in Hk.
    pose proof (logged_in len s n id s' p' Hs Hk (Hlive n Hk) El) as Hin.
    exact (numbered_range _ _ Hnum Hin). }
  pose proof (latest_spec (sy_said s) Hnum id) as Hl.
  destruct (latest (sy_said s) !! id) as [[c p]|] eqn:El.
  - destruct Hl as [-> Hin]. split; [|intros k n s' p' _ Hk E; by eapply Hup].
    pose proof (am_said _ (reachable_mirrored len s Hs Hsz) _ _ _ Hin) as Hid.
    apply elem_of_list_to_set, list_elem_of_omap in Hid as (n & Hn & Hme).
    apply list_elem_of_lookup in Hn as [k Hk]. exists k, n. split.
    { unfold everyone. apply elem_of_set_seq. apply lookup_lt_Some in Hk. lia. }
    split; [done|]. destruct (Forall2_lookup_l _ _ _ _ _ Hnodes Hk) as (rp & Erp & Eknown & _).
    assert (names s !! k = Some (own_id n)) as Ek by (unfold names; by rewrite list_lookup_fmap, Hk).
    destruct (Forall2_lookup_lr _ _ _ _ _ _ Hr Ek Erp) as [_ _ _ Hown]. by rewrite Eknown, (Hown id Hme).
  - intros k n _ Hk. destruct (log_map n !! id) as [[s' p']|] eqn:E; [|done]. pose proof (Hup k n s' p' Hk E). lia.
Qed.

(** C2: Every message gets everywhere: let all nodes of a cluster of at most
    [MAX_VECTOR_SIZE] nodes with distinct identities be connected, whatever
    happened before, and let the first ask every other, and every other then
    ask the first, [2 * (k - 1)] questions for [k] nodes. Whatever round of
    the answers arrives each time, in whatever order and however often, in the
    end every node has the latest message that each user has ever sent, and a
    clock that says so. *)
Theorem everyone_knows_everything len s :
  reachable len s -> zlen (sy_nodes s) <= MAX_VECTOR_SIZE -> NoDup (own_id <$> sy_nodes s) ->
  zlen (sy_said s) < 2 ^ 32 -> Forall connected (sy_nodes s) ->
  gossip recorder (star (length (sy_nodes s))) (sy_nodes s) (fun ns =>
    length ns = length (sy_nodes s) /\ forall n, n ∈ ns ->
      log_map n = latest (sy_said s) /\ clock_of n = fst <$> latest (sy_said s)).
Proof.
  intros Hs Hsz Hnd Hz Hc. rewrite Forall_forall in Hc. set (k := length (sy_nodes s)).
  assert (forall n, n ∈ sy_nodes s -> state_of n <> STATE_DESTROYED) as Hlive
    by (intros n Hn; unfold state_of; rewrite (Hc n Hn); discriminate).
  eapply gossip_mono.
  { apply (gossip_newest recorder record_payload (cluster_ids s) (sy_nodes s) (star k) (sy_nodes s) (alone k)
      recorder_ok (cluster_ids_size s Hsz)); [apply length_alone|apply star_valid|]. intros j n Ej.
    pose proof (list_elem_of_lookup_2 _ _ _ Ej) as Hn. split; [by apply (reachable_informed len s n); [| | |apply Hc]|].
    rewrite alone_lookup by (by eapply lookup_lt_Some). by apply newest_alone. }
  intros ns [El H]. split; [done|]. intros n [j Ej]%list_elem_of_lookup. destruct (H j n Ej) as [Hi Hm].
  rewrite star_heard in Hm by (apply lookup_lt_Some in Ej; lia). cbn [default from_option id] in Hm.
  assert (log_map n = latest (sy_said s)) as E.
  { eapply newest_unique; [|exact Hm|by eapply newest_latest]. intros a b x y Ex Ey.
    apply list_elem_of_lookup_2 in Ex, Ey. apply (reachable_agree len s); try done; by apply Hc. }
  split; [done|]. by rewrite <- (in_mirrors _ _ Hi), E.
Qed.

(** * Three nodes *)

Definition third_addr : list Z := [2; 0; 31; 146; 127; 0; 0; 1; 0; 0; 0; 0; 0; 0; 0; 0].
Definition trio_start : system :=
  System [new_node sample_addr; new_node peer_addr; new_node third_addr] [] [].

(** Two join the first; then all send, the third twice, and nothing arrives. *)
Definition trio_script : list (nat * api_call * list (nat * list Z)) :=
  [(0%nat, ApiJoin [], []); (1%nat, ApiJoin [sample_addr], []); (2%nat, ApiJoin [sample_addr], []);
   (1%nat, ApiSend, []); (2%nat, ApiSend, []); (0%nat, ApiReceive, [(0%nat, peer_addr)]);
   (0%nat, ApiReceive, [(1%nat, third_addr)]); (0%nat, ApiSend, []);
   (1%nat, ApiReceive, [(2%nat, sample_addr)]); (2%nat, ApiReceive, [(3%nat, sample_addr)]);
   (0%nat, ApiSendData [1; 2; 3] 3, []); (1%nat, ApiSendData [9; 8] 2, []);
   (2%nat, ApiSendData [4] 1, []); (2%nat, ApiSendData [5] 1, [])].
Definition trio : system := default trio_start (play sample_addr trio_script trio_start).

Lemma trio_started : reachable 16 trio_start.
Proof.
  apply ReachStart. repeat constructor; apply new_node_started; try done.
  all: apply (bool_decide_unpack _); vm_compute; exact I.
Qed.

(** Each has logged its own latest message. *)
Definition trio_view : view :=
  ([Glance (Some 158462835163263) 1000 STATE_CONNECTED [LogEntry 158462835163263 1 [1; 2; 3]] [];
    Glance (Some 159562346791039) 1000 STATE_CONNECTED [LogEntry 159562346791039 1 [9; 8]] [];
    Glance (Some 160661858418815) 1000 STATE_CONNECTED [LogEntry 160661858418815 2 [5]] []],
   [(158462835163263, 1, [1; 2; 3]); (159562346791039, 1, [9; 8]);
    (160661858418815, 1, [4]); (160661858418815, 2, [5])]).

Lemma trio_run : seen <$> play sample_addr trio_script trio_start = Some trio_view.
Proof. vm_compute. reflexivity. Qed.

Lemma trio_seen : seen trio = trio_view.
Proof. exact (ran_seen _ _ _ trio_run). Qed.

Lemma trio_reachable : reachable 16 trio.
Proof. exact (played_reachable sample_addr trio_script trio_start trio_started (ran_played _ _ trio_run)). Qed.

Lemma trio_small : zlen (sy_nodes trio) <= MAX_VECTOR_SIZE.
Proof. rewrite (seen_small _ _ trio_seen). vm_compute. discriminate. Qed.

Lemma trio_distinct : NoDup (own_id <$> sy_nodes trio).
Proof. rewrite (seen_ids _ _ trio_seen). apply (bool_decide_unpack _). vm_compute. exact I. Qed.

Lemma trio_said : zlen (sy_said trio) < 2 ^ 32.
Proof. by rewrite (seen_said _ _ trio_seen). Qed.

Lemma trio_connected : Forall connected (sy_nodes trio).
Proof.
  apply (seen_all _ _ trio_seen (fun g => gl_state g = STATE_CONNECTED)).
  apply (bool_decide_unpack _). vm_compute. exact I.
Qed.

(** The latest of what they sent: one message of each. *)
Lemma trio_latest : map_to_list (latest (sy_said trio)) ≡ₚ
  [(158462835163263, (1, [1; 2; 3])); (159562346791039, (1, [9; 8])); (160661858418815, (2, [5]))].
Proof. rewrite (seen_said _ _ trio_seen). apply (bool_decide_unpack _). vm_compute. exact I. Qed.

Lemma everyone_knows_everything_witness :
  gossip recorder (star (length (sy_nodes trio))) (sy_nodes trio) (fun ns =>
    length ns = length (sy_nodes trio) /\ forall n, n ∈ ns ->
    log_map n = latest (sy_said trio) /\ clock_of n = fst <$> latest (sy_said trio)).
Proof.
  exact (everyone_knows_everything 16 trio trio_reachable trio_small trio_distinct trio_said
    trio_connected).
Defined.

Lemma cluster_refines_witness :
  (exists sp, spec_reachable (names trio) sp /\ simulates trio sp) /\
  (forall sp e s', simulates trio sp -> event_ok 16 trio e -> sys_step trio e = Some s' ->
     zlen (sy_said s') < 2 ^ 32 -> exists n l sp', sy_nodes trio !! ev_node e = Some n /\
     shows (ev_node e) n (ev_call e) l /\ spec_step (names trio) sp l sp' /\ simulates s' sp').
Proof.
  exact (cluster_refines 16 trio trio_reachable trio_small trio_distinct trio_said).
Defined.

(** The first node after the meeting of [SyncProps] was given a message. *)
Lemma met_small : zlen (sy_nodes met) <= MAX_VECTOR_SIZE.
Proof. rewrite (seen_small _ _ met_seen). vm_compute. discriminate. Qed.

Lemma met_distinct : NoDup (own_id <$> sy_nodes met).
Proof. rewrite (seen_ids _ _ met_seen). apply (bool_decide_unpack _). vm_compute. exact I. Qed.

Lemma delivered_once_witness :
  exists ms, n_context met_first = snd <$> ms /\ NoDup ms /\
    (forall m, m ∈ ms -> m ∈ sy_said met /\ own_id met_first <> Some (said_id m)) /\
    (forall (a b : nat) m m', (a < b)%nat -> ms !! a = Some m -> ms !! b = Some m' ->
       said_id m = said_id m' -> exists (i j : nat), (i < j)%nat /\ sy_said met !! i = Some m /\
         sy_said met !! j = Some m').
Proof.
  exact (delivered_once 16 met met_first (reachable_moves 16 apart met apart_reachable apart_met) met_small
    met_distinct met_said (list_elem_of_lookup_2 _ _ _ (proj1 met_at))).
Defined.

Lemma met_delivered : n_context met_first = [[9; 8]].
Proof. change (gl_given (glance_at met_first) = [[9; 8]]). by rewrite (proj2 met_at). Qed.

(** * Why identities must be distinct *)

(** The second node, and one that starts a minute later at its address. *)
Definition restart_start : system :=
  System [new_node sample_addr; new_node peer_addr; node_from 1060 peer_addr] [] [].

(** The second node joins, its message arrives, it is destroyed. It starts
    again, joins, and its next message arrives too. *)
Definition restart_script : list (nat * api_call * list (nat * list Z)) :=
  [(0%nat, ApiJoin [], []); (1%nat, ApiJoin [sample_addr], []); (1%nat, ApiSend, []);
   (0%nat, ApiReceive, [(0%nat, peer_addr)]); (0%nat, ApiSend, []);
   (1%nat, ApiReceive, [(1%nat, sample_addr)]); (1%nat, ApiSendData [9; 8] 2, []); (1%nat, ApiSend, []);
   (0%nat, ApiReceive, [(2%nat, peer_addr)]); (1%nat, ApiDestroy, []);
   (2%nat, ApiJoin [sample_addr], []); (2%nat, ApiSend, []); (0%nat, ApiReceive, [(3%nat, peer_addr)]);
   (0%nat, ApiSend, []); (2%nat, ApiReceive, [(6%nat, sample_addr)]); (2%nat, ApiSendData [4; 5] 2, []);
   (2%nat, ApiSend, []); (0%nat, ApiReceive, [(9%nat, peer_addr)])].

Definition restarted : system := default restart_start (play sample_addr restart_script restart_start).

Lemma restart_started : reachable 16 restart_start.
Proof.
  apply ReachStart. repeat constructor; apply node_from_started; try done.
  all: apply (bool_decide_unpack _); vm_compute; exact I.
Qed.

(** Its uid is another, but the identity has only the high half of it: both
    messages have the same originator and number. The first node does not
    deliver the second message, and logs disagree. *)
Definition restarted_view : view :=
  let first := LogEntry 159562346791039 1 [9; 8] in
  let second := LogEntry 159562346791039 1 [4; 5] in
  ([Glance (Some 158462835163263) 1000 STATE_CONNECTED [first] [[9; 8]];
    Glance (Some 159562346791039) 1000 STATE_DESTROYED [first] [];
    Glance (Some 159562346791039) 1060 STATE_CONNECTED [second] []],
   [(159562346791039, 1, [9; 8]); (159562346791039, 1, [4; 5])]).

Lemma restarted_node_is_ignored : seen <$> play sample_addr restart_script restart_start = Some restarted_view.
Proof. vm_compute. reflexivity. Qed.

Lemma restarted_reachable : reachable 16 restarted /\ seen restarted = restarted_view.
Proof.
  split; [|exact (ran_seen _ _ _ restarted_node_is_ignored)].
  exact (played_reachable sample_addr restart_script restart_start restart_started
    (ran_played _ _ restarted_node_is_ignored)).
Qed.

(** And as the clocks of the two are equal, the first will not ask for it. *)
Lemma restarted_clocks : Forall (fun n => connected n -> clock_of n = {[159562346791039 := 1]}) (sy_nodes restarted).
Proof.
  destruct restarted_reachable as [Hr Hs]. pose proof (reachable_mirrored 16 restarted Hr) as Hm.
  apply Forall_forall. intros n Hn Hc.
  assert (zlen (sy_nodes restarted) <= MAX_VECTOR_SIZE) as Hz
    by (rewrite (seen_small _ _ Hs); vm_compute; discriminate).
  destruct (am_nodes _ (Hm Hz) n Hn (connected_lives n Hc)) as [Hck _]. unfold mirrors in Hck. rewrite <- Hck.
  assert (Forall (fun g => fst <$> entries_map (gl_log g) = {[159562346791039 := 1]}) (fst restarted_view)) as Hg
    by (apply (bool_decide_unpack _); vm_compute; exact I).
  apply (seen_all _ _ Hs) in Hg. exact (proj1 (Forall_forall _ _) Hg n Hn).
Qed.
