(* ===== verification/JoinProps.v ===== *)
(** Joining: the handshake of a node with a seed, from the call to the
    welcome. *)
From S2P Require Import Prelude.
From S2P Require Import Config.
From S2P Require Import Utils.
From S2P Require Import World.
From S2P Require Import Member.
From S2P Require Import VectorClock.
From S2P Require Import Messages.
From S2P Require Import Queue.
From S2P Require Import DataLog.
From S2P Require Import Gossip.
From S2P Require Import Node.
From S2P Require Import MemberFacts.
From S2P Require Import MemberSetFacts.
From S2P Require Import VectorClockFacts.
From S2P Require Import WireFacts.
From S2P Require Import MessageFacts.
From S2P Require Import DataLogFacts.
From S2P Require Import QueueFacts.
From S2P Require Import OutboxFacts.
From S2P Require Import EnqueueFacts.
From S2P Require Import NodeFacts.
From S2P Require Import HandlerFacts.
From S2P Require Import PublicFacts.
From S2P Require Import HealthFacts.
From S2P Require Import StateFacts.
From S2P Require Import Samples.
From S2P Require Import SyncFacts.
From S2P Require Import Network.
From S2P Require Import NetworkSamples.
From S2P Require Import NetworkProps.

(** * Members *)

Section Join.
Context {Ctx : Type}.
Implicit Types n : node Ctx.




Lemma put_one_old l m x : x ∈ l -> x ∈ put_one l m.
Proof. intros Hx. unfold put_one. case_bool_decide; [done|]. apply elem_of_app. by left. Qed.


(** * One message queued on an empty queue *)



(** * The seed and the newcomer *)

Context (data_receiver : option (list Z -> Z -> M (node Ctx) unit)).


End Join.


(** * Property *)






