(* ===== verification/DemoFacts.v ===== *)
(** The rounds of the demo programs on a healthy node: what the parts of a
    round need, and what they leave. *)
From S2P Require Import Prelude.
From S2P Require Import Config.
From S2P Require Import Utils.
From S2P Require Import World.
From S2P Require Import Member.
From S2P Require Import VectorClock.
From S2P Require Import Messages.
From S2P Require Import Queue.
From S2P Require Import DataLog.
From S2P Require Import Gossip.
From S2P Require Import Node.
From S2P Require Import Text.
From S2P Require Import Demo.
From S2P Require Import MessageFacts.
From S2P Require Import EnqueueFacts.
From S2P Require Import SendFacts.
From S2P Require Import NodeFacts.
From S2P Require Import HandlerFacts.
From S2P Require Import PublicFacts.
From S2P Require Import StateFacts.
From S2P Require Import HealthFacts.
From S2P Require Import ClusterFacts.
From Stdlib Require Import String.
Local Abbreviation length := Datatypes.length.

(** * The receiver *)

(** The bytes before the first NUL. *)
Fixpoint until_nul (p : list Z) : list Z :=
  match p with
  | [] => []
  | c :: p => if c =? 0 then [] else c :: until_nul p
  end.

Lemma until_nul_app s rest : no_nul s -> until_nul (s ++ 0 :: rest) = s.
Proof.
  induction 1 as [|c s Hc _ IH]; [done|]. cbn [app until_nul].
  by rewrite (proj2 (Z.eqb_neq _ _) Hc), IH.
Qed.

Lemma c_string_until p : 0 ∈ p -> forall rest, c_string (p ++ rest) = Ok (until_nul p).
Proof.
  induction p as [|c p IH]; intros Hp rest; [by apply not_elem_of_nil in Hp|].
  cbn [app c_string until_nul]. destruct (Z.eqb_spec c 0) as [->|Hc]; [done|].
  rewrite IH; [done|]. by apply elem_of_cons in Hp as [<-|?].
Qed.

(** The payload is a string. *)
Definition terminated (_ _ : Z) (p : list Z) : Prop := 0 ∈ p.

Definition arrived_line (p : list Z) : list Z := bytes_of "Data arrived: " ++ until_nul p ++ newline.
Definition print_payload (p : list Z) (c : console) : console :=
  Console (con_out c ++ [arrived_line p]) (con_err c).

Lemma data_receiver_receives i c p : terminated i c p -> receives data_receiver print_payload p.
Proof.
  intros Hp data size n Hd. unfold wp, mbind, M_bind, liftO.
  replace data with (ztake size data ++ zdrop size data) by apply ztake_zdrop.
  rewrite Hd, c_string_until by done. done.
Qed.

(** * The parts of a round *)

Abbreviation healthy16 := (healthy (Ctx := console) 16 terminated).
Abbreviation within k := (healthy_within (Ctx := console) 16 terminated k).

(** A datagram of the cluster, with a string in it when it carries data. *)
Definition sound_arrival (d : list Z * list Z) : Prop :=
  zlen (snd d) = 16 /\ exists m, sound 16 terminated (fst d) m.

Section Round.
Context {A : Type} (Q : A + Z -> node console -> Prop).
Implicit Types (n : node console) (t : turn).

(** The way out destroys the node and gives -1. *)
Lemma wp_fail text n k :
  within k n -> (forall n', state_of n' = STATE_DESTROYED -> Q (inr (-1)) n') ->
  wp (fail text) n Q.
Proof.
  intros (xs & cells & Hh & _) HQ. unfold fail. apply wp_bind. unfold wp at 1, complain.
  set (n1 := Node _ _ _).
  assert (node_ok n1 xs cells) as Hn1 by exact (node_ok_context n xs cells _ (he_ok _ _ _ _ _ Hh)).
  apply wp_bind. eapply wp_mono; [by apply (wp_destroy n1 xs cells)|].
  intros r n' (_ & _ & _ & Hst & _). apply wp_ret. by apply HQ.
Qed.

(** What may change around a healthy node without hurting it. *)
Lemma healthy_arrive n xs cells waiting :
  healthy16 n xs cells ->
  healthy16 (Node (n_self n)
    (World (answers (n_world n)) (allocs (n_world n)) (time_calls (n_world n))
       (random_calls (n_world n)) (sent (n_world n)) waiting (closed (n_world n))) (n_context n)) xs cells.
Proof. intros [[[] ? ? ? ? ? ?] ? ? ? ? ?]. split; try done. Qed.

Lemma wp_poll_socket t (m : D (A + Z)) n xs cells :
  healthy16 n xs cells -> spacious xs cells ->
  Forall sound_arrival (inbox (n_world n) ++ tn_arrived t) ->
  (forall n', within (zlen xs + 2 * zlen cells + 27) n' -> wp m n' Q) ->
  (forall n', state_of n' = STATE_DESTROYED -> Q (inr (-1)) n') ->
  wp (poll_socket t m) n Q.
Proof.
  intros Hh Hsp Hin Hm HQ. unfold poll_socket. apply wp_bind. unfold wp at 1, arrive.
  set (n1 := Node _ _ _). pose proof (zlen_nonneg cells) as Hcl.
  assert (healthy16 n1 xs cells) as Hh1 by by apply healthy_arrive.
  assert (within (zlen xs + 2 * zlen cells + 27) n1) as Hw1 by (exists xs, cells; split; [done|lia]).
  destruct (0 <? tn_poll t).
  2:{ destruct (tn_poll t <? 0); [by eapply wp_fail|by apply Hm]. }
  destruct (tn_pollerr t); [by eapply wp_fail|]. destruct (tn_pollin t); [|by apply Hm].
  apply wp_bind.
  assert (wp (pittacus_gossip_process_receive data_receiver) n1
            (fun _ n' => within (zlen xs + 2 * zlen cells + 27) n')) as Hr.
  { destruct (inbox (n_world n1)) as [|[bytes from] rest] eqn:Ei.
    - unfold pittacus_gossip_process_receive. apply wp_bind, wp_self.
      destruct (is_active _); [|by apply wp_ret].
      apply wp_bind, wp_liftW. unfold wp at 1, pt_recv_from. rewrite Ei. by apply wp_ret.
    - cbn in Ei. rewrite Ei in Hin. apply Forall_cons in Hin as [[Hf [msg Hmsg]] _].
      eapply wp_mono; [by apply (healthy_receive 16 terminated data_receiver print_payload
        data_receiver_receives n1 xs cells msg bytes from rest)|]. by intros r n' (? & _). }
  eapply wp_mono; [exact Hr|]. intros r n' Hn'. cbv beta in Hn' |- *.
  destruct (r <? 0); [by eapply wp_fail|by apply Hm].
Qed.

Lemma wp_tick_socket (m : Z -> D (A + Z)) n k :
  within k n -> k + 3 < MAX_OUTPUT_MESSAGES ->
  (forall r n', within (k + 3) n' -> wp (m r) n' Q) ->
  (forall n', Q (inr (-1)) n') -> wp (tick_socket m) n Q.
Proof.
  intros (xs & cells & Hh & Hk) Hlt Hm HQ. unfold tick_socket. apply wp_bind.
  eapply wp_mono; [apply (healthy_tick 16 terminated n xs cells Hh); lia|].
  intros r n' ((xs' & cells' & Hh' & Hk') & _). cbv beta. destruct (r <? 0).
  - apply wp_bind. unfold wp at 1, complain. by apply wp_ret.
  - apply Hm. exists xs', cells'. split; [done|lia].
Qed.

Lemma wp_process_send_within n k :
  within k n -> wp pittacus_gossip_process_send n (fun _ n' => within k n').
Proof.
  intros (xs & cells & Hh & Hk). destruct (is_active (g_state (n_self n))) eqn:Ha.
  - eapply wp_mono; [by apply (healthy_send 16 terminated n xs cells)|].
    intros r n' (kept & cells' & ds & Hh' & Hl & _). exists kept, cells'. split; [done|lia].
  - unfold pittacus_gossip_process_send. apply wp_bind, wp_self. rewrite Ha. apply wp_ret.
    by exists xs, cells.
Qed.

Lemma wp_write_socket t (a : A) n k :
  within k n -> (forall n', within k n' -> Q (inl a) n') ->
  (forall n', state_of n' = STATE_DESTROYED -> Q (inr (-1)) n') -> wp (write_socket t a) n Q.
Proof.
  intros Hn Ha HQ. unfold write_socket. apply wp_bind.
  eapply wp_mono; [by apply wp_process_send_within|]. intros r n' Hn'. cbv beta in Hn' |- *.
  destruct (r <? 0); [by eapply wp_fail|]. apply wp_ret. by apply Ha.
Qed.
End Round.

(** * The texts of the demo node *)

Lemma text_with_ts_no_nul text ts : no_nul text -> no_nul (DemoNode.text_with_ts text ts).
Proof.
  intros Ht. unfold DemoNode.text_with_ts. repeat apply Forall_app_2; try done.
  - by repeat constructor.
  - apply fmt_d_no_nul.
  - by repeat constructor.
Qed.

Lemma text_with_ts_length text ts :
  - 2 ^ 63 <= ts < 2 ^ 63 ->
  zlen text + 9 <= zlen (DemoNode.text_with_ts text ts) <= zlen text + 28.
Proof.
  intros Hts. unfold DemoNode.text_with_ts. rewrite !zlen_app.
  pose proof (fmt_d_length ts Hts). change (zlen (bytes_of " (ts = ")) with 7.
  change (zlen (bytes_of ")")) with 1. lia.
Qed.

Lemma message_text_length id : zlen (DemoNode.message_text id) = zlen id + 15.
Proof.
  unfold DemoNode.message_text. rewrite !zlen_app. change (zlen (bytes_of "[")) with 1.
  change (zlen (bytes_of "]: ")) with 3. change (zlen DemoNode.DATA_MESSAGE) with 11. lia.
Qed.

Lemma message_text_no_nul id : no_nul id -> no_nul (DemoNode.message_text id).
Proof.
  intros Hi. unfold DemoNode.message_text. repeat apply Forall_app_2; try done; by repeat constructor.
Qed.

(** The variables of the loop: [message] holds a string that leaves room for
    a time stamp in [message_with_ts]. *)
Definition vars_ok (v : DemoNode.vars) : Prop :=
  exists text rest, DemoNode.message v = text ++ 0 :: rest /\ no_nul text /\ zlen text <= 227 /\
    zlen (DemoNode.message_with_ts v) = 256.

Lemma wp_send_periodically ts v (n : node console) k :
  within k n -> k + 3 < MAX_OUTPUT_MESSAGES -> vars_ok v -> - 2 ^ 63 <= ts < 2 ^ 63 ->
  wp (DemoNode.send_periodically ts v) n (fun v' n' => vars_ok v' /\ within (k + 3) n').
Proof.
  intros (xs & cells & Hh & Hk) Hlt Hv Hts. unfold DemoNode.send_periodically.
  destruct (_ <=? _).
  2:{ apply wp_ret. split; [done|]. exists xs, cells. split; [done|lia]. }
  destruct Hv as (text & rest & Em & Ht & Hl & H256). apply wp_bind.
  eapply wp_lift; [by rewrite Em, c_string_ok|]. apply wp_bind.
  pose proof (text_with_ts_length text ts Hts) as Hlen.
  eapply wp_lift; [apply (sprintf_at _ 0 [] (DemoNode.message_with_ts v)); [done|done|lia]|].
  cbn [fst snd app]. set (s := DemoNode.text_with_ts text ts) in *.
  set (data := (s ++ [0]) ++ zdrop (zlen s + 1) (DemoNode.message_with_ts v)).
  pose proof (zlen_nonneg text) as Htn.
  assert (zlen (s ++ [0]) = zlen s + 1) as Hs1 by by rewrite zlen_app.
  assert (zlen data = 256) as Hd.
  { unfold data. rewrite zlen_app, Hs1, zlen_zdrop by lia. lia. }
  apply wp_bind. destruct (no_address _ _ _ (he_ok _ _ _ _ _ Hh)) as ((_ & Hz) & Ha & Hb).
  destruct (vector_clock_create_member_id_ok (g_self_address (n_self n))) as (me & Eme & _); [lia|done|].
  eapply wp_mono; [apply (healthy_send_data 16 terminated n xs cells data (zlen s + 1) me Hh)|].
  - lia.
  - unfold MAX_PAYLOAD. config_lia.
  - lia.
  - done.
  - intros _. unfold terminated, data. rewrite <- Hs1, ztake_app.
    apply elem_of_app. right. by left.
  - intros r n' ((xs' & cells' & Hh' & Hk') & _). apply wp_ret. split.
    + exists text, rest. by split_and!.
    + exists xs', cells'. split; [done|lia].
Qed.
