(* ===== verification/DemoProps.v ===== *)
(** Properties of the demo programs: they end only with -1 and release the
    node, a healthy round stays healthy, which arguments fit, what a line
    that is sent looks like when it is printed, and what ends a demo early. *)
From S2P Require Import Prelude.
From S2P Require Import Config.
From S2P Require Import Utils.
From S2P Require Import World.
From S2P Require Import Member.
From S2P Require Import VectorClock.
From S2P Require Import Messages.
From S2P Require Import Queue.
From S2P Require Import DataLog.
From S2P Require Import Gossip.
From S2P Require Import Node.
From S2P Require Import Text.
From S2P Require Import Demo.
From S2P Require Import MessageFacts.
From S2P Require Import QueueFacts.
From S2P Require Import EnqueueFacts.
From S2P Require Import CarryFacts.
From S2P Require Import SendFacts.
From S2P Require Import NodeFacts.
From S2P Require Import HandlerFacts.
From S2P Require Import PublicFacts.
From S2P Require Import FrameFacts.
From S2P Require Import StateFacts.
From S2P Require Import Samples.
From S2P Require Import SendProps.
From S2P Require Import HealthFacts.
From S2P Require Import ClusterFacts.
From S2P Require Import DemoFacts.
From Stdlib Require Import String.
Local Abbreviation length := Datatypes.length.

(** * A sample *)

Definition demo_sample (st : pittacus_gossip_state) (waiting : list (list Z * list Z)) : node console :=
  Node (sample_gossip st) (World sample_oracle 10 0 0 [] waiting []) (Console [] []).

Lemma demo_sample_ok st waiting : node_ok (demo_sample st waiting) [] peer_cells.
Proof.
  destruct (sample_ok st) as [[Hq Hs Hf Ho Hoom] Hm Hc Hl Ha Hsq Hi].
  split; [split; [exact Hq|exact Hs|exact Hf|exact Ho|exact Hoom]|exact Hm|exact Hc|exact Hl|exact Ha
         |exact Hsq|exact Hi].
Qed.

Lemma demo_sample_healthy st waiting : healthy16 (demo_sample st waiting) [] peer_cells.
Proof.
  split; [apply demo_sample_ok|done|by apply Forall_singleton|done| |].
  - intros l x Hin. by apply not_elem_of_nil in Hin.
  - apply Forall_nil_2.
Qed.

Definition quiet_turn : turn := Turn 0 false false [] [] 1700000000.
Definition sample_vars : DemoNode.vars :=
  DemoNode.Vars GOSSIP_TICK_INTERVAL 0 (DemoNode.message_text (bytes_of "0") ++ zeros 240) (zeros 256).

Lemma sample_vars_ok : vars_ok sample_vars.
Proof.
  exists (DemoNode.message_text (bytes_of "0")), (zeros 239).
  split; [reflexivity|]. split; [apply message_text_no_nul; by repeat constructor|].
  split; [vm_compute; discriminate|reflexivity].
Qed.

(** * Rounds *)

Lemma node_round_ok t v n xs cells :
  healthy16 n xs cells -> zlen xs + 2 * zlen cells + 33 < MAX_OUTPUT_MESSAGES ->
  Forall sound_arrival (inbox (n_world n) ++ tn_arrived t) -> vars_ok v ->
  - 2 ^ 63 <= tn_time t < 2 ^ 63 ->
  wp (DemoNode.node_round t v) n (fun r n' =>
    match r with
    | inl v' => vars_ok v' /\ within (zlen xs + 2 * zlen cells + 33) n'
    | inr status => status = -1
    end).
Proof.
  intros Hh Hlt Hin Hv Ht. unfold DemoNode.node_round.
  apply (wp_poll_socket _ t _ n xs cells); try done; [unfold spacious; lia|].
  intros n1 Hn1. eapply wp_tick_socket; [exact Hn1|lia| |done].
  intros r n2 Hn2. apply wp_bind.
  eapply wp_mono; [eapply (wp_send_periodically (tn_time t) _ n2 _ Hn2); [lia| |done]|].
  { destruct Hv as (text & rest & ?). by exists text, rest. }
  intros v' n3 [Hv' Hn3]. eapply wp_write_socket; [exact Hn3| |done].
  intros n4 (xs' & cells' & Hh' & Hl). split; [done|]. exists xs', cells'. split; [done|lia].
Qed.

Lemma seed_round_ok t i n xs cells :
  healthy16 n xs cells -> zlen xs + 2 * zlen cells + 33 < MAX_OUTPUT_MESSAGES ->
  Forall sound_arrival (inbox (n_world n) ++ tn_arrived t) ->
  wp (DemoSeedNode.seed_round t i) n (fun r n' =>
    match r with
    | inl _ => within (zlen xs + 2 * zlen cells + 33) n'
    | inr status => status = -1
    end).
Proof.
  intros Hh Hlt Hin. unfold DemoSeedNode.seed_round.
  apply (wp_poll_socket _ t _ n xs cells); try done; [unfold spacious; lia|].
  intros n1 Hn1. eapply wp_tick_socket; [exact Hn1|lia| |done].
  intros r n2 Hn2. eapply wp_write_socket; [exact Hn2| |done].
  intros n4 (xs' & cells' & Hh' & Hl). exists xs', cells'. split; [done|lia].
Qed.

(** C23: A round of either demo on a healthy node with room in its queue, whose
    waiting datagrams are messages of the cluster with strings in their
    data, is free of undefined behaviour for every answer of [poll] and of
    the library: it goes on with a healthy node, the demo node with room for
    its next line, or ends the program with -1. *)
Theorem demo_rounds_safe t v i n xs cells :
  healthy16 n xs cells -> zlen xs + 2 * zlen cells + 33 < MAX_OUTPUT_MESSAGES ->
  Forall sound_arrival (inbox (n_world n) ++ tn_arrived t) -> vars_ok v ->
  - 2 ^ 63 <= tn_time t < 2 ^ 63 ->
  wp (DemoNode.node_round t v) n (fun r n' =>
    match r with
    | inl v' => vars_ok v' /\ within (zlen xs + 2 * zlen cells + 33) n'
    | inr status => status = -1
    end) /\
  wp (DemoSeedNode.seed_round t i) n (fun r n' =>
    match r with
    | inl _ => within (zlen xs + 2 * zlen cells + 33) n'
    | inr status => status = -1
    end).
Proof. intros. split; [by apply node_round_ok|by apply seed_round_ok]. Qed.

Lemma demo_rounds_safe_witness :
  wp (DemoNode.node_round quiet_turn sample_vars) (demo_sample STATE_CONNECTED []) (fun r n' =>
    match r with
    | inl v' => vars_ok v' /\ within (zlen (@nil entry) + 2 * zlen peer_cells + 33) n'
    | inr status => status = -1
    end).
Proof.
  assert (- 2 ^ 63 <= tn_time quiet_turn < 2 ^ 63) as Ht by (split; vm_compute; [discriminate|reflexivity]).
  assert (zlen (@nil entry) + 2 * zlen peer_cells + 33 < MAX_OUTPUT_MESSAGES) as Hr
    by (vm_compute; reflexivity).
  exact (proj1 (demo_rounds_safe quiet_turn sample_vars 1000 (demo_sample STATE_CONNECTED []) [] peer_cells
    (demo_sample_healthy _ _) Hr (Forall_nil_2 _) sample_vars_ok Ht)).
Defined.

(** * Ending *)

(** The node was released: destroyed, its socket closed. *)
Definition released (n' : node console) : Prop :=
  state_of n' = STATE_DESTROYED /\ exists before, closed (n_world n') = before ++ [g_socket (n_self n')].

(** What [complain] does. *)
Definition complained (text : list Z) (n : node console) : node console :=
  Node (n_self n) (n_world n) (Console (con_out (n_context n)) (con_err (n_context n) ++ [text])).

Lemma complain_run text n : complain text n = Ok (tt, complained text n).
Proof. done. Qed.

Section Ending.
Context {A : Type}.

(** The tick of a round failed, and nothing was done after it but to tell so:
    the program was run for the rounds [before] this one, which took it from
    [n] to [n1], and the socket was polled; the tick on the node [n2] that
    this left answered [r], and the program ended on [n3] with its message. *)
Definition tick_failed (run : list turn -> D (A + Z)) (turns : list turn) (n n' : node console) : Prop :=
  exists before t rest a n1 n2 n3 r, turns = before ++ t :: rest /\
    run before n = Ok (inl a, n1) /\ poll_socket t (mret (inl a)) n1 = Ok (inl a, n2) /\
    pittacus_gossip_tick n2 = Ok (r, n3) /\ r < 0 /\
    n' = complained (bytes_of "Gossip tick failed: " ++ fmt_d r ++ newline) n3.

(** How a program ends, when it does: with -1, and the node released unless a
    tick failed. *)
Definition ends (run : list turn -> D (A + Z)) : Prop := forall turns n status n',
  run turns n = Ok (inr status, n') -> status = -1 /\ (released n' \/ tick_failed run turns n n').

(** A part of a program that leaves only with -1 and the node released. *)
Definition clean (m : D (A + Z)) : Prop := forall n status n',
  m n = Ok (inr status, n') -> status = -1 /\ released n'.

Lemma clean_bind {B} (m : D B) (f : B -> D (A + Z)) : (forall b, clean (f b)) -> clean (m ≫= f).
Proof. intros Hf n r n' (b & n1 & _ & E)%bind_Ok. by eapply Hf. Qed.

Lemma clean_going (a : A) : clean (mret (inl a)).
Proof. by intros n r n' [= ]. Qed.

Lemma clean_fail text : clean (fail text).
Proof.
  intros n r n' (u & n1 & _ & (x & n2 & Ed & [= <- <-])%bind_Ok)%bind_Ok.
  split; [done|]. split; [by eapply destroy_transition|]. eexists. by eapply destroy_closes.
Qed.

Lemma clean_write t a : clean (write_socket t a).
Proof.
  unfold write_socket. apply clean_bind. intros r.
  destruct (r <? 0); [apply clean_fail|apply clean_going].
Qed.

(** Polling ends the program cleanly or goes on, as it does whatever follows. *)
Lemma poll_ends t (m : D (A + Z)) (a : A) n c n' :
  poll_socket t m n = Ok (inr c, n') ->
  c = -1 /\ released n' \/
  exists n1, poll_socket t (mret (inl a)) n = Ok (inl a, n1) /\ m n1 = Ok (inr c, n').
Proof.
  cbv beta delta [poll_socket]. intros (u & n1 & E1 & E)%bind_Ok.
  assert (forall k : D (A + Z), (arrive (tn_arrived t);; k) n = k n1) as Hk
    by (intros k; by rewrite (M_ok_bind _ _ _ _ _ E1)).
  rewrite Hk. clear Hk E1.
  repeat match type of E with (if ?b then _ else _) _ = _ => destruct b end;
    try (left; by eapply clean_fail); try (right; by eexists).
  apply bind_Ok in E as (r & n2 & E2 & E). rewrite (M_ok_bind _ _ _ _ _ E2).
  destruct (r <? 0); [left; by eapply clean_fail|right; by eexists].
Qed.

(** The round in which the loop ends. *)
Lemma rounds_end (round : turn -> A -> D (A + Z)) turns : forall a n c n',
  rounds round turns a n = Ok (inr c, n') ->
  exists before t rest a1 n1, turns = before ++ t :: rest /\
    rounds round before a n = Ok (inl a1, n1) /\ round t a1 n1 = Ok (inr c, n').
Proof.
  induction turns as [|t turns IH]; intros a n c n' E; [done|].
  cbn [rounds] in E. apply bind_Ok in E as ([a1|c1] & n1 & E1 & E).
  - destruct (IH _ _ _ _ E) as (before & t' & rest & a2 & n2 & -> & E2 & E3).
    exists (t :: before), t', rest, a2, n2. split; [done|]. split; [|done].
    cbn [rounds]. by rewrite (M_ok_bind _ _ _ _ _ E1).
  - injection E as <- <-. by exists [], t, turns, a, n.
Qed.

(** A round polls, ticks, and goes on cleanly. *)
Lemma round_ends (m : Z -> D (A + Z)) t (a : A) n c n' :
  (forall i, clean (m i)) -> poll_socket t (tick_socket m) n = Ok (inr c, n') ->
  c = -1 /\ (released n' \/ tick_failed (fun _ => mret (inl a)) [t] n n').
Proof.
  intros Hm E. destruct (poll_ends _ _ a _ _ _ E) as [[-> Hr]|(n2 & Ep & Et)]; [by split; [|left]|].
  apply bind_Ok in Et as (i & n3 & Et & E3). destruct (Z.ltb_spec i 0) as [Hi|_].
  - injection E3 as <- <-. split; [done|]. right. by exists [], t, [], a, n, n2, n3, i.
  - destruct (Hm i _ _ _ E3) as [-> Hr]. split; [done|]. by left.
Qed.

(** A program that prepares and then loops. *)
Lemma ends_rounds round a (prepare : D (A + Z) -> D (A + Z)) :
  (forall t a n c n', round t a n = Ok (inr c, n') ->
     c = -1 /\ (released n' \/ tick_failed (fun _ => mret (inl a)) [t] n n')) ->
  (forall n c n' k, prepare k n = Ok (inr c, n') -> c = -1 /\ released n' \/
     exists n1, (forall k', prepare k' n = k' n1) /\ k n1 = Ok (inr c, n')) ->
  ends (fun turns => prepare (rounds round turns a)).
Proof.
  intros Hr Hp turns n c n' E. destruct (Hp _ _ _ _ E) as [[-> Hrel]|(n0 & Hn0 & E0)]; [by split; [|left]|].
  destruct (rounds_end _ _ _ _ _ _ E0) as (before & t & rest & a1 & n1 & -> & Eb & Et).
  destruct (Hr _ _ _ _ _ Et) as [-> [Hrel|Hf]]; [by split; [|left]|]. split; [done|]. right.
  destruct Hf as ([|? [|? ?]] & t' & rest' & a' & n1' & n2 & n3 & r & [= <- <-] & [= <- <-] & Ep & Etk & Hneg & ->);
    try done.
  exists before, t, rest, a1, n1, n2, n3, r. by rewrite Hn0.
Qed.
End Ending.

(** C24: Whatever the environment answers, whatever arrives and however long
    they run, the demo programs return -1 when they return, and have then
    destroyed the node and closed its socket. The one exception is a tick
    that answers a negative number in the round where the program ends: then
    only the failed tick is reported. *)
Theorem demos_end seed_node_in v :
  ends (DemoNode.node_run seed_node_in v) /\ ends DemoSeedNode.seed_run.
Proof.
  split.
  - apply (ends_rounds DemoNode.node_round v (fun k =>
      join_result ← pittacus_gossip_join [seed_node_in];
      if join_result <? 0 then fail (bytes_of "Gossip join failed: " ++ fmt_d join_result)
      else
        send_result ← pittacus_gossip_process_send;
        if send_result <? 0 then fail (bytes_of "Failed to send hello message to a cluster.")
        else gossip_fd ← pittacus_gossip_socket_fd; k)).
    + intros t a n c n'. apply round_ends. intros i. apply clean_bind. intros v'. apply clean_write.
    + intros n c n' k (r & n1 & E1 & E)%bind_Ok.
      destruct (r <? 0) eqn:Er; [left; by eapply clean_fail|].
      apply bind_Ok in E as (r2 & n2 & E2 & E).
      destruct (r2 <? 0) eqn:Er2; [left; by eapply clean_fail|].
      apply bind_Ok in E as (fd & n3 & E3 & E). right. exists n3. split; [|done]. intros k'.
      by rewrite (M_ok_bind _ _ _ _ _ E1), Er, (M_ok_bind _ _ _ _ _ E2), Er2, (M_ok_bind _ _ _ _ _ E3).
  - apply (ends_rounds DemoSeedNode.seed_round GOSSIP_TICK_INTERVAL (fun k =>
      join_result ← pittacus_gossip_join [];
      if join_result <? 0 then fail (bytes_of "Gossip join failed: " ++ fmt_d join_result)
      else gossip_fd ← pittacus_gossip_socket_fd; k)).
    + intros t a n c n'. apply round_ends. intros i. apply clean_write.
    + intros n c n' k (r & n1 & E1 & E)%bind_Ok.
      destruct (r <? 0) eqn:Er; [left; by eapply clean_fail|].
      apply bind_Ok in E as (fd & n3 & E3 & E). right. exists n3. split; [|done]. intros k'.
      by rewrite (M_ok_bind _ _ _ _ _ E1), Er, (M_ok_bind _ _ _ _ _ E3).
Qed.

(** A clock that is set back by more than about 25 days ends the seed
    node: the time left until the next round overflows the [int] that
    [pittacus_gossip_tick] returns, is taken for an error, and the program
    ends with the node not destroyed. *)
Theorem clock_step_ends_demo i (n : node console) xs cells :
  node_ok n xs cells -> connected n ->
  2 ^ 31 <= u64 (g_last_gossip_ts (n_self n) + GOSSIP_TICK_INTERVAL) - now n < 2 ^ 32 ->
  wp (DemoSeedNode.seed_round quiet_turn i) n (fun r n' => r = inr (-1) /\ n_self n' = n_self n).
Proof.
  intros Hn Hc Hd. unfold DemoSeedNode.seed_round, poll_socket. apply wp_bind. unfold wp at 1, arrive.
  set (n1 := Node _ _ _). change (0 <? tn_poll quiet_turn) with false.
  change (tn_poll quiet_turn <? 0) with false. cbv iota.
  assert (node_ok n1 xs cells) as Hn1.
  { destruct Hn as [[] ? ? ? ? ? ?]. split; try done. }
  unfold tick_socket. apply wp_bind. eapply wp_mono; [by apply (wp_tick n1 xs cells)|].
  intros r n' H. cbv beta zeta in H |- *.
  change (now n1) with (now n) in H. change (n_self n1) with (n_self n) in H.
  rewrite bool_decide_true in H by lia. destruct H as (-> & Hs & _).
  rewrite (proj2 (Z.ltb_lt _ _) (far_ahead_negative _ Hd)).
  apply wp_bind. unfold wp at 1, complain. by apply wp_ret.
Qed.

(** A node whose last round was in the future. *)
Definition early : node console :=
  let g := sample_gossip STATE_CONNECTED in
  Node (set_last_gossip_ts (2 ^ 31 + 1000000) g) (World sample_oracle 10 0 0 [] [] []) (Console [] []).

Lemma clock_step_ends_demo_witness :
  wp (DemoSeedNode.seed_round quiet_turn 1000) early (fun r n' => r = inr (-1) /\ n_self n' = n_self early).
Proof.
  apply (clock_step_ends_demo 1000 early [] peer_cells).
  - apply (node_ok_ts (demo_sample STATE_CONNECTED [])), demo_sample_ok.
  - reflexivity.
  - split; vm_compute; [discriminate|reflexivity].
Defined.

(** * The argument of the demo node *)

(** The argument of the demo node: up to 212 characters every line fits
    the buffers of [main]; from 223 on the line with a present time stamp
    is written beyond [message_with_ts]; from 241 on [message] overflows
    before the node is even created. *)
Theorem argument_length id mem mem_ts i ts w :
  zlen mem = 256 -> zlen mem_ts = 256 -> no_nul id ->
  (zlen id <= 212 -> exists m,
     sprintf mem 0 (DemoNode.message_text id) = Ok (zlen id + 15, m) /\
     vars_ok (DemoNode.Vars i ts m mem_ts)) /\
  (223 <= zlen id <= 240 -> forall now n, 10 ^ 9 <= now < 10 ^ 10 -> ts + 5 <= now ->
     exists m, sprintf mem 0 (DemoNode.message_text id) = Ok (zlen id + 15, m) /\
     DemoNode.send_periodically now (DemoNode.Vars i ts m mem_ts) n = Ub) /\
  (240 < zlen id -> forall garbage zero zero' why start turns,
     DemoNode.node_main (Some id) garbage mem mem_ts zero zero' why start turns w = Ub).
Proof.
  intros Hm Hts Hid. pose proof (message_text_length id) as Hl.
  pose proof (message_text_no_nul id Hid) as Hnn. set (text := DemoNode.message_text id) in *.
  assert (zlen id <= 240 -> sprintf mem 0 text =
    Ok (zlen id + 15, text ++ 0 :: zdrop (zlen text + 1) mem)) as Hfit.
  { intros H. rewrite (sprintf_at mem 0 [] mem) by (done || lia). rewrite Hl.
    cbn [app]. by rewrite <- app_assoc. }
  split_and!.
  - intros H. eexists. split; [apply Hfit; lia|]. exists text, (zdrop (zlen text + 1) mem).
    split_and!; try done. lia.
  - intros H now n Hnow Hdue. eexists. split; [apply Hfit; lia|].
    unfold DemoNode.send_periodically. cbn [DemoNode.previous_data_msg_ts DemoNode.message].
    change DemoNode.send_data_interval with 5. rewrite (proj2 (Z.leb_le _ _) Hdue).
    unfold mbind, M_bind, liftO. rewrite c_string_ok by done.
    cbn [DemoNode.message_with_ts]. rewrite sprintf_overflow; [done|].
    unfold DemoNode.text_with_ts. rewrite !zlen_app. change (zlen (bytes_of " (ts = ")) with 7.
    change (zlen (bytes_of ")")) with 1.
    assert (10 <= zlen (fmt_d now)) by (apply fmt_d_digits; lia). lia.
  - intros H garbage zero zero' why start turns. unfold DemoNode.node_main.
    change (default (bytes_of "0") (Some id)) with id. fold text. unfold mbind, M_bind, liftO. by rewrite sprintf_overflow by lia.
Qed.

Definition long_id : list Z := replicate 250 65.

Lemma argument_length_witness :
  (exists m, sprintf (zeros 256) 0 (DemoNode.message_text (bytes_of "0")) = Ok (16, m) /\
     vars_ok (DemoNode.Vars 1000 0 m (zeros 256))) /\
  DemoNode.node_main (Some long_id) (sample_gossip STATE_DESTROYED) (zeros 256) (zeros 256) [] [] [] 0 []
    (sample_world, Console [] []) = Ub.
Proof.
  split.
  - destruct (argument_length (bytes_of "0") (zeros 256) (zeros 256) 1000 0 (sample_world, Console [] []))
      as [H _]; [reflexivity|reflexivity|by repeat constructor|].
    destruct H as [m H]; [vm_compute; discriminate|]. exists m. exact H.
  - destruct (argument_length long_id (zeros 256) (zeros 256) 1000 0 (sample_world, Console [] []))
      as (_ & _ & H); [reflexivity|reflexivity|apply Forall_replicate; discriminate|].
    apply H. reflexivity.
Defined.

(** * From one demo to the other *)

(** The line that a demo prints for a line sent by another. *)
Definition printed (text : list Z) (ts : Z) : list Z :=
  bytes_of "Data arrived: " ++ DemoNode.text_with_ts text ts ++ newline.

(** C22: When five seconds have passed, a connected demo node queues one data
    message; whichever sequence number it is sent under, a connected demo
    that receives its bytes for the first time prints exactly the line of the
    sender with the sender's time stamp. *)
Theorem line_is_printed ts v text rest (a : node console) xs cells :
  node_ok a xs cells -> connected a ->
  DemoNode.previous_data_msg_ts v + DemoNode.send_data_interval <= ts -> - 2 ^ 63 <= ts < 2 ^ 63 ->
  DemoNode.message v = text ++ 0 :: rest -> no_nul text -> zlen text <= 227 ->
  zlen (DemoNode.message_with_ts v) = 256 ->
  wp (DemoNode.send_periodically ts v) a (fun v' a' =>
    DemoNode.previous_data_msg_ts v' = ts /\
    exists t rs (a1 : node console) xs', took_over (counted a) a1 (n_context a) /\
      message_enqueued (MsgData t) rs a1 xs a' xs' /\ node_ok a' xs' cells /\
      spread_to cells None 0 GOSSIP_RANDOM rs /\
      forall seq (b : node console) ys cellsb from others,
        is_u32 seq -> node_ok b ys cellsb -> connected b -> zlen from <= sizeof_sockaddr_storage ->
        inbox (n_world b) = (msg_wire (msg_with_seq seq (MsgData t)), from) :: others ->
        newer_msg (g_data_version (n_self b)) t ->
        wp (pittacus_gossip_process_receive data_receiver) b (fun r b' =>
          r = PITTACUS_ERR_NONE /\ con_out (n_context b') = con_out (n_context b) ++ [printed text ts])).
Proof.
  intros Ha Hc Hdue Hts Em Ht Hl H256. unfold DemoNode.send_periodically.
  rewrite (proj2 (Z.leb_le _ _) Hdue). apply wp_bind.
  eapply wp_lift; [by rewrite Em, c_string_ok|]. apply wp_bind.
  pose proof (text_with_ts_length text ts Hts) as Hlen. pose proof (zlen_nonneg text) as Htn.
  eapply wp_lift; [apply (sprintf_at _ 0 [] (DemoNode.message_with_ts v)); [done|done|lia]|].
  cbn [fst snd app]. set (s := DemoNode.text_with_ts text ts) in *.
  set (data := (s ++ [0]) ++ zdrop (zlen s + 1) (DemoNode.message_with_ts v)).
  assert (zlen (s ++ [0]) = zlen s + 1) as Hs1 by by rewrite zlen_app.
  assert (zlen data = 256) as Hd.
  { unfold data. rewrite zlen_app, Hs1, zlen_zdrop by lia. lia. }
  apply wp_bind. unfold pittacus_gossip_send_data. rewrite u16_id by (unfold is_u16; lia).
  apply wp_connected; [done|].
  eapply wp_mono; [apply (wp_enqueue_data data (zlen s + 1) a xs cells Ha);
    [unfold MAX_PAYLOAD; config_lia|lia]|].
  intros r a' (_ & _ & id & _ & _ & rs & a1 & xs' & Hrs & Hto & Hm & Hok). apply wp_ret.
  split; [done|]. eexists _, rs, a1, xs'. split; [exact Hto|]. split; [exact Hm|]. split; [exact Hok|]. split; [done|].
  set (t := own_data a id data (zlen s + 1)).
  assert (payload t = s ++ [0]) as Hp by (unfold payload, t, own_data, data; cbn; by rewrite <- Hs1, ztake_app).
  destruct Hm as (? & ? & ? & _ & _ & _ & _ & _ & _ & _ & Hwf & Hneed).
  intros seq b ys cellsb from others Hseq Hb Hcb Hfrom Hin Hnew.
  set (t' := codec_with_seq seq t).
  assert (codec_wf t') as Ht' by by apply codec_seq_wf.
  assert (zlen (wire t') = zlen (wire t)) as Hl' by by apply (zlen_msg_seq_wire seq (MsgData t) Hwf).
  pose proof (msg_need_wire (MsgData t) Hwf) as Hw. cbn [msg_wire] in Hw.
  eapply wp_mono; [apply (wp_receive_data data_receiver print_payload t' b ys cellsb from others); try done|].
  - change (payload t') with (payload t). apply (data_receiver_receives 0 0).
    unfold terminated. rewrite Hp. apply elem_of_app. right. by left.
  - rewrite Hl'. etrans; [apply Hw|exact Hneed].
  - intros r' b' (-> & _ & _ & Hctx & _). split; [done|]. rewrite Hctx. cbn [con_out print_payload].
    change (payload t') with (payload t). unfold arrived_line. rewrite Hp.
    by rewrite until_nul_app by by apply text_with_ts_no_nul.
Qed.

Definition due_vars : DemoNode.vars :=
  DemoNode.Vars GOSSIP_TICK_INTERVAL 0 (DemoNode.message_text (bytes_of "7") ++ 0 :: zeros 239) (zeros 256).

Lemma line_is_printed_witness :
  wp (DemoNode.send_periodically 1700000000 due_vars) (demo_sample STATE_CONNECTED []) (fun v' a' =>
    DemoNode.previous_data_msg_ts v' = 1700000000 /\
    exists t rs (a1 : node console) xs',
      took_over (counted (demo_sample STATE_CONNECTED [])) a1 (Console [] []) /\
      message_enqueued (MsgData t) rs a1 [] a' xs' /\ node_ok a' xs' peer_cells /\
      spread_to peer_cells None 0 GOSSIP_RANDOM rs /\
      forall seq (b : node console) ys cellsb from others,
        is_u32 seq -> node_ok b ys cellsb -> connected b -> zlen from <= sizeof_sockaddr_storage ->
        inbox (n_world b) = (msg_wire (msg_with_seq seq (MsgData t)), from) :: others ->
        newer_msg (g_data_version (n_self b)) t ->
        wp (pittacus_gossip_process_receive data_receiver) b (fun r b' =>
          r = PITTACUS_ERR_NONE /\
          con_out (n_context b') = con_out (n_context b) ++
            [printed (DemoNode.message_text (bytes_of "7")) 1700000000])).
Proof.
  apply (line_is_printed 1700000000 due_vars (DemoNode.message_text (bytes_of "7")) (zeros 239)
    (demo_sample STATE_CONNECTED []) [] peer_cells (demo_sample_ok _ _) eq_refl);
    try (vm_compute; discriminate); try reflexivity.
  - split; vm_compute; [discriminate|reflexivity].
  - apply message_text_no_nul. by repeat constructor.
Defined.

(** The text, as a string. *)
Lemma printed_example :
  printed (DemoNode.message_text (bytes_of "7")) 1700000000 =
    bytes_of "Data arrived: [7]: Hello World (ts = 1700000000)" ++ newline.
Proof. reflexivity. Qed.

(** * What ends a demo early *)

(** Data that is not a string: the whole datagram after the header of the
    message is a payload without a NUL. *)
Definition no_string : message_data :=
  MessageData (message_header_init MESSAGE_DATA_TYPE 1) (VectorRecord 9 77) 486 (replicate 486 65).

(** A demo prints data as a string although nothing in the protocol makes
    it one: on a datagram filled with data that holds no NUL the receiver
    reads beyond the input buffer. *)
Theorem data_without_nul_is_overread :
  zlen (wire no_string) = MESSAGE_MAX_SIZE /\
  pittacus_gossip_process_receive data_receiver
    (demo_sample STATE_CONNECTED [(wire no_string, peer_addr)]) = Ub.
Proof. split; vm_compute; reflexivity. Qed.

(** A demo node that is still joining ends when anything but a welcome
    reaches it first: the library refuses the message, which the program
    takes for a failed reception. *)
Theorem stray_message_ends_joining_demo t v m from rest (n : node console) xs cells :
  node_ok n xs cells -> g_state (n_self n) = STATE_JOINING ->
  0 < tn_poll t -> tn_pollerr t = false -> tn_pollin t = true ->
  msg_wf m -> zlen (msg_wire m) <= MESSAGE_MAX_SIZE -> zlen from <= sizeof_sockaddr_storage ->
  (forall w, m <> MsgWelcome w) -> inbox (n_world n) = (msg_wire m, from) :: rest ->
  wp (DemoNode.node_round t v) n (fun r n' => r = inr (-1) /\ state_of n' = STATE_DESTROYED).
Proof.
  intros Hn Hst Hp He Hi Hwf Hl Hf Hm Hin. unfold DemoNode.node_round, poll_socket. apply wp_bind.
  unfold wp at 1, arrive. set (n1 := Node _ _ _).
  rewrite (proj2 (Z.ltb_lt _ _) Hp), He, Hi. apply wp_bind.
  assert (node_ok n1 xs cells) as Hn1 by (destruct Hn as [[] ? ? ? ? ? ?]; split; try done).
  assert (inbox (n_world n1) = (msg_wire m, from) :: rest ++ tn_arrived t) as Hin1 by (cbn; by rewrite Hin).
  pose proof (msg_need_wire m Hwf) as [Hmin _].
  set (n2 := after_recv n1 (msg_wire m) (rest ++ tn_arrived t)).
  assert (node_ok n2 xs cells) as Hn2 by by apply node_ok_recv.
  assert (~ connected n2) as Hnc by (unfold connected; cbn; by rewrite Hst).
  apply (wp_mono _ _ (fun r n' => r = PITTACUS_ERR_BAD_STATE /\ n' = n2)).
  2:{ intros r n' [-> ->]. cbn beta. change (PITTACUS_ERR_BAD_STATE <? 0) with true. cbv iota.
      unfold fail. apply wp_bind. unfold wp at 1, complain. apply wp_bind.
      eapply wp_mono; [apply (wp_destroy _ xs cells), (node_ok_context n2 xs cells), Hn2|].
      intros r n' (_ & _ & _ & ? & _). by apply wp_ret. }
  unfold wp. rewrite (process_receive_run data_receiver n1 (msg_wire m) from (rest ++ tn_arrived t));
    [|cbn; by rewrite Hst|done|config_lia|apply Hn1]. fold n2.
  change (wp (gossip_handle_new_message data_receiver (received n1 (msg_wire m) from)) n2
            (fun r n' => r = PITTACUS_ERR_BAD_STATE /\ n' = n2)).
  destruct m as [h|h|h|h|h|h]; cbn [msg_wf msg_wire] in *;
    pose proof (received_carries n1 h from Hwf Hl Hf) as Hc; unfold wp.
  - rewrite (dispatch_hello _ _ h) by done. by apply wp_not_connected.
  - by destruct (Hm h).
  - rewrite (dispatch_member_list _ _ h) by done. by apply wp_not_connected.
  - rewrite (dispatch_data _ _ h) by done. by apply wp_not_connected.
  - rewrite (dispatch_ack _ _ h) by done. by apply wp_not_connected.
  - rewrite (dispatch_status _ _ h) by done. by apply wp_not_connected.
Qed.

Definition readable_turn : turn := Turn 1 false true [] [] 1700000000.

Lemma stray_message_ends_joining_demo_witness :
  wp (DemoNode.node_round readable_turn sample_vars) (demo_sample STATE_JOINING [(wire sample_status, peer_addr)])
    (fun r n' => r = inr (-1) /\ state_of n' = STATE_DESTROYED).
Proof.
  apply (stray_message_ends_joining_demo readable_turn sample_vars (MsgStatus sample_status) peer_addr []
    (demo_sample STATE_JOINING [(wire sample_status, peer_addr)]) [] peer_cells (demo_sample_ok _ _) eq_refl eq_refl eq_refl eq_refl sample_status_wf).
  - vm_compute. discriminate.
  - vm_compute. discriminate.
  - intros w. discriminate.
  - exact eq_refl.
Defined.
