(* ===== verification/TraceProps.v ===== *)
(** Executions of one node: what is given to its data receiver over any
    sequence of calls, datagrams and changes of the environment. *)
From S2P Require Import Prelude.
From S2P Require Import Config.
From S2P Require Import Utils.
From S2P Require Import World.
From S2P Require Import Member.
From S2P Require Import VectorClock.
From S2P Require Import Messages.
From S2P Require Import Queue.
From S2P Require Import DataLog.
From S2P Require Import Gossip.
From S2P Require Import Node.
From S2P Require Import VectorClockFacts.
From S2P Require Import CompareFacts.
From S2P Require Import WireFacts.
From S2P Require Import MessageFacts.
From S2P Require Import NodeFacts.
From S2P Require Import HandlerFacts.
From S2P Require Import PublicFacts.
From S2P Require Import FrameFacts.
From S2P Require Import StateFacts.
From S2P Require Import DeliveryFacts.
From S2P Require Import Samples.

(** * Originators and numbers *)

Definition originator (t : message_data) : Z := vr_member_id (data_data_version t).
Definition number (t : message_data) : Z := vr_sequence_number (data_data_version t).

(** The numbers of the messages of one originator, in order. *)
Definition numbers (id : Z) (ts : list message_data) : list Z :=
  number <$> filter (fun t => originator t = id) ts.

(** Strictly increasing from above [lo]. *)
Fixpoint increasing (lo : Z) (l : list Z) : Prop :=
  match l with [] => True | s :: l => lo < s /\ increasing s l end.

Lemma increasing_above lo l s : increasing lo l -> s ∈ l -> lo < s.
Proof.
  revert lo. induction l as [|x l IH]; intros lo Hi Hs; [by apply not_elem_of_nil in Hs|].
  destruct Hi as [Hlt Hi]. apply elem_of_cons in Hs as [->|Hs]; [done|].
  specialize (IH x Hi Hs). lia.
Qed.

Lemma increasing_NoDup lo l : increasing lo l -> NoDup l.
Proof.
  revert lo. induction l as [|x l IH]; intros lo; [constructor|]. intros [_ Hi]. constructor.
  - intros Hx. pose proof (increasing_above _ _ _ Hi Hx). lia.
  - by eapply IH.
Qed.

Lemma numbers_cons id t ts :
  numbers id (t :: ts) = if bool_decide (originator t = id) then number t :: numbers id ts else numbers id ts.
Proof.
  unfold numbers. rewrite filter_cons. case_decide; [by rewrite bool_decide_true|by rewrite bool_decide_false].
Qed.

(** A number occurs once in an increasing list. *)
Lemma increasing_once ts : forall i j t t' lo,
  (i < j)%nat -> ts !! i = Some t -> ts !! j = Some t' ->
  originator t = originator t' -> number t = number t' ->
  increasing lo (numbers (originator t) ts) -> False.
Proof.
  induction ts as [|x ts IH]; intros i j t t' lo Hij Hi Hj Eo En Hinc; [done|].
  rewrite numbers_cons in Hinc. destruct j as [|j]; [lia|]. destruct i as [|i]; cbn in Hi, Hj.
  - injection Hi as ->. rewrite bool_decide_true in Hinc by done. destruct Hinc as [_ Hinc].
    assert (number t < number t'); [|lia]. eapply increasing_above; [exact Hinc|].
    unfold numbers. apply list_elem_of_fmap_2, list_elem_of_filter.
    split; [done|by eapply list_elem_of_lookup_2].
  - case_bool_decide; [destruct Hinc as [_ Hinc]|]; by eapply (IH i j t t'); [lia|..].
Qed.

Section Trace.
Context {Ctx : Type}.
Implicit Types n : node Ctx.
Context (data_receiver : option (list Z -> Z -> M (node Ctx) unit)).
Context (deliver : list Z -> Ctx -> Ctx).
Hypothesis Hreceiver : receiver_returns data_receiver deliver.

(** A readable address. *)
Definition address_ok (m : cluster_member) : Prop :=
  16 <= zlen (cm_address m) /\ Forall is_byte (cm_address m).

#[export] Instance address_ok_dec m : Decision (address_ok m).
Proof. unfold address_ok. apply _. Defined.

(** The node's own number is set, nothing else. *)
Definition own_number_set n (me : Z) n' : Prop :=
  clock_wf (g_data_version (n_self n')) /\ exists s,
  clock_map (g_data_version (n_self n')) = <[me := s]> (evicted (g_data_version (n_self n)) me).

Lemma enqueue_data_seen data size n r n' me :
  gossip_enqueue_data data size n = Ok (r, n') -> clock_wf (g_data_version (n_self n)) ->
  address_ok (g_self_address (n_self n)) ->
  vector_clock_create_member_id (g_self_address (n_self n)) = Ok me ->
  g_self_address (n_self n') = g_self_address (n_self n) /\ n_context n' = n_context n /\
  own_number_set n me n'.
Proof.
  intros E Hwf [Hl Hb] Hme. unfold gossip_enqueue_data in E.
  apply bind_Ok in E as (g & n1 & [= <- <-] & E). apply bind_Ok in E as (u & n1 & [= <- <-] & E).
  apply bind_Ok in E as ([idx c] & n1 & Ec & E). unfold liftO, vector_clock_set in Ec. rewrite Hme in Ec.
  destruct (vector_clock_create_member_id_ok _ Hl Hb) as (id & Eid & Hid). rewrite Hme in Eid.
  injection Eid as <-. cbn [mbind out_bind] in Ec.
  destruct (vector_clock_set_by_id_spec _ me (u32 (g_data_counter (n_self n) + 1)) Hwf Hid
              (u32_range _)) as (k & c' & Es & Hc' & Hmap & _).
  rewrite Es in Ec. injection Ec as <- <- <-.
  apply bind_Ok in E as (u & n1 & [= <- <-] & E). apply bind_Ok in E as (rec & n1 & Er & E).
  apply (keeps_liftO seen) in Er. apply bind_Ok in E as (log & n2 & El & E).
  apply (keeps_liftO seen) in El. apply bind_Ok in E as (u & n3 & [= <- <-] & E).
  apply (keeps_message seen) in E. change (seen (Node (set_data_log log (n_self n2)) (n_world n2) (n_context n2)))
    with (seen n2) in E. rewrite El, Er in E. injection E as Ev Ea Ec.
  split; [done|]. split; [done|]. unfold own_number_set. rewrite Ev. split; [done|]. by eexists.
Qed.

(** * Executions *)

(** [api_run n ts n']: an execution from [n] to [n'] in which the messages
    [ts] were given to the receiver. Calls are made on a node that is not
    destroyed and return; in between the environment may become any other,
    and datagrams of bytes may arrive or vanish. *)
Inductive api_run : node Ctx -> list message_data -> node Ctx -> Prop :=
| RunEnd n : api_run n [] n
| RunReceive n r n1 ts n2 :
    state_of n <> STATE_DESTROYED -> bytes_ok (inbox (n_world n)) ->
    run_api data_receiver ApiReceive n = Ok (r, n1) -> api_run n1 ts n2 ->
    api_run n (option_list (arrival n) ++ ts) n2
| RunCall c n r n1 ts n2 :
    state_of n <> STATE_DESTROYED -> c <> ApiReceive ->
    run_api data_receiver c n = Ok (r, n1) -> api_run n1 ts n2 -> api_run n ts n2
| RunWorld n w ts n2 :
    api_run (Node (n_self n) w (n_context n)) ts n2 -> api_run n ts n2.

(** One step of an execution. *)
Definition effect n (me : Z) (t : option message_data) n' : Prop :=
  clock_wf (g_data_version (n_self n')) /\
  (delivered deliver n t n' \/
   t = None /\ g_self_address (n_self n') = g_self_address (n_self n) /\
   n_context n' = n_context n /\ own_number_set n me n').

Lemma call_effect c n r n' me :
  run_api data_receiver c n = Ok (r, n') -> c <> ApiReceive ->
  clock_wf (g_data_version (n_self n)) -> address_ok (g_self_address (n_self n)) ->
  vector_clock_create_member_id (g_self_address (n_self n)) = Ok me -> effect n me None n'.
Proof.
  intros E Hc Hwf Ha Hme.
  assert (seen n' = seen n -> effect n me None n') as Hseen.
  { intros Es. split; [|left; by apply delivered_none]. injection Es as -> _ _. done. }
  destruct c as [seeds| | | |data size|]; cbn [run_api] in E; [| |..].
  - apply Hseen. by apply (keeps_join seen seen_state) in E.
  - done.
  - apply Hseen. by apply (keeps_process_send seen) in E.
  - apply Hseen. by apply (keeps_tick seen) in E.
  - unfold pittacus_gossip_send_data, return_if_not_connected in E.
    apply bind_Ok in E as (g & n0 & [= <- <-] & E). case_bool_decide.
    + destruct (enqueue_data_seen _ _ _ _ _ me E Hwf Ha Hme) as (Ea & Ec & Hown).
      split; [apply Hown|right]. done.
    + apply Hseen. by injection E as _ <-.
  - apply Hseen. by apply (keeps_destroy seen seen_state) in E.
Qed.

Lemma receive_effect n r n' me :
  run_api data_receiver ApiReceive n = Ok (r, n') -> clock_wf (g_data_version (n_self n)) ->
  bytes_ok (inbox (n_world n)) -> effect n me (arrival n) n'.
Proof.
  intros E Hwf Hb. pose proof (receive_delivered data_receiver deliver Hreceiver n r n' E Hwf Hb) as Hd.
  split; [|by left]. destruct (arrival n); [by destruct Hd as (_ & _ & _ & ? & _)|].
  by destruct Hd as (_ & -> & _).
Qed.

(** * Clocks that forget nothing *)

(** The originators a clock knows, the node itself and those of messages. *)
Definition originators (me : Z) n (ts : list message_data) : gset Z :=
  {[me]} ∪ dom (clock_map (g_data_version (n_self n))) ∪ list_to_set (originator <$> ts).

(** What the context becomes. *)
Definition receive_all (ts : list message_data) (c : Ctx) : Ctx :=
  foldl (fun c t => deliver (payload t) c) c ts.

(** The clock after a step, when nothing is forgotten. *)
Lemma effect_clock n me t n' ids :
  effect n me t n' -> clock_wf (g_data_version (n_self n)) ->
  dom (clock_map (g_data_version (n_self n))) ⊆ ids -> me ∈ ids ->
  (forall m, t = Some m -> originator m ∈ ids) -> Z.of_nat (size ids) <= MAX_VECTOR_SIZE ->
  clock_wf (g_data_version (n_self n')) /\ dom (clock_map (g_data_version (n_self n'))) ⊆ ids /\
  g_self_address (n_self n') = g_self_address (n_self n) /\
  n_context n' = receive_all (option_list t) (n_context n) /\
  forall id, id <> me ->
    match t with
    | Some m =>
        clock_map (g_data_version (n_self n')) !! id =
          (if bool_decide (originator m = id) then Some (number m)
           else clock_map (g_data_version (n_self n)) !! id) /\
        (originator m = id -> default (-1) (clock_map (g_data_version (n_self n)) !! id) < number m)
    | None => clock_map (g_data_version (n_self n')) !! id = clock_map (g_data_version (n_self n)) !! id
    end.
Proof.
  intros [Hwf' Heff] Hwf Hdom Hme Ht Hsz. split; [done|].
  destruct Heff as [[Ha Hd]|(-> & Ha & Hc & _ & s & Hmap)].
  - destruct t as [m|].
    + destruct Hd as (Hnew & _ & _ & Hmap & Hctx). fold (originator m) (number m) in Hmap.
      specialize (Ht m eq_refl). rewrite (not_evicted _ _ ids) in Hmap by done.
      rewrite Hmap. split; [set_solver|]. split; [done|]. split; [done|]. intros id _. split.
      * case_bool_decide as E; [subst; apply lookup_insert_eq|by apply lookup_insert_ne].
      * intros <-. exact Hnew.
    + destruct Hd as [-> ->]. done.
  - rewrite (not_evicted _ _ ids) in Hmap by done. rewrite Hmap.
    split; [set_solver|]. split; [done|]. split; [done|]. intros id Hid. by apply lookup_insert_ne.
Qed.

Lemma api_run_increasing n ts n' me ids :
  api_run n ts n' -> clock_wf (g_data_version (n_self n)) ->
  address_ok (g_self_address (n_self n)) ->
  vector_clock_create_member_id (g_self_address (n_self n)) = Ok me ->
  dom (clock_map (g_data_version (n_self n))) ⊆ ids -> me ∈ ids ->
  Forall (fun t => originator t ∈ ids) ts -> Z.of_nat (size ids) <= MAX_VECTOR_SIZE ->
  n_context n' = receive_all ts (n_context n) /\
  forall id, id <> me ->
    increasing (default (-1) (clock_map (g_data_version (n_self n)) !! id)) (numbers id ts).
Proof.
  intros Hrun. induction Hrun as [n|n r n1 ts n2 Hs Hb E Hrun IH|c n r n1 ts n2 Hs Hc E Hrun IH|n w ts n2 Hrun IH];
    intros Hwf Ha Hid Hdom Hme Hts Hsz; [done|..].
  - pose proof (receive_effect n r n1 me E Hwf Hb) as Heff. apply Forall_app in Hts as [Ht Hts].
    destruct (effect_clock n me _ n1 ids Heff Hwf Hdom Hme) as (Hwf1 & Hdom1 & Ea & Ec & Hmap); [|done|].
    { intros m Em. rewrite Em in Ht. by apply Forall_cons in Ht as [? _]. }
    rewrite <- Ea in Ha, Hid. destruct (IH Hwf1 Ha Hid Hdom1 Hme Hts Hsz) as [Hctx Hinc].
    split; [by rewrite Hctx, Ec; unfold receive_all; rewrite foldl_app|].
    intros id Hne. specialize (Hmap id Hne). specialize (Hinc id Hne).
    destruct (arrival n) as [m|]; [|by rewrite Hmap in Hinc].
    change (option_list (Some m) ++ ts) with (m :: ts).
    destruct Hmap as [Hm Hlt]. rewrite numbers_cons. rewrite Hm in Hinc. case_bool_decide as Eo.
    + by split; [apply Hlt|].
    + done.
  - pose proof (call_effect c n r n1 me E Hc Hwf Ha Hid) as Heff.
    destruct (effect_clock n me None n1 ids Heff Hwf Hdom Hme) as (Hwf1 & Hdom1 & Ea & Ec & Hmap);
      [done|done|].
    rewrite <- Ea in Ha, Hid. destruct (IH Hwf1 Ha Hid Hdom1 Hme Hts Hsz) as [Hctx Hinc].
    split; [by rewrite Hctx, Ec|]. intros id Hne. rewrite <- (Hmap id Hne). by apply Hinc.
  - by apply IH.
Qed.
End Trace.

(** * Property *)

(** C9: At most once, over any execution. Whatever datagrams arrive,
    malformed, duplicated, reordered or forged, and whatever calls are made:
    the receiver's context is the result of the deliveries [ts], the numbers
    of the messages delivered from each originator but the node itself
    strictly increase, above what the clock knew at the start, and no message
    of such an originator is delivered twice, as long as at most
    [MAX_VECTOR_SIZE] originators are met, so that the clock forgets none.
    The identity of the node itself is left out: sending data sets the node's
    own number in the clock, back if a forged message had raised it. *)
Theorem delivered_in_order_once {Ctx} recv deliver (n : node Ctx) ts n' me :
  receiver_returns recv deliver -> api_run recv n ts n' ->
  clock_wf (g_data_version (n_self n)) -> address_ok (g_self_address (n_self n)) ->
  vector_clock_create_member_id (g_self_address (n_self n)) = Ok me ->
  Z.of_nat (size (originators me n ts)) <= MAX_VECTOR_SIZE ->
  n_context n' = receive_all deliver ts (n_context n) /\
  (forall id, id <> me ->
     increasing (default (-1) (clock_map (g_data_version (n_self n)) !! id)) (numbers id ts)) /\
  (forall i j t t', ts !! i = Some t -> ts !! j = Some t' -> originator t <> me ->
     originator t = originator t' -> number t = number t' -> i = j).
Proof.
  intros Hr Hrun Hwf Ha Hid Hsz.
  destruct (api_run_increasing recv deliver Hr n ts n' me (originators me n ts) Hrun Hwf Ha Hid)
    as [Hctx Hinc]; [set_solver|set_solver| |done|].
  { apply Forall_forall. intros t Ht. unfold originators. apply elem_of_union_r, elem_of_list_to_set.
    by apply list_elem_of_fmap_2. }
  split; [done|]. split; [done|]. clear Hrun Hsz Hctx. intros i j t t' Hi Hj Hne Eo En.
  specialize (Hinc _ Hne). destruct (lt_eq_lt_dec i j) as [[Hij|Hij]|Hij]; [exfalso|done|exfalso].
  - by eapply (increasing_once ts i j t t').
  - rewrite Eo in Hinc. by eapply (increasing_once ts j i t' t).
Qed.

(** A node to which the same datagram comes twice. *)
Definition twice : node inbox_of :=
  Node (sample_gossip STATE_CONNECTED)
    (World sample_oracle 10 0 0 [] [(wire sample_data, peer_addr); (wire sample_data, peer_addr)] []) [].
Definition after_one : node inbox_of := final (pittacus_gossip_process_receive sample_receiver) twice.
Definition after_two : node inbox_of := final (pittacus_gossip_process_receive sample_receiver) after_one.

Definition twice_me : Z := Eval vm_compute in
  match vector_clock_create_member_id self_member with Ok id => id | _ => 0 end.

Lemma twice_run :
  api_run sample_receiver twice (option_list (arrival twice) ++ option_list (arrival after_one) ++ [])
    after_two.
Proof.
  destruct (final_run (pittacus_gossip_process_receive sample_receiver) twice) as [r E];
    [vm_compute; exact I|].
  destruct (final_run (pittacus_gossip_process_receive sample_receiver) after_one) as [r' E'];
    [vm_compute; exact I|].
  refine (RunReceive sample_receiver twice r after_one _ after_two _ _ E _).
  - vm_compute. discriminate.
  - apply (bool_decide_unpack _). vm_compute. exact I.
  - refine (RunReceive sample_receiver after_one r' after_two [] after_two _ _ E' (RunEnd _ _)).
    + vm_compute. discriminate.
    + apply (bool_decide_unpack _). vm_compute. exact I.
Qed.

Lemma delivered_in_order_once_witness : exists ts,
  number <$> ts = [1] /\ n_context after_two = receive_all deliver ts [] /\
  (forall id, id <> twice_me ->
     increasing (default (-1) (clock_map vector_clock_init !! id)) (numbers id ts)) /\
  (forall i j t t', ts !! i = Some t -> ts !! j = Some t' -> originator t <> twice_me ->
     originator t = originator t' -> number t = number t' -> i = j).
Proof.
  exists (option_list (arrival twice) ++ option_list (arrival after_one) ++ []).
  split; [vm_compute; reflexivity|].
  exact (delivered_in_order_once sample_receiver deliver twice _ after_two twice_me
    ltac:(intros data size n u n' [= <- <-]; split_and!; reflexivity) twice_run sample_clock_wf
    ltac:(apply (bool_decide_unpack _); vm_compute; exact I) ltac:(vm_compute; reflexivity)
    ltac:(vm_compute; discriminate)).
Defined.
