(* ===== verification/HandlerProps.v ===== *)
(** Properties of the message handlers: what a node in good order does with
    each of the six messages. *)
From S2P Require Import Prelude.
From S2P Require Import Config.
From S2P Require Import Utils.
From S2P Require Import World.
From S2P Require Import Member.
From S2P Require Import VectorClock.
From S2P Require Import Messages.
From S2P Require Import Queue.
From S2P Require Import DataLog.
From S2P Require Import Gossip.
From S2P Require Import Node.
From S2P Require Import MemberFacts.
From S2P Require Import MemberSetFacts.
From S2P Require Import VectorClockFacts.
From S2P Require Import WireFacts.
From S2P Require Import MessageFacts.
From S2P Require Import DataLogFacts.
From S2P Require Import QueueFacts.
From S2P Require Import OutboxFacts.
From S2P Require Import EnqueueFacts.
From S2P Require Import BufferFacts.
From S2P Require Import CarryFacts.
From S2P Require Import NodeFacts.
From S2P Require Import HandlerFacts.
From S2P Require Import Samples.

(** After a message has been taken over it is not new any more. *)
Lemma noted_not_newer {Ctx} (n n' : node Ctx) t :
  noted n n' t -> ~ newer_msg (g_data_version (n_self n')) t.
Proof.
  intros [Hm _]. unfold newer_msg. rewrite Hm, lookup_insert_eq. cbn. lia.
Qed.

(** A data message reaches the receiver at most once. When the same
    message arrives twice, possibly from different senders, the receiver is
    called once if the message was new before and never otherwise. *)
Theorem data_delivered_at_most_once {Ctx} recv deliver (t : message_data) e1 e2
    (n : node Ctx) xs cells :
  node_ok n xs cells -> connected n -> receiver_ok recv deliver ->
  carries_in e1 t -> carries_in e2 t ->
  wp (_ ← gossip_handle_data recv e1; gossip_handle_data recv e2) n (fun _ n' =>
    n_context n' = if bool_decide (newer_msg (g_data_version (n_self n)) t)
                   then deliver (payload t) (n_context n) else n_context n).
Proof.
  intros Hn Hc Hr H1 H2. pose proof (receiver_ok_receives recv deliver (payload t) Hr) as Hr'. apply wp_bind.
  eapply wp_mono; [by apply (wp_handle_data recv e1 t deliver n xs cells)|].
  intros r n1 (_ & Hc1 & _ & m1 & xs1 & Hm & Hcase).
  destruct (message_enqueued_ok _ _ _ _ _ _ _ Hn Hm) as [_ Hf]. case_bool_decide as Hnew.
  - destruct Hcase as (Hnoted & Hctx & t' & n2 & rs & xs2 & _ & _ & _ & _ & Hn1).
    eapply wp_mono; [by apply (wp_handle_data recv e2 t deliver n1 xs2 cells)|].
    intros r2 n3 (_ & _ & _ & m2 & xs3 & Hm2 & Hcase2).
    destruct (message_enqueued_ok _ _ _ _ _ _ _ Hn1 Hm2) as [_ Hf2].
    rewrite bool_decide_false in Hcase2 by by eapply noted_not_newer.
    destruct Hcase2 as [_ ->]. by rewrite (ef_context _ _ Hf2).
  - destruct Hcase as [Hn1 ->].
    eapply wp_mono; [by apply (wp_handle_data recv e2 t deliver m1 xs1 cells)|].
    intros r2 n3 (_ & _ & _ & m2 & xs3 & Hm2 & Hcase2).
    destruct (message_enqueued_ok _ _ _ _ _ _ _ Hn1 Hm2) as [_ Hf2].
    rewrite (ef_version _ _ Hf), bool_decide_false in Hcase2 by done.
    destruct Hcase2 as [_ ->]. by rewrite (ef_context _ _ Hf2), (ef_context _ _ Hf).
Qed.

Lemma data_delivered_at_most_once_witness :
  wp (_ ← gossip_handle_data sample_receiver (arrived sample_data);
      gossip_handle_data sample_receiver (arrived sample_data)) (sample_node STATE_CONNECTED)
    (fun _ n' => n_context n' =
       if bool_decide (newer_msg vector_clock_init sample_data)
       then deliver (payload sample_data) [] else []).
Proof.
  exact (data_delivered_at_most_once sample_receiver deliver sample_data (arrived sample_data)
    (arrived sample_data) (sample_node STATE_CONNECTED) [] peer_cells (sample_ok _) eq_refl
    sample_receiver_ok (arrived_carries _ sample_data_wf ltac:(done))
    (arrived_carries _ sample_data_wf ltac:(done))).
Defined.

(** C18: [gossip_handle_data]: every data message is acknowledged to its
    sender. A new one is noted in the clock and in the data log, its payload
    is given to the receiver, and it is queued for at most
    [MESSAGE_RUMOR_FACTOR] distinct random members; an old one changes
    nothing but the queue. No datagram is sent yet. *)
Theorem handle_data_correct {Ctx} recv deliver e (t : message_data) (n : node Ctx) xs cells :
  node_ok n xs cells -> connected n -> carries_in e t -> receiver_ok recv deliver ->
  wp (gossip_handle_data recv e) n
    (fun r n' => r = PITTACUS_ERR_NONE /\ connected n' /\
       sent (n_world n') = sent (n_world n) /\
       exists n1 xs1, message_enqueued (ack_of (mh_sequence_num (data_header t)))
         [(ei_sender e, ei_sender_len e)] n xs n1 xs1 /\
       if bool_decide (newer_msg (g_data_version (n_self n)) t)
       then noted n n' t /\ n_context n' = deliver (payload t) (n_context n) /\
         exists t' n2 rs xs2, codec_eqv t' t /\ spread_to cells None 0 GOSSIP_RANDOM rs /\
           took_over n1 n2 (n_context n') /\
           message_enqueued (MsgData t') rs n2 xs1 n' xs2 /\ node_ok n' xs2 cells
       else node_ok n' xs1 cells /\ n' = n1).
Proof. intros Hn Hc He Hr. apply wp_handle_data; [done..|by apply receiver_ok_receives]. Qed.

Lemma handle_data_correct_witness :
  wp (gossip_handle_data sample_receiver (arrived sample_data)) (sample_node STATE_CONNECTED)
    (fun r n' => r = PITTACUS_ERR_NONE /\ connected n' /\ sent (n_world n') = [] /\
       exists n1 xs1, message_enqueued (ack_of 5) [(peer_addr, 16)]
         (sample_node STATE_CONNECTED) [] n1 xs1 /\
       if bool_decide (newer_msg vector_clock_init sample_data)
       then noted (sample_node STATE_CONNECTED) n' sample_data /\
         n_context n' = deliver (payload sample_data) [] /\
         exists t' n2 rs xs2, codec_eqv t' sample_data /\
           spread_to peer_cells None 0 GOSSIP_RANDOM rs /\
           took_over n1 n2 (n_context n') /\
           message_enqueued (MsgData t') rs n2 xs1 n' xs2 /\ node_ok n' xs2 peer_cells
       else node_ok n' xs1 peer_cells /\ n' = n1).
Proof.
  exact (handle_data_correct sample_receiver deliver (arrived sample_data) sample_data
    (sample_node STATE_CONNECTED) [] peer_cells (sample_ok _) eq_refl
    (arrived_carries _ sample_data_wf ltac:(done)) sample_receiver_ok).
Defined.

(** C19: [gossip_handle_status] (anti-entropy): the status is acknowledged
    and the clocks are compared as maps. A sender that is behind gets exactly
    the logged messages it has not seen, in log order; a sender that is ahead
    gets this node's status; concurrent clocks get both; equal clocks get
    nothing more. The node's own clock, log and members do not change. *)
Theorem handle_status_correct {Ctx} e (t : message_status) (n : node Ctx) xs cells :
  node_ok n xs cells -> connected n -> carries_in e t -> log_sendable (g_data_log (n_self n)) ->
  wp (gossip_handle_status e) n
    (fun r n' => r = PITTACUS_ERR_NONE /\ exists xs' c',
       clock_eqv c' (g_data_version (n_self n)) /\
       messages_enqueued
         ((ack_of (mh_sequence_num (status_header t)), [(ei_sender e, ei_sender_len e)])
          :: status_replies n (clock_map (status_data_version t)) c'
               (ei_sender e) (ei_sender_len e)) n xs n' xs' /\
       node_ok n' xs' cells /\ enq_frame n n').
Proof. apply wp_handle_status. Qed.

Lemma handle_status_correct_witness :
  wp (gossip_handle_status (arrived sample_status)) (sample_node STATE_CONNECTED)
    (fun r n' => r = PITTACUS_ERR_NONE /\ exists xs' c', clock_eqv c' vector_clock_init /\
       messages_enqueued
         ((ack_of 10, [(peer_addr, 16)])
          :: status_replies (sample_node STATE_CONNECTED) (clock_map sample_clock) c' peer_addr 16)
         (sample_node STATE_CONNECTED) [] n' xs' /\
       node_ok n' xs' peer_cells /\ enq_frame (sample_node STATE_CONNECTED) n').
Proof.
  exact (handle_status_correct (arrived sample_status) sample_status (sample_node STATE_CONNECTED) []
    peer_cells (sample_ok _) eq_refl (arrived_carries _ sample_status_wf ltac:(done))
    (Forall_nil_2 _)).
Defined.

(** [gossip_handle_hello]: a newcomer is welcomed under the number of
    its hello, gets the known members in lists of at most
    [MEMBER_LIST_SYNC_SIZE], every known member is told about it, and then it
    is added to the members, unless it is one already. *)
Theorem handle_hello_correct {Ctx} e (t : message_hello) (n : node Ctx) xs cells :
  node_ok n xs cells -> connected n -> carries_in e t -> room_for cells 1 ->
  cm_address_len (hello_this_member t) <= sizeof_sockaddr_storage ->
  wp (gossip_handle_hello e) n
    (fun r n' => r = PITTACUS_ERR_NONE /\ connected n' /\
       exists m n2 xs' cells', member_eqv m (hello_this_member t) /\
         messages_enqueued
           ((welcome_of n (mh_sequence_num (hello_header t)), [(ei_sender e, ei_sender_len e)])
            :: member_lists (Z.to_nat (Z.min MEMBER_LIST_SYNC_SIZE (zlen cells)))
                 (set_members_of cells) (ei_sender e) (ei_sender_len e)
            ++ [(list_of [m], recipient_of <$> set_members_of cells)]) n xs n2 xs' /\
         set_members_of cells' = put_all (set_members_of cells) [m] /\
         node_ok n' xs' cells' /\ sent (n_world n') = sent (n_world n) /\
         n_context n' = n_context n /\ members_only n2 n').
Proof. apply wp_handle_hello. Qed.

Lemma handle_hello_correct_witness :
  wp (gossip_handle_hello (arrived sample_hello)) (sample_node STATE_CONNECTED)
    (fun r n' => r = PITTACUS_ERR_NONE /\ connected n' /\
       exists m n2 xs' cells', member_eqv m peer /\
         messages_enqueued
           ((welcome_of (sample_node STATE_CONNECTED) 7, [(peer_addr, 16)])
            :: member_lists (Z.to_nat (Z.min MEMBER_LIST_SYNC_SIZE (zlen peer_cells)))
                 (set_members_of peer_cells) peer_addr 16
            ++ [(list_of [m], recipient_of <$> set_members_of peer_cells)])
           (sample_node STATE_CONNECTED) [] n2 xs' /\
         set_members_of cells' = put_all (set_members_of peer_cells) [m] /\
         node_ok n' xs' cells' /\ sent (n_world n') = [] /\ n_context n' = [] /\
         members_only n2 n').
Proof.
  exact (handle_hello_correct (arrived sample_hello) sample_hello (sample_node STATE_CONNECTED) []
    peer_cells (sample_ok _) eq_refl (arrived_carries _ sample_hello_wf ltac:(done))
    (sample_room 1 ltac:(lia)) ltac:(done)).
Defined.

(** [gossip_handle_welcome]: the node is connected, the seed becomes a
    member, and the hello it answers is removed from the queue, so that it is
    not sent again. *)
Theorem handle_welcome_correct {Ctx} e (t : message_welcome) (n : node Ctx) xs cells :
  node_ok n xs cells -> carries_in e t -> room_for cells 1 ->
  cm_address_len (welcome_this_member t) <= sizeof_sockaddr_storage ->
  wp (gossip_handle_welcome e) n
    (fun r n' => r = PITTACUS_ERR_NONE /\ connected n' /\ exists cells',
       node_ok n' (remove_seq (welcome_hello_sequence_num t) xs) cells' /\
       (exists m, member_eqv m (welcome_this_member t) /\
          set_members_of cells' = put_all (set_members_of cells) [m]) /\
       sent (n_world n') = sent (n_world n) /\ n_context n' = n_context n /\
       exists n1, members_only
         (Node (set_state STATE_CONNECTED (n_self n)) (n_world n) (n_context n)) n1 /\
         queue_only n1 n').
Proof. apply wp_handle_welcome. Qed.

Lemma handle_welcome_correct_witness :
  wp (gossip_handle_welcome (arrived sample_welcome)) (sample_node STATE_JOINING)
    (fun r n' => r = PITTACUS_ERR_NONE /\ connected n' /\ exists cells',
       node_ok n' (remove_seq 1 []) cells' /\
       (exists m, member_eqv m peer /\
          set_members_of cells' = put_all (set_members_of peer_cells) [m]) /\
       sent (n_world n') = [] /\ n_context n' = [] /\
       exists n1, members_only (sample_node STATE_CONNECTED) n1 /\ queue_only n1 n').
Proof.
  exact (handle_welcome_correct (arrived sample_welcome) sample_welcome (sample_node STATE_JOINING)
    [] peer_cells (sample_ok _) (arrived_carries _ sample_welcome_wf ltac:(done))
    (sample_room 1 ltac:(lia)) ltac:(done)).
Defined.

(** [gossip_handle_member_list]: the listed members are added in order,
    those already known being skipped, and the list is acknowledged. *)
Theorem handle_member_list_correct {Ctx} e (t : message_member_list) (n : node Ctx) xs cells :
  node_ok n xs cells -> connected n -> carries_in e t -> room_for cells (zlen (ml_members t)) ->
  wp (gossip_handle_member_list e) n
    (fun r n' => r = PITTACUS_ERR_NONE /\ connected n' /\ exists cells' n1 xs' ms,
       Forall2 member_eqv ms (ml_members t) /\
       set_members_of cells' = put_all (set_members_of cells) ms /\
       message_enqueued (ack_of (mh_sequence_num (ml_header t)))
         [(ei_sender e, ei_sender_len e)] n1 xs n' xs' /\ node_ok n' xs' cells' /\
       sent (n_world n') = sent (n_world n) /\ n_context n' = n_context n /\
       members_only n n1).
Proof. apply wp_handle_member_list. Qed.

Lemma handle_member_list_correct_witness :
  wp (gossip_handle_member_list (arrived sample_list)) (sample_node STATE_CONNECTED)
    (fun r n' => r = PITTACUS_ERR_NONE /\ connected n' /\ exists cells' n1 xs' ms,
       Forall2 member_eqv ms [peer] /\
       set_members_of cells' = put_all (set_members_of peer_cells) ms /\
       message_enqueued (ack_of 9) [(peer_addr, 16)] n1 [] n' xs' /\ node_ok n' xs' cells' /\
       sent (n_world n') = [] /\ n_context n' = [] /\
       members_only (sample_node STATE_CONNECTED) n1).
Proof.
  exact (handle_member_list_correct (arrived sample_list) sample_list (sample_node STATE_CONNECTED)
    [] peer_cells (sample_ok _) eq_refl (arrived_carries _ sample_list_wf ltac:(done))
    (sample_room (zlen (ml_members sample_list)) ltac:(done))).
Defined.

(** [gossip_handle_ack]: the first queued envelope with the acknowledged
    number is removed and freed, the others keep their order and contents; an
    unknown number is ignored. Nothing but the queue changes. *)
Theorem handle_ack_correct {Ctx} e (t : message_ack) (n : node Ctx) xs cells :
  node_ok n xs cells -> connected n -> carries_in e t ->
  wp (gossip_handle_ack e) n
    (fun r n' => r = PITTACUS_ERR_NONE /\ queue_only n n' /\
       node_ok n' (remove_seq (ack_ack_sequence_num t) xs) cells).
Proof. apply wp_handle_ack. Qed.

Lemma handle_ack_correct_witness :
  exists xs, xs <> [] /\ wp (gossip_handle_ack (arrived sample_ack)) sample_sender
    (fun r n' => r = PITTACUS_ERR_NONE /\ queue_only sample_sender n' /\
       node_ok n' (remove_seq 1 xs) peer_cells).
Proof.
  destruct sample_sender_ok as (xs & Hne & Hok & Hc). exists xs. split; [exact Hne|].
  exact (handle_ack_correct (arrived sample_ack) sample_ack sample_sender xs peer_cells Hok Hc
    (arrived_carries _ sample_ack_wf ltac:(done))).
Defined.
