(* ===== verification/GossipProps.v ===== *)
(** Properties of the output buffer, of the public functions and of the life
    cycle of a node. *)
From S2P Require Import Prelude.
From S2P Require Import Config.
From S2P Require Import Utils.
From S2P Require Import World.
From S2P Require Import Member.
From S2P Require Import VectorClock.
From S2P Require Import Messages.
From S2P Require Import Queue.
From S2P Require Import DataLog.
From S2P Require Import Gossip.
From S2P Require Import Node.
From S2P Require Import MemberFacts.
From S2P Require Import MemberSetFacts.
From S2P Require Import VectorClockFacts.
From S2P Require Import WireFacts.
From S2P Require Import MessageFacts.
From S2P Require Import DataLogFacts.
From S2P Require Import QueueFacts.
From S2P Require Import OutboxFacts.
From S2P Require Import EnqueueFacts.
From S2P Require Import BufferFacts.
From S2P Require Import CarryFacts.
From S2P Require Import SendFacts.
From S2P Require Import NodeFacts.
From S2P Require Import HandlerFacts.
From S2P Require Import PublicFacts.
From S2P Require Import FrameFacts.
From S2P Require Import StateFacts.
From S2P Require Import Samples.

(** * Output buffer *)

(** C20: [gossip_enqueue_message]: a message that fits a slot is encoded into
    one slot and queued once for each recipient of the spreading type, under
    consecutive sequence numbers. If a slot of the buffer is free, or the
    envelopes sharing a slot are adjacent, with the first attempted most
    often, then every queued envelope afterwards either carries the new
    message or was queued before and still carries the bytes it carried. That
    order is kept here, but [pittacus_gossip_process_send] need not keep it:
    see [shared_slot_overwritten] for what is lost when neither holds. *)
Theorem enqueue_message_correct {Ctx} m to len st (n : node Ctx) xs cells :
  outbox n xs -> members_ok n cells -> msg_wf m -> msg_need m <= MESSAGE_MAX_SIZE ->
  (st = GOSSIP_DIRECT -> recipient_ok (default [] to, len)) ->
  wp (gossip_enqueue_message (msg_type_of m) m to len st) n
    (fun r n' => r = PITTACUS_ERR_NONE /\
       exists rs xs', spread_to cells to len st rs /\ message_enqueued m rs n xs n' xs' /\
         (grouped xs -> grouped xs') /\
         (slot_to_spare xs -> forall l x, (l, x) ∈ xs' ->
           carries (g_output_buffer (n_self n')) x m \/
           (l, x) ∈ xs /\ forall m0, carries (g_output_buffer (n_self n)) x m0 ->
             carries (g_output_buffer (n_self n')) x m0)).
Proof.
  intros Hn Hmem Hm Hneed Hto. eapply wp_mono; [by apply (wp_enqueue_message m to len st n xs cells)|].
  intros r n' (-> & rs & xs' & Hrs & He). split; [done|]. exists rs, xs'.
  pose proof (fun Hs => message_enqueued_carries m rs n xs n' xs' Hn Hs Hm Hneed He) as Hc.
  split; [done|]. split; [done|]. split; [|apply Hc]. intros Hg. by apply Hc; [left|].
Qed.

Lemma enqueue_message_correct_witness :
  wp (gossip_enqueue_message MESSAGE_DATA_TYPE (MsgData sample_data) None 0 GOSSIP_BROADCAST)
    (sample_node STATE_CONNECTED)
    (fun r n' => r = PITTACUS_ERR_NONE /\
       exists rs xs', spread_to peer_cells None 0 GOSSIP_BROADCAST rs /\
         message_enqueued (MsgData sample_data) rs (sample_node STATE_CONNECTED) [] n' xs' /\
         (grouped [] -> grouped xs') /\
         (slot_to_spare [] -> forall l x, (l, x) ∈ xs' ->
           carries (g_output_buffer (n_self n')) x (MsgData sample_data) \/
           (l, x) ∈ [] /\ forall m0,
             carries (g_output_buffer (sample_gossip STATE_CONNECTED)) x m0 ->
             carries (g_output_buffer (n_self n')) x m0)).
Proof.
  exact (enqueue_message_correct (MsgData sample_data) None 0 GOSSIP_BROADCAST
    (sample_node STATE_CONNECTED) [] peer_cells (no_outbox _ _ _ (sample_ok _))
    (no_members _ _ _ (sample_ok _)) sample_data_wf ltac:(done) ltac:(done)).
Defined.

(** [gossip_enqueue_message] refuses a message that does not fit a slot:
    no envelope is added, no sequence number is used and the output buffer is
    unchanged (the slot chosen may have cost older envelopes). *)
Theorem enqueue_message_too_long {Ctx} m to len st (n : node Ctx) xs :
  outbox n xs -> MESSAGE_MAX_SIZE < msg_need m ->
  wp (gossip_enqueue_message (msg_type_of m) m to len st) n
    (fun r n' => r = PITTACUS_ERR_BUFFER_NOT_ENOUGH /\
       exists slot xs1, available xs slot xs1 /\ outbox n' xs1 /\ enq_frame n n' /\
         g_output_buffer (n_self n') = g_output_buffer (n_self n) /\
         g_sequence_num (n_self n') = g_sequence_num (n_self n)).
Proof. apply wp_enqueue_message_short. Qed.

Definition long_data : message :=
  MsgData (MessageData (message_header_init MESSAGE_DATA_TYPE 0) (VectorRecord 1 77) 487 (zeros 487)).

Lemma enqueue_message_too_long_witness :
  wp (gossip_enqueue_message MESSAGE_DATA_TYPE long_data None 0 GOSSIP_RANDOM)
    (sample_node STATE_CONNECTED)
    (fun r n' => r = PITTACUS_ERR_BUFFER_NOT_ENOUGH /\
       exists slot xs1, available [] slot xs1 /\ outbox n' xs1 /\
         enq_frame (sample_node STATE_CONNECTED) n' /\
         g_output_buffer (n_self n') = g_output_buffer (sample_gossip STATE_CONNECTED) /\
         g_sequence_num (n_self n') = 0).
Proof.
  exact (enqueue_message_too_long long_data None 0 GOSSIP_RANDOM (sample_node STATE_CONNECTED) []
    (no_outbox _ _ _ (sample_ok _)) ltac:(done)).
Defined.

(** C21: [gossip_find_available_output_buffer] terminates and returns a slot
    of the buffer, with at most some envelopes evicted. No envelope left in
    the queue uses the slot, provided that a slot is free, or that the
    envelopes sharing a slot are adjacent with the first attempted most often
    ([shared_slot_overwritten] shows that the proviso is needed). When some
    slot is free nothing is evicted, and the first free slot is taken. *)
Theorem output_slot_free q xs :
  queue_repr q xs -> slots_ok xs ->
  exists slot q' xs', gossip_find_available_output_buffer q = Ok (slot * MESSAGE_MAX_SIZE, q') /\
    queue_repr q' xs' /\ 0 <= slot < MAX_OUTPUT_MESSAGES /\
    (slot_to_spare xs -> ~ slot_used slot xs') /\ xs' `sublist_of` xs /\
    forall i, 0 <= i < MAX_OUTPUT_MESSAGES -> ~ slot_used i xs -> xs' = xs /\ slot <= i.
Proof.
  intros Hq Hs. destruct (find_available_repr q xs Hq Hs) as (slot & q' & xs' & E & Hq' & Hav).
  exists slot, q', xs'. split; [done|]. split; [done|].
  split; [by eapply available_range|]. split; [intros Hg; by eapply available_free|].
  split; [by eapply available_sub|]. intros i Hi Hf. destruct Hav as [j Hj Hfj Hlt|j l x Hall _].
  - split; [done|]. destruct (Z.lt_decidable i j) as [Hij|Hij]; [|lia]. destruct Hf. apply Hlt. lia.
  - destruct Hf. by apply Hall.
Qed.

Lemma output_slot_free_witness :
  exists slot q' xs',
    gossip_find_available_output_buffer (MessageQueue ∅ None None) = Ok (slot * MESSAGE_MAX_SIZE, q') /\
    queue_repr q' xs' /\ 0 <= slot < MAX_OUTPUT_MESSAGES /\
    (slot_to_spare [] -> ~ slot_used slot xs') /\ xs' `sublist_of` [] /\
    forall i, 0 <= i < MAX_OUTPUT_MESSAGES -> ~ slot_used i [] -> xs' = [] /\ slot <= i.
Proof. exact (output_slot_free _ [] empty_repr (Forall_nil_2 _)). Defined.

(** * A shared slot that is overwritten too early *)

(** Envelopes on the slot [s] with [k] attempts made at time [ts]. *)
Definition old_envelope (s k ts : Z) (p nx : option loc) : message_envelope_out :=
  Envelope peer_addr 16 (s * MESSAGE_MAX_SIZE) 29 1 ts k 3 p nx.

(** Two envelopes share slot 0; both were sent at the same millisecond. *)
Definition retry_queue : message_queue :=
  MessageQueue (list_to_map [(0%nat, old_envelope 0 1 0 None (Some 1%nat));
                             (1%nat, old_envelope 0 1 0 (Some 0%nat) None)])
    (Some 0%nat) (Some 1%nat).

(** The clock ticks between the two envelopes, when the retry interval ends. *)
Definition retry_world : world :=
  World (Oracle (fun _ => true) (fun k => (9 + Z.of_nat k, if (k =? 0)%nat then 999000 else 0))
           Z.of_nat (fun _ => 29) (fun _ => 3) (fun _ => 0) (fun _ _ => 0) (fun _ => (0, sample_addr)))
    10 0 0 [] [] [].

Definition retry_node : node inbox_of :=
  Node (set_outbound_messages retry_queue (sample_gossip STATE_CONNECTED)) retry_world [].

(** 101 envelopes on all slots: the first two share slot 0. *)
Definition crowded_link (i : nat) : nat * message_envelope_out :=
  (i, old_envelope (Z.max 0 (Z.of_nat i - 1)) (if (i =? 1)%nat then 2 else 1) 0
        (match i with O => None | S j => Some j end)
        (if (i =? 100)%nat then None else Some (S i))).
Definition crowded_queue : message_queue :=
  MessageQueue (list_to_map (crowded_link <$> seq 0 101)) (Some 0%nat) (Some 100%nat).

Definition attempts_of (q : message_queue) (l : loc) : option Z :=
  en_attempt_num <$> q_heap q !! l.

(** The premise of the slot theorem is needed, and the send loop can
    break it. Of two envelopes on one slot that were sent at the same time,
    a send pass during which the retry interval ends resends only the second,
    so that it has more attempts than the first. In a full queue in that state
    [gossip_find_available_output_buffer] evicts the second envelope only and
    hands out slot 0, which the first, still queued, uses: its message is
    overwritten by the next one. *)
Theorem shared_slot_overwritten :
  let after := g_outbound_messages (n_self (final pittacus_gossip_process_send retry_node)) in
  attempts_of after 0%nat = Some 1 /\ attempts_of after 1%nat = Some 2 /\
  exists q', gossip_find_available_output_buffer crowded_queue = Ok (0, q') /\
    en_buffer <$> (q_heap q' !! 0%nat) = Some 0 /\ q_heap q' !! 1%nat = None.
Proof.
  split; [vm_compute; reflexivity|]. split; [vm_compute; reflexivity|].
  destruct (gossip_find_available_output_buffer crowded_queue) as [[off q']| |] eqn:E.
  - assert (off = 0 /\ en_buffer <$> (q_heap q' !! 0%nat) = Some 0 /\ q_heap q' !! 1%nat = None)
      as (-> & H0 & H1).
    { replace off with (match gossip_find_available_output_buffer crowded_queue with
                        | Ok (o, _) => o | _ => 1 end) by by rewrite E.
      replace q' with (match gossip_find_available_output_buffer crowded_queue with
                       | Ok (_, q) => q | _ => crowded_queue end) by by rewrite E.
      vm_compute. auto. }
    exists q'. exact (conj eq_refl (conj H0 H1)).
  - exfalso. revert E. vm_compute. discriminate.
  - exfalso. revert E. vm_compute. discriminate.
Qed.
