(* ===== verification/PublicProps.v ===== *)
(** Properties of the public functions and of the life cycle of a node. *)
From S2P Require Import Prelude.
From S2P Require Import Config.
From S2P Require Import Utils.
From S2P Require Import World.
From S2P Require Import Member.
From S2P Require Import VectorClock.
From S2P Require Import Messages.
From S2P Require Import Queue.
From S2P Require Import DataLog.
From S2P Require Import Gossip.
From S2P Require Import Node.
From S2P Require Import MemberFacts.
From S2P Require Import MemberSetFacts.
From S2P Require Import VectorClockFacts.
From S2P Require Import WireFacts.
From S2P Require Import MessageFacts.
From S2P Require Import DataLogFacts.
From S2P Require Import QueueFacts.
From S2P Require Import OutboxFacts.
From S2P Require Import EnqueueFacts.
From S2P Require Import BufferFacts.
From S2P Require Import CarryFacts.
From S2P Require Import SendFacts.
From S2P Require Import NodeFacts.
From S2P Require Import HandlerFacts.
From S2P Require Import PublicFacts.
From S2P Require Import FrameFacts.
From S2P Require Import StateFacts.
From S2P Require Import Samples.

(** C32: [pittacus_gossip_send_data]: a payload that fits a data message gets
    the next value of the data counter, is noted in the node's own clock and
    log under the node's identifier, and is queued for at most
    [MESSAGE_RUMOR_FACTOR] random members. *)
Theorem send_data_correct {Ctx} data size (n : node Ctx) xs cells :
  node_ok n xs cells -> connected n -> 0 <= size <= MAX_PAYLOAD -> size <= zlen data ->
  wp (pittacus_gossip_send_data data size) n
    (fun r n' => r = PITTACUS_ERR_NONE /\
       g_data_counter (n_self n') = u32 (g_data_counter (n_self n) + 1) /\
       exists id, vector_clock_create_member_id (g_self_address (n_self n)) = Ok id /\
         noted n n' (own_data n id data size) /\
         exists rs (n1 : node _) xs', spread_to cells None 0 GOSSIP_RANDOM rs /\
           took_over (counted n) n1 (n_context n) /\
           message_enqueued (MsgData (own_data n id data size)) rs n1 xs n' xs' /\
           node_ok n' xs' cells).
Proof.
  intros Hn Hc Hs Hd. unfold pittacus_gossip_send_data. apply wp_connected; [done|].
  rewrite u16_id by (unfold MAX_PAYLOAD in Hs; config_lia). by apply wp_enqueue_data.
Qed.

Lemma send_data_correct_witness :
  wp (pittacus_gossip_send_data [1; 2; 3] 3) (sample_node STATE_CONNECTED)
    (fun r n' => r = PITTACUS_ERR_NONE /\ g_data_counter (n_self n') = u32 (0 + 1) /\
       exists id, vector_clock_create_member_id self_member = Ok id /\
         noted (sample_node STATE_CONNECTED) n' (own_data (sample_node STATE_CONNECTED) id [1; 2; 3] 3) /\
         exists rs (n1 : node _) xs', spread_to peer_cells None 0 GOSSIP_RANDOM rs /\
           took_over (counted (sample_node STATE_CONNECTED)) n1 [] /\
           message_enqueued (MsgData (own_data (sample_node STATE_CONNECTED) id [1; 2; 3] 3)) rs
             n1 [] n' xs' /\ node_ok n' xs' peer_cells).
Proof.
  exact (send_data_correct [1; 2; 3] 3 (sample_node STATE_CONNECTED) [] peer_cells (sample_ok _)
    eq_refl ltac:(done) ltac:(done)).
Defined.

(** The answer of a tick that comes [left] milliseconds too early: the time
    left when it fits the [int] that is returned; from [2^31] on, after the
    clock was set back by weeks, it does not, and up to [2^32] the answer is
    negative, as an error is. *)
Definition early_answer (left r : Z) : Prop :=
  r = i32 (u64 left) /\
  (left < 2 ^ 31 -> r = left /\ 0 < r) /\ (2 ^ 31 <= left < 2 ^ 32 -> r = left - 2 ^ 32 /\ r < 0).

Lemma early_answer_ok left : 0 < left -> early_answer left (i32 (u64 left)).
Proof.
  intros Hl. split; [done|]. split; intros H; [rewrite near_ahead by lia|rewrite far_ahead by lia]; lia.
Qed.

(** C34: [pittacus_gossip_tick]: when the interval [GOSSIP_TICK_INTERVAL]
    since the last round ends in the future, the node is unchanged and the
    time left is returned, if it is less than 2^31 ms; a time left from 2^31
    to 2^32 ms, which a clock that was set back can leave, is returned as a
    negative number. Otherwise the node's clock is queued for random members,
    the round is timed, and the interval is returned. *)
Theorem tick_correct {Ctx} (n : node Ctx) xs cells :
  node_ok n xs cells -> connected n ->
  wp pittacus_gossip_tick n (fun r n' =>
    let next := u64 (g_last_gossip_ts (n_self n) + GOSSIP_TICK_INTERVAL) in
    if bool_decide (now n < next)
    then early_answer (next - now n) r /\ n_self n' = n_self n /\ enq_frame n n' /\ node_ok n' xs cells
    else r = GOSSIP_TICK_INTERVAL /\
      exists c rs (n1 n2 : node Ctx) xs', clock_eqv c (g_data_version (n_self n)) /\
        spread_to cells None 0 GOSSIP_RANDOM rs /\
        message_enqueued (status_of c) rs n1 xs n2 xs' /\ n_self n1 = n_self n /\ enq_frame n n1 /\
        n' = Node (set_last_gossip_ts (now n) (n_self n2)) (n_world n2) (n_context n2) /\
        node_ok n' xs' cells).
Proof.
  intros Hn Hc. eapply wp_mono; [by apply wp_tick|]. intros r n'. cbv zeta.
  destruct (bool_decide_reflect (now n < u64 (g_last_gossip_ts (n_self n) + GOSSIP_TICK_INTERVAL))); [|done].
  intros (-> & H). split; [|done]. apply early_answer_ok. lia.
Qed.

Lemma tick_correct_witness :
  wp pittacus_gossip_tick (sample_node STATE_CONNECTED) (fun r n' =>
    let next := u64 (0 + GOSSIP_TICK_INTERVAL) in
    if bool_decide (now (sample_node STATE_CONNECTED) < next)
    then early_answer (next - now (sample_node STATE_CONNECTED)) r /\
      n_self n' = sample_gossip STATE_CONNECTED /\ enq_frame (sample_node STATE_CONNECTED) n' /\
      node_ok n' [] peer_cells
    else r = GOSSIP_TICK_INTERVAL /\
      exists c rs (n1 n2 : node inbox_of) xs', clock_eqv c vector_clock_init /\
        spread_to peer_cells None 0 GOSSIP_RANDOM rs /\
        message_enqueued (status_of c) rs n1 [] n2 xs' /\ n_self n1 = sample_gossip STATE_CONNECTED /\
        enq_frame (sample_node STATE_CONNECTED) n1 /\
        n' = Node (set_last_gossip_ts (now (sample_node STATE_CONNECTED)) (n_self n2))
               (n_world n2) (n_context n2) /\
        node_ok n' xs' peer_cells).
Proof.
  exact (tick_correct (sample_node STATE_CONNECTED) [] peer_cells (sample_ok _) eq_refl).
Defined.

(** [pittacus_gossip_join] on an initialised node: without seeds the node
    is connected at once; otherwise a hello with the node's own member is
    queued for every seed, in order, and the node is joining. *)
Theorem join_correct {Ctx} seeds (n : node Ctx) xs cells :
  node_ok n xs cells -> g_state (n_self n) = STATE_INITIALIZED ->
  Forall (fun a => recipient_ok (a, zlen a)) seeds ->
  wp (pittacus_gossip_join seeds) n (fun r n' => r = PITTACUS_ERR_NONE /\
    exists n1 xs', messages_enqueued (hello_to n <$> seeds) n xs n1 xs' /\
      n' = Node (set_state match seeds with [] => STATE_CONNECTED | _ => STATE_JOINING end
                   (n_self n1)) (n_world n1) (n_context n1) /\
      node_ok n' xs' cells).
Proof. apply wp_join. Qed.

Lemma peer_recipient_ok : recipient_ok (peer_addr, zlen peer_addr).
Proof. repeat split; vm_compute; discriminate. Qed.

Lemma join_correct_witness :
  wp (pittacus_gossip_join [peer_addr]) (sample_node STATE_INITIALIZED) (fun r n' =>
    r = PITTACUS_ERR_NONE /\
    exists n1 xs', messages_enqueued (hello_to (sample_node STATE_INITIALIZED) <$> [peer_addr])
                     (sample_node STATE_INITIALIZED) [] n1 xs' /\
      n' = Node (set_state STATE_JOINING (n_self n1)) (n_world n1) (n_context n1) /\
      node_ok n' xs' peer_cells).
Proof.
  apply (join_correct [peer_addr] (sample_node STATE_INITIALIZED) [] peer_cells (sample_ok _) eq_refl).
  constructor; [exact peer_recipient_ok|constructor].
Defined.

(** C35: [pittacus_gossip_init]: when the socket calls and the allocations
    succeed, the node is in good order: initialised, under the address the
    socket is bound to, with an empty queue, no member, an empty clock and an
    empty data log, whatever the memory of the descriptor held before. *)
Theorem init_correct {Ctx} garbage addr w (c : Ctx) :
  no_oom w -> socket_ok w addr -> garbage_ok garbage ->
  wp (pittacus_gossip_init garbage addr) w (fun r w' =>
    fst r = PITTACUS_ERR_NONE /\ node_ok (Node (snd r) w' c) [] [] /\
    cm_address_len (g_self_address (snd r)) = zlen (snd (getsockname (answers w) (g_socket (snd r)))) /\
    cm_address (g_self_address (snd r)) = snd (getsockname (answers w) (g_socket (snd r))) /\
    g_data_counter (snd r) = 0 /\
    g_state (snd r) = STATE_INITIALIZED /\ clock_map (g_data_version (snd r)) = ∅ /\
    log_view (g_data_log (snd r)) = []).
Proof. apply wp_init. Qed.

Lemma init_correct_witness :
  wp (pittacus_gossip_init (sample_gossip STATE_DESTROYED) sample_addr) sample_world (fun r w' =>
    fst r = PITTACUS_ERR_NONE /\ node_ok (Node (snd r) w' tt) [] [] /\
    cm_address_len (g_self_address (snd r)) =
      zlen (snd (getsockname (answers sample_world) (g_socket (snd r)))) /\
    cm_address (g_self_address (snd r)) = snd (getsockname (answers sample_world) (g_socket (snd r))) /\
    g_data_counter (snd r) = 0 /\
    g_state (snd r) = STATE_INITIALIZED /\ clock_map (g_data_version (snd r)) = ∅ /\
    log_view (g_data_log (snd r)) = []).
Proof.
  apply (init_correct (sample_gossip STATE_DESTROYED) sample_addr sample_world tt).
  - exact sample_no_oom.
  - split; try (vm_compute; discriminate). split; [split; vm_compute; discriminate|].
    apply self_member_ok.
  - split; [done| |done|apply empty_log_ok].
    apply (ob_out _ _ (no_outbox _ _ _ (sample_ok STATE_DESTROYED))).
Defined.

(** [pittacus_gossip_destroy] closes the socket and frees every queued
    envelope and every member, without touching freed memory. *)
Theorem destroy_correct {Ctx} (n : node Ctx) xs cells :
  node_ok n xs cells ->
  wp pittacus_gossip_destroy n (fun r n' => r = PITTACUS_ERR_NONE /\
    closed (n_world n') = closed (n_world n) ++ [g_socket (n_self n)] /\
    g_outbound_messages (n_self n') = MessageQueue ∅ None None /\
    g_state (n_self n') = STATE_DESTROYED).
Proof.
  intros Hn. eapply wp_mono; [by apply (wp_destroy _ xs cells)|]. by intros r n' (? & ? & ? & ? & _).
Qed.

Lemma destroy_correct_witness :
  wp pittacus_gossip_destroy (sample_node STATE_CONNECTED) (fun r n' => r = PITTACUS_ERR_NONE /\
    closed (n_world n') = [] ++ [3] /\
    g_outbound_messages (n_self n') = MessageQueue ∅ None None /\
    g_state (n_self n') = STATE_DESTROYED).
Proof.
  exact (destroy_correct (sample_node STATE_CONNECTED) [] peer_cells (sample_ok _)).
Defined.

(** * Errors *)








(** In the wrong state every call refuses to work with
    [PITTACUS_ERR_BAD_STATE] (the tick asks to be called again after the
    interval) and leaves the node, the socket and the queue untouched. *)
Theorem bad_state_refused {Ctx} recv (n : node Ctx) e data size seeds :
  (~ connected n ->
     gossip_handle_hello e n = Ok (PITTACUS_ERR_BAD_STATE, n) /\
     gossip_handle_member_list e n = Ok (PITTACUS_ERR_BAD_STATE, n) /\
     gossip_handle_data recv e n = Ok (PITTACUS_ERR_BAD_STATE, n) /\
     gossip_handle_ack e n = Ok (PITTACUS_ERR_BAD_STATE, n) /\
     gossip_handle_status e n = Ok (PITTACUS_ERR_BAD_STATE, n) /\
     pittacus_gossip_send_data data size n = Ok (PITTACUS_ERR_BAD_STATE, n) /\
     pittacus_gossip_tick n = Ok (GOSSIP_TICK_INTERVAL, n)) /\
  (is_active (g_state (n_self n)) = false ->
     pittacus_gossip_process_receive recv n = Ok (PITTACUS_ERR_BAD_STATE, n) /\
     pittacus_gossip_process_send n = Ok (PITTACUS_ERR_BAD_STATE, n)) /\
  (g_state (n_self n) <> STATE_INITIALIZED ->
     pittacus_gossip_join seeds n = Ok (PITTACUS_ERR_BAD_STATE, n)).
Proof.
  split; [|split].
  - intros Hc. assert (bool_decide (g_state (n_self n) = STATE_CONNECTED) = false) as E
      by by apply bool_decide_false.
    unfold gossip_handle_hello, gossip_handle_member_list, gossip_handle_data, gossip_handle_ack,
      gossip_handle_status, pittacus_gossip_send_data, return_if_not_connected,
      pittacus_gossip_tick, mbind, M_bind, self. by rewrite E.
  - intros Ha. unfold pittacus_gossip_process_receive, pittacus_gossip_process_send, mbind, M_bind, self.
    by rewrite Ha.
  - intros Hs. unfold pittacus_gossip_join, mbind, M_bind, self. by rewrite bool_decide_false.
Qed.

Lemma bad_state_refused_witness :
  let n := sample_node STATE_DESTROYED in
  pittacus_gossip_send_data [1] 1 n = Ok (PITTACUS_ERR_BAD_STATE, n) /\
  pittacus_gossip_process_send n = Ok (PITTACUS_ERR_BAD_STATE, n) /\
  pittacus_gossip_join [] n = Ok (PITTACUS_ERR_BAD_STATE, n).
Proof.
  destruct (bad_state_refused sample_receiver (sample_node STATE_DESTROYED) (arrived sample_data)
    [1] 1 []) as (Hc & Ha & Hj). split; [|split].
  - apply Hc. discriminate.
  - apply Ha. reflexivity.
  - apply Hj. discriminate.
Defined.

(** * Life cycle *)

(** A receiver that leaves the state of the node alone. *)
Definition keeps_state {Ctx} (recv : option (list Z -> Z -> M (node Ctx) unit)) : Prop :=
  match recv with Some receive => forall d s, keeps state_of (receive d s) | None => True end.

(** C36: The life cycle: whatever the node, the messages received and the
    answers of the environment, a public call that returns changes the state
    only along the transitions of [transition]. *)
Theorem life_cycle {Ctx} recv c (n : node Ctx) r n' :
  keeps_state recv -> run_api recv c n = Ok (r, n') -> transition c (state_of n) (state_of n').
Proof. intros Hk. by apply api_transition. Qed.

Lemma sample_receiver_keeps : keeps_state sample_receiver.
Proof. intros d s n a n' E. by injection E as _ <-. Qed.

Lemma life_cycle_witness :
  transition (ApiJoin []) STATE_INITIALIZED
    (state_of (final (pittacus_gossip_join []) (sample_node STATE_INITIALIZED))).
Proof.
  exact (life_cycle sample_receiver (ApiJoin []) (sample_node STATE_INITIALIZED) PITTACUS_ERR_NONE
    (final (pittacus_gossip_join []) (sample_node STATE_INITIALIZED)) sample_receiver_keeps eq_refl).
Defined.

(** Over any sequence of calls and deliveries the life cycle only moves
    forward: a connected node stays connected until it is destroyed, and no
    call returns it to joining or initialised. *)
Theorem connected_until_destroyed {Ctx} recv (n n' : node Ctx) :
  keeps_state recv -> rtc (api_step recv) n n' -> connected n ->
  connected n' \/ state_of n' = STATE_DESTROYED.
Proof.
  intros Hk Hr Hc. apply (api_steps_settled recv Hk _ _ Hr). by left.
Qed.

Lemma step_send recv d size (n n' : node inbox_of) r :
  state_of n <> STATE_DESTROYED -> pittacus_gossip_send_data d size n = Ok (r, n') ->
  rtc (api_step recv) n n'.
Proof. intros Hs E. by apply rtc_once, (StepCall recv (ApiSendData d size) n r n'). Qed.

Lemma connected_until_destroyed_witness :
  let n1 := final (pittacus_gossip_send_data [1; 2; 3] 3) (sample_node STATE_CONNECTED) in
  connected n1 \/ state_of n1 = STATE_DESTROYED.
Proof.
  destruct (final_run (pittacus_gossip_send_data [1; 2; 3] 3) (sample_node STATE_CONNECTED))
    as [r Hr]; [vm_compute; exact I|].
  pose proof (step_send sample_receiver [1; 2; 3] 3 (sample_node STATE_CONNECTED) _ _
    ltac:(discriminate) Hr) as Hs.
  intros n1. fold n1 in Hs.
  exact (connected_until_destroyed sample_receiver _ n1 sample_receiver_keeps Hs eq_refl).
Defined.
