(* ===== verification/MessageProps.v ===== *)
(** Properties of the wire formats: integers, members, clocks, messages. *)
From S2P Require Import Prelude.
From S2P Require Import Config.
From S2P Require Import Utils.
From S2P Require Import World.
From S2P Require Import Member.
From S2P Require Import VectorClock.
From S2P Require Import Messages.
From S2P Require Import Queue.
From S2P Require Import DataLog.
From S2P Require Import Gossip.
From S2P Require Import Node.
From S2P Require Import MemberFacts.
From S2P Require Import MemberSetFacts.
From S2P Require Import VectorClockFacts.
From S2P Require Import WireFacts.
From S2P Require Import MessageFacts.
From S2P Require Import DataLogFacts.
From S2P Require Import QueueFacts.
From S2P Require Import OutboxFacts.
From S2P Require Import EnqueueFacts.
From S2P Require Import BufferFacts.
From S2P Require Import Samples.

(** * Messages *)

(** Decoding [buf] with the decoder of the type of [m] gives back [m]: the
    result is the number of bytes, and the message decoded is equivalent. *)
Definition decodes_to (m : message) (buf : list Z) (len : Z) (w : world) : Prop :=
  match m with
  | MsgHello t => wp (message_hello_decode buf len) w (decoded t w)
  | MsgWelcome t => wp (message_welcome_decode buf len) w (decoded t w)
  | MsgMemberList t => wp (message_member_list_decode buf len) w (decoded t w)
  | MsgData t => wp (liftO (message_data_decode buf len)) w (decoded t w)
  | MsgAck t => wp (liftO (message_ack_decode buf len)) w (decoded t w)
  | MsgStatus t => wp (liftO (message_status_decode buf len)) w (decoded t w)
  end.

Lemma wire_decodes m rest w :
  no_oom w -> msg_wf m -> zlen (msg_wire m) <= MESSAGE_MAX_SIZE ->
  message_type_decode (msg_wire m ++ rest) (zlen (msg_wire m)) = Ok (msg_type_of m) /\
  decodes_to m (msg_wire m ++ rest) (zlen (msg_wire m)) w.
Proof.
  intros Hw Hm Hl. destruct m as [t|t|t|t|t|t]; cbn [msg_wire msg_wf] in *;
    (split; [exact (codec_type_decode t rest Hm)
            |exact (codec_decode_ok t rest w Hw Hm ltac:(config_lia))]).
Qed.

(** C27: What the node encodes, a node decodes: for each of the six message
    types the encoder fills the start of the buffer and nothing else, the
    type is read back, and the decoder of that type returns an equivalent
    message and its length. *)
Theorem message_roundtrip m buffer w :
  no_oom w -> msg_wf m -> msg_need m <= MESSAGE_MAX_SIZE -> MESSAGE_MAX_SIZE <= zlen buffer ->
  exists len buffer',
    gossip_encode_message (msg_type_of m) m buffer = Ok (len, msg_attempts m, buffer') /\
    sizeof_message_header <= len <= MESSAGE_MAX_SIZE /\ zlen buffer' = zlen buffer /\
    zdrop len buffer' = zdrop len buffer /\
    message_type_decode buffer' len = Ok (msg_type_of m) /\ decodes_to m buffer' len w.
Proof.
  intros Hw Hm Hn Hb. pose proof (msg_need_wire m Hm) as Hl.
  exists (zlen (msg_wire m)). eexists. split; [by apply gossip_encode_message_ok|].
  split; [lia|]. split; [rewrite zlen_app, zlen_zdrop by config_lia; lia|].
  split; [apply zdrop_app|]. apply wire_decodes; [done|done|lia].
Qed.

Lemma message_roundtrip_witness : exists len buffer',
    gossip_encode_message MESSAGE_STATUS_TYPE (MsgStatus sample_status) (zeros 512)
      = Ok (len, 3, buffer') /\
    sizeof_message_header <= len <= MESSAGE_MAX_SIZE /\ zlen buffer' = zlen (zeros 512) /\
    zdrop len buffer' = zdrop len (zeros 512) /\
    message_type_decode buffer' len = Ok MESSAGE_STATUS_TYPE /\
    decodes_to (MsgStatus sample_status) buffer' len sample_world.
Proof.
  exact (message_roundtrip (MsgStatus sample_status) (zeros 512) sample_world sample_no_oom
    sample_status_wf ltac:(vm_compute; discriminate) ltac:(vm_compute; discriminate)).
Defined.

(** A message of another type, without the protocol identifier or
    shorter than a header is refused by every decoder with
    [PITTACUS_ERR_INVALID_MESSAGE], without an allocation. *)
Theorem decoders_refuse m size w :
  (message_is_payload_valid m size MESSAGE_HELLO_TYPE = Ok false ->
     message_hello_decode m size w = Ok ((PITTACUS_ERR_INVALID_MESSAGE, None), w)) /\
  (message_is_payload_valid m size MESSAGE_WELCOME_TYPE = Ok false ->
     message_welcome_decode m size w = Ok ((PITTACUS_ERR_INVALID_MESSAGE, None), w)) /\
  (message_is_payload_valid m size MESSAGE_MEMBER_LIST_TYPE = Ok false ->
     message_member_list_decode m size w = Ok ((PITTACUS_ERR_INVALID_MESSAGE, None), w)) /\
  (message_is_payload_valid m size MESSAGE_DATA_TYPE = Ok false ->
     message_data_decode m size = Ok (PITTACUS_ERR_INVALID_MESSAGE, None)) /\
  (message_is_payload_valid m size MESSAGE_ACK_TYPE = Ok false ->
     message_ack_decode m size = Ok (PITTACUS_ERR_INVALID_MESSAGE, None)) /\
  (message_is_payload_valid m size MESSAGE_STATUS_TYPE = Ok false ->
     message_status_decode m size = Ok (PITTACUS_ERR_INVALID_MESSAGE, None)).
Proof.
  split_and!; intros Hv.
  - exact (codec_decode_invalid (T := message_hello) m size w Hv).
  - exact (codec_decode_invalid (T := message_welcome) m size w Hv).
  - exact (codec_decode_invalid (T := message_member_list) m size w Hv).
  - unfold message_data_decode. by rewrite Hv.
  - unfold message_ack_decode. by rewrite Hv.
  - unfold message_status_decode. by rewrite Hv.
Qed.

(** Bytes with the right type but a wrong protocol identifier. *)
Definition wrong_id : list Z := [112; 116; 99; 115; 1; 4] ++ zeros 10.

Lemma decoders_refuse_witness :
  message_ack_decode wrong_id 16 = Ok (PITTACUS_ERR_INVALID_MESSAGE, None) /\
  message_status_decode wrong_id 16 = Ok (PITTACUS_ERR_INVALID_MESSAGE, None).
Proof.
  destruct (decoders_refuse wrong_id 16 sample_world) as (_ & _ & _ & _ & Hack & Hst).
  split; [apply Hack|apply Hst]; vm_compute; reflexivity.
Defined.

(** The send loop gives each recipient its own sequence number by
    overwriting bytes 8 to 11 of the message in the shared buffer: that is
    the encoding of the renumbered message, and no other byte changes. *)
Theorem renumbering_in_place m n pre rest :
  msg_wf m -> is_u32 n ->
  uint32_encode n (pre ++ msg_wire m ++ rest) (zlen pre + (sizeof_message_header - sizeof_u32))
    = Ok (pre ++ msg_wire (msg_with_seq n m) ++ rest).
Proof.
  intros Hm Hn. pose proof (msg_need_wire m Hm) as [Hl _]. rewrite msg_seq_wire by done.
  rewrite (uint32_encode_at n _ _ (pre ++ ztake 8 (msg_wire m)) (zdrop 8 (msg_wire m) ++ rest)).
  - f_equal. unfold zdrop at 1. rewrite drop_app_le by
      (unfold zdrop; rewrite length_drop; unfold zlen in Hl; config_lia).
    fold (zdrop 4 (zdrop 8 (msg_wire m))). rewrite zdrop_zdrop by lia. by rewrite <- !app_assoc.
  - rewrite <- !app_assoc. f_equal. rewrite app_assoc. by rewrite ztake_zdrop.
  - rewrite zlen_app, zlen_ztake by config_lia. config_lia.
  - done.
  - rewrite zlen_app, zlen_zdrop by config_lia. pose proof (zlen_nonneg rest). config_lia.
Qed.

Lemma renumbering_in_place_witness :
  uint32_encode 258 ([9] ++ msg_wire (MsgAck sample_ack) ++ [8]) (zlen [9] + 8)
    = Ok ([9] ++ msg_wire (msg_with_seq 258 (MsgAck sample_ack)) ++ [8]).
Proof.
  exact (renumbering_in_place (MsgAck sample_ack) 258 [9] [8] sample_ack_wf ltac:(word_lia)).
Defined.

(** * Integers, members, clocks *)

(** Overwriting bytes by as many bytes. *)
Lemma wr_over pre old bs rest :
  zlen old = zlen bs -> wr (pre ++ old ++ rest) (zlen pre) bs = Ok (pre ++ bs ++ rest).
Proof.
  intros Ho. pose proof (zlen_nonneg rest).
  rewrite (wr_at _ _ pre (old ++ rest)) by (done || (rewrite zlen_app; lia)).
  by rewrite <- Ho, zdrop_app, <- app_assoc.
Qed.

(** Reading back a number in network order, on either host. *)
Lemma read_be e n w pre rest :
  rd (pre ++ bytes_be n w ++ rest) (zlen pre) (Z.of_nat n) ≫= (fun bs => mret (ntoh e n (fetch e bs)))
    = Ok (w mod 256 ^ Z.of_nat n).
Proof.
  rewrite (rd_at _ _ pre (bytes_be n w) rest) by (done || by rewrite zlen_bytes_be). out_step.
  rewrite ntoh_fetch by (apply length_bytes_be || apply bytes_be_byte). by rewrite word_bytes_be.
Qed.

(** The integers of the protocol do not depend on the host: a number
    written on a host of either byte order leaves the same bytes, outside the
    four (or two) bytes nothing changes, and every host reads the number
    back, reduced to the width of the type. *)
Theorem integers_portable e e' n pre old rest :
  (zlen old = sizeof_u16 ->
     exists m, uint16_encode_on e n (pre ++ old ++ rest) (zlen pre) = Ok m /\
       uint16_encode_on e' n (pre ++ old ++ rest) (zlen pre) = Ok m /\
       m = pre ++ bytes_be 2 (u16 n) ++ rest /\ uint16_decode_on e' m (zlen pre) = Ok (u16 n)) /\
  (zlen old = sizeof_u32 ->
     exists m, uint32_encode_on e n (pre ++ old ++ rest) (zlen pre) = Ok m /\
       uint32_encode_on e' n (pre ++ old ++ rest) (zlen pre) = Ok m /\
       m = pre ++ bytes_be 4 (u32 n) ++ rest /\ uint32_decode_on e' m (zlen pre) = Ok (u32 n)).
Proof.
  unfold uint16_encode_on, uint32_encode_on, uint16_decode_on, uint32_decode_on.
  rewrite !store_hton. split; intros Ho; rewrite wr_over by (by rewrite zlen_bytes_be);
    (eexists; split_and!; [done|done|done|]).
  - rewrite (read_be e' 2). f_equal. apply u16_id, u16_range.
  - rewrite (read_be e' 4). f_equal. apply u32_id, u32_range.
Qed.

Lemma integers_portable_witness :
  exists m, uint32_encode_on LittleEndian 258 ([7] ++ [0; 0; 0; 0] ++ [8]) 1 = Ok m /\
    uint32_encode_on BigEndian 258 ([7] ++ [0; 0; 0; 0] ++ [8]) 1 = Ok m /\
    m = [7] ++ bytes_be 4 (u32 258) ++ [8] /\ uint32_decode_on BigEndian m 1 = Ok (u32 258).
Proof.
  exact (proj2 (integers_portable LittleEndian BigEndian 258 [7] [0; 0; 0; 0] [8]) eq_refl).
Defined.

(** A cluster member: encoding writes version, uid and address length
    in network order and then the address, only where there is room for
    them; decoding gives back the member and its length, wherever it lies in
    the buffer. *)
Theorem member_roundtrip m pre old size :
  member_wf m -> 0 <= size <= zlen old -> wire_member_len m < 2 ^ 31 ->
  if bool_decide (wire_member_len m <= size) then
    exists rest, zlen rest = zlen old - wire_member_len m /\
      cluster_member_encode m (pre ++ old) (zlen pre) size
        = Ok (wire_member_len m, pre ++ wire_member m ++ rest) /\
      exists m', cluster_member_decode (pre ++ wire_member m ++ rest) (zlen pre) size
                   = Ok (wire_member_len m, Some m') /\ member_eqv m' m /\ member_wf m'
  else cluster_member_encode m (pre ++ old) (zlen pre) size
         = Ok (PITTACUS_ERR_BUFFER_NOT_ENOUGH, pre ++ old).
Proof.
  intros Hm Hs Hl. pose proof Hm as (_ & _ & [? _] & _).
  case_bool_decide as Hd.
  - exists (zdrop (wire_member_len m) old).
    assert (0 <= wire_member_len m) by (unfold wire_member_len; lia).
    split; [by rewrite zlen_zdrop by lia|]. split.
    + rewrite (cluster_member_encode_at m _ _ pre old) by (done || lia). by rewrite <- app_assoc.
    + destruct (member_decode_at m pre (zdrop (wire_member_len m) old) (zlen pre) size)
        as (m' & E & He & Hw & _); [done|done|unfold wire_member_len in *; lia|done|].
      by exists m'.
  - unfold cluster_member_encode. unfold wire_member_len in Hd.
    by rewrite (proj2 (Z.ltb_lt size _)) by config_lia.
Qed.

Lemma member_roundtrip_witness :
  exists rest, zlen rest = zlen (zeros 30) - wire_member_len peer /\
    cluster_member_encode peer ([1] ++ zeros 30) (zlen [1]) 30
      = Ok (wire_member_len peer, [1] ++ wire_member peer ++ rest) /\
    exists m', cluster_member_decode ([1] ++ wire_member peer ++ rest) (zlen [1]) 30
                 = Ok (wire_member_len peer, Some m') /\ member_eqv m' peer /\ member_wf m'.
Proof.
  exact (member_roundtrip peer [1] (zeros 30) 30 (proj1 peer_wf) ltac:(rewrite zlen_zeros; lia)
    ltac:(vm_compute; reflexivity)).
Defined.

(** A vector clock: encoding writes the number of records and the
    records in use, only where there is room for them; decoding into any
    clock gives back the same records. *)
Theorem clock_roundtrip c pre old size dst :
  clock_ok c -> 0 <= size <= zlen old -> zlen pre + size < 2 ^ 64 ->
  zlen (vc_records dst) = MAX_VECTOR_SIZE ->
  let len := sizeof_u16 + vc_size c * VECTOR_RECORD_SIZE in
  if bool_decide (len <= size) then
    exists rest, zlen rest = zlen old - len /\
      vector_clock_encode c (pre ++ old) (zlen pre) size = Ok (len, pre ++ wire_clock c ++ rest) /\
      exists c', vector_clock_decode (pre ++ wire_clock c ++ rest) (zlen pre) size dst
                   = Ok (len, Some c') /\ clock_eqv c' c /\ clock_ok c' /\ clock_map c' = clock_map c
  else vector_clock_encode c (pre ++ old) (zlen pre) size
         = Ok (PITTACUS_ERR_BUFFER_NOT_ENOUGH, pre ++ old).
Proof.
  intros Hc Hs Hb Hd len. pose proof (zlen_wire_clock c Hc) as Hl. fold len in Hl.
  assert (0 <= len) by (destruct Hc as (_ & ? & _); unfold len; config_lia).
  case_bool_decide as Hle.
  - exists (zdrop len old). split; [by rewrite zlen_zdrop by lia|]. split.
    + rewrite (vector_clock_encode_at c _ _ pre old) by (done || lia).
      by rewrite Hl, <- app_assoc.
    + destruct (vector_clock_decode_at c (pre ++ wire_clock c ++ zdrop len old) (zlen pre) pre
        (zdrop len old) size dst) as (c' & E & He & Hok); [done|done|done|lia|done|done|].
      exists c'. rewrite E, Hl. split_and!; try done. by rewrite He.
  - unfold vector_clock_encode. unfold len in Hle. by rewrite (proj2 (Z.ltb_lt size _)) by lia.
Qed.

Lemma clock_roundtrip_witness :
  vector_clock_encode sample_clock ([1] ++ zeros 20) (zlen [1]) 20
    = Ok (PITTACUS_ERR_BUFFER_NOT_ENOUGH, [1] ++ zeros 20) /\
  exists rest, zlen rest = zlen (zeros 30) - 26 /\
    vector_clock_encode sample_clock ([1] ++ zeros 30) (zlen [1]) 30
      = Ok (26, [1] ++ wire_clock sample_clock ++ rest) /\
    exists c', vector_clock_decode ([1] ++ wire_clock sample_clock ++ rest) (zlen [1]) 30
                 vector_clock_init = Ok (26, Some c') /\
      clock_eqv c' sample_clock /\ clock_ok c' /\ clock_map c' = clock_map sample_clock.
Proof.
  split.
  - exact (clock_roundtrip sample_clock [1] (zeros 20) 20 vector_clock_init (proj1 sample_clock_ok)
      ltac:(rewrite zlen_zeros; lia) ltac:(done) eq_refl).
  - exact (clock_roundtrip sample_clock [1] (zeros 30) 30 vector_clock_init (proj1 sample_clock_ok)
      ltac:(rewrite zlen_zeros; lia) ltac:(done) eq_refl).
Defined.
