(* ===== verification/MemberProps.v ===== *)
(** Properties of the set of cluster members. *)
From S2P Require Import Prelude.
From S2P Require Import Config.
From S2P Require Import Utils.
From S2P Require Import World.
From S2P Require Import Member.
From S2P Require Import VectorClock.
From S2P Require Import Messages.
From S2P Require Import Queue.
From S2P Require Import DataLog.
From S2P Require Import Gossip.
From S2P Require Import Node.
From S2P Require Import MemberFacts.
From S2P Require Import MemberSetFacts.
From S2P Require Import VectorClockFacts.
From S2P Require Import WireFacts.
From S2P Require Import MessageFacts.
From S2P Require Import DataLogFacts.
From S2P Require Import QueueFacts.
From S2P Require Import OutboxFacts.
From S2P Require Import EnqueueFacts.
From S2P Require Import Samples.

(** C31: [cluster_member_set_put]: the members that the set does not hold yet
    are copied to its end, in order, each once; the others change nothing;
    the set grows as needed and never holds two equal members. *)
Theorem set_put_correct w s cells news :
  no_oom w -> set_repr s cells -> no_dup_members (set_members_of cells) ->
  Forall member_wf news -> 4 * (ms_size s + zlen news) < 3 * 2 ^ 31 ->
  wp (cluster_member_set_put s news) w (fun r w' =>
    fst r = PITTACUS_ERR_NONE /\ world_le w w' /\
    exists cells', set_repr (snd r) cells' /\
      set_members_of cells' = put_all (set_members_of cells) news /\
      no_dup_members (set_members_of cells')).
Proof.
  intros Hw Hs Hd Hn Hb. apply wp_set_put with cells; try done.
  intros s' cells' w' Hs' E Hle _ _. split; [done|]. split; [done|]. exists cells'.
  split; [done|]. split; [done|]. rewrite E. by apply put_all_no_dup.
Qed.

(** A second host, and a new copy of the first. *)
Definition other : cluster_member := ClusterMember 1 9 16 sample_addr.

Lemma other_wf : member_wf other.
Proof. apply (bool_decide_unpack _). vm_compute. exact I. Qed.

Lemma one_member_no_dup : no_dup_members (set_members_of peer_cells).
Proof. intros [|i] [|j] x y; done. Qed.

Lemma set_put_correct_witness :
  wp (cluster_member_set_put peer_set [peer; other; other]) sample_world (fun r w' =>
    fst r = PITTACUS_ERR_NONE /\ world_le sample_world w' /\
    exists cells', set_repr (snd r) cells' /\ set_members_of cells' = [peer; other] /\
      no_dup_members (set_members_of cells')).
Proof.
  exact (set_put_correct sample_world peer_set peer_cells [peer; other; other] sample_no_oom
    peer_set_repr one_member_no_dup
    (Forall_cons_2 _ _ _ (proj1 peer_wf) (Forall_cons_2 _ _ _ other_wf
      (Forall_cons_2 _ _ _ other_wf (Forall_nil_2 _)))) eq_refl).
Defined.

(** C40: The capacity loop of [cluster_member_set_extend]: up to 1.6 billion
    members the doubling of the [uint32_t] capacity ends before it wraps, and
    the capacity found is large enough; from a capacity of zero the loop
    never ends. *)
Theorem set_capacity_terminates req cap :
  0 <= req -> 4 * req < 3 * 2 ^ 31 -> 1 <= cap < 2 ^ 32 ->
  exists c, extend_capacity extend_fuel req cap = Ok c /\ cap <= c < 2 ^ 32 /\
    load_exceeded req c = false /\
    (load_exceeded req cap = false -> c = cap) /\
    (forall fuel, (extend_fuel <= fuel)%nat -> extend_capacity fuel req cap = Ok c) /\
    (forall fuel, extend_capacity fuel req 0 = Nofuel).
Proof.
  intros Hr Hb Hc.
  assert (forall fuel c, extend_capacity fuel req cap = Ok c -> forall fuel', (fuel <= fuel')%nat ->
            extend_capacity fuel' req cap = Ok c) as Hmono.
  { clear. intros fuel. revert cap. induction fuel as [|fuel IH]; intros cap c E fuel' Hf.
    - cbn [extend_capacity] in E. destruct (load_exceeded req cap) eqn:El; [done|].
      destruct fuel'; cbn [extend_capacity]; by rewrite El.
    - destruct fuel' as [|fuel']; [lia|]. cbn [extend_capacity] in E |- *.
      destruct (load_exceeded req cap) eqn:El; [|done]. apply IH; [done|lia]. }
  destruct (extend_capacity_ok extend_fuel req cap) as (c & E & Hcc & Hl); try done.
  { change (Z.of_nat extend_fuel) with 32. change (2 ^ (31 - 32)) with 0. lia. }
  exists c. split_and!; try done; try lia.
  - intros El. unfold extend_fuel in E. cbn [extend_capacity] in E. rewrite El in E. by injection E.
  - intros fuel Hf. by apply (Hmono _ _ E).
  - intros fuel. assert (load_exceeded req 0 = true) as El by (apply Z.leb_le; lia).
    induction fuel as [|fuel IH]; cbn [extend_capacity]; by rewrite El.
Qed.

Lemma set_capacity_terminates_witness :
  exists c, extend_capacity extend_fuel 24 32 = Ok c /\ 32 <= c < 2 ^ 32 /\
    load_exceeded 24 c = false /\ (load_exceeded 24 32 = false -> c = 32) /\
    (forall fuel, (extend_fuel <= fuel)%nat -> extend_capacity fuel 24 32 = Ok c) /\
    (forall fuel, extend_capacity fuel 24 0 = Nofuel).
Proof.
  exact (set_capacity_terminates 24 32 ltac:(lia) ltac:(lia) ltac:(lia)).
Defined.

(** [cluster_member_set_remove_by_addr] removes the first member whose
    address starts with the given bytes and keeps the others in order; when
    there is none the set is unchanged. *)
Theorem set_remove_correct s cells addr n :
  set_repr s cells -> 0 <= n <= zlen addr ->
  Forall (fun m => n <= cm_address_len m) (set_members_of cells) ->
  exists removed s', cluster_member_set_remove_by_addr s addr n = Ok (removed, s') /\
    ((removed = true /\ exists pre c post, cells = pre ++ c :: post /\
        ztake n (cm_address (cell_member c)) = ztake n addr /\
        Forall (fun c => ztake n (cm_address (cell_member c)) <> ztake n addr) pre /\
        set_repr s' (pre ++ post)) \/
     (removed = false /\ set_repr s' cells /\
        Forall (fun c => ztake n (cm_address (cell_member c)) <> ztake n addr) cells)).
Proof.
  intros Hs Hn Ha. destruct (remove_by_addr_repr s cells addr n Hs Hn Ha) as (s' & E & Hs').
  eexists _, s'. split; [exact E|].
  destruct (list_find _ cells) as [[i c]|] eqn:Ef.
  - left. split; [by apply bool_decide_true|].
    apply list_find_Some in Ef as (Hi & Hc & Hbefore).
    exists (take i cells), c, (drop (S i) cells). split; [by rewrite take_drop_middle|].
    split; [done|]. split; [|by rewrite delete_take_drop in Hs'].
    apply Forall_lookup. intros j x [Hj Hji]%lookup_take_Some. by apply (Hbefore j).
  - right. split; [apply bool_decide_false; by intros [? ?]|]. split; [done|].
    exact (proj1 (list_find_None _ _) Ef).
Qed.

Lemma set_remove_correct_witness :
  exists removed s', cluster_member_set_remove_by_addr peer_set peer_addr 16 = Ok (removed, s') /\
    ((removed = true /\ exists pre c post, peer_cells = pre ++ c :: post /\
        ztake 16 (cm_address (cell_member c)) = ztake 16 peer_addr /\
        Forall (fun c => ztake 16 (cm_address (cell_member c)) <> ztake 16 peer_addr) pre /\
        set_repr s' (pre ++ post)) \/
     (removed = false /\ set_repr s' peer_cells /\
        Forall (fun c => ztake 16 (cm_address (cell_member c)) <> ztake 16 peer_addr) peer_cells)).
Proof.
  refine (set_remove_correct peer_set peer_cells peer_addr 16 peer_set_repr
    _ _).
  - split; vm_compute; discriminate.
  - apply Forall_singleton. vm_compute. discriminate.
Defined.

(** [cluster_member_set_random_members]: whatever the random numbers,
    the sample holds cells at distinct places of the set, as many as asked
    for or all there are; a sample of the whole set is the set in order. *)
Theorem random_members_correct w s cells n :
  set_repr s cells -> 0 <= n ->
  wp (cluster_member_set_random_members s n) w (fun r w' =>
    (exists idxs : list nat, NoDup idxs /\ Forall2 (fun i c => cells !! i = Some c) idxs r) /\
    zlen r = Z.min n (ms_size s) /\ (ms_size s <= n -> r = cells) /\ world_le w w').
Proof.
  intros Hs Hn. apply wp_random_members with cells; try done.
  intros r w' (idxs & Hnd & _ & Hr) Hl Hall Hle _ _ _. split_and!; try done. by exists idxs.
Qed.

Lemma random_members_correct_witness :
  wp (cluster_member_set_random_members peer_set 3) sample_world (fun r w' =>
    (exists idxs : list nat, NoDup idxs /\ Forall2 (fun i c => peer_cells !! i = Some c) idxs r) /\
    zlen r = Z.min 3 1 /\ (1 <= 3 -> r = peer_cells) /\ world_le sample_world w').
Proof.
  exact (random_members_correct sample_world peer_set peer_cells 3 peer_set_repr ltac:(lia)).
Defined.
