(* ===== verification/ClockProps.v ===== *)
(** Properties of vector clocks against the pointwise order of maps from
    originators to sequence numbers. *)
From S2P Require Import Prelude.
From S2P Require Import Config.
From S2P Require Import Utils.
From S2P Require Import World.
From S2P Require Import Member.
From S2P Require Import VectorClock.
From S2P Require Import Messages.
From S2P Require Import Queue.
From S2P Require Import DataLog.
From S2P Require Import Gossip.
From S2P Require Import Node.
From S2P Require Import MemberFacts.
From S2P Require Import MemberSetFacts.
From S2P Require Import VectorClockFacts.
From S2P Require Import CompareFacts.
From S2P Require Import WireFacts.
From S2P Require Import MessageFacts.
From S2P Require Import DataLogFacts.
From S2P Require Import QueueFacts.
From S2P Require Import OutboxFacts.
From S2P Require Import EnqueueFacts.
From S2P Require Import PublicFacts.
From S2P Require Import Samples.

(** * The order *)

(** Everything known to [a] is known to [b], as recent or more recent. *)
Definition leq (a b : gmap Z Z) : Prop :=
  forall id s, a !! id = Some s -> exists s', b !! id = Some s' /\ s <= s'.

#[export] Instance leq_preorder : PreOrder leq.
Proof.
  split.
  - intros a id s H. by exists s.
  - intros a b c Hab Hbc id s (s' & H' & Hs)%Hab. apply Hbc in H' as (s'' & H'' & Hs').
    exists s''. split; [done|lia].
Qed.

Lemma leq_antisym a b : leq a b -> leq b a -> a = b.
Proof.
  intros Hab Hba. apply map_eq. intros id. apply option_eq. intros s. split.
  - intros H. destruct (Hab _ _ H) as (s' & H' & ?). destruct (Hba _ _ H') as (s'' & H'' & ?).
    rewrite H in H''. injection H'' as <-. rewrite H'. f_equal. lia.
  - intros H. destruct (Hba _ _ H) as (s' & H' & ?). destruct (Hab _ _ H') as (s'' & H'' & ?).
    rewrite H in H''. injection H'' as <-. rewrite H'. f_equal. lia.
Qed.

Lemma newer_in_bool c d :
  clock_ok c ->
  bool_decide (newer_in (clock_map c) (clock_map d)) = false <-> leq (clock_map c) (clock_map d).
Proof.
  intros Hc. rewrite bool_decide_eq_false. unfold newer_in, leq. split.
  - intros He id s H. destruct (clock_map_range _ _ _ Hc H) as [[? _] _].
    destruct (clock_map d !! id) as [s'|] eqn:E.
    + exists s'. split; [done|]. apply Z.nlt_ge. intros Hlt. apply He. exists id, s. by rewrite E.
    + exfalso. apply He. exists id, s. rewrite E. cbn. split; [done|lia].
  - intros Hl (id & s & H & Hs). destruct (Hl id s H) as (s' & E & ?). rewrite E in Hs. cbn in Hs. lia.
Qed.

(** * Comparison *)

(** C26: [vector_clock_compare] without merging decides the pointwise order
    of the two clocks: equal, before, after, or a conflict when each knows
    something the other does not; the clock compared is unchanged. *)
Theorem clock_compare_correct a b :
  clock_ok a -> clock_ok b ->
  exists res, vector_clock_compare a b false = Ok (res, a) /\
    (res = VC_EQUAL <-> clock_map a = clock_map b) /\
    (res = VC_BEFORE <-> leq (clock_map a) (clock_map b) /\ ~ leq (clock_map b) (clock_map a)) /\
    (res = VC_AFTER <-> leq (clock_map b) (clock_map a) /\ ~ leq (clock_map a) (clock_map b)) /\
    (res = VC_CONFLICT <-> ~ leq (clock_map a) (clock_map b) /\ ~ leq (clock_map b) (clock_map a)).
Proof.
  intros Ha Hb. eexists. split; [by apply vector_clock_compare_read|].
  pose proof (newer_in_bool a b Ha) as Hab. pose proof (newer_in_bool b a Hb) as Hba.
  assert (clock_map a = clock_map b <->
          leq (clock_map a) (clock_map b) /\ leq (clock_map b) (clock_map a)) as Heq.
  { split; [by intros ->|intros [? ?]; by apply leq_antisym]. }
  unfold compare_maps. rewrite Heq, <- Hab, <- Hba.
  destruct (bool_decide _), (bool_decide _); cbn; intuition discriminate.
Qed.

(** A clock that has seen more of one originator and nothing of another. *)
Definition later_clock : vector_clock :=
  VectorClock 1 1 (VectorRecord 4 77 :: replicate 19 (VectorRecord 0 0)).

Lemma later_clock_wf : clock_wf later_clock.
Proof. apply (bool_decide_unpack _). vm_compute. exact I. Qed.

Lemma clock_compare_correct_witness :
  exists res, vector_clock_compare sample_clock later_clock false = Ok (res, sample_clock) /\
    (res = VC_EQUAL <-> clock_map sample_clock = clock_map later_clock) /\
    (res = VC_BEFORE <-> leq (clock_map sample_clock) (clock_map later_clock) /\
                         ~ leq (clock_map later_clock) (clock_map sample_clock)) /\
    (res = VC_AFTER <-> leq (clock_map later_clock) (clock_map sample_clock) /\
                        ~ leq (clock_map sample_clock) (clock_map later_clock)) /\
    (res = VC_CONFLICT <-> ~ leq (clock_map sample_clock) (clock_map later_clock) /\
                           ~ leq (clock_map later_clock) (clock_map sample_clock)).
Proof.
  exact (clock_compare_correct sample_clock later_clock (proj1 sample_clock_ok)
    (proj1 later_clock_wf)).
Defined.

(** * Merging *)

Lemma join_lookup a b id :
  join_maps a b !! id = union_with (fun x y => Some (Z.max x y)) (a !! id) (b !! id).
Proof. apply lookup_union_with. Qed.

Lemma join_dom a b : dom (join_maps a b) = dom a ∪ dom b.
Proof.
  apply set_eq. intros id. rewrite elem_of_union, !elem_of_dom, join_lookup.
  split; [intros [x Hx]|intros [[x ->]|[x ->]]].
  - destruct (a !! id); [left; eauto|]. destruct (b !! id); [right; eauto|done].
  - destruct (b !! id); cbn; eauto.
  - destruct (a !! id); cbn; eauto.
Qed.

Lemma join_lub a b :
  leq a (join_maps a b) /\ leq b (join_maps a b) /\
  forall m, leq a m -> leq b m -> leq (join_maps a b) m.
Proof.
  split_and!.
  - intros id s H. rewrite join_lookup, H. destruct (b !! id) as [s'|]; cbn; eexists; split; try done; lia.
  - intros id s H. rewrite join_lookup, H. destruct (a !! id) as [s'|]; cbn; eexists; split; try done; lia.
  - intros m Ha Hb id s. rewrite join_lookup.
    destruct (a !! id) as [x|] eqn:Ea, (b !! id) as [y|] eqn:Eb; cbn; intros [= <-].
    + destruct (Ha _ _ Ea) as (z & Ez & ?). destruct (Hb _ _ Eb) as (z' & Ez' & ?).
      rewrite Ez in Ez'. injection Ez' as <-. exists z. split; [done|lia].
    + by apply Ha.
    + by apply Hb.
Qed.

(** C25: [vector_clock_compare] with merging: when the originators of both
    clocks fit one clock, the first becomes the least upper bound of the two;
    the result is that of the comparison, and the merge loop ends. *)
Theorem clock_merge_correct a b :
  clock_wf a -> clock_ok b ->
  Z.of_nat (size (dom (clock_map a) ∪ dom (clock_map b))) <= MAX_VECTOR_SIZE ->
  exists res c, vector_clock_compare a b true = Ok (res, c) /\
    vector_clock_compare a b false = Ok (res, a) /\ clock_wf c /\
    leq (clock_map a) (clock_map c) /\ leq (clock_map b) (clock_map c) /\
    forall m, leq (clock_map a) m -> leq (clock_map b) m -> leq (clock_map c) m.
Proof.
  intros Ha Hb Hs. destruct (vector_clock_compare_merge a b Ha Hb) as (c & E & Hc & Em).
  { by rewrite <- size_dom, join_dom. }
  exists (compare_maps (clock_map a) (clock_map b)), c. rewrite Em. split; [done|].
  split; [by apply vector_clock_compare_read; [apply Ha|]|]. split; [done|]. apply join_lub.
Qed.

Lemma clock_merge_correct_witness :
  exists res c, vector_clock_compare sample_clock later_clock true = Ok (res, c) /\
    vector_clock_compare sample_clock later_clock false = Ok (res, sample_clock) /\ clock_wf c /\
    leq (clock_map sample_clock) (clock_map c) /\ leq (clock_map later_clock) (clock_map c) /\
    forall m, leq (clock_map sample_clock) m -> leq (clock_map later_clock) m ->
              leq (clock_map c) m.
Proof.
  exact (clock_merge_correct sample_clock later_clock sample_clock_ok (proj1 later_clock_wf)
    ltac:(vm_compute; discriminate)).
Defined.

(** * Updates *)

(** [vector_clock_set_by_id] on a well-formed clock: the index returned
    holds the record set, the search then finds it there, the clock stays
    well formed, and every other originator keeps its number, except that a
    full clock gives up the oldest slot for an originator it did not know. *)
Theorem clock_set_correct c id seq :
  clock_wf c -> is_u64 id -> is_u32 seq ->
  exists (k : nat) c', vector_clock_set_by_id c id seq = Ok (Z.of_nat k, c') /\ clock_wf c' /\
    vc_records c' !! k = Some (VectorRecord seq id) /\ clock_map c' !! id = Some seq /\
    forall id', id' <> id -> clock_map c' !! id' = clock_map c !! id' \/
      (vc_size c = MAX_VECTOR_SIZE /\ clock_map c !! id = None /\ clock_map c' !! id' = None /\
       exists r, vc_records c !! Z.to_nat (vc_current_idx c) = Some r /\ vr_member_id r = id').
Proof.
  intros Hc Hid Hseq.
  destruct (vector_clock_set_by_id_spec c id seq Hc Hid Hseq) as (k & c' & E & Hc' & Em & Hk).
  exists k, c'. split_and!; try done; [by rewrite Em, lookup_insert_eq|].
  intros id' Hne. rewrite Em, lookup_insert_ne by done. unfold evicted.
  destruct (clock_map c !! id) as [s|] eqn:Eid; [by left|].
  destruct (Z.ltb_spec (vc_size c) MAX_VECTOR_SIZE) as [?|Hfull]; [by left|].
  destruct (vc_records c !! _) as [r|] eqn:Er; [|by left].
  destruct (decide (vr_member_id r = id')) as [<-|Hr]; [right|left; by apply lookup_delete_ne].
  destruct Hc as [(_ & ? & _) _]. split_and!; [lia|done|by apply lookup_delete_eq|by exists r].
Qed.

(** A clock whose twenty slots are in use. *)
Definition full_clock : vector_clock :=
  VectorClock 20 5 ((fun k => VectorRecord 1 (Z.of_nat k)) <$> seq 100 20).

Lemma full_clock_wf : clock_wf full_clock.
Proof. apply (bool_decide_unpack _). vm_compute. exact I. Qed.

Lemma clock_set_correct_witness :
  exists (k : nat) c', vector_clock_set_by_id full_clock 7 3 = Ok (Z.of_nat k, c') /\
    clock_wf c' /\ vc_records c' !! k = Some (VectorRecord 3 7) /\ clock_map c' !! 7 = Some 3 /\
    forall id', id' <> 7 -> clock_map c' !! id' = clock_map full_clock !! id' \/
      (20 = MAX_VECTOR_SIZE /\ clock_map full_clock !! 7 = None /\ clock_map c' !! id' = None /\
       exists r, vc_records full_clock !! 5%nat = Some r /\ vr_member_id r = id').
Proof.
  exact (clock_set_correct full_clock 7 3 full_clock_wf ltac:(word_lia) ltac:(word_lia)).
Defined.

(** [vector_clock_compare_with_record] with merging sees a record once:
    it answers [VC_BEFORE] exactly when the record is newer than what the
    clock knows of its originator; the clock then knows it, so that the same
    record compares [VC_EQUAL]; otherwise the clock is unchanged. *)
Theorem record_seen_once c r :
  clock_wf c -> record_wf r ->
  let seen := clock_map c !! vr_member_id r in
  exists res c', vector_clock_compare_with_record c r true = Ok (res, c') /\ clock_wf c' /\
    (res = VC_BEFORE <-> default (-1) seen < vr_sequence_number r) /\
    (res = VC_EQUAL <-> seen = Some (vr_sequence_number r)) /\
    (res = VC_BEFORE -> clock_map c' !! vr_member_id r = Some (vr_sequence_number r) /\
       vector_clock_compare_with_record c' r true = Ok (VC_EQUAL, c')) /\
    (res <> VC_BEFORE -> c' = c).
Proof.
  intros Hc Hr seen. pose proof Hr as [[Hs _] _].
  destruct (compare_with_record_spec c r true Hc Hr) as (c' & E & Hc' & Hm).
  fold seen in E, Hm. exists (record_comp seen (vr_sequence_number r)), c'.
  assert (record_comp seen (vr_sequence_number r) = VC_BEFORE
          <-> default (-1) seen < vr_sequence_number r) as Hb.
  { unfold record_comp. destruct (Z.ltb_spec (vr_sequence_number r) (default (-1) seen)),
      (Z.ltb_spec (default (-1) seen) (vr_sequence_number r)); cbn; split; try done; lia. }
  split_and!; [done|done|done| | |].
  - unfold record_comp. destruct seen as [s|]; cbn;
      destruct (Z.ltb_spec (vr_sequence_number r) s) || destruct (Z.ltb_spec (vr_sequence_number r) (-1));
      try destruct (Z.ltb_spec s (vr_sequence_number r)); try destruct (Z.ltb_spec (-1) (vr_sequence_number r));
      cbn; split; intros; try done; try lia; try (f_equal; lia); try (simplify_eq; lia).
  - intros Hres%Hb. rewrite bool_decide_true in Hm by done. cbn [andb] in Hm.
    rewrite Hm, lookup_insert_eq. split; [done|].
    destruct (compare_with_record_spec c' r true Hc' Hr) as (c2 & E2 & _ & Hm2).
    rewrite E2. rewrite Hm, lookup_insert_eq in Hm2 |- *. cbn in Hm2.
    rewrite bool_decide_false in Hm2 by lia. subst c2.
    unfold record_comp. cbn. by rewrite Z.ltb_irrefl.
  - intros Hres. assert (~ default (-1) seen < vr_sequence_number r) as Hnot by by rewrite <- Hb.
    by rewrite bool_decide_false in Hm.
Qed.

Lemma record_seen_once_witness :
  exists res c', vector_clock_compare_with_record sample_clock (VectorRecord 4 77) true = Ok (res, c') /\
    clock_wf c' /\ (res = VC_BEFORE <-> default (-1) (clock_map sample_clock !! 77) < 4) /\
    (res = VC_EQUAL <-> clock_map sample_clock !! 77 = Some 4) /\
    (res = VC_BEFORE -> clock_map c' !! 77 = Some 4 /\
       vector_clock_compare_with_record c' (VectorRecord 4 77) true = Ok (VC_EQUAL, c')) /\
    (res <> VC_BEFORE -> c' = sample_clock).
Proof.
  exact (record_seen_once sample_clock (VectorRecord 4 77) sample_clock_ok
    ltac:(apply (bool_decide_unpack _); vm_compute; exact I)).
Defined.
