(* ===== verification/QueueProps.v ===== *)
(** Properties of the outbound queue and of the data log. *)
From S2P Require Import Prelude.
From S2P Require Import Config.
From S2P Require Import Utils.
From S2P Require Import World.
From S2P Require Import Member.
From S2P Require Import VectorClock.
From S2P Require Import Messages.
From S2P Require Import Queue.
From S2P Require Import DataLog.
From S2P Require Import Gossip.
From S2P Require Import Node.
From S2P Require Import MemberFacts.
From S2P Require Import MemberSetFacts.
From S2P Require Import VectorClockFacts.
From S2P Require Import WireFacts.
From S2P Require Import MessageFacts.
From S2P Require Import DataLogFacts.
From S2P Require Import QueueFacts.
From S2P Require Import OutboxFacts.
From S2P Require Import EnqueueFacts.
From S2P Require Import Samples.

(** * Queue *)

(** C30: The doubly linked list of envelopes implements a list: an enqueued
    envelope comes last; a removed one leaves the others in order, wherever
    it was, and its memory is freed; the search returns the first envelope
    with the sequence number; clearing frees every envelope. No operation
    follows a pointer to a freed envelope or loses one, and every walk ends. *)
Theorem queue_refines_list q xs :
  queue_repr q xs ->
  (forall l x, q_heap q !! l = None -> en_prev x = None ->
     exists q', gossip_envelope_enqueue (alloc_envelope q l x) l = Ok q' /\
       queue_repr q' (xs ++ [(l, x)])) /\
  (forall pre l x post, xs = pre ++ (l, x) :: post ->
     exists q', gossip_envelope_remove q l = Ok q' /\ queue_repr q' (pre ++ post) /\
       q_heap q' !! l = None) /\
  (forall n, gossip_envelope_find_by_sequence_num q n = Ok (find_seq n xs)) /\
  gossip_envelope_clear q = Ok (MessageQueue ∅ None None).
Proof.
  intros Hq. split_and!.
  - intros l x. by apply enqueue_repr.
  - intros pre l x post E. destruct (remove_repr q xs Hq (length pre) l x) as (q' & Er & Hq').
    { subst xs. by apply list_lookup_middle. }
    assert (delete (length pre) xs = pre ++ post) as Ed by (subst xs; by rewrite delete_middle).
    rewrite Ed in Hq'. exists q'. split; [done|]. split; [done|].
    apply eq_None_not_Some. intros [e He]. apply (qr_only _ _ Hq') in He.
    pose proof (qr_nodup _ _ Hq) as Hnd. rewrite E, fmap_app, fmap_cons in Hnd.
    apply NoDup_app in Hnd as (_ & Hpre & Hnd). apply NoDup_cons in Hnd as [Hpost _].
    rewrite fmap_app, elem_of_app in He. destruct He as [He|He]; [|by apply Hpost].
    apply (Hpre _ He). by left.
  - by apply find_repr.
  - by apply clear_repr with xs.
Qed.

(** Two envelopes in the queue. *)
Definition env (n : Z) : message_envelope_out := Envelope peer_addr 16 0 29 n 0 0 3 None None.
Definition two_queue : message_queue :=
  MessageQueue (<[2%nat := link (Some 1%nat) None (env 8)]> (<[1%nat := link None (Some 2%nat) (env 7)]> ∅))
    (Some 1%nat) (Some 2%nat).

Lemma two_queue_repr : queue_repr two_queue [(1%nat, env 7); (2%nat, env 8)].
Proof.
  split; try done.
  - repeat constructor; set_solver.
  - intros [|[|i]] l x; [intros [= <- <-]..|done]; vm_compute; reflexivity.
  - intros l e. unfold two_queue. cbn [q_heap]. rewrite !lookup_insert_Some, lookup_empty.
    set_solver.
Qed.

Lemma queue_refines_list_witness :
  (exists q', gossip_envelope_remove two_queue 1%nat = Ok q' /\
     queue_repr q' [(2%nat, env 8)] /\ q_heap q' !! 1%nat = None) /\
  gossip_envelope_find_by_sequence_num two_queue 8 = Ok (Some 2%nat).
Proof.
  destruct (queue_refines_list two_queue _ two_queue_repr) as (_ & Hr & Hf & _).
  split; [exact (Hr [] 1%nat (env 7) [(2%nat, env 8)] eq_refl)|exact (Hf 8)].
Defined.

(** * Data log *)

(** [gossip_data_log]: the log holds the latest message logged of each
    originator: a message replaces the entry of its originator, or takes a
    new slot, or, in a full log, the oldest slot; no other entry changes, and
    the log never holds two entries of one originator. *)
Theorem data_log_correct log msg :
  log_wf log -> data_msg_wf msg ->
  exists log', gossip_data_log log msg = Ok log' /\ log_wf log' /\
    data_entry msg ∈ log_view log' /\ NoDup (le_id <$> log_view log') /\
    (forall e, e ∈ log_view log' -> e = data_entry msg \/ e ∈ log_view log) /\
    (forall e, e ∈ log_view log -> le_id e <> le_id (data_entry msg) ->
       e ∈ log_view log' \/
       (dl_size log = DATA_LOG_SIZE /\ log_view log !! Z.to_nat (dl_current_idx log) = Some e)).
Proof.
  intros Hl Hm. destruct (gossip_data_log_repr log Hl msg Hm) as (log' & E & Hl' & Hv).
  exists log'. split; [done|]. split; [done|]. pose proof (lw_ids _ Hl') as Hids.
  pose proof (length_live_log log Hl) as Hlen. destruct Hl as [_ _ Hs Hi _ _ _].
  assert (length (log_view log) = Z.to_nat (dl_size log)) as Hlv
    by (unfold log_view; by rewrite length_fmap).
  rewrite Hv in *. split.
  { apply log_put_in. unfold zlen. lia. }
  split; [done|]. unfold log_put. destruct (list_find _ _) as [[i old]|] eqn:Ef.
  - apply list_find_Some in Ef as (Hio & Hid & _). split.
    + intros e (j & Hj)%list_elem_of_lookup. apply list_lookup_insert_Some in Hj as [(_ & -> & _)|[_ Hj]];
        [by left|right; by eapply list_elem_of_lookup_2].
    + intros e (j & Hj)%list_elem_of_lookup Hne. left.
      apply list_elem_of_lookup_2 with j. apply list_lookup_insert_Some. right. split; [|done].
      intros ->. rewrite Hio in Hj. by injection Hj as ->.
  - case_bool_decide as Hroom; unfold zlen in Hroom.
    + split; intros e; rewrite elem_of_app, list_elem_of_singleton; naive_solver.
    + split.
      * intros e (j & Hj)%list_elem_of_lookup. apply list_lookup_insert_Some in Hj as [(_ & -> & _)|[_ Hj]];
          [by left|right; by eapply list_elem_of_lookup_2].
      * intros e (j & Hj)%list_elem_of_lookup Hne.
        destruct (decide (j = Z.to_nat (dl_current_idx log))) as [->|Hjne].
        -- right. split; [lia|done].
        -- left. apply list_elem_of_lookup_2 with j. apply list_lookup_insert_Some. by right.
Qed.

Lemma data_log_correct_witness :
  exists log', gossip_data_log empty_log sample_data = Ok log' /\ log_wf log' /\
    data_entry sample_data ∈ log_view log' /\ NoDup (le_id <$> log_view log') /\
    (forall e, e ∈ log_view log' -> e = data_entry sample_data \/ e ∈ log_view empty_log) /\
    (forall e, e ∈ log_view empty_log -> le_id e <> le_id (data_entry sample_data) ->
       e ∈ log_view log' \/
       (0 = DATA_LOG_SIZE /\ log_view empty_log !! 0%nat = Some e)).
Proof.
  exact (data_log_correct empty_log sample_data empty_log_ok
    ltac:(apply (bool_decide_unpack _); vm_compute; exact I)).
Defined.
