(* ===== verification/LengthProps.v ===== *)
(** Lengths that the code takes from the network or from the user without
    comparing them with the memory they are used on. *)
From S2P Require Import Prelude.
From S2P Require Import Config.
From S2P Require Import Utils.
From S2P Require Import World.
From S2P Require Import Member.
From S2P Require Import VectorClock.
From S2P Require Import Messages.
From S2P Require Import Queue.
From S2P Require Import DataLog.
From S2P Require Import Gossip.
From S2P Require Import Node.
From S2P Require Import MemberFacts.
From S2P Require Import MemberSetFacts.
From S2P Require Import VectorClockFacts.
From S2P Require Import WireFacts.
From S2P Require Import MessageFacts.
From S2P Require Import DataLogFacts.
From S2P Require Import QueueFacts.
From S2P Require Import OutboxFacts.
From S2P Require Import EnqueueFacts.
From S2P Require Import NodeFacts.
From S2P Require Import HandlerFacts.
From S2P Require Import PublicFacts.
From S2P Require Import Samples.
From S2P Require Import SyncFacts.

Lemma rd_in m off n :
  0 <= off -> 0 <= n -> off + n <= zlen m -> rd m off n = Ok (if n =? 0 then [] else ztake n (zdrop off m)).
Proof.
  intros. unfold rd. destruct (Z.eqb_spec n 0); [done|].
  by replace (_ && _ && _) with true by (symmetry; rewrite !andb_true_iff, !Z.leb_le; lia).
Qed.

Lemma wr_long m off bs : 0 < zlen bs -> zlen m < off + zlen bs -> wr m off bs = Ub.
Proof.
  intros Hb Hl. unfold wr. destruct (Z.eqb_spec (zlen bs) 0); [lia|].
  by rewrite (proj2 (Z.leb_gt (off + zlen bs) (zlen m))), andb_false_r by lia.
Qed.

(** The record loop leaves the array when there are more records than slots. *)
Lemma decode_records_overflow n m end_ recs : forall i cursor,
  0 <= i -> zlen recs < i + Z.of_nat n -> i <= zlen recs -> 0 <= cursor ->
  cursor + Z.of_nat n * VECTOR_RECORD_SIZE <= end_ -> end_ <= zlen m -> end_ < 2 ^ 64 ->
  decode_records n i m cursor end_ recs = Ub.
Proof.
  revert recs. induction n as [|n IH]; intros recs i cursor Hi Hn Hir Hc Hend Hm Hb; [lia|].
  cbn [decode_records]. rewrite u64_id by config_lia. unfold vector_clock_record_decode.
  rewrite (proj2 (Z.ltb_ge (end_ - cursor) VECTOR_RECORD_SIZE)) by config_lia.
  unfold uint32_decode, uint32_decode_on. rewrite !rd_in by config_lia. out_step.
  rewrite i32_id by config_lia. destruct (Z.eq_dec i (zlen recs)) as [->|Hne].
  - unfold awrite. rewrite Z.ltb_irrefl. by rewrite andb_false_r.
  - unfold awrite at 1. replace (_ && _) with true
      by (symmetry; rewrite andb_true_iff, Z.leb_le, Z.ltb_lt; lia). out_step.
    rewrite (proj2 (Z.ltb_ge _ 0)) by config_lia.
    apply IH; unfold zlen in *; rewrite ?length_insert; config_lia.
Qed.

(** * An address longer than a [sockaddr_storage] *)

(** A bind goes wrong when its rest does from wherever its start leads. *)
Lemma wp_then_ub {St A B} (m : M St A) (f : A -> M St B) s Q :
  wp m s Q -> (forall a s', Q a s' -> f a s' = Ub) -> (m ≫= f) s = Ub.
Proof. rewrite wp_run. intros (a & s' & E & HQ) Hf. rewrite (M_ok_bind _ _ _ _ _ E). by apply Hf. Qed.

Lemma bind_ub {St A B} (m : M St A) (f : A -> M St B) s : m s = Ub -> (m ≫= f) s = Ub.
Proof. intros E. unfold mbind, M_bind. by rewrite E. Qed.

Lemma lift_then {St A B} (m : out A) (f : A -> M St B) a s : m = Ok a -> (liftO m ≫= f) s = f a s.
Proof. intros ->. done. Qed.

Section LongAddress.
Context {Ctx : Type}.
Implicit Types n : node Ctx.

(** The members of the node are those of the set [s]. *)
Definition with_members (s : cluster_member_set) n : node Ctx :=
  Node (set_members s (n_self n)) (n_world n) (n_context n).

(** The address does not fit an envelope. *)
Definition long_address (m : cluster_member) : Prop := sizeof_sockaddr_storage < cm_address_len m.

Lemma envelope_create_long q seq buffer size attempts recipient len w :
  no_oom w -> sizeof_sockaddr_storage < len <= zlen recipient ->
  gossip_envelope_create q seq buffer size attempts recipient len w = Ub.
Proof.
  intros Hw Hl. unfold gossip_envelope_create, mbind, M_bind, malloc.
  rewrite Hw. unfold liftO. rewrite rd_prefix by config_lia.
  by rewrite (proj2 (Z.ltb_lt sizeof_sockaddr_storage len)) by lia.
Qed.

(** The copy into the envelope overflows. *)
Lemma to_outbound_long n b size attempts m :
  no_oom (n_world n) -> stored_wf m -> long_address m ->
  gossip_enqueue_to_outbound b size attempts (cm_address m) (cm_address_len m) n = Ub.
Proof.
  intros Hw [_ Hz] Hlong. unfold gossip_enqueue_to_outbound, mbind, M_bind, self, modify_self, liftW.
  cbn [n_world]. rewrite envelope_create_long; [done|done|]. unfold long_address in Hlong. lia.
Qed.

(** Queueing a message for members it samples ends there. *)
Lemma enqueue_message_long m to len n xs cells :
  outbox n xs -> set_repr (g_members (n_self n)) cells -> cells <> [] ->
  Forall (fun c => long_address (cell_member c)) cells -> msg_wf m -> msg_need m <= MESSAGE_MAX_SIZE ->
  gossip_enqueue_message (msg_type_of m) m to len GOSSIP_RANDOM n = Ub.
Proof.
  intros Hn Hset Hne Hlong Hm Hneed. unfold gossip_enqueue_message.
  eapply wp_then_ub; [by apply wp_update_output_buffer_offset|].
  intros off n1 (slot & xs1 & -> & Hav & Hn1 & Hfr & _). cbn beta.
  pose proof (available_range _ _ _ (ob_slots _ _ Hn) Hav) as Hr.
  rewrite (M_ok_bind self _ n1 (n_self n1) n1) by done. cbv zeta.
  erewrite lift_then.
  2:{ apply gossip_encode_message_ok; [done|done|]. pose proof (ob_out _ _ Hn1).
      rewrite zlen_zdrop_max by config_lia. config_lia. }
  cbn beta iota. pose proof (msg_need_wire m Hm) as Hlw.
  erewrite M_ok_bind by reflexivity.
  destruct (Z.ltb_spec (zlen (msg_wire m)) 0) as [?|_]; [config_lia|]. cbn [n_self n_world n_context].
  eapply (wp_then_ub _ _ _ (fun r n3 => sample_of cells r (length cells) /\ zlen r = Z.min MESSAGE_RUMOR_FACTOR (zlen cells) /\
    no_oom (n_world n3))).
  { apply wp_liftW. cbn [n_world]. pose proof Hset as (_ & Hsz & _).
    eapply (wp_random_members _ _ cells); [by rewrite (ef_members _ _ Hfr)|done|].
    intros r w' Hrs Hlen _ Hle _ _ _. split; [done|]. split; [by rewrite Hlen, Hsz, (ef_members _ _ Hfr)|].
    by apply (no_oom_le (n_world n1)), Hn1. }
  intros r n3 (Hrs & Hlen & Hoom). destruct r as [|c r].
  { pose proof (zlen_nonneg cells). assert (zlen cells <> 0) by (by intros ?%zlen_zero).
    change (zlen (@nil member_cell)) with 0 in Hlen. config_lia. }
  assert (c ∈ cells) as Hc by (eapply sample_of_elem; [exact Hrs|by left]).
  cbn [fmap list_fmap enqueue_all]. apply bind_ub, to_outbound_long; [done| |].
  - destruct Hset as (_ & _ & _ & _ & _ & Hw). by apply (proj1 (Forall_forall _ _) Hw c).
  - by apply (proj1 (Forall_forall _ _) Hlong c).
Qed.

(** Sending data, of a node in good order but for its members. *)
Lemma send_data_long n xs cells0 s cells data size :
  node_ok n xs cells0 -> connected n -> set_repr s cells -> cells <> [] ->
  Forall (fun c => long_address (cell_member c)) cells -> 0 <= size <= MAX_PAYLOAD -> size <= zlen data ->
  pittacus_gossip_send_data data size (with_members s n) = Ub.
Proof.
  intros Hn Hc Hset Hne Hlong Hsz Hd. pose proof (no_address _ _ _ Hn) as ([Hmw Hz] & Ha & Hbytes).
  destruct (vector_clock_create_member_id_ok (g_self_address (n_self n))) as (id & Eid & Hid); [lia|done|].
  pose proof (u32_range (g_data_counter (n_self n) + 1)) as Hctr.
  unfold pittacus_gossip_send_data, return_if_not_connected.
  rewrite (M_ok_bind self _ _ (n_self (with_members s n)) (with_members s n)) by done.
  rewrite bool_decide_true by exact Hc. rewrite u16_id by (unfold MAX_PAYLOAD in Hsz; config_lia).
  unfold gossip_enqueue_data. do 2 (erewrite M_ok_bind by reflexivity). cbv zeta.
  destruct (vector_clock_set_by_id_spec (g_data_version (n_self n)) id
              (u32 (g_data_counter (n_self n) + 1)) (no_clock _ _ _ Hn) Hid Hctr)
    as (k & c' & Ec & Hc' & Hmap & Hrec).
  assert (vector_clock_set (g_data_version (n_self n)) (g_self_address (n_self n))
            (u32 (g_data_counter (n_self n) + 1)) = Ok (Z.of_nat k, c')) as Evs
    by (unfold vector_clock_set; by rewrite Eid).
  rewrite (lift_then _ _ _ _ Evs). cbn beta iota.
  erewrite M_ok_bind by reflexivity. rewrite (lift_then _ _ _ _ (aread_Ok _ _ _ Hrec)).
  cbn [n_self n_world n_context]. unfold vector_clock_record_copy. rewrite vector_record_eta.
  set (t := MessageData _ _ _ _).
  assert (data_msg_wf t) as Hdm.
  { split; [by split|]. unfold MAX_PAYLOAD in Hsz. cbn. split; [config_lia|done]. }
  destruct (gossip_data_log_repr _ (no_log _ _ _ Hn) t Hdm) as (log' & El & _).
  erewrite lift_then by exact El. erewrite M_ok_bind by reflexivity. cbn [n_self n_world n_context].
  apply (enqueue_message_long (MsgData t) None 0 _ xs cells); try done.
  - destruct Hn as [[] ? ? ? ? ? ?]. by split.
  - cbn. unfold MAX_PAYLOAD in Hsz. split_and!; try done. cbn. config_lia.
  - cbn. unfold MAX_PAYLOAD in Hsz. config_lia.
Qed.
End LongAddress.

(** A hello whose member has an address of 129 bytes. *)
Definition long_hello : list Z :=
  wire_header (message_header_init MESSAGE_HELLO_TYPE 3) ++ bytes_be 2 1 ++ bytes_be 4 7 ++
  bytes_be 4 129 ++ zeros 129.

(** The node accepts the datagram, and has undefined behaviour when it next
    sends data. *)
Definition poisons (bytes : list Z) (n : node inbox_of) : bool :=
  match pittacus_gossip_process_receive sample_receiver (arrives (bytes, peer_addr) n) with
  | Ok (r, n') =>
      (r =? PITTACUS_ERR_NONE) &&
      match pittacus_gossip_send_data [1; 2; 3] 3 n' with Ub => true | _ => false end
  | _ => false
  end.

(** C38: Four lengths are not checked. A received clock of more than
    [MAX_VECTOR_SIZE] records is decoded past the end of the record array; a
    payload above [MESSAGE_MAX_SIZE] bytes is copied past the end of the log
    record, before the encoder could refuse it; the decoder of a member
    accepts every address length, whatever is left of the buffer, although
    its result, an [int], is the length of the member only for addresses of
    fewer than 2^31 - 10 bytes; and when the members of a connected node have
    addresses longer than a [sockaddr_storage], sending data copies such an
    address past the end of an envelope. One hello is enough for that: a node
    accepts one with an address of 129 bytes, and its next message is
    undefined behaviour. *)
Theorem unchecked_lengths {Ctx} :
  (forall m at_ buffer_size size dst,
     0 <= at_ -> at_ + buffer_size <= zlen m -> at_ + buffer_size < 2 ^ 64 ->
     uint16_decode m at_ = Ok size -> MAX_VECTOR_SIZE < size ->
     sizeof_u16 + size * VECTOR_RECORD_SIZE <= buffer_size ->
     zlen (vc_records dst) = MAX_VECTOR_SIZE -> vector_clock_decode m at_ buffer_size dst = Ub) /\
  (forall log msg, log_wf log -> MESSAGE_MAX_SIZE < data_data_size msg <= zlen (data_data msg) ->
     gossip_data_log log msg = Ub) /\
  (forall version uid len rest, is_u16 version -> is_u32 uid -> is_u32 len ->
     cluster_member_decode (bytes_be 2 version ++ bytes_be 4 uid ++ bytes_be 4 len ++ rest) 0 10
       = Ok (i32 (10 + len), Some (ClusterMember version uid len rest)) /\
     (len < 2 ^ 31 - 10 -> i32 (10 + len) = 10 + len)) /\
  (forall (n : node Ctx) xs cells0 s cells data size,
     node_ok n xs cells0 -> connected n -> set_repr s cells -> cells <> [] ->
     Forall (fun c => long_address (cell_member c)) cells ->
     0 <= size <= MAX_PAYLOAD -> size <= zlen data ->
     pittacus_gossip_send_data data size (with_members s n) = Ub) /\
  poisons long_hello (sample_node STATE_CONNECTED) = true.
Proof.
  split_and!.
  - intros m at_ bs size dst Ha Hl Hb E Hs Hr Hd. unfold vector_clock_decode. rewrite E. out_step.
    rewrite u64_id by config_lia. rewrite (proj2 (Z.ltb_ge _ _)) by config_lia.
    rewrite (decode_records_overflow (Z.to_nat size) m (at_ + bs)); [done|config_lia..].
  - intros log msg Hl Hs. unfold gossip_data_log. rewrite (log_search log Hl). out_step.
    pose proof (length_live_log log Hl) as Hll. pose proof Hl as [Hcap Hroom Hsz Hi _ _ _].
    assert (forall (k : nat) v, (k < 25)%nat -> log_payload log (Z.of_nat k) v msg = Ub) as Hub.
    { intros k v Hk. unfold log_payload.
      destruct (lookup_lt_is_Some_2 (dl_messages log) k) as [r Hr]; [unfold zlen in Hcap; config_lia|].
      rewrite (aread_Ok _ _ r Hr). out_step. rewrite rd_prefix by config_lia. out_step.
      rewrite wr_long; [done|rewrite zlen_ztake; config_lia|].
      rewrite (Forall_lookup_1 _ _ _ _ Hroom Hr), zlen_ztake; config_lia. }
    destruct (list_find _ _) as [[k e]|] eqn:Ef; cbn [fmap option_fmap option_map fst].
    + apply list_find_Some in Ef as (Hk & _). apply lookup_lt_Some in Hk.
      unfold log_view in Hk. rewrite length_fmap, Hll in Hk.
      destruct (lookup_lt_is_Some_2 (dl_messages log) k) as [r Hr]; [unfold zlen in Hcap; config_lia|].
      rewrite (aread_Ok _ _ r Hr). out_step. rewrite Hub by config_lia. done.
    + rewrite <- (Z2Nat.id (dl_current_idx log)) at 1 by lia. rewrite Hub by config_lia. done.
  - intros v uid len rest Hv Hu Hl. split; [|intros Hb; apply i32_id; config_lia].
    unfold cluster_member_decode. cbn [Z.ltb].
    change (10 <? 2 * sizeof_u32 + sizeof_u16) with false. cbn iota.
    rewrite (uint16_decode_at v _ _ [] (bytes_be 4 uid ++ bytes_be 4 len ++ rest)) by done. out_step.
    rewrite (uint32_decode_at uid _ (0 + sizeof_u16) (bytes_be 2 v) (bytes_be 4 len ++ rest))
      by (done || (autorewrite with zlen; config_lia)). out_step.
    rewrite (uint32_decode_at len _ _ (bytes_be 2 v ++ bytes_be 4 uid) rest)
      by (done || (rewrite <- ?app_assoc; done) || (autorewrite with zlen; config_lia)). out_step.
    assert (zdrop (0 + sizeof_u16 + sizeof_u32 + sizeof_u32)
              (bytes_be 2 v ++ bytes_be 4 uid ++ bytes_be 4 len ++ rest) = rest) as ->.
    { replace (0 + sizeof_u16 + sizeof_u32 + sizeof_u32)
        with (zlen (bytes_be 2 v ++ bytes_be 4 uid ++ bytes_be 4 len))
        by (autorewrite with zlen; config_lia).
      rewrite (app_assoc (bytes_be 4 uid) _ rest), (app_assoc (bytes_be 2 v) _ rest). apply zdrop_app. }
    config_unfold. by replace (0 + 2 + 4 + 4 + len - 0) with (10 + len) by lia.
  - intros n xs cells0 s cells data size. apply send_data_long.
  - vm_compute. reflexivity.
Qed.

(** A clock of 21 records, and a payload of 513 bytes. *)
Definition long_clock : list Z := bytes_be 2 21 ++ zeros 252.
Definition long_data : message_data :=
  MessageData (message_header_init MESSAGE_DATA_TYPE 0) (VectorRecord 1 77) 513 (zeros 513).

(** A member with an address of 129 bytes, and a set of it alone. *)
Definition long_cell : member_cell := MemberCell 0 (ClusterMember 1 7 129 (zeros 129)).
Definition long_set : cluster_member_set := MemberSet (Some long_cell :: replicate 31 None) 1 32.

Lemma long_set_repr : set_repr long_set [long_cell].
Proof.
  split_and!; try done; [by exists (replicate 31 None)|].
  apply Forall_singleton, (bool_decide_unpack _). vm_compute. exact I.
Qed.

Lemma unchecked_lengths_witness :
  vector_clock_decode long_clock 0 254 vector_clock_init = Ub /\
  gossip_data_log empty_log long_data = Ub /\
  cluster_member_decode (bytes_be 2 1 ++ bytes_be 4 7 ++ bytes_be 4 (2 ^ 32 - 1) ++ []) 0 10
    = Ok (9, Some (ClusterMember 1 7 (2 ^ 32 - 1) [])) /\
  pittacus_gossip_send_data [1; 2; 3] 3 (with_members long_set (sample_node STATE_CONNECTED)) = Ub.
Proof.
  destruct (unchecked_lengths (Ctx := inbox_of)) as (Hc & Hd & Hm & Hs & _). split_and!.
  - apply (Hc long_clock 0 254 21 vector_clock_init); try (vm_compute; congruence).
  - apply (Hd empty_log long_data empty_log_ok). vm_compute. split; congruence.
  - refine (proj1 (Hm 1 7 (2 ^ 32 - 1) [] _ _ _)); vm_compute; split; congruence.
  - apply (Hs (sample_node STATE_CONNECTED) [] peer_cells long_set [long_cell] [1; 2; 3] 3 (sample_ok _) eq_refl
      long_set_repr).
    + discriminate.
    + constructor; [vm_compute; reflexivity|constructor].
    + vm_compute. split; congruence.
    + vm_compute. congruence.
Defined.
