(* ===== verification/MemoryProps.v ===== *)
(** What the library does with the memory of members: everything that a node
    allocates for its set and for the messages it decodes is freed, once, but
    for the members of messages that cannot be decoded. *)
From S2P Require Import Prelude.
From S2P Require Import Config.
From S2P Require Import Utils.
From S2P Require Import World.
From S2P Require Import Member.
From S2P Require Import Messages.
From S2P Require Import Memory.
From S2P Require Import MemberFacts.
From S2P Require Import MemberSetFacts.
From S2P Require Import WireFacts.
From S2P Require Import MessageFacts.
From S2P Require Import Samples.
From S2P Require Import Network.
From S2P Require Import NetworkSamples.
From S2P Require Import MemoryFacts.
From S2P Require Import MemorySetFacts.
From S2P Require Import DecodeMemoryFacts.

(** * What happens to the members of a node *)

(** A datagram with members arrives, which the handler of its type decodes,
    puts into the set, and destroys; or a member is removed. *)
Inductive member_event :=
| HelloArrives (bytes : list Z)
| WelcomeArrives (bytes : list Z)
| ListArrives (bytes : list Z)
| MemberExpires (addr : list Z) (addr_size : Z)
| MemberLeaves (member : loc).

(** On values, as the handlers of [Node] have it: an error of the decoder is
    returned, whether or not it filled the message. *)
Definition learn {A} (decode : M world (Z * option A)) (values : A -> list cluster_member)
    (members : cluster_member_set) : M world (Z * cluster_member_set) :=
  r ← decode;
  match r with
  | (decode_result, Some msg) =>
      if decode_result <? 0 then mret (decode_result, members)
      else
        p ← cluster_member_set_put members (values msg);
        mret (PITTACUS_ERR_NONE, snd p)
  | (decode_result, None) => mret (decode_result, members)
  end.

Definition happens (members : cluster_member_set) (e : member_event) : M world (Z * cluster_member_set) :=
  match e with
  | HelloArrives bytes =>
      learn (message_hello_decode bytes (zlen bytes)) (fun msg => [hello_this_member msg]) members
  | WelcomeArrives bytes =>
      learn (message_welcome_decode bytes (zlen bytes)) (fun msg => [welcome_this_member msg]) members
  | ListArrives bytes => learn (message_member_list_decode bytes (zlen bytes)) ml_members members
  | MemberExpires addr addr_size =>
      r ← liftO (cluster_member_set_remove_by_addr members addr addr_size);
      mret (PITTACUS_ERR_NONE, snd r)
  | MemberLeaves member =>
      r ← liftO (cluster_member_set_remove members member); mret (PITTACUS_ERR_NONE, snd r)
  end.

(** On memory: the message is destroyed only when no error was returned. *)
Definition learn_m {B} (decode : MM (Z * option B)) (new_members : B -> loc) (count : B -> Z)
    (destroy : B -> MM unit) (members : cluster_member_set_t) : MM (Z * cluster_member_set_t) :=
  r ← decode;
  match r with
  | (decode_result, Some msg) =>
      if decode_result <? 0 then mret (decode_result, members)
      else
        p ← cluster_member_set_put_m members (new_members msg) (count msg);
        destroy msg;;
        mret (PITTACUS_ERR_NONE, snd p)
  | (decode_result, None) => mret (decode_result, members)
  end.

Definition receive_m (bytes : list Z) : MM unit := fun s => Ok (tt, with_buffer bytes s).

Definition happens_m (members : cluster_member_set_t) (e : member_event) : MM (Z * cluster_member_set_t) :=
  match e with
  | HelloArrives bytes =>
      receive_m bytes;;
      learn_m (message_hello_decode_m (zlen bytes)) ht_this_member (fun _ => 1)
        message_hello_destroy_m members
  | WelcomeArrives bytes =>
      receive_m bytes;;
      learn_m (message_welcome_decode_m (zlen bytes)) wt_this_member (fun _ => 1)
        message_welcome_destroy_m members
  | ListArrives bytes =>
      receive_m bytes;;
      learn_m (message_member_list_decode_m (zlen bytes)) lt_members lt_members_n
        message_member_list_destroy_m members
  | MemberExpires addr addr_size =>
      r ← cluster_member_set_remove_by_addr_m members addr addr_size; mret (PITTACUS_ERR_NONE, snd r)
  | MemberLeaves member =>
      r ← cluster_member_set_remove_m members member; mret (PITTACUS_ERR_NONE, snd r)
  end.

(** The results of the events, one after the other. *)
Fixpoint history (members : cluster_member_set) (es : list member_event)
    : M world (list Z * cluster_member_set) :=
  match es with
  | [] => mret ([], members)
  | e :: es =>
      r ← happens members e; rs ← history (snd r) es; mret (fst r :: fst rs, snd rs)
  end.

Fixpoint history_m (members : cluster_member_set_t) (es : list member_event)
    : MM (list Z * cluster_member_set_t) :=
  match es with
  | [] => mret ([], members)
  | e :: es =>
      r ← happens_m members e; rs ← history_m (snd r) es; mret (fst r :: fst rs, snd rs)
  end.

(** From the creation of the set to its destruction; no result when it cannot
    be created. *)
Definition lifetime (es : list member_event) : M world (option (list Z)) :=
  r ← cluster_member_set_init;
  match snd r with
  | None => mret None
  | Some members => rs ← history members es; mret (Some (fst rs))
  end.

Definition lifetime_m (es : list member_event) : MM (option (list Z)) :=
  r ← cluster_member_set_init_m;
  match snd r with
  | None => mret None
  | Some members =>
      rs ← history_m members es;
      cluster_member_set_destroy_m (snd rs);;
      mret (Some (fst rs))
  end.

(** * Blocks that stay *)

(** Blocks of members, at most one for each result that is an error. *)
Definition lost_for (results : list Z) (lost : list (loc * block)) : Prop :=
  Forall (fun b => exists ms, snd b = MembersBlock ms) lost /\
  (length lost <= length (filter (fun e => (e < 0)%Z) results))%nat.

Lemma lost_nil : lost_for [] [].
Proof. by split. Qed.

Lemma lost_app rs rs' lost lost' : lost_for rs lost -> lost_for rs' lost' -> lost_for (rs ++ rs') (lost' ++ lost).
Proof.
  intros [H1 H2] [H1' H2']. split; [by apply Forall_app|]. rewrite filter_app, !length_app. lia.
Qed.

Lemma lost_none r : lost_for [r] [].
Proof. split; [done|]. cbn. lia. Qed.

Section Events.
Context (r : gmap loc block).

(** An event leaves the set on its own blocks, and at most one block behind. *)
Definition event_left (lost : list (loc * block)) (x : Z * cluster_member_set) (w : world)
    (y : Z * cluster_member_set_t) (s : memory) : Prop :=
  fst y = fst x /\ exists lost' buf, lost_for [fst x] lost' /\ owns w buf (lost' ++ lost) r (snd y) (snd x) s.

Lemma learn_sims {A B} (decode : M world (Z * option A)) (decode_m : MM (Z * option B)) values at_ count
    destroy (same : A -> B -> Prop) w buf lost t S s :
  (forall m, destroy m = free_m (at_ m)) -> (forall v m, same v m -> count m = zlen (values v)) ->
  (forall bs, parts w buf bs r s -> sims decode w decode_m s (unpacked values at_ same buf bs r)) ->
  owns w buf lost r t S s ->
  sims (learn decode values S) w (learn_m decode_m at_ count destroy t) s (event_left lost).
Proof.
  intros Hd Hc Hdec (Hsz & Hcap & items & Hit & Hp).
  assert (forall w' bs' s', parts w' buf (bs' ++ set_blocks t S items ++ lost) r s' ->
    owns w' buf (bs' ++ lost) r t S s') as Ho.
  { intros w' bs' s' H. split; [done|]. split; [done|]. exists items. split; [done|].
    eapply parts_move; [exact H|]. solve_Permutation. }
  unfold learn, learn_m. eapply sims_bind; [by apply Hdec|].
  intros [n [v|]] w1 [n' [m|]] s1 [E H]; cbn in E, H; subst n'; try done.
  2:{ apply sims_ret. split; [done|]. cbn. destruct H as [Hneg [H|(l & ms & H)]].
      - exists [], buf. split; [apply lost_none|]. by apply (Ho w1 []).
      - exists [(l, MembersBlock ms)], buf. split.
        + split; [constructor; [by eexists|constructor]|]. cbn. by rewrite decide_True.
        + by apply (Ho w1 [(l, MembersBlock ms)]). }
  destruct H as (Hs & ms & Hms & H). destruct (Z.ltb_spec n 0) as [Hneg|_].
  { apply sims_ret. split; [done|]. cbn. exists [(at_ m, MembersBlock (Some <$> ms))], buf. split.
    - split; [constructor; [by eexists|constructor]|]. cbn. by rewrite decide_True.
    - by apply (Ho w1 [(at_ m, MembersBlock (Some <$> ms))]). }
  rewrite (Hc v m Hs).
  eapply sims_bind; [by eapply put_taken_sims; [exact Hms|apply (Ho w1 [_])]|].
  intros x w2 y s2 [E (Hsz' & Hcap' & items' & Hit' & Hp')].
  eapply parts_move in Hp'; [|apply Permutation_sym, Permutation_middle].
  rewrite Hd. destruct (free_parts _ _ _ _ _ _ _ Hp') as (s3 & E3 & Hp3).
  eapply sims_right; [exact E3|]. apply sims_ret. split; [done|]. cbn. exists [], buf.
  split; [apply lost_none|]. split; [done|]. split; [done|]. by exists items'.
Qed.

Lemma happens_sims e w buf lost t S s :
  owns w buf lost r t S s -> sims (happens S e) w (happens_m t e) s (event_left lost).
Proof.
  intros Ho.
  assert (forall bytes, owns w bytes lost r t S (with_buffer bytes s)) as Hb.
  { intros bytes. destruct Ho as (? & ? & items & ? & Hp). split; [done|]. split; [done|]. exists items.
    split; [done|]. by eapply with_buffer_parts. }
  destruct e as [bytes|bytes|bytes|addr n|member]; cbn [happens happens_m].
  - eapply sims_right; [done|].
    eapply learn_sims; [done| | |apply Hb]; [|intros bs Hp; exact (hello_decode_sims w bytes bs r _ Hp _)]. done.
  - eapply sims_right; [done|].
    eapply learn_sims; [done| | |apply Hb]; [|intros bs Hp; exact (welcome_decode_sims w bytes bs r _ Hp _)]. done.
  - eapply sims_right; [done|].
    eapply learn_sims; [done| | |apply Hb]; [|intros bs Hp; by apply list_decode_sims].
    by intros v m (_ & -> & ->).
  - eapply sims_bind; [by apply remove_by_addr_sims|]. intros x w1 y s1 (-> & _ & H). apply sims_ret.
    split; [done|]. exists [], buf. by split; [apply lost_none|].
  - eapply sims_bind; [by apply remove_sims|]. intros x w1 y s1 (-> & _ & H). apply sims_ret.
    split; [done|]. exists [], buf. by split; [apply lost_none|].
Qed.

Lemma history_sims es : forall w buf lost t S s,
  owns w buf lost r t S s ->
  sims (history S es) w (history_m t es) s (fun x w' y s' => fst y = fst x /\
    exists lost' buf', lost_for (fst x) lost' /\ owns w' buf' (lost' ++ lost) r (snd y) (snd x) s').
Proof.
  induction es as [|e es IH]; intros w buf lost t S s Ho.
  { apply sims_ret. split; [done|]. exists [], buf. by split; [apply lost_nil|]. }
  cbn [history history_m]. eapply sims_bind; [by eapply happens_sims|].
  intros x w1 y s1 (E1 & lost1 & buf1 & Hl1 & Ho1). eapply sims_bind; [by eapply IH|].
  intros xs w2 ys s2 (E2 & lost2 & buf2 & Hl2 & Ho2). apply sims_ret. cbn. split; [by rewrite E1, E2|].
  exists (lost2 ++ lost1), buf2. split; [by apply (lost_app [fst x])|]. by rewrite <- app_assoc.
Qed.
End Events.

(** * Properties *)

(** C13: The pointers of the code do what the values of [Member] and
    [Messages] do, and nothing leaks or is freed twice: over the life of a set
    of members, from [cluster_member_set_init] to [cluster_member_set_destroy],
    whatever datagrams with members are decoded, put into the set and
    destroyed, whatever members are removed, and whatever allocations fail,
    the code on memory goes wrong only where the code on values does and has
    the same results; at the end the heap has the blocks it had before, each
    block that the set or a message allocated having been freed exactly once,
    except for at most one block of members for each datagram whose decoder
    returned an error (even one that filled the message: the handlers test
    the result, and do not destroy the message then). *)
Theorem members_released es s :
  (forall l, (allocs (me_world s) <= l)%nat -> me_heap s !! l = None) ->
  sims (lifetime es) (me_world s) (lifetime_m es) s (fun x w y s' => y = x /\ me_world s' = w /\
    exists lost, holds (me_heap s') lost (me_heap s) /\ lost_for (default [] x) lost).
Proof.
  intros Hf. unfold lifetime, lifetime_m.
  assert (parts (me_world s) (me_buffer s) [] (me_heap s) s) as Hp by (split; try done; by apply holds_nil).
  eapply sims_bind; [by apply init_sims|]. intros [n [S|]] w1 [n' [t|]] s1 [_ H]; cbn [snd] in H |- *; try done.
  2:{ apply sims_ret. split; [done|]. split; [apply H|]. exists []. split; [apply H|apply lost_nil]. }
  eapply sims_bind; [by eapply history_sims|]. intros xs w2 ys s2 (E & lost & buf & Hl & Ho).
  destruct (destroy_parts _ _ _ _ _ _ _ Ho) as (s3 & E3 & Hp3). eapply sims_right; [exact E3|].
  apply sims_ret. rewrite E, app_nil_r in *. split; [done|]. split; [apply Hp3|]. exists lost.
  split; [apply Hp3|done].
Qed.

(** * A message that cannot be decoded *)

(** A member list that announces [n] members and ends there. *)
Definition short_list (seq n : Z) : list Z :=
  wire_header (message_header_init MESSAGE_MEMBER_LIST_TYPE seq) ++ bytes_be 2 n.

Lemma malloc_m_run b w buf bs r s :
  parts w buf bs r s -> no_oom w ->
  exists l s' w', malloc_m b s = Ok (Some l, s') /\ parts w' buf ((l, b) :: bs) r s' /\ no_oom w'.
Proof.
  intros Hp Hw. pose proof (malloc_parts b w buf bs r s Hp) as H. unfold sims, malloc in H.
  rewrite Hw in H. destruct (malloc_m b s) as [[p s']| |]; try done. destruct H as [-> H].
  by eexists _, _, _.
Qed.

(** It is refused when its block has been allocated. *)
Lemma short_list_run seq n w bs r s :
  is_u32 seq -> 0 < n < 2 ^ 16 -> parts w (short_list seq n) bs r s -> no_oom w ->
  exists l s' w', message_member_list_decode_m (zlen (short_list seq n)) s =
      Ok ((PITTACUS_ERR_BUFFER_NOT_ENOUGH, None), s') /\
    parts w' (short_list seq n) ((l, MembersBlock (replicate (Z.to_nat n) None)) :: bs) r s' /\ no_oom w'.
Proof.
  intros Hseq Hn Hp Hw. set (h := message_header_init MESSAGE_MEMBER_LIST_TYPE seq).
  assert (header_wf h) as Hh by by apply header_init_wf.
  destruct (payload_ok h (bytes_be 2 n) [] MESSAGE_MEMBER_LIST_TYPE Hh eq_refl) as [Ev Eh].
  rewrite app_nil_r in Ev, Eh. change (wire_header h ++ bytes_be 2 n) with (short_list seq n) in Ev, Eh.
  pose proof (zlen_wire_header h Hh) as Hz.
  assert (zlen (short_list seq n) = 14) as Hl by (unfold short_list; fold h; rewrite zlen_app, Hz; done).
  assert (uint16_decode (short_list seq n) sizeof_message_header = Ok n) as En.
  { apply (uint16_decode_at n _ _ (wire_header h) []); [by rewrite app_nil_r|done|]. unfold is_u16. lia. }
  destruct (malloc_m_run (MembersBlock (replicate (Z.to_nat n) None)) w _ bs r s Hp Hw)
    as (l & s1 & w1 & E1 & Hp1 & Hw1).
  exists l, s1, w1. split; [|done]. unfold message_member_list_decode_m.
  rewrite (M_ok_bind getS _ s s s) by done. rewrite (pa_buffer _ _ _ _ _ Hp), Ev, Eh.
  rewrite (M_ok_bind _ _ s true s) by done. cbn [negb]. rewrite Hl. change (14 <? _) with false. cbv beta iota zeta.
  rewrite (M_ok_bind _ _ s (sizeof_message_header, Some h) s) by done. cbv beta iota zeta.
  rewrite En, (M_ok_bind _ _ s n s), (M_ok_bind _ _ _ _ _ E1) by done. cbv beta iota zeta.
  destruct (Z.to_nat n) as [|k] eqn:Ek; [lia|]. cbn [decode_members_m].
  unfold cluster_member_decode_m.
  change (u64 (14 - (sizeof_message_header + sizeof_u16)) <? 2 * sizeof_u32 + sizeof_u16) with true.
  reflexivity.
Qed.

(** C39: A leak that any peer can cause: a datagram of 14 bytes with a valid
    header that announces [n] members of a member list and ends there makes
    the decoder allocate [n] members, up to 1.5 megabytes, and return an error
    without freeing them; the handler does not destroy a message that was not
    decoded. Every such datagram leaves one more block that nothing can free,
    and the set is unchanged. *)
Theorem undecoded_members_leak k seq n t s :
  is_u32 seq -> 0 < n < 2 ^ 16 -> no_oom (me_world s) ->
  (forall l, (allocs (me_world s) <= l)%nat -> me_heap s !! l = None) ->
  exists lost s', history_m t (replicate k (ListArrives (short_list seq n))) s =
      Ok ((replicate k PITTACUS_ERR_BUFFER_NOT_ENOUGH, t), s') /\
    length lost = k /\ Forall (fun b => snd b = MembersBlock (replicate (Z.to_nat n) None)) lost /\
    holds (me_heap s') lost (me_heap s).
Proof.
  intros Hseq Hn Hw Hf.
  enough (forall w buf bs s0, parts w buf bs (me_heap s) s0 -> no_oom w ->
    exists lost s', history_m t (replicate k (ListArrives (short_list seq n))) s0 =
      Ok ((replicate k PITTACUS_ERR_BUFFER_NOT_ENOUGH, t), s') /\
    length lost = k /\ Forall (fun b => snd b = MembersBlock (replicate (Z.to_nat n) None)) lost /\
    holds (me_heap s') (lost ++ bs) (me_heap s)) as H.
  { destruct (H (me_world s) (me_buffer s) [] s) as (lost & s' & H1 & H2 & H3 & H4); [|done|].
    - split; try done. by apply holds_nil.
    - exists lost, s'. by rewrite app_nil_r in H4. }
  induction k as [|k IH]; intros w buf bs s0 Hp Hw0.
  { exists [], s0. split; [done|]. split; [done|]. split; [done|apply Hp]. }
  destruct (short_list_run seq n w bs _ (with_buffer (short_list seq n) s0) Hseq Hn
    ltac:(by eapply with_buffer_parts) Hw0) as (l & s1 & w1 & E1 & Hp1 & Hw1).
  destruct (IH w1 _ _ s1 Hp1 Hw1) as (lost & s' & E & Hl & Hlost & Hh).
  exists (lost ++ [(l, MembersBlock (replicate (Z.to_nat n) None))]), s'. split_and!.
  - cbn [replicate history_m happens_m]. unfold learn_m.
    rewrite (M_ok_bind _ _ s0 (PITTACUS_ERR_BUFFER_NOT_ENOUGH, t) s1).
    + cbn [fst snd]. by rewrite (M_ok_bind _ _ _ _ _ E).
    + unfold receive_m. rewrite (M_ok_bind _ _ s0 tt (with_buffer (short_list seq n) s0)) by done.
      by rewrite (M_ok_bind _ _ _ _ _ E1).
  - rewrite length_app. cbn. lia.
  - apply Forall_app. by split; [|constructor].
  - by rewrite <- app_assoc.
Qed.

(** * Samples *)

(** An empty heap of a host that always has memory. *)
Definition fresh_memory : memory :=
  Memory ∅ [] (World (quiet sample_addr) 0 0 0 [] [] []).

Lemma fresh_memory_fresh l : (allocs (me_world fresh_memory) <= l)%nat -> me_heap fresh_memory !! l = None.
Proof. intros _. apply lookup_empty. Qed.

(** Two peers say hello, one of them again; a list of both arrives; one
    expires; a list is cut short. *)
Definition peer (addr : list Z) : cluster_member := ClusterMember 1 7 16 addr.
Definition hello_from (addr : list Z) : list Z :=
  wire_header (message_header_init MESSAGE_HELLO_TYPE 3) ++ wire_member (peer addr).
Definition list_of (addrs : list (list Z)) : list Z :=
  wire_header (message_header_init MESSAGE_MEMBER_LIST_TYPE 4) ++ bytes_be 2 (zlen addrs) ++
  mjoin ((fun a => wire_member (peer a)) <$> addrs).
Definition sample_events : list member_event :=
  [HelloArrives (hello_from sample_addr); HelloArrives (hello_from peer_addr);
   HelloArrives (hello_from sample_addr); ListArrives (list_of [sample_addr; peer_addr]);
   MemberExpires peer_addr 16; ListArrives (short_list 5 2)].

Lemma sample_lifetime :
  match lifetime_m sample_events fresh_memory with
  | Ok (Some results, s) =>
      bool_decide (results = [0; 0; 0; 0; 0; PITTACUS_ERR_BUFFER_NOT_ENOUGH] /\
        snd <$> map_to_list (me_heap s) = [MembersBlock [None; None]]) = true
  | _ => False
  end.
Proof. vm_compute. reflexivity. Qed.

(** A hello whose member announces an address of [len] bytes. *)
Definition overlong_hello (len : Z) : list Z :=
  wire_header (message_header_init MESSAGE_HELLO_TYPE 3) ++ bytes_be 2 1 ++ bytes_be 4 7 ++
  bytes_be 4 len ++ sample_addr.

(** With an address of 2^31 bytes the length of the member is negative as an
    [int], and with one of 2^31 - 15 bytes, whose member fits, that of the
    message is. The handler returns it and the member stays allocated: in the
    second case although the message was filled. *)
Lemma overlong_hello_leaks :
  match lifetime_m [HelloArrives (overlong_hello (2 ^ 31)); HelloArrives (overlong_hello (2 ^ 31 - 15))]
          fresh_memory with
  | Ok (Some results, s) =>
      bool_decide (results = [10 - 2 ^ 31; 7 - 2 ^ 31] /\ size (me_heap s) = 2%nat) = true
  | _ => False
  end.
Proof. vm_compute. reflexivity. Qed.

Lemma members_released_witness :
  sims (lifetime sample_events) (me_world fresh_memory) (lifetime_m sample_events) fresh_memory
    (fun x w y s' => y = x /\ me_world s' = w /\
      exists lost, holds (me_heap s') lost (me_heap fresh_memory) /\ lost_for (default [] x) lost).
Proof. exact (members_released sample_events fresh_memory fresh_memory_fresh). Defined.

Lemma undecoded_members_leak_witness :
  exists lost s', history_m (SetT 0 0 0) (replicate 3 (ListArrives (short_list 5 65535))) fresh_memory =
      Ok ((replicate 3 PITTACUS_ERR_BUFFER_NOT_ENOUGH, SetT 0 0 0), s') /\
    length lost = 3%nat /\
    Forall (fun b => snd b = MembersBlock (replicate (Z.to_nat 65535) None)) lost /\
    holds (me_heap s') lost (me_heap fresh_memory).
Proof.
  apply (undecoded_members_leak 3 5 65535 (SetT 0 0 0) fresh_memory);
    [split; reflexivity || lia|lia|intros k; reflexivity|exact fresh_memory_fresh].
Defined.
